(** * Zoho Analytics client and relay: the request pipeline, in Rocq

    A shallow embedding of [AnalyticsClient] (the NodeJS client library:
    [getOauth], [sendV2Request], [handleV2Request], [sendExportRequest],
    [sendBatchImportRequest], [handleBatchImportRequest], two facade
    methods) and of the Express relay [server.js] ([refreshZohoToken],
    [ensureZohoAccessToken], [handleZohoApiRequest], the two routes).

    JavaScript strings are sequences of UTF-16 code units, JavaScript
    values are a tree type, objects that the code mutates live in a store
    and are passed by reference, and every network exchange is recorded in
    a trace together with the reply the upstream gave. *)

From Stdlib Require Import List ZArith NArith Lia Bool String Ascii.
From Stdlib Require Import SpecFloat.
From Stdlib Require Decimal DecimalN DecimalZ DecimalPos DecimalFacts.
Import ListNotations.

(* ================================================================= *)
(** ** JavaScript strings *)

(** A JavaScript string: its UTF-16 code units, each below 65536. *)
Definition jstring := list N.

(** A literal of the source, code unit by code unit (ASCII). *)
Definition js (s : string) : jstring :=
  map N_of_ascii (list_ascii_of_string s).

Definition code_unit (c : N) : Prop := (c < 65536)%N.
Definition well_typed (s : jstring) : Prop := Forall code_unit s.

Fixpoint jstring_eqb (a b : jstring) : bool :=
  match a, b with
  | [], [] => true
  | x :: a', y :: b' => N.eqb x y && jstring_eqb a' b'
  | _, _ => false
  end.

(** [String.prototype.startsWith]. *)
Fixpoint startsWith (s p : jstring) {struct p} : bool :=
  match p, s with
  | [], _ => true
  | y :: p', x :: s' => N.eqb x y && startsWith s' p'
  | _ :: _, [] => false
  end.

(** [Array.prototype.join] on strings. *)
Fixpoint join (sep : jstring) (l : list jstring) : jstring :=
  match l with
  | [] => []
  | [x] => x
  | x :: l' => x ++ sep ++ join sep l'
  end.

(** [String.prototype.split] with a non-empty separator; [skip] counts the
    code units of a separator occurrence still to be dropped and [cur] is
    the piece being read, reversed. *)
Fixpoint split_from (sep : jstring) (skip : nat) (cur : jstring) (s : jstring)
  : list jstring :=
  match s with
  | [] => [rev cur]
  | c :: s' =>
      match skip with
      | S k => split_from sep k cur s'
      | O =>
          if startsWith s sep
          then rev cur :: split_from sep (Nat.pred (Datatypes.length sep)) [] s'
          else split_from sep O (c :: cur) s'
      end
  end.

Definition split (sep s : jstring) : list jstring :=
  match sep with
  | [] => map (fun c => [c]) s
  | _ => split_from sep O [] s
  end.

(* ================================================================= *)
(** ** JavaScript values *)

(** The values the code handles: what [JSON.parse] returns, plus
    [undefined].  A Number is a double: [JNum z] is the Number for the
    integer [z], which is [z] itself below 2^53 in magnitude, and
    [JFloat f] is any other Number, a fraction, a magnitude of 2^53 or
    more, the negative zero, an infinity or NaN.  An object is the list
    of its own properties in enumeration order. *)
#[local] Unset Elimination Schemes.
Inductive jsval : Type :=
| JUndefined
| JNull
| JBool (b : bool)
| JNum (z : Z)
| JFloat (f : spec_float)
| JStr (s : jstring)
| JArr (l : list jsval)
| JObj (kvs : list (jstring * jsval)).
#[local] Set Elimination Schemes.

Definition obj := list (jstring * jsval).

(** Own-property lookup. *)
Fixpoint lookup (k : jstring) (o : obj) : option jsval :=
  match o with
  | [] => None
  | (k', v) :: o' => if jstring_eqb k' k then Some v else lookup k o'
  end.

(** [o[k] = v]: an existing property keeps its place, a new one goes last. *)
Fixpoint obj_set (k : jstring) (v : jsval) (o : obj) : obj :=
  match o with
  | [] => [(k, v)]
  | (k', v') :: o' =>
      if jstring_eqb k' k then (k, v) :: o' else (k', v') :: obj_set k v o'
  end.

(** [v.k] for the property names the code reads ([data], [errorCode],
    [error], [access_token], [batchKey], [jobId], [workspaceId], ...), none
    of which is defined on a prototype: reading a property of [undefined]
    or [null] throws a TypeError ([None]); a primitive or an array has no
    such property. *)
Definition get_prop (v : jsval) (k : jstring) : option jsval :=
  match v with
  | JUndefined | JNull => None
  | JObj o => Some (match lookup k o with Some x => x | None => JUndefined end)
  | _ => Some JUndefined
  end.

(** [v == null]. *)
Definition nullish (v : jsval) : bool :=
  match v with JUndefined | JNull => true | _ => false end.

(* ================================================================= *)
(** ** Numbers (ECMA-262, 6.1.6.1) *)

Definition is_digit (c : N) : bool := (48 <=? c)%N && (c <=? 57)%N.

Fixpoint uint_units (u : Decimal.uint) : jstring :=
  match u with
  | Decimal.Nil => []
  | Decimal.D0 u => 48%N :: uint_units u
  | Decimal.D1 u => 49%N :: uint_units u
  | Decimal.D2 u => 50%N :: uint_units u
  | Decimal.D3 u => 51%N :: uint_units u
  | Decimal.D4 u => 52%N :: uint_units u
  | Decimal.D5 u => 53%N :: uint_units u
  | Decimal.D6 u => 54%N :: uint_units u
  | Decimal.D7 u => 55%N :: uint_units u
  | Decimal.D8 u => 56%N :: uint_units u
  | Decimal.D9 u => 57%N :: uint_units u
  end.

(** The decimal digits of a natural number. *)
Definition digits (n : N) : jstring := uint_units (N.to_uint n).

(** The finite Numbers other than zero, [m * 2 ^ e]: 53 bits at most,
    an exponent from -1074 to 971, and all 53 bits but for the smallest
    exponent. *)
Definition is_binary64 (m : positive) (e : Z) : bool :=
  (Zpos m <? 2 ^ 53)%Z && (-1074 <=? e)%Z && (e <=? 971)%Z
  && ((e =? -1074)%Z || (2 ^ 52 <=? Zpos m)%Z).

(** The Number value for the rational [num / den], with the sign [neg]:
    in units of 2^-1074, of which every Number is a whole multiple, the
    53 leading bits are kept and the rest rounds to nearest, ties to
    even; from 2^1024 on the value is an infinity. *)
Definition round_ratio (neg : bool) (num den : positive) : spec_float :=
  (let X := Zpos num * 2 ^ 1074 in
   let t := X / Zpos den in
   let j := Z.max (Z.log2 t - 52) 0 in
   let b := Zpos den * 2 ^ j in
   let q := X / b in
   let r := X mod b in
   let q' := if (b <? 2 * r) || ((2 * r =? b) && Z.odd q) then q + 1 else q in
   match q' with
   | Zpos m =>
       if q' =? 2 ^ 53
       then (if 971 <? j + 1 - 1074 then S754_infinity neg
             else S754_finite neg (2 ^ 52)%positive (j + 1 - 1074))
       else (if 971 <? j - 1074 then S754_infinity neg
             else S754_finite neg m (j - 1074))
   | _ => S754_zero neg
   end)%Z.

(** The Number value for [S * 10 ^ E]. *)
Definition round_decimal (neg : bool) (S : N) (E : Z) : spec_float :=
  match S with
  | N0 => S754_zero neg
  | Npos p =>
      if (0 <=? E)%Z then round_ratio neg (p * Z.to_pos (10 ^ E)) 1
      else round_ratio neg p (Z.to_pos (10 ^ (- E)))
  end.

Definition float_eqb (a b : spec_float) : bool :=
  match a, b with
  | S754_zero s, S754_zero s' => Bool.eqb s s'
  | S754_infinity s, S754_infinity s' => Bool.eqb s s'
  | S754_nan, S754_nan => true
  | S754_finite s m e, S754_finite s' m' e' =>
      Bool.eqb s s' && Pos.eqb m m' && Z.eqb e e'
  | _, _ => false
  end.

(** The value [m * 2 ^ e] in decimal, all its digits and the exponent
    of ten. *)
Definition exact_decimal (m : positive) (e : Z) : N * Z :=
  if (0 <=? e)%Z then ((Npos m * 2 ^ Z.to_N e)%N, 0%Z)
  else ((Npos m * 5 ^ Z.to_N (- e))%N, e).

Section Shortest.
Variables (m : positive) (e : Z).

(** The digits [s] with the point after [n] places are the Number:
    the Number value for [s * 10 ^ (n - k)] is [m * 2 ^ e], [k] being
    the number of the digits. *)
Definition passes (c : N * Z) : bool :=
  float_eqb (round_decimal false (fst c)
                           (snd c - Z.of_nat (Datatypes.length (digits (fst c)))))
            (S754_finite false m e).

(** From [k] digits on: the first [k] digits of the exact value, or
    that plus one, whichever is the Number; when both are, the closer
    one, and the even one when neither is closer. *)
Fixpoint shortest_from (S : N) (L : nat) (n : Z) (todo k : nat) : option (N * Z) :=
  match todo with
  | O => None
  | Datatypes.S todo' =>
      let p := (10 ^ N.of_nat (L - k))%N in
      let lo := (S / p)%N in
      let hi := (lo + 1)%N in
      let c_lo := (lo, n) in
      let c_hi := if (hi =? 10 ^ N.of_nat k)%N then (1%N, (n + 1)%Z) else (hi, n) in
      match passes c_lo, passes c_hi with
      | true, true =>
          let r := (S mod p)%N in
          Some (if (2 * r <? p)%N then c_lo
                else if (p <? 2 * r)%N then c_hi
                else if N.even lo then c_lo else c_hi)
      | true, false => Some c_lo
      | false, true => Some c_hi
      | false, false => shortest_from S L n todo' (Datatypes.S k)
      end
  end.

(** [s] and [n] of Number::toString: the digits [s], as few as can be,
    and the place [n] of the decimal point. *)
Definition shortest : option (N * Z) :=
  let (S, E) := exact_decimal m e in
  let L := Datatypes.length (digits S) in
  shortest_from S L (Z.of_nat L + E)%Z L 1.
End Shortest.

(** The four layouts of Number::toString for the digits [ds] and the
    place [n] of the point. *)
Definition layout (ds : jstring) (n : Z) : jstring :=
  (let k := Z.of_nat (Datatypes.length ds) in
   if (k <=? n) && (n <=? 21) then ds ++ repeat 48%N (Z.to_nat (n - k))
   else if (0 <? n) && (n <=? 21) then
     firstn (Z.to_nat n) ds ++ 46%N :: skipn (Z.to_nat n) ds
   else if (-6 <? n) && (n <=? 0) then
     48%N :: 46%N :: repeat 48%N (Z.to_nat (- n)) ++ ds
   else
     let ex := n - 1 in
     let tail := 101%N :: (if 0 <=? ex then 43%N else 45%N)
                       :: digits (Z.to_N (Z.abs ex)) in
     match ds with
     | [d] => d :: tail
     | d :: ds' => d :: 46%N :: ds' ++ tail
     | [] => tail
     end)%Z.

(** Number::toString. *)
Definition float_toString (f : spec_float) : jstring :=
  match f with
  | S754_nan => js "NaN"
  | S754_infinity false => js "Infinity"
  | S754_infinity true => js "-Infinity"
  | S754_zero _ => js "0"
  | S754_finite neg m e =>
      (if neg then [45%N] else [])
        ++ match shortest m e with
           | Some (s, n) => layout (digits s) n
           | None => []
           end
  end.

(** Number::toString for the Number of an integer: its decimal digits
    below 2^53 in magnitude. *)
Definition Number_toString (z : Z) : jstring :=
  if (Z.abs z <? 2 ^ 53)%Z then
    match Z.to_int z with
    | Decimal.Pos u => uint_units u
    | Decimal.Neg u => 45%N :: uint_units u
    end
  else float_toString (round_decimal (z <? 0)%Z (Z.to_N (Z.abs z)) 0).

(** The integer a finite Number is, if it is one. *)
Definition integer_of (m : positive) (e : Z) : option Z :=
  (if 0 <=? e then Some (Zpos m * 2 ^ e)
   else if Zpos m mod 2 ^ (- e) =? 0 then Some (Zpos m / 2 ^ (- e))
   else None)%Z.

(** The Number with the sign [neg]. *)
Definition with_sign (neg : bool) (f : spec_float) : spec_float :=
  match f with
  | S754_zero _ => S754_zero neg
  | S754_infinity _ => S754_infinity neg
  | S754_nan => S754_nan
  | S754_finite _ m e => S754_finite neg m e
  end.

(** The characters of a number in decimal. *)
Definition number_char (c : N) : bool :=
  is_digit c || N.eqb c 46 || N.eqb c 101 || N.eqb c 43 || N.eqb c 45.

(** A Number as a value: [JNum] when it is an integer below 2^53 in
    magnitude (and not the negative zero), [JFloat] otherwise. *)
Definition number_of_float (f : spec_float) : jsval :=
  match f with
  | S754_zero false => JNum 0
  | S754_finite neg m e =>
      match integer_of m e with
      | Some z => if (z <? 2 ^ 53)%Z then JNum (if neg then - z else z)%Z else JFloat f
      | None => JFloat f
      end
  | _ => JFloat f
  end.

(** ToBoolean. *)
Definition truthy (v : jsval) : bool :=
  match v with
  | JUndefined | JNull => false
  | JBool b => b
  | JNum z => negb (Z.eqb z 0)
  | JFloat f => match f with S754_zero _ | S754_nan => false | _ => true end
  | JStr s => match s with [] => false | _ => true end
  | JArr _ | JObj _ => true
  end.

(** ToString; an array goes through [Array.prototype.join] (an
    [undefined] or [null] element prints as the empty string), an object
    through [Object.prototype.toString]. *)
Fixpoint ToString (v : jsval) : jstring :=
  match v with
  | JUndefined => js "undefined"
  | JNull => js "null"
  | JBool true => js "true"
  | JBool false => js "false"
  | JNum z => Number_toString z
  | JFloat f => float_toString f
  | JStr s => s
  | JArr l =>
      (fix elems (l : list jsval) : jstring :=
         match l with
         | [] => []
         | x :: l' =>
             (match x with JUndefined | JNull => [] | _ => ToString x end)
               ++ match l' with [] => [] | _ => 44%N :: elems l' end
         end) l
  | JObj _ => js "[object Object]"
  end.

(** [v == "8535"], the loose comparison of the source: a string equals it
    as a string, a number as the number 8535, a boolean never (0 and 1),
    [undefined] and [null] never, an array or object through its string
    conversion. *)
Definition is_expiry_code (v : jsval) : bool :=
  match v with
  | JUndefined | JNull | JBool _ => false
  | JNum z => Z.eqb z 8535
  | JFloat f => match number_of_float f with JNum z => Z.eqb z 8535 | _ => false end
  | JStr s => jstring_eqb s (js "8535")
  | JArr _ | JObj _ => jstring_eqb (ToString v) (js "8535")
  end.


(* ================================================================= *)
(** ** [encodeURIComponent] and [decodeURIComponent] (ECMA-262, 19.2.6) *)

Definition is_high_surrogate (c : N) : bool := (55296 <=? c)%N && (c <=? 56319)%N.
Definition is_low_surrogate (c : N) : bool := (56320 <=? c)%N && (c <=? 57343)%N.

(** The code point of a surrogate pair. *)
Definition pair_code_point (hi lo : N) : N :=
  ((hi - 55296) * 1024 + (lo - 56320) + 65536)%N.

Definition is_upper (c : N) : bool := (65 <=? c)%N && (c <=? 90)%N.
Definition is_lower (c : N) : bool := (97 <=? c)%N && (c <=? 122)%N.

(** uriUnreserved: letters, digits and the nine marks (hyphen, underscore,
    full stop, exclamation mark, tilde, asterisk, apostrophe, parentheses). *)
Definition uri_unreserved (c : N) : bool :=
  is_digit c || is_upper c || is_lower c
  || existsb (N.eqb c) [45; 95; 46; 33; 126; 42; 39; 40; 41]%N.

(** The UTF-8 octets of a code point. *)
Definition utf8_octets (cp : N) : list N :=
  if (cp <? 128)%N then [cp]
  else if (cp <? 2048)%N then [192 + cp / 64; 128 + cp mod 64]%N
  else if (cp <? 65536)%N then
    [224 + cp / 4096; 128 + (cp / 64) mod 64; 128 + cp mod 64]%N
  else
    [240 + cp / 262144; 128 + (cp / 4096) mod 64;
     128 + (cp / 64) mod 64; 128 + cp mod 64]%N.

Definition hex_upper (d : N) : N := if (d <? 10)%N then (48 + d)%N else (55 + d)%N.
Definition hex_lower (d : N) : N := if (d <? 10)%N then (48 + d)%N else (87 + d)%N.

(** One octet as [%XX], upper-case. *)
Definition percent_octet (b : N) : jstring :=
  [37%N; hex_upper (b / 16); hex_upper (b mod 16)].

Definition percent_encode (cp : N) : jstring :=
  flat_map percent_octet (utf8_octets cp).

(** [encodeURIComponent]; [None] is the URIError thrown on an unpaired
    surrogate. *)
Fixpoint encodeURIComponent (s : jstring) : option jstring :=
  match s with
  | [] => Some []
  | c :: s' =>
      if uri_unreserved c then option_map (cons c) (encodeURIComponent s')
      else if is_high_surrogate c then
        match s' with
        | d :: s'' =>
            if is_low_surrogate d
            then option_map (app (percent_encode (pair_code_point c d)))
                            (encodeURIComponent s'')
            else None
        | [] => None
        end
      else if is_low_surrogate c then None
      else option_map (app (percent_encode c)) (encodeURIComponent s')
  end.

(** The value of a hexadecimal digit, either case. *)
Definition hex_value (c : N) : option N :=
  if is_digit c then Some (c - 48)%N
  else if (65 <=? c)%N && (c <=? 70)%N then Some (c - 55)%N
  else if (97 <=? c)%N && (c <=? 102)%N then Some (c - 87)%N
  else None.

(** What [decodeURIComponent] reads: a code unit taken as it is, or the
    octet of a [%XX] escape. *)
Inductive uri_item : Type :=
| Plain (c : N)
| Octet (b : N).

(** The escapes of the input; [None] when a [%] is not followed by two
    hexadecimal digits. *)
Fixpoint uri_items (s : jstring) : option (list uri_item) :=
  match s with
  | [] => Some []
  | c :: s' =>
      if N.eqb c 37 then
        match s' with
        | h1 :: h2 :: s'' =>
            match hex_value h1, hex_value h2 with
            | Some a, Some b => option_map (cons (Octet (a * 16 + b))) (uri_items s'')
            | _, _ => None
            end
        | _ => None
        end
      else option_map (cons (Plain c)) (uri_items s')
  end.

Definition is_continuation (b : N) : bool := (128 <=? b)%N && (b <=? 191)%N.

(** UTF16EncodeCodePoint. *)
Definition utf16_units (cp : N) : jstring :=
  if (cp <? 65536)%N then [cp]
  else [(55296 + (cp - 65536) / 1024)%N; (56320 + (cp - 65536) mod 1024)%N].

(** The octet sequences are read as UTF-8: shortest form only, no
    surrogate code point, nothing above U+10FFFF. *)
Fixpoint uri_units (l : list uri_item) : option jstring :=
  match l with
  | [] => Some []
  | Plain c :: l' => option_map (cons c) (uri_units l')
  | Octet b :: l' =>
      if (b <? 128)%N then option_map (cons b) (uri_units l')
      else if (b <? 192)%N then None
      else if (b <? 224)%N then
        match l' with
        | Octet b2 :: l2 =>
            let cp := ((b - 192) * 64 + (b2 - 128))%N in
            if is_continuation b2 && (128 <=? cp)%N
            then option_map (app (utf16_units cp)) (uri_units l2)
            else None
        | _ => None
        end
      else if (b <? 240)%N then
        match l' with
        | Octet b2 :: Octet b3 :: l3 =>
            let cp := ((b - 224) * 4096 + (b2 - 128) * 64 + (b3 - 128))%N in
            if is_continuation b2 && is_continuation b3 && (2048 <=? cp)%N
               && negb ((55296 <=? cp)%N && (cp <=? 57343)%N)
            then option_map (app (utf16_units cp)) (uri_units l3)
            else None
        | _ => None
        end
      else if (b <? 248)%N then
        match l' with
        | Octet b2 :: Octet b3 :: Octet b4 :: l4 =>
            let cp := ((b - 240) * 262144 + (b2 - 128) * 4096
                       + (b3 - 128) * 64 + (b4 - 128))%N in
            if is_continuation b2 && is_continuation b3 && is_continuation b4
               && (65536 <=? cp)%N && (cp <=? 1114111)%N
            then option_map (app (utf16_units cp)) (uri_units l4)
            else None
        | _ => None
        end
      else None
  end.

(** [decodeURIComponent]; [None] is the URIError.  The escapes are read
    first and the octets decoded second; a malformed input fails in either
    pass, as it does in the single loop of the standard. *)
Definition decodeURIComponent (s : jstring) : option jstring :=
  match uri_items s with
  | Some l => uri_units l
  | None => None
  end.


(* ================================================================= *)
(** ** [JSON.stringify] and [JSON.parse] (ECMA-262, 25.5) *)

(** UnicodeEscape: backslash, u and four lower-case hexadecimal digits. *)
Definition unicode_escape (c : N) : jstring :=
  [92; 117; hex_lower (c / 4096); hex_lower ((c / 256) mod 16);
   hex_lower ((c / 16) mod 16); hex_lower (c mod 16)]%N.

(** The two-character escapes of QuoteJSONString. *)
Definition short_escape (c : N) : option N :=
  if N.eqb c 8 then Some 98%N          (* b: backspace *)
  else if N.eqb c 9 then Some 116%N    (* t: tab *)
  else if N.eqb c 10 then Some 110%N   (* n: line feed *)
  else if N.eqb c 12 then Some 102%N   (* f: form feed *)
  else if N.eqb c 13 then Some 114%N   (* r: carriage return *)
  else if N.eqb c 34 then Some 34%N    (* quotation mark *)
  else if N.eqb c 92 then Some 92%N    (* backslash *)
  else None.

(** The inside of QuoteJSONString: control characters and unpaired
    surrogates are escaped (well-formed [JSON.stringify]), a surrogate
    pair is one code point and is copied. *)
Fixpoint quote_units (s : jstring) : jstring :=
  match s with
  | [] => []
  | c :: s' =>
      match short_escape c with
      | Some e => 92%N :: e :: quote_units s'
      | None =>
          if (c <? 32)%N then unicode_escape c ++ quote_units s'
          else if is_high_surrogate c then
            match s' with
            | d :: s'' =>
                if is_low_surrogate d then c :: d :: quote_units s''
                else unicode_escape c ++ quote_units s'
            | [] => unicode_escape c
            end
          else if is_low_surrogate c then unicode_escape c ++ quote_units s'
          else c :: quote_units s'
      end
  end.

Definition QuoteJSONString (s : jstring) : jstring :=
  34%N :: quote_units s ++ [34%N].

(** SerializeJSONProperty without indentation; [None] is [undefined].  An
    [undefined] array element is written [null], an [undefined] property
    is left out. *)
Fixpoint SerializeJSONProperty (v : jsval) : option jstring :=
  match v with
  | JUndefined => None
  | JNull => Some (js "null")
  | JBool true => Some (js "true")
  | JBool false => Some (js "false")
  | JNum z => Some (Number_toString z)
  | JFloat f =>
      match f with
      | S754_finite _ _ _ | S754_zero _ => Some (float_toString f)
      | _ => Some (js "null")
      end
  | JStr s => Some (QuoteJSONString s)
  | JArr l =>
      Some (91%N ::
            join [44%N]
              (map (fun x => match SerializeJSONProperty x with
                             | Some t => t
                             | None => js "null"
                             end) l)
            ++ [93%N])
  | JObj kvs =>
      Some (123%N ::
            join [44%N]
              (flat_map (fun kv => match SerializeJSONProperty (snd kv) with
                                   | Some t => [QuoteJSONString (fst kv) ++ 58%N :: t]
                                   | None => []
                                   end) kvs)
            ++ [125%N])
  end.

(** [JSON.stringify(v)]. *)
Definition JSON_stringify (v : jsval) : option jstring := SerializeJSONProperty v.

(** JSON white space: tab, line feed, carriage return, space. *)
Definition is_ws (c : N) : bool :=
  N.eqb c 9 || N.eqb c 10 || N.eqb c 13 || N.eqb c 32.

Fixpoint skip_ws (s : jstring) : jstring :=
  match s with
  | c :: s' => if is_ws c then skip_ws s' else s
  | [] => []
  end.

(** The longest run of decimal digits at the head of the input. *)
Fixpoint span_digits (s : jstring) : jstring * jstring :=
  match s with
  | [] => ([], [])
  | c :: s' =>
      if is_digit c then let (ds, r) := span_digits s' in (c :: ds, r)
      else ([], s)
  end.

(** The number a run of digits writes. *)
Definition digits_value (ds : jstring) : N :=
  fold_left (fun a c => (a * 10 + (c - 48))%N) ds 0%N.

(** The fraction of a JSON number: nothing, or a point and one digit at
    least. *)
Definition parse_fraction (s : jstring) : option (jstring * jstring) :=
  match s with
  | c :: r =>
      if N.eqb c 46 then
        match span_digits r with
        | ([], _) => None
        | (fr, r') => Some (fr, r')
        end
      else Some ([], s)
  | [] => Some ([], s)
  end.

(** The exponent of a JSON number: nothing, or [e] or [E], a sign or
    none, and one digit at least. *)
Definition parse_exponent (s : jstring) : option (Z * jstring) :=
  match s with
  | c :: r =>
      if N.eqb c 101 || N.eqb c 69 then
        let (neg, r1) := match r with
                         | d :: r' => if N.eqb d 45 then (true, r')
                                      else if N.eqb d 43 then (false, r')
                                      else (false, r)
                         | [] => (false, r)
                         end in
        match span_digits r1 with
        | ([], _) => None
        | (ex, r2) => Some (if neg then (- Z.of_N (digits_value ex))%Z
                            else Z.of_N (digits_value ex), r2)
        end
      else Some (0%Z, s)
  | [] => Some (0%Z, s)
  end.

(** A JSON number: an optional minus sign, digits with no zero before
    another digit, an optional fraction and an optional exponent; the
    value is the Number for the decimal written. *)
Definition parse_number (s : jstring) : option (jsval * jstring) :=
  let (neg, s1) := match s with
                   | c :: r => if N.eqb c 45 then (true, r) else (false, s)
                   | [] => (false, s)
                   end in
  let (int, r1) := span_digits s1 in
  match int with
  | [] => None
  | c :: more =>
      if N.eqb c 48 && match more with [] => false | _ => true end then None
      else
        match parse_fraction r1 with
        | None => None
        | Some (frac, r2) =>
            match parse_exponent r2 with
            | None => None
            | Some (ex, r3) =>
                Some (number_of_float
                        (round_decimal neg (digits_value (int ++ frac))
                                       (ex - Z.of_nat (Datatypes.length frac))%Z),
                      r3)
            end
        end
  end.

Definition prepend (c : N) (r : option (jstring * jstring))
  : option (jstring * jstring) :=
  match r with
  | Some (t, rest) => Some (c :: t, rest)
  | None => None
  end.

(** The character a two-character escape stands for. *)
Definition unescape (e : N) : option N :=
  if N.eqb e 34 then Some 34%N
  else if N.eqb e 92 then Some 92%N
  else if N.eqb e 47 then Some 47%N
  else if N.eqb e 98 then Some 8%N
  else if N.eqb e 102 then Some 12%N
  else if N.eqb e 110 then Some 10%N
  else if N.eqb e 114 then Some 13%N
  else if N.eqb e 116 then Some 9%N
  else None.

Definition hex4 (h1 h2 h3 h4 : N) : option N :=
  match hex_value h1, hex_value h2, hex_value h3, hex_value h4 with
  | Some a, Some b, Some c, Some d => Some (a * 4096 + b * 256 + c * 16 + d)%N
  | _, _, _, _ => None
  end.

(** A JSON string after its opening quote, up to and including the
    closing quote. *)
Fixpoint parse_string (s : jstring) : option (jstring * jstring) :=
  match s with
  | [] => None
  | c :: s' =>
      if N.eqb c 34 then Some ([], s')
      else if N.eqb c 92 then
        match s' with
        | e :: s'' =>
            if N.eqb e 117 then
              match s'' with
              | h1 :: h2 :: h3 :: h4 :: s4 =>
                  match hex4 h1 h2 h3 h4 with
                  | Some u => prepend u (parse_string s4)
                  | None => None
                  end
              | _ => None
              end
            else
              match unescape e with
              | Some x => prepend x (parse_string s'')
              | None => None
              end
        | [] => None
        end
      else if (c <? 32)%N then None
      else prepend c (parse_string s')
  end.

(** A JSON value and what follows it.  [fuel] bounds the nesting of the
    calls; [JSON_parse] gives enough of it.  [parse_elements] reads the
    elements of an array after the first, [parse_members] the members of
    an object, up to the closing bracket. *)
Fixpoint parse_value (fuel : nat) (s : jstring) : option (jsval * jstring) :=
  match fuel with
  | O => None
  | S fuel' =>
      match skip_ws s with
      | [] => None
      | c :: r =>
          if N.eqb c 110 then
            if startsWith r (js "ull") then Some (JNull, skipn 3 r) else None
          else if N.eqb c 116 then
            if startsWith r (js "rue") then Some (JBool true, skipn 3 r) else None
          else if N.eqb c 102 then
            if startsWith r (js "alse") then Some (JBool false, skipn 4 r) else None
          else if N.eqb c 34 then
            match parse_string r with
            | Some (t, r') => Some (JStr t, r')
            | None => None
            end
          else if N.eqb c 91 then
            match skip_ws r with
            | d :: r' =>
                if N.eqb d 93 then Some (JArr [], r')
                else match parse_elements fuel' r with
                     | Some (l, r'') => Some (JArr l, r'')
                     | None => None
                     end
            | [] => None
            end
          else if N.eqb c 123 then
            match skip_ws r with
            | d :: r' =>
                if N.eqb d 125 then Some (JObj [], r')
                else match parse_members fuel' r with
                     | Some (kvs, r'') =>
                         Some (JObj (fold_left (fun o kv => obj_set (fst kv) (snd kv) o)
                                               kvs []), r'')
                     | None => None
                     end
            | [] => None
            end
          else
            parse_number (c :: r)
      end
  end
with parse_elements (fuel : nat) (s : jstring) : option (list jsval * jstring) :=
  match fuel with
  | O => None
  | S fuel' =>
      match parse_value fuel' s with
      | Some (v, r) =>
          match skip_ws r with
          | d :: r' =>
              if N.eqb d 44 then
                match parse_elements fuel' r' with
                | Some (l, r'') => Some (v :: l, r'')
                | None => None
                end
              else if N.eqb d 93 then Some ([v], r')
              else None
          | [] => None
          end
      | None => None
      end
  end
with parse_members (fuel : nat) (s : jstring)
  : option (list (jstring * jsval) * jstring) :=
  match fuel with
  | O => None
  | S fuel' =>
      match skip_ws s with
      | q :: r0 =>
          if N.eqb q 34 then
            match parse_string r0 with
            | Some (k, r1) =>
                match skip_ws r1 with
                | c :: r2 =>
                    if N.eqb c 58 then
                      match parse_value fuel' r2 with
                      | Some (v, r3) =>
                          match skip_ws r3 with
                          | d :: r4 =>
                              if N.eqb d 44 then
                                match parse_members fuel' r4 with
                                | Some (kvs, r5) => Some ((k, v) :: kvs, r5)
                                | None => None
                                end
                              else if N.eqb d 125 then Some ([(k, v)], r4)
                              else None
                          | [] => None
                          end
                      | None => None
                      end
                    else None
                | [] => None
                end
            | None => None
            end
          else None
      | [] => None
      end
  end.

(** [JSON.parse(text)]; [None] is the SyntaxError.  A repeated member
    name keeps its first place and its last value; the re-ordering of
    integer-like property names is not modelled. *)
Definition JSON_parse (text : jstring) : option jsval :=
  match parse_value (2 * Datatypes.length text + 2) text with
  | Some (v, r) => match skip_ws r with [] => Some v | _ => None end
  | None => None
  end.


(* ================================================================= *)
(** ** Buffers *)

(** The octets of a Buffer or of a response body. *)
Definition octets := list N.

(** The first octet of a UTF-8 sequence: what it emits at once, and
    otherwise how many octets must follow, the bits read so far and the
    range allowed for the next octet. *)
Definition utf8_lead (b : N) : jstring * (nat * N * N * N) :=
  if (b <? 128)%N then ([b], (O, 0, 128, 191)%N)
  else if (194 <=? b)%N && (b <=? 223)%N then ([], (1%nat, b - 192, 128, 191)%N)
  else if (224 <=? b)%N && (b <=? 239)%N then
    ([], (2%nat, b - 224, if N.eqb b 224 then 160 else 128,
          if N.eqb b 237 then 159 else 191)%N)
  else if (240 <=? b)%N && (b <=? 244)%N then
    ([], (3%nat, b - 240, if N.eqb b 240 then 144 else 128,
          if N.eqb b 244 then 143 else 191)%N)
  else ([65533%N], (O, 0, 128, 191)%N).

(** The UTF-8 decoder of the platform: an octet that cannot continue or
    start a sequence is replaced by U+FFFD. *)
Fixpoint utf8_decode (needed : nat) (cp lower upper : N) (bs : octets) : jstring :=
  match bs with
  | [] => match needed with O => [] | S _ => [65533%N] end
  | b :: bs' =>
      match needed with
      | O =>
          let '(out, (n, c, lo, up)) := utf8_lead b in
          out ++ utf8_decode n c lo up bs'
      | S k =>
          if (lower <=? b)%N && (b <=? upper)%N then
            let cp' := (cp * 64 + (b - 128))%N in
            match k with
            | O => utf16_units cp' ++ utf8_decode O 0 128 191 bs'
            | S _ => utf8_decode k cp' 128 191 bs'
            end
          else
            let '(out, (n, c, lo, up)) := utf8_lead b in
            65533%N :: out ++ utf8_decode n c lo up bs'
      end
  end.

(** [buf.toString()], and what [data += chunk] makes of the chunks of a
    response: the octets read as UTF-8. *)
Definition Buffer_toString (bs : octets) : jstring := utf8_decode O 0 128 191 bs.

(** [Buffer.from(s)]: the UTF-8 octets of a string, an unpaired surrogate
    becoming U+FFFD. *)
Fixpoint Buffer_from (s : jstring) : octets :=
  match s with
  | [] => []
  | c :: s' =>
      if is_high_surrogate c then
        match s' with
        | d :: s'' =>
            if is_low_surrogate d
            then utf8_octets (pair_code_point c d) ++ Buffer_from s''
            else utf8_octets 65533 ++ Buffer_from s'
        | [] => utf8_octets 65533
        end
      else if is_low_surrogate c then utf8_octets 65533 ++ Buffer_from s'
      else utf8_octets c ++ Buffer_from s'
  end.

(* ================================================================= *)
(** ** Promises, exceptions and the network *)

(** What is thrown: a value (what [reject] was given), or an Error. *)
Inductive thrown : Type :=
| Value (v : jsval)
| TypeError
| SyntaxError
| URIError
| Error (message : jstring).

(** The outcome of a computation: a value, an exception that the caller
    may catch (a rejected promise, once awaited), an exception thrown
    inside an event callback, which nothing catches and which leaves the
    promise unsettled ([Uncaught]), or no outcome at all ([Hang]). *)
Inductive result (A : Type) : Type :=
| Ok (a : A)
| Throw (e : thrown)
| Uncaught (e : thrown)
| Hang.
Arguments Ok {A} a.
Arguments Throw {A} e.
Arguments Uncaught {A} e.
Arguments Hang {A}.

(** The state of a promise once its executor and callbacks have run. *)
Inductive settled : Type :=
| Fulfilled (v : jsval)
| Rejected (e : jsval)
| Pending.

(** A call of [resolve] or of [reject]. *)
Inductive settle_call : Type :=
| CallResolve (v : jsval)
| CallReject (e : jsval).

(** Only the first call settles a promise. *)
Definition promise_state (calls : list settle_call) : settled :=
  match calls with
  | CallResolve v :: _ => Fulfilled v
  | CallReject e :: _ => Rejected e
  | [] => Pending
  end.

Inductive body : Type :=
| NoBody
| Text (text : jstring)
| FormFile (field filename : jstring) (content : octets)
| FormField (field : jstring) (value : jstring).

Record http_request : Type := mkRequest {
  url : jstring;
  method : jstring;
  headers : obj;
  payload : body
}.

(** A reply: its status and its body, in the chunks it arrives in; or
    the failure of the transport. *)
Inductive http_reply : Type :=
| Response (statusCode : N) (chunks : list octets)
| NetworkError (message : jstring).

(** The body of a reply as one Buffer ([Buffer.concat]). *)
Definition body_octets (chunks : list octets) : octets := List.concat chunks.

(** What a process does that the outside sees, oldest first. *)
Inductive event : Type :=
| Exchange (q : http_request) (r : http_reply)
| Sleep (ms : N).

(** The upstream: its reply to a request, given all that happened before. *)
Definition upstream := list event -> http_request -> http_reply.

Section Monad.
Variable St : Type.

Definition M (A : Type) : Type := St -> result A * St.

Definition ret {A} (a : A) : M A := fun w => (Ok a, w).

Definition bind {A B} (m : M A) (k : A -> M B) : M B :=
  fun w =>
    match m w with
    | (Ok a, w') => k a w'
    | (Throw e, w') => (Throw e, w')
    | (Uncaught e, w') => (Uncaught e, w')
    | (Hang, w') => (Hang, w')
    end.

Definition throw {A} (e : thrown) : M A := fun w => (Throw e, w).
Definition uncaught {A} (e : thrown) : M A := fun w => (Uncaught e, w).
Definition hang {A} : M A := fun w => (Hang, w).

(** [try { m } catch (e) { h e }]. *)
Definition try_catch {A} (m : M A) (h : thrown -> M A) : M A :=
  fun w =>
    match m w with
    | (Throw e, w') => h e w'
    | r => r
    end.

(** [await p]. *)
Definition await (p : settled) : M jsval :=
  match p with
  | Fulfilled v => ret v
  | Rejected e => throw (Value e)
  | Pending => hang
  end.

(** A computation that leaves the state as it is. *)
Definition lift {A} (r : result A) : M A := fun w => (r, w).

(** A partial built-in: [None] throws [e]. *)
Definition or_throw {A} (e : thrown) (o : option A) : M A :=
  match o with
  | Some a => ret a
  | None => throw e
  end.
End Monad.

Arguments ret {St A} a.
Arguments bind {St A B} m k.
Arguments throw {St A} e.
Arguments uncaught {St A} e.
Arguments hang {St A}.
Arguments try_catch {St A} m h.
Arguments await {St} p.
Arguments or_throw {St A} e o.
Arguments lift {St A} r.

Notation "x <- m ;; k" := (bind m (fun x => k))
  (at level 61, m at next level, right associativity).
Notation "m ;;; k" := (bind m (fun _ => k))
  (at level 61, right associativity).

(* ================================================================= *)
(** ** [AnalyticsClient] *)

Definition analyticsURI : jstring := js "analyticsapi.zoho.com".
Definition accountsURI : jstring := js "accounts.zoho.com".
Definition clientVersion : jstring := js "2.6.0".

(** The client object and what it shares with its callers: [accessToken]
    is [this.accessToken]; [store] holds the objects that are passed by
    reference (the [config] and [header] arguments), a reference being an
    index; [files] is the file system. *)
Record world : Type := mkWorld {
  accessToken : jsval;
  store : list obj;
  trace : list event;
  files : list (jstring * octets)
}.

(** The constructor arguments, kept for the life of the client. *)
Record credentials : Type := mkCredentials {
  clientId : jstring;
  clientSecret : jstring;
  refreshToken : jstring
}.

Definition get_accessToken : M world jsval := fun w => (Ok (accessToken w), w).

Definition set_accessToken (t : jsval) : M world unit :=
  fun w => (Ok tt, mkWorld t (store w) (trace w) (files w)).

Fixpoint replace_nth {A} (n : nat) (x : A) (l : list A) : list A :=
  match l, n with
  | [], _ => []
  | _ :: l', O => x :: l'
  | y :: l', S n' => y :: replace_nth n' x l'
  end.

(** The object behind a reference. *)
Definition read_obj (r : nat) : M world obj :=
  fun w => match nth_error (store w) r with
           | Some o => (Ok o, w)
           | None => (Throw TypeError, w)
           end.

(** [r[k] = v]. *)
Definition set_prop (r : nat) (k : jstring) (v : jsval) : M world unit :=
  fun w => match nth_error (store w) r with
           | Some o => (Ok tt, mkWorld (accessToken w)
                                       (replace_nth r (obj_set k v o) (store w))
                                       (trace w) (files w))
           | None => (Throw TypeError, w)
           end.

(** A new object; its reference. *)
Definition alloc (o : obj) : M world nat :=
  fun w => (Ok (Datatypes.length (store w)),
            mkWorld (accessToken w) (store w ++ [o]) (trace w) (files w)).

Definition log_event (e : event) : M world unit :=
  fun w => (Ok tt, mkWorld (accessToken w) (store w) (trace w ++ [e]) (files w)).

(** The content of the file at a path, the last written first. *)
Fixpoint find_file (path : jstring) (fs : list (jstring * octets)) : option octets :=
  match fs with
  | [] => None
  | (p, c) :: fs' => if jstring_eqb p path then Some c else find_file path fs'
  end.

(** The error of the file system for a file that is not there, which
    [fs.readFileSync] throws and [fs.createReadStream] gives to its
    ['error'] handler: an Error object with its message and the
    properties Node adds (the number is the one of Linux); it has no
    [errorCode]. *)
Definition file_error (filePath : jstring) : jsval :=
  JObj [(js "message",
         JStr (js "ENOENT: no such file or directory, open '" ++ filePath ++ js "'"));
        (js "errno", JNum (-2)); (js "code", JStr (js "ENOENT"));
        (js "syscall", JStr (js "open")); (js "path", JStr filePath)].

(** [fs.readFileSync(path, 'utf8')]. *)
Definition readFileSync (path : jstring) : M world jstring :=
  fun w => match find_file path (files w) with
           | Some c => (Ok (Buffer_toString c), w)
           | None => (Throw (Value (file_error path)), w)
           end.

(** [fs.writeFileSync(path, buffer)]; the write itself is taken to
    succeed. *)
Definition writeFileSync (path : jstring) (c : octets) : M world unit :=
  fun w => (Ok tt, mkWorld (accessToken w) (store w) (trace w)
                           ((path, c) :: files w)).

(** [querystring.escape] of Node ([encodeStr]): an ASCII unit stays when
    it is unreserved and is escaped otherwise; a unit below 0x800 gives
    two octets, any other that is not a surrogate three.  A unit from
    0xD800 to 0xDFFF, high or low, is taken with the unit after it,
    whatever that is, as one code point of four octets; the URIError
    ([None]) is thrown only when no unit follows. *)
Definition merged_code_point (c d : N) : N :=
  let c2 := N.land d 1023 in
  (65536 + N.lor (N.shiftl (N.land c 1023) 10) c2)%N.

Fixpoint qs_escape (s : jstring) : option jstring :=
  match s with
  | [] => Some []
  | c :: s' =>
      if (c <? 128)%N then
        option_map (app (if uri_unreserved c then [c] else percent_octet c))
                   (qs_escape s')
      else if (c <? 55296)%N || (57344 <=? c)%N then
        option_map (app (percent_encode c)) (qs_escape s')
      else
        match s' with
        | [] => None
        | d :: s'' =>
            option_map (app (percent_encode (merged_code_point c d))) (qs_escape s'')
        end
  end.

(** [querystring.stringify] of string fields. *)
Fixpoint querystring_stringify (fields : list (jstring * jstring)) : option jstring :=
  match fields with
  | [] => Some []
  | (k, v) :: fs =>
      match qs_escape k, qs_escape v, querystring_stringify fs with
      | Some k', Some v', Some rest =>
          Some (k' ++ 61%N :: v' ++ match fs with [] => [] | _ => 38%N :: rest end)
      | _, _, _ => None
      end
  end.

(** The units the application/x-www-form-urlencoded serializer leaves as
    they are: letters, digits, [*], [-], [.] and [_]. *)
Definition form_unreserved (b : N) : bool :=
  is_digit b || is_upper b || is_lower b || existsb (N.eqb b) [42; 45; 46; 95]%N.

(** One octet of a name or value: itself, [+] for a space, or [%XX]. *)
Definition form_octet (b : N) : jstring :=
  if form_unreserved b then [b]
  else if N.eqb b 32 then [43%N]
  else percent_octet b.

(** A name or a value of a [URLSearchParams]: its UTF-8 octets, a
    surrogate with no partner being U+FFFD as in every USVString. *)
Definition form_urlencode (s : jstring) : jstring :=
  flat_map form_octet (Buffer_from s).

(** [URLSearchParams.prototype.toString]. *)
Fixpoint URLSearchParams_toString (fields : list (jstring * jstring)) : jstring :=
  match fields with
  | [] => []
  | (k, v) :: fs =>
      form_urlencode k ++ 61%N :: form_urlencode v
        ++ match fs with [] => [] | _ => 38%N :: URLSearchParams_toString fs end
  end.

(** [resp.statusCode.toString()]. *)
Definition respCode (statusCode : N) : jstring := Number_toString (Z.of_N statusCode).

(** The handler of the ['end'] event in [sendV2Request]: the calls of
    [resolve] and [reject] it makes, in order, and the exception that
    stops it, if any.  The last statement, [resolve()], is outside the
    conditional. *)
Definition end_handler (isExportReq : bool) (statusCode : N) (data : jstring)
  : list settle_call * option thrown :=
  let respCode := respCode statusCode in
  let isRequestFailed := negb (startsWith respCode (js "2")) in
  let hasResponse := jstring_eqb respCode (js "200") in
  if isRequestFailed then
    match JSON_parse data with
    | None => ([], Some SyntaxError)
    | Some respJSON =>
        match get_prop respJSON (js "data") with
        | None => ([], Some TypeError)
        | Some d => ([CallReject d; CallResolve JUndefined], None)
        end
    end
  else if isExportReq then
    ([CallResolve (JStr data); CallResolve JUndefined], None)
  else if hasResponse then
    match JSON_parse data with
    | None => ([], Some SyntaxError)
    | Some respJSON =>
        match get_prop respJSON (js "data") with
        | None => ([], Some TypeError)
        | Some d => ([CallResolve d; CallResolve JUndefined], None)
        end
    end
  else ([CallResolve JUndefined], None).

(** The ['error'] handler and the error branch of the callbacks given to
    [request.post] and [request.get]: [err] is passed through
    [JSON.parse], which throws inside the handler unless the text of the
    error is JSON. *)
Definition on_transport_error (message : jstring) : result settled :=
  match JSON_parse (js "Error: " ++ message) with
  | Some v => Ok (Rejected v)
  | None => Uncaught SyntaxError
  end.

(** What the handlers of [sendV2Request] make of a reply.  After
    [resp.setEncoding(null)] the chunks come as strings through a UTF-8
    decoder that keeps the octets of a character cut by the end of a
    chunk for the next one: [data] is the whole body read as UTF-8. *)
Definition v2_result (isExportReq : bool) (r : http_reply) : result settled :=
  match r with
  | NetworkError message => on_transport_error message
  | Response statusCode chunks =>
      match end_handler isExportReq statusCode (Buffer_toString (body_octets chunks)) with
      | (_, Some e) => Uncaught e
      | (calls, None) => Ok (promise_state calls)
      end
  end.

(** [data] in [getOauth], where no encoding is set: each chunk is a
    Buffer, and [data += chunk] reads it as UTF-8 on its own. *)
Definition oauth_text (chunks : list octets) : jstring :=
  List.concat (map Buffer_toString chunks).

(** What the handlers of [getOauth] make of a reply: the promise is
    rejected when the reply has a truthy [error], and fulfilled with its
    [access_token] otherwise. *)
Definition oauth_result (r : http_reply) : result settled :=
  match r with
  | NetworkError message => Ok (Rejected (JStr message))
  | Response _ chunks =>
      match JSON_parse (oauth_text chunks) with
      | None => Uncaught SyntaxError
      | Some respJSON =>
          match get_prop respJSON (js "error"), get_prop respJSON (js "access_token") with
          | Some e, Some t =>
              if negb (truthy e) then Ok (Fulfilled t)
              else Ok (Rejected (JObj [(js "errorCode", JStr (js "0"));
                                       (js "errorMessage", e)]))
          | _, _ => Uncaught TypeError
          end
      end
  end.

(** What the callback of [sendBatchImportRequest] makes of a reply;
    [body] is the whole body read as UTF-8. *)
Definition batch_result (r : http_reply) : result settled :=
  match r with
  | NetworkError message => on_transport_error message
  | Response statusCode chunks =>
      match JSON_parse (Buffer_toString (body_octets chunks)) with
      | None => Uncaught SyntaxError
      | Some respJSON =>
          match get_prop respJSON (js "data") with
          | None => Uncaught TypeError
          | Some d =>
              if negb (N.eqb statusCode 200) then Ok (Rejected d)
              else Ok (Fulfilled d)
          end
      end
  end.

(** The two headers every sender writes into the caller's [header]. *)
Definition stamp (tok : jsval) (hdr : obj) : obj :=
  obj_set (js "Authorization") (JStr (js "Zoho-oauthtoken " ++ ToString tok))
    (obj_set (js "User-Agent") (JStr (js "Analytics NodeJS Client v" ++ clientVersion)) hdr).

(** The oauth parameters of a client, before [querystring.stringify]. *)
Definition oauthinfo (clientId clientSecret refreshToken : jstring)
  : list (jstring * jstring) :=
  [(js "client_id", clientId);
   (js "client_secret", clientSecret);
   (js "refresh_token", refreshToken);
   (js "grant_type", js "refresh_token")].

Section Client.
Variable server : upstream.
Variable this : credentials.
(** [os.EOL]. *)
Variable EOL : jstring.

(** One request and its reply. *)
Definition exchange (q : http_request) : M world http_reply :=
  fun w =>
    let r := server (trace w) q in
    (Ok r, mkWorld (accessToken w) (store w) (trace w ++ [Exchange q r]) (files w)).

(** The request of [getOauth]. *)
Definition oauth_request (encodedParams : jstring) : http_request :=
  mkRequest (js "https://" ++ accountsURI ++ js "/oauth/v2/token") (js "POST")
    [(js "Content-Type", JStr (js "application/x-www-form-urlencoded"));
     (js "User-Agent", JStr (js "Analytics NodeJS Client v" ++ clientVersion));
     (js "Content-Length", JNum (Z.of_nat (Datatypes.length encodedParams)))]
    (Text encodedParams).

Definition getOauth : M world settled :=
  encodedParams <- or_throw URIError
    (querystring_stringify
       (oauthinfo (clientId this) (clientSecret this) (refreshToken this))) ;;
  r <- exchange (oauth_request encodedParams) ;;
  lift (oauth_result r).

(** [this.accessToken = await this.getOauth()]. *)
Definition fetch_token : M world unit :=
  p <- getOauth ;;
  t <- await p ;;
  set_accessToken t.

(** The first lines of every sender: the two headers written into the
    caller's [header] object. *)
Definition stamp_headers (header : nat) : M world unit :=
  set_prop header (js "User-Agent")
           (JStr (js "Analytics NodeJS Client v" ++ clientVersion)) ;;;
  tok <- get_accessToken ;;
  set_prop header (js "Authorization") (JStr (js "Zoho-oauthtoken " ++ ToString tok)).

(** The first lines of the three [handle...] functions. *)
Definition ensure_token : M world unit :=
  tok <- get_accessToken ;;
  if nullish tok then fetch_token else ret tt.

(** [encodeURIComponent(JSON.stringify(config))]. *)
Definition encodedConfig (cfg : obj) : option jstring :=
  encodeURIComponent
    (match JSON_stringify (JObj cfg) with Some t => t | None => js "undefined" end).

(** The path of [sendV2Request]: the [CONFIG] parameter is appended
    when [config] is not [null] and has a key. *)
Definition config_path (uriPath : jstring) (config : option obj) : option jstring :=
  match config with
  | None => Some uriPath
  | Some [] => Some uriPath
  | Some cfg =>
      match encodedConfig cfg with
      | Some e => Some (uriPath ++ js "?" ++ js "CONFIG" ++ js "=" ++ e)
      | None => None
      end
  end.

Definition read_config (config : option nat) : M world (option obj) :=
  match config with
  | None => ret None
  | Some r => o <- read_obj r ;; ret (Some o)
  end.

Definition sendV2Request (uriPath reqMethod : jstring) (config : option nat)
           (header : nat) (isExportReq : bool) : M world settled :=
  stamp_headers header ;;;
  cfg <- read_config config ;;
  path <- or_throw URIError (config_path uriPath cfg) ;;
  hdr <- read_obj header ;;
  r <- exchange (mkRequest (js "https://" ++ analyticsURI ++ path) reqMethod hdr NoBody) ;;
  lift (v2_result isExportReq r).

Definition handleV2Request (uriPath method : jstring) (config : option nat)
           (header : nat) (isExportReq : bool) : M world jsval :=
  ensure_token ;;;
  p <- sendV2Request uriPath method config header isExportReq ;;
  match p with
  | Fulfilled v => ret v
  | Pending => hang
  | Rejected error =>
      code <- or_throw TypeError (get_prop error (js "errorCode")) ;;
      if is_expiry_code code then
        fetch_token ;;;
        p' <- sendV2Request uriPath method config header isExportReq ;;
        await p'
      else throw (Value error)
  end.

(** The path of [sendExportRequest] and [sendImportRequest]: the
    [CONFIG] parameter is appended whenever [config] is not [null]. *)
Definition config_path_always (uriPath : jstring) (config : option obj)
  : option jstring :=
  match config with
  | None => Some uriPath
  | Some cfg =>
      match encodedConfig cfg with
      | Some e => Some (uriPath ++ js "?" ++ js "CONFIG" ++ js "=" ++ e)
      | None => None
      end
  end.

(** The callback of [sendExportRequest]: a reply other than 200 is read
    as an error envelope, the body of a 200 is written to [filePath] as
    it came. *)
Definition on_export_reply (filePath : jstring) (r : http_reply) : M world settled :=
  match r with
  | NetworkError message => lift (on_transport_error message)
  | Response statusCode chunks =>
      if negb (N.eqb statusCode 200) then
        match JSON_parse (Buffer_toString (body_octets chunks)) with
        | None => uncaught SyntaxError
        | Some respJSON =>
            match get_prop respJSON (js "data") with
            | None => uncaught TypeError
            | Some d => ret (Rejected d)
            end
        end
      else
        writeFileSync filePath (body_octets chunks) ;;;
        ret (Fulfilled JUndefined)
  end.

Definition sendExportRequest (uriPath filePath : jstring) (config : option nat)
           (header : nat) : M world settled :=
  stamp_headers header ;;;
  cfg <- read_config config ;;
  path <- or_throw URIError (config_path_always uriPath cfg) ;;
  hdr <- read_obj header ;;
  r <- exchange (mkRequest (js "https://" ++ analyticsURI ++ path) (js "GET") hdr NoBody) ;;
  on_export_reply filePath r.

Definition handleExportRequest (uriPath filePath : jstring) (config : option nat)
           (header : nat) : M world jsval :=
  ensure_token ;;;
  p <- sendExportRequest uriPath filePath config header ;;
  match p with
  | Fulfilled v => ret v
  | Pending => hang
  | Rejected error =>
      code <- or_throw TypeError (get_prop error (js "errorCode")) ;;
      if is_expiry_code code then
        fetch_token ;;;
        p' <- sendExportRequest uriPath filePath config header ;;
        await p'
      else throw (Value error)
  end.

Definition sendBatchImportRequest (url : jstring) (header : nat) (batch : jstring)
  : M world settled :=
  tok <- get_accessToken ;;
  set_prop header (js "Authorization") (JStr (js "Zoho-oauthtoken " ++ ToString tok)) ;;;
  hdr <- read_obj header ;;
  r <- exchange (mkRequest url (js "POST") hdr
                           (FormFile (js "FILE") (js "batch.csv") (Buffer_from batch))) ;;
  lift (batch_result r).

(** [Math.ceil(totalLines / batchSize)] for a positive [batchSize]. *)
Definition ceil_div (totalLines batchSize : nat) : nat :=
  (totalLines + batchSize - 1) / batchSize.

(** One turn of the loop of [handleBatchImportRequest], for batch [i];
    the value is the [jobId] of the reply.  When the first attempt is
    rejected with the expiry code, the handler given to [catch] sends
    the batch again but returns nothing, and that nothing is what
    [response] holds afterwards. *)
Definition import_batch (uriPath : jstring) (config header : nat)
           (fileHeader : jstring) (fileContent : list jstring)
           (batchSize totalBatchCount i : nat) : M world jsval :=
  let batch := firstn (batchSize + i * batchSize - batchSize * i)
                      (skipn (batchSize * i) fileContent) in
  let batch := fileHeader ++ join EOL batch in
  set_prop config (js "isLastBatch")
           (JStr (if Nat.eqb i (totalBatchCount - 1) then js "true" else js "false")) ;;;
  cfg <- read_obj config ;;
  e <- or_throw URIError (encodedConfig cfg) ;;
  let url := js "https://" ++ analyticsURI ++ uriPath ++ js "?" ++ js "CONFIG"
                ++ js "=" ++ e in
  ensure_token ;;;
  p <- sendBatchImportRequest url header batch ;;
  response <-
    match p with
    | Fulfilled v => ret v
    | Pending => hang
    | Rejected error =>
        code <- or_throw TypeError (get_prop error (js "errorCode")) ;;
        if is_expiry_code code then
          fetch_token ;;;
          p' <- sendBatchImportRequest url header batch ;;
          _ <- await p' ;;
          ret JUndefined
        else throw (Value error)
    end ;;
  batchKey <- or_throw TypeError (get_prop response (js "batchKey")) ;;
  set_prop config (js "batchKey") batchKey ;;;
  jobId <- or_throw TypeError (get_prop response (js "jobId")) ;;
  log_event (Sleep 2000) ;;;
  ret jobId.

(** The loop: [remaining] turns are left, the next one is for batch [i]. *)
Fixpoint import_batches (uriPath : jstring) (config header : nat)
         (fileHeader : jstring) (fileContent : list jstring)
         (batchSize totalBatchCount remaining i : nat) (jobId : jsval)
  : M world jsval :=
  match remaining with
  | O => ret jobId
  | S k =>
      jobId' <- import_batch uriPath config header fileHeader fileContent
                             batchSize totalBatchCount i ;;
      import_batches uriPath config header fileHeader fileContent
                     batchSize totalBatchCount k (S i) jobId'
  end.

(** [batchSize] is a number of lines.  With [batchSize = 0] the count
    of batches is not a number for a file with no line after the
    header, and the loop makes no turn.  For any other file the count
    is [Infinity]: turn after turn the loop posts the header line alone
    and it ends only when a turn throws.  That run has no end that a
    function could return, so it is not followed here: the call is
    taken as one that does not return, with the world as it is before
    the first turn, and [endless_batches] below has the turns. *)
Definition handleBatchImportRequest (uriPath : jstring) (config header : nat)
           (filePath : jstring) (batchSize : nat) : M world jsval :=
  data <- readFileSync filePath ;;
  let fileContent := split EOL data in
  match (match fileContent with
         | [] => (js "undefined", [])
         | first :: rest => (first, rest)
         end) with
  | (first, fileContent) =>
      let fileHeader := first ++ EOL in
      let totalLines := Datatypes.length fileContent in
      set_prop config (js "batchKey") (JStr (js "start")) ;;;
      set_prop header (js "User-Agent")
               (JStr (js "Analytics NodeJS Client v" ++ clientVersion)) ;;;
      match batchSize with
      | O => match totalLines with O => ret JUndefined | _ => hang end
      | _ =>
          let totalBatchCount := ceil_div totalLines batchSize in
          import_batches uriPath config header fileHeader fileContent
                         batchSize totalBatchCount totalBatchCount O JUndefined
      end
  end.


(** A facade argument [config={}]: the caller's object, or a new empty
    one when the argument is left out. *)
Definition default_config (config : option nat) : M world nat :=
  match config with
  | Some r => ret r
  | None => alloc []
  end.

(** [OrgAPI.createWorkspace]; [header] is [this.header]. *)
Definition createWorkspace (header : nat) (workspaceName : jsval)
           (config : option nat) : M world jsval :=
  config <- default_config config ;;
  let uriPath := js "/restapi/v2/workspaces" in
  set_prop config (js "workspaceName") workspaceName ;;;
  result <- handleV2Request uriPath (js "POST") (Some config) header false ;;
  or_throw TypeError (get_prop result (js "workspaceId")).

(** [ViewAPI.rename]; [uriPath] is [this.uriPath]. *)
Definition rename (uriPath : jstring) (header : nat) (viewName : jsval)
           (config : option nat) : M world jsval :=
  config <- default_config config ;;
  set_prop config (js "viewName") viewName ;;;
  _ <- handleV2Request uriPath (js "PUT") (Some config) header false ;;
  ret JUndefined.
End Client.

(* ================================================================= *)
(** ** The relay, [server.js] *)

Module Relay.

(** The process: [zohoAccessToken] and what it has exchanged. *)
Record server : Type := mkServer {
  zohoAccessToken : jsval;
  trace : list event
}.

(** What a route sends back: [res.status(status).json(json)]. *)
Record reply : Type := mkReply {
  status : N;
  json : jsval
}.


Definition get_token : M server jsval := fun w => (Ok (zohoAccessToken w), w).
Definition set_token (t : jsval) : M server unit :=
  fun w => (Ok tt, mkServer t (trace w)).


(** [response.ok]. *)
Definition response_ok (st : N) : bool := (200 <=? st)%N && (st <=? 299)%N.

(** What [refreshZohoToken] makes of a reply: the token, when the
    reply has a truthy [access_token]. *)
Definition refresh_result (r : http_reply) : result jsval :=
  match r with
  | NetworkError message => Throw (Error message)
  | Response _ chunks =>
      match JSON_parse (Buffer_toString (body_octets chunks)) with
      | None => Throw SyntaxError
      | Some data =>
          match get_prop data (js "access_token"), get_prop data (js "error") with
          | Some t, Some e =>
              if truthy t then Ok t
              else Throw (Error (js "Failed to refresh Zoho token: "
                                   ++ ToString (if truthy e then e
                                                else JStr (js "Unknown error"))))
          | _, _ => Throw TypeError
          end
      end
  end.

Definition error_reply : reply :=
  mkReply 500 (JObj [(js "error", JStr (js "Error fetching Zoho data"))]).

(** What [handleZohoApiRequest] sends back for the reply it ends
    with. *)
Definition relay_reply (r : http_reply) : reply :=
  match r with
  | NetworkError _ => error_reply
  | Response st chunks =>
      if response_ok st then
        match JSON_parse (Buffer_toString (body_octets chunks)) with
        | Some data => mkReply 200 data
        | None => error_reply
        end
      else error_reply
  end.

Section Routes.
Variable upstream_server : upstream.
Variables zohoRefreshToken clientId clientSecret : jstring.

(** [await fetch(url, options)]: a network failure rejects. *)
Definition fetch (q : http_request) : M server (N * octets) :=
  fun w =>
    let r := upstream_server (trace w) q in
    let w' := mkServer (zohoAccessToken w) (trace w ++ [Exchange q r]) in
    match r with
    | Response st chunks => (Ok (st, body_octets chunks), w')
    | NetworkError message => (Throw (Error message), w')
    end.

(** [await response.json()]. *)
Definition response_json (content : octets) : M server jsval :=
  or_throw SyntaxError (JSON_parse (Buffer_toString content)).

(** The body is a [URLSearchParams], which goes out as its string. *)
Definition refresh_request : http_request :=
  mkRequest (js "https://accounts.zoho.com/oauth/v2/token") (js "POST")
    [(js "Content-Type", JStr (js "application/x-www-form-urlencoded"))]
    (Text (URLSearchParams_toString
             [(js "grant_type", js "refresh_token");
              (js "refresh_token", zohoRefreshToken);
              (js "client_id", clientId);
              (js "client_secret", clientSecret)])).

Definition refreshZohoToken : M server jsval :=
  try_catch
    (response <- fetch refresh_request ;;
     data <- response_json (snd response) ;;
     access_token <- or_throw TypeError (get_prop data (js "access_token")) ;;
     if truthy access_token then
       set_token access_token ;;;
       ret access_token
     else
       e <- or_throw TypeError (get_prop data (js "error")) ;;
       throw (Error (js "Failed to refresh Zoho token: "
                       ++ ToString (if truthy e then e else JStr (js "Unknown error")))))
    (fun error => throw error).

(** The middleware: [next] runs only when a token is there or could
    be fetched. *)
Definition ensureZohoAccessToken (next : M server reply) : M server reply :=
  failed <- try_catch
              (tok <- get_token ;;
               (if negb (truthy tok) then _ <- refreshZohoToken ;; ret tt else ret tt) ;;;
               ret None)
              (fun _ => ret (Some (mkReply 500
                   (JObj [(js "error", JStr (js "Unable to refresh Zoho access token"))])))) ;;
  match failed with
  | Some r => ret r
  | None => next
  end.

Definition api_request (apiUrl method : jstring) (tok body : jsval) : http_request :=
  mkRequest apiUrl method
    [(js "Authorization", JStr (js "Zoho-oauthtoken " ++ ToString tok));
     (js "Content-Type", JStr (js "application/json"))]
    (if truthy body
     then match JSON_stringify body with Some t => Text t | None => NoBody end
     else NoBody).

Definition handleZohoApiRequest (apiUrl method : jstring) (body : jsval)
  : M server reply :=
  try_catch
    (tok <- get_token ;;
     response <- fetch (api_request apiUrl method tok body) ;;
     response <-
       (if N.eqb (fst response) 401 then
          _ <- refreshZohoToken ;;
          tok' <- get_token ;;
          fetch (api_request apiUrl method tok' body)
        else ret response) ;;
     if negb (response_ok (fst response)) then
       _ <- response_json (snd response) ;;
       throw (Error (js "Zoho API Error"))
     else
       data <- response_json (snd response) ;;
       ret (mkReply 200 data))
    (fun _ => ret (mkReply 500 (JObj [(js "error", JStr (js "Error fetching Zoho data"))]))).

(** [POST /zoho-analytics/report]; [req_body] is [req.body]. *)
Definition report_route (req_body : obj) : M server reply :=
  ensureZohoAccessToken
    (let workspaceId := match lookup (js "workspaceId") req_body with
                        | Some v => v | None => JUndefined end in
     let viewId := match lookup (js "viewId") req_body with
                   | Some v => v | None => JUndefined end in
     if negb (truthy workspaceId) || negb (truthy viewId) then
       ret (mkReply 400 (JObj [(js "error",
                                JStr (js "Missing workspaceId or viewId in request."))]))
     else
       handleZohoApiRequest
         (js "https://analyticsapi.zoho.com/restapi/v2/workspaces/"
             ++ ToString workspaceId ++ js "/views/" ++ ToString viewId)
         (js "GET") JNull).

(** [GET /zoho-analytics/dashboard]; [dashboardId] is
    [req.query.dashboardId]. *)
Definition dashboard_route (dashboardId : jsval) : M server reply :=
  ensureZohoAccessToken
    (if negb (truthy dashboardId) then
       ret (mkReply 400 (JObj [(js "error", JStr (js "Missing dashboardId in request."))]))
     else
       handleZohoApiRequest
         (js "https://analyticsapi.zoho.com/restapi/v2/dashboards/" ++ ToString dashboardId)
         (js "GET") JNull).

(** The process after one more exchange. *)
Definition logged (w : server) (q : http_request) : server :=
  mkServer (zohoAccessToken w)
           (trace w ++ [Exchange q (upstream_server (trace w) q)]).
End Routes.
End Relay.

(* ================================================================= *)
(** ** Vocabulary of the statements *)

Local Open Scope N_scope.

Section jsval_induction.
Variable P : jsval -> Prop.
Hypothesis HU : P JUndefined.
Hypothesis HN : P JNull.
Hypothesis HB : forall b, P (JBool b).
Hypothesis HZ : forall z, P (JNum z).
Hypothesis HF : forall f, P (JFloat f).
Hypothesis HS : forall s, P (JStr s).
Hypothesis HA : forall l, Forall P l -> P (JArr l).
Hypothesis HO : forall kvs, Forall (fun kv => P (snd kv)) kvs -> P (JObj kvs).

Fixpoint jsval_ind (v : jsval) : P v :=
  match v with
  | JUndefined => HU
  | JNull => HN
  | JBool b => HB b
  | JNum z => HZ z
  | JFloat f => HF f
  | JStr s => HS s
  | JArr l =>
      HA l ((fix all (l : list jsval) : Forall P l :=
             match l with
             | [] => Forall_nil P
             | x :: l' => Forall_cons x (jsval_ind x) (all l')
             end) l)
  | JObj kvs =>
      HO kvs ((fix all (kvs : list (jstring * jsval))
             : Forall (fun kv => P (snd kv)) kvs :=
             match kvs with
             | [] => Forall_nil _
             | kv :: r => Forall_cons kv (jsval_ind (snd kv)) (all r)
             end) kvs)
  end.
End jsval_induction.

(** *** Strings and texts *)

(** A Unicode scalar value. *)
Definition scalar (cp : N) : Prop := cp < 1114112 /\ ~ (55296 <= cp <= 57343).

(** The characters of an encoded component: unreserved ones, [%] and
    hexadecimal digits. *)
Definition uri_safe (c : N) : bool := uri_unreserved c || N.eqb c 37.

(** No surrogate is left alone in the string. *)
Fixpoint paired (s : jstring) : bool :=
  match s with
  | [] => true
  | c :: s' =>
      if is_high_surrogate c then
        match s' with
        | d :: s'' => is_low_surrogate d && paired s''
        | [] => false
        end
      else if is_low_surrogate c then false
      else paired s'
  end.

Definition ascii_unit (c : N) : Prop := c < 128.

(** What may follow a value in the text [JSON.stringify] writes. *)
Definition delimited (rest : jstring) : Prop :=
  match rest with
  | [] => True
  | c :: _ => c = 44 \/ c = 93 \/ c = 125
  end.

(** The values that JSON carries: no [undefined]; the finite Numbers,
    but for the negative zero, which [JSON.stringify] writes as [0]
    (an integer below 2^53 in magnitude is a [JNum], any other Number a
    [JFloat]); strings of code units; no property twice. *)
#[local] Unset Elimination Schemes.
Inductive json_safe : jsval -> Prop :=
| safe_null : json_safe JNull
| safe_bool b : json_safe (JBool b)
| safe_num z : (- 9007199254740992 < z < 9007199254740992)%Z -> json_safe (JNum z)
| safe_float neg m e :
    is_binary64 m e = true ->
    number_of_float (S754_finite neg m e) = JFloat (S754_finite neg m e) ->
    json_safe (JFloat (S754_finite neg m e))
| safe_str s : well_typed s -> json_safe (JStr s)
| safe_arr l : Forall json_safe l -> json_safe (JArr l)
| safe_obj kvs :
    NoDup (map fst kvs) ->
    Forall (fun kv => well_typed (fst kv) /\ json_safe (snd kv)) kvs ->
    json_safe (JObj kvs).
#[local] Set Elimination Schemes.

(** The number of values in a value, itself included and each element
    counted once more. *)
Fixpoint size (v : jsval) : nat :=
  match v with
  | JArr l => S (list_sum (map (fun x => S (size x)) l))
  | JObj kvs => S (list_sum (map (fun kv => S (size (snd kv))) kvs))
  | _ => 1
  end.

(** The text of an array element. *)
Definition text (v : jsval) : jstring :=
  match SerializeJSONProperty v with Some t => t | None => js "null" end.

(** The text of a member of an object. *)
Definition member (kv : jstring * jsval) : jstring :=
  QuoteJSONString (fst kv) ++ 58 :: text (snd kv).


(** The first character of a value is not white space and closes nothing. *)
Definition value_start (c : N) : Prop :=
  is_ws c = false /\ c <> 93 /\ c <> 125.

(** What the induction gives for a value. *)
Definition reads_back (v : jsval) : Prop :=
  forall fuel rest, (size v <= fuel)%nat -> delimited rest ->
                    parse_value fuel (text v ++ rest) = Some (v, rest).

(** The reading side of the round trip of [CONFIG]: the query string is
    what follows the first [?], its parameters are separated by [&], and
    the value of the parameter named [CONFIG] goes through
    [decodeURIComponent] and [JSON.parse]. *)
Fixpoint after_char (c : N) (s : jstring) : option jstring :=
  match s with
  | [] => None
  | x :: s' => if N.eqb x c then Some s' else after_char c s'
  end.

Fixpoint parameter (name : jstring) (pieces : list jstring) : option jstring :=
  match pieces with
  | [] => None
  | p :: rest =>
      if startsWith p (name ++ [61])
      then Some (skipn (Datatypes.length name + 1) p)
      else parameter name rest
  end.

Definition upstream_config (path : jstring) : option jsval :=
  match after_char 63 path with
  | None => None
  | Some query =>
      match parameter (js "CONFIG") (split [38] query) with
      | None => None
      | Some value =>
          match decodeURIComponent value with
          | Some t => JSON_parse t
          | None => None
          end
      end
  end.

Local Close Scope N_scope.

(** *** Worlds and requests *)

Definition with_token (t : jsval) (w : world) : world :=
  mkWorld t (store w) (trace w) (files w).

(** The object a [config] argument stands for, once the header is stamped. *)
Definition config_of (w : world) (header : nat) (hdr : obj) (config : option nat)
  : option (option obj) :=
  match config with
  | None => Some None
  | Some c =>
      match nth_error (replace_nth header (stamp (accessToken w) hdr) (store w)) c with
      | Some o => Some (Some o)
      | None => None
      end
  end.

(** The request of [sendV2Request] for a token, a header and a path. *)
Definition v2_request (uriPath reqMethod : jstring) (tok : jsval) (hdr : obj)
           (path : jstring) : http_request :=
  mkRequest (js "https://" ++ analyticsURI ++ path) reqMethod (stamp tok hdr) NoBody.

(** [await] of what a sender returned. *)
Definition awaited (r : result settled) : result jsval :=
  match r with
  | Ok (Fulfilled v) => Ok v
  | Ok (Rejected e) => Throw (Value e)
  | Ok Pending => Hang
  | Throw e => Throw e
  | Uncaught e => Uncaught e
  | Hang => Hang
  end.

(** [m] touches no object but the one at [header]. *)
Definition framed {A} (header : nat) (m : M world A) : Prop :=
  forall w res w', m w = (res, w') ->
    forall c, c <> header -> nth_error (store w') c = nth_error (store w) c.

(** The [batchKey] a reply hands over. *)
Definition reply_batchKey (r : http_reply) : option jsval :=
  match batch_result r with
  | Ok (Fulfilled d) => get_prop d (js "batchKey")
  | _ => None
  end.

(** An upstream that takes every batch: each reply is a 200 whose [data]
    is there. *)
Definition accepts (server : upstream) : Prop :=
  forall tr q, exists d, batch_result (server tr q) = Ok (Fulfilled d) /\ nullish d = false.

Section ClientVocabulary.
Variable server : upstream.
Variable this : credentials.

(** The world after one more exchange. *)
Definition logged (w : world) (q : http_request) : world :=
  mkWorld (accessToken w) (store w)
          (trace w ++ [Exchange q (server (trace w) q)]) (files w).

(** The world a sender leaves: the header stamped, one exchange more. *)
Definition sent (w : world) (header : nat) (hdr : obj) (q : http_request) : world :=
  mkWorld (accessToken w)
          (replace_nth header (stamp (accessToken w) hdr) (store w))
          (trace w ++ [Exchange q (server (trace w) q)]) (files w).

(** [handleV2Request] after its first attempt. *)
Definition after_first_attempt (uriPath method : jstring) (config : option nat)
           (header : nat) (isExportReq : bool) (p : settled) : M world jsval :=
  match p with
  | Fulfilled v => ret v
  | Pending => hang
  | Rejected error =>
      code <- or_throw TypeError (get_prop error (js "errorCode")) ;;
      if is_expiry_code code then
        fetch_token server this ;;;
        p' <- sendV2Request server uriPath method config header isExportReq ;;
        await p'
      else throw (Value error)
  end.

End ClientVocabulary.

Section BatchVocabulary.
Variable EOL : jstring.
Variables uriPath fileHeader : jstring.
Variable fileContent : list jstring.
Variables batchSize totalBatchCount : nat.

(** The value of [isLastBatch] for batch [i]. *)
Definition isLastBatch (i : nat) : jsval :=
  JStr (if Nat.eqb i (totalBatchCount - 1) then js "true" else js "false").

(** The text of batch [i]: the header line, then the lines of the batch. *)
Definition batch_text (i : nat) : jstring :=
  fileHeader ++ join EOL (firstn batchSize (skipn (i * batchSize) fileContent)).

(** Batch [i] as it is sent, with the cursor [key]. *)
Definition is_batch (i : nat) (key : jsval) (q : http_request) : Prop :=
  exists cfg e,
    encodedConfig cfg = Some e
    /\ url q = js "https://" ++ analyticsURI ++ uriPath ++ js "?" ++ js "CONFIG"
                  ++ js "=" ++ e
    /\ lookup (js "batchKey") cfg = Some key
    /\ lookup (js "isLastBatch") cfg = Some (isLastBatch i)
    /\ method q = js "POST"
    /\ payload q = FormFile (js "FILE") (js "batch.csv") (Buffer_from (batch_text i)).

(** Batches [i], [i+1], ... in a row, each with the cursor of the
    reply before it. *)
Fixpoint batches_from (i : nat) (key : jsval) (chunks : list (http_request * http_reply))
  : Prop :=
  match chunks with
  | [] => True
  | (q, r) :: rest =>
      is_batch i key q
      /\ exists key', reply_batchKey r = Some key' /\ batches_from (S i) key' rest
  end.

Definition chunk_events (chunks : list (http_request * http_reply)) : list event :=
  flat_map (fun c => [Exchange (fst c) (snd c); Sleep 2000]) chunks.

End BatchVocabulary.

(* ================================================================= *)
(** ** More of [AnalyticsClient] and of the facade classes *)

Section Imports.
Variable server : upstream.
Variable this : credentials.

(** [sendImportRequest]; [data] is [None] for [null].  With [data] the
    text goes in the form field [DATA], and [Content-Type] is written
    into the caller's [header]; without, the file at [filePath] is
    streamed in the form field [FILE], and a file that cannot be opened
    rejects the promise before anything is sent. *)
Definition sendImportRequest (uriPath : jstring) (config : option nat) (header : nat)
           (filePath : jstring) (data : option jstring) : M world settled :=
  stamp_headers header ;;;
  cfg <- read_config config ;;
  path <- or_throw URIError (config_path_always uriPath cfg) ;;
  let url := js "https://" ++ analyticsURI ++ path in
  match data with
  | Some d =>
      set_prop header (js "Content-Type")
               (JStr (js "application/x-www-form-urlencoded")) ;;;
      hdr <- read_obj header ;;
      r <- exchange server (mkRequest url (js "POST") hdr (FormField (js "DATA") d)) ;;
      lift (batch_result r)
  | None =>
      fun w =>
        match find_file filePath (files w) with
        | None => (Ok (Rejected (file_error filePath)), w)
        | Some content =>
            (hdr <- read_obj header ;;
             r <- exchange server
                    (mkRequest url (js "POST") hdr (FormFile (js "FILE") filePath content)) ;;
             lift (batch_result r)) w
        end
  end.

Definition handleImportRequest (uriPath : jstring) (config : option nat) (header : nat)
           (filePath : jstring) (data : option jstring) : M world jsval :=
  ensure_token server this ;;;
  p <- sendImportRequest uriPath config header filePath data ;;
  match p with
  | Fulfilled v => ret v
  | Pending => hang
  | Rejected error =>
      code <- or_throw TypeError (get_prop error (js "errorCode")) ;;
      if is_expiry_code code then
        fetch_token server this ;;;
        p' <- sendImportRequest uriPath config header filePath data ;;
        await p'
      else throw (Value error)
  end.

(** [AnalyticsClient.getSharedWorkspaces]: the [config] argument is not
    passed on. *)
Definition getSharedWorkspaces (config : option nat) : M world jsval :=
  _ <- default_config config ;;
  let uriPath := js "/restapi/v2/workspaces/shared" in
  header <- alloc [] ;;
  result <- handleV2Request server this uriPath (js "GET") None header false ;;
  or_throw TypeError (get_prop result (js "workspaces")).

End Imports.

Module WorkspaceAPI.
Section Methods.
Variable server : upstream.
Variable this : credentials.
(** [this.uriPath] and [this.header]. *)
Variable uriPath : jstring.
Variable header : nat.

(** [copy]; [reqHeader] is [this.header] itself. *)
Definition copy (workspaceName : jsval) (config : option nat) (destOrgId : jsval)
  : M world jsval :=
  config <- default_config config ;;
  set_prop config (js "newWorkspaceName") workspaceName ;;;
  let reqHeader := header in
  (if negb (nullish destOrgId)
   then set_prop reqHeader (js "ZANALYTICS-DEST-ORGID") destOrgId
   else ret tt) ;;;
  result <- handleV2Request server this uriPath (js "POST") (Some config) reqHeader false ;;
  or_throw TypeError (get_prop result (js "workspaceId")).

End Methods.
End WorkspaceAPI.

Module ViewAPI.
Section Methods.
Variable server : upstream.
Variable this : credentials.
Variable uriPath : jstring.
Variable header : nat.

(** [deleteRow]; [criteria] is a string or [null] ([None]). *)
Definition deleteRow (criteria : option jstring) (config : option nat) : M world jsval :=
  config <- default_config config ;;
  let uriPath := uriPath ++ js "/rows" in
  (match criteria with
   | Some (c :: s) => set_prop config (js "criteria") (JStr (c :: s))
   | _ => ret tt
   end) ;;;
  result <- handleV2Request server this uriPath (js "DELETE") (Some config) header false ;;
  or_throw TypeError (get_prop result (js "deletedRows")).
End Methods.
End ViewAPI.

Module BulkAPI.
Section Methods.
Variable server : upstream.
Variable this : credentials.
Variable EOL : jstring.
(** [this.uriPath], [this.bulkUriPath] and [this.header]. *)
Variables uriPath bulkUriPath : jstring.
Variable header : nat.

Definition importDataInNewTableAsBatches (tableName autoIdentify : jsval)
           (filePath : jstring) (batchSize : nat) (config : option nat) : M world jsval :=
  config <- default_config config ;;
  let uriPath := bulkUriPath ++ js "/data/batch" in
  set_prop config (js "tableName") tableName ;;;
  set_prop config (js "autoIdentify") autoIdentify ;;;
  handleBatchImportRequest server this EOL uriPath config header filePath batchSize.

Definition exportData (viewId responseFormat : jsval) (filePath : jstring)
           (config : option nat) : M world jsval :=
  config <- default_config config ;;
  let uriPath := uriPath ++ js "/views/" ++ ToString viewId ++ js "/data" in
  set_prop config (js "responseFormat") responseFormat ;;;
  _ <- handleExportRequest server this uriPath filePath (Some config) header ;;
  ret JUndefined.

Definition exportBulkData (jobId : jsval) (filePath : jstring) : M world jsval :=
  let uriPath := bulkUriPath ++ js "/exportjobs/" ++ ToString jobId ++ js "/data" in
  _ <- handleExportRequest server this uriPath filePath None header ;;
  ret JUndefined.
End Methods.
End BulkAPI.

(** *** What a computation leaves alone *)

(** [m] writes no file, makes and drops no object, and only adds
    exchanges to the trace. *)
Definition quiet {A} (m : M world A) : Prop :=
  forall w res w', m w = (res, w') ->
    files w' = files w
    /\ Datatypes.length (store w') = Datatypes.length (store w)
    /\ exists rest, trace w' = trace w ++ rest
                    /\ Forall (fun e => exists q r, e = Exchange q r) rest.

(** [m] leaves the key [k] of the object at [header] with the value [v]. *)
Definition keeps {A} (header : nat) (k : jstring) (v : jsval) (m : M world A) : Prop :=
  forall w res w', m w = (res, w') ->
    (exists hdr, nth_error (store w) header = Some hdr /\ lookup k hdr = Some v) ->
    exists hdr', nth_error (store w') header = Some hdr' /\ lookup k hdr' = Some v.

(** The request carries [cfg] as its [CONFIG] parameter. *)
Definition config_sent (uriPath : jstring) (q : http_request) (cfg : obj) : Prop :=
  exists e, encodedConfig cfg = Some e
            /\ url q = js "https://" ++ analyticsURI ++ uriPath ++ js "?CONFIG=" ++ e.

(** [cfg'] is [cfg] but for the two keys the loop of the batch import
    writes. *)
Definition same_options (cfg cfg' : obj) : Prop :=
  forall k, k <> js "isLastBatch" -> k <> js "batchKey" -> lookup k cfg' = lookup k cfg.

(* ================================================================= *)
(** ** Examples *)

(** The number of exchanges in a trace. *)
Definition exchanges (tr : list event) : nat :=
  Datatypes.length
    (filter (fun e => match e with Exchange _ _ => true | Sleep _ => false end) tr).

(** An upstream that gives its replies in order, whatever the request. *)
Definition scripted (replies : list http_reply) : upstream :=
  fun tr _ => nth (exchanges tr) replies (NetworkError (js "ECONNRESET")).

(** An upstream that always gives the same reply. *)
Definition always (r : http_reply) : upstream := fun _ _ => r.

(** A reply whose body is the JSON text of a value. *)
Definition json_reply (statusCode : N) (v : jsval) : http_reply :=
  Response statusCode [Buffer_from (text v)].

Definition demo_credentials : credentials :=
  mkCredentials (js "1000.ABC") (js "secret") (js "1000.refresh").

(** Credentials with a surrogate left alone in the secret. *)
Definition odd_credentials : credentials :=
  mkCredentials (js "1000.ABC") (js "se" ++ [55296%N] ++ js "cret") (js "1000.refresh").

Definition demo_header : obj := [(js "ZANALYTICS-ORGID", JStr (js "55"))].
Definition demo_config : obj := [(js "k", JNum 5)].

(** A client with the token [tokOld]; object 0 is the header of a
    facade, object 1 a caller's [config], and there is a file of three
    rows under a header line. *)
Definition demo_world : world :=
  mkWorld (JStr (js "tokOld")) [demo_header; demo_config] []
          [(js "rows.csv",
            Buffer_from (js "id,name" ++ [10%N] ++ js "1,a" ++ [10%N] ++ js "2,b"
                            ++ [10%N] ++ js "3,c"))].

(** The same client with a file that ends with the line terminator. *)
Definition ended_world : world :=
  mkWorld (JStr (js "tokOld")) [demo_header; demo_config] []
          [(js "rows.csv",
            Buffer_from (js "id,name" ++ [10%N] ++ js "1,a" ++ [10%N] ++ js "2,b"
                            ++ [10%N]))].


(** The same client before its first request. *)
Definition fresh_world : world :=
  mkWorld JNull (store demo_world) [] (files demo_world).

Definition expiry_error : jsval :=
  JObj [(js "errorCode", JNum 8535); (js "errorMessage", JStr (js "Invalid OAuth token"))].
Definition other_error : jsval :=
  JObj [(js "errorCode", JNum 7103); (js "errorMessage", JStr (js "Workspace not found"))].
Definition view_data : jsval := JObj [(js "views", JObj [(js "viewId", JStr (js "456"))])].

Definition envelope (status : string) (data : jsval) : jsval :=
  JObj [(js "status", JStr (js status)); (js "data", data)].

Definition expired : http_reply := json_reply 400 (envelope "failure" expiry_error).
Definition not_found : http_reply := json_reply 404 (envelope "failure" other_error).
Definition token_reply : http_reply :=
  json_reply 200 (JObj [(js "access_token", JStr (js "tokNew")); (js "expires_in", JNum 3600)]).
Definition view_reply : http_reply := json_reply 200 (envelope "success" view_data).
Definition unauthorized : http_reply :=
  json_reply 401 (JObj [(js "code", JStr (js "INVALID_OAUTHTOKEN"))]).

Definition demo_path : jstring := js "/restapi/v2/views/456".

(** The relay with no token yet, and with one. *)
Definition relay_start : Relay.server := Relay.mkServer (JStr []) [].
Definition relay_ready : Relay.server := Relay.mkServer (JStr (js "tokOld")) [].
Definition demo_url : jstring :=
  js "https://analyticsapi.zoho.com/restapi/v2/workspaces/123/views/456".

Definition refused_reply : http_reply :=
  json_reply 400 (JObj [(js "error", JStr (js "invalid_client"))]).

(** A reply 201 whose body is an envelope with data. *)
Definition created_reply : http_reply := json_reply 201 (envelope "success" view_data).

(** Two bodies that are not JSON and not UTF-8 either. *)
Definition raw_reply : http_reply := Response 200 [[255%N; 0%N; 123%N]].
Definition other_raw_reply : http_reply := Response 200 [[254%N; 0%N; 123%N]].

(** The reply to the creation of a workspace. *)
Definition workspace_reply : http_reply :=
  json_reply 200 (envelope "success" (JObj [(js "workspaceId", JStr (js "123"))])).

(** An upstream that takes every batch and hands over one of two
    cursors in turn. *)
Definition batch_server : upstream :=
  fun tr _ =>
    json_reply 200
      (envelope "success"
         (JObj [(js "batchKey", JStr (if Nat.even (exchanges tr) then js "k1" else js "k2"));
                (js "jobId", JStr (js "77"))])).

(** The body of a request for a report. *)
Definition report_body : obj :=
  [(js "workspaceId", JStr (js "123")); (js "viewId", JStr (js "456"))].

(* ================================================================= *)
(** * Properties *)

(** ** Status codes *)

(** A property checked on every number of a range. *)
Lemma forall_range (P : N -> bool) (lo n : nat) :
  forallb P (map N.of_nat (seq lo n)) = true ->
  forall x : N, (lo <= N.to_nat x < lo + n)%nat -> P x = true.
Proof.
  intros H x Hx. rewrite forallb_forall in H. apply H.
  apply in_map_iff. exists (N.to_nat x). split.
  - apply N2Nat.id.
  - apply in_seq. exact Hx.
Qed.


(** For a status code of three digits, [respCode.startsWith('2')] is the
    test of the range 200 to 299, and [respCode === '200'] the test of 200. *)
Lemma startsWith_2_range (st : N) :
  (100 <= st <= 999)%N ->
  startsWith (respCode st) (js "2") = ((200 <=? st)%N && (st <=? 299)%N)
  /\ jstring_eqb (respCode st) (js "200") = N.eqb st 200.
Proof.
  intros Hst.
  pose (P := fun st : N =>
    Bool.eqb (startsWith (respCode st) (js "2")) ((200 <=? st)%N && (st <=? 299)%N)
    && Bool.eqb (jstring_eqb (respCode st) (js "200")) (N.eqb st 200)).
  assert (HP : P st = true).
  { apply (@forall_range P 100 900); [vm_compute; reflexivity | lia]. }
  unfold P in HP. apply andb_true_iff in HP. destruct HP as [H1 H2].
  apply eqb_prop in H1. apply eqb_prop in H2. split; assumption.
Qed.

(** ** The store *)

Lemma jstring_eqb_refl (s : jstring) : jstring_eqb s s = true.
Proof. induction s as [|c s IH]; simpl; [reflexivity|]. now rewrite N.eqb_refl. Qed.

Lemma jstring_eqb_eq (a b : jstring) : jstring_eqb a b = true <-> a = b.
Proof.
  split.
  - revert b. induction a as [|x a IH]; intros [|y b]; simpl; try discriminate; auto.
    intros H. apply andb_true_iff in H. destruct H as [H1 H2].
    apply N.eqb_eq in H1. subst. f_equal. now apply IH.
  - intros ->. apply jstring_eqb_refl.
Qed.

Lemma lookup_obj_set_eq k v o : lookup k (obj_set k v o) = Some v.
Proof.
  induction o as [|[k' v'] o IH]; simpl.
  - now rewrite jstring_eqb_refl.
  - destruct (jstring_eqb k' k) eqn:E; simpl; rewrite ?jstring_eqb_refl, ?E; auto.
Qed.

Lemma lookup_obj_set_neq k k' v o :
  jstring_eqb k k' = false -> lookup k' (obj_set k v o) = lookup k' o.
Proof.
  intros Hk. induction o as [|[k0 v0] o IH]; simpl.
  - now rewrite Hk.
  - destruct (jstring_eqb k0 k) eqn:E; simpl.
    + apply jstring_eqb_eq in E. subst k0. now rewrite Hk.
    + now rewrite IH.
Qed.

(** Writing to a property the value it has changes nothing. *)
Lemma obj_set_same k v o : lookup k o = Some v -> obj_set k v o = o.
Proof.
  induction o as [|[k' v'] o IH]; simpl; [discriminate|].
  destruct (jstring_eqb k' k) eqn:E.
  - intros [= ->]. apply jstring_eqb_eq in E. now subst.
  - intros H. now rewrite IH.
Qed.

(** Writing twice to a property keeps the second value. *)
Lemma obj_set_twice k v v' o : obj_set k v (obj_set k v' o) = obj_set k v o.
Proof.
  induction o as [|[k0 v0] o IH]; simpl.
  - now rewrite jstring_eqb_refl.
  - destruct (jstring_eqb k0 k) eqn:E; simpl; rewrite ?jstring_eqb_refl, ?E; auto.
    now rewrite IH.
Qed.

Lemma replace_nth_length {A} n (x : A) l :
  Datatypes.length (replace_nth n x l) = Datatypes.length l.
Proof. revert n. induction l; intros [|n]; simpl; auto. Qed.

Lemma nth_error_replace_nth_eq {A} n (x y : A) l :
  nth_error l n = Some y -> nth_error (replace_nth n x l) n = Some x.
Proof. revert n. induction l; intros [|n]; simpl; try discriminate; auto. Qed.

Lemma nth_error_replace_nth_neq {A} n m (x : A) l :
  n <> m -> nth_error (replace_nth n x l) m = nth_error l m.
Proof.
  revert n m. induction l; intros [|n] [|m] H; simpl; auto; try congruence.
Qed.

Lemma replace_nth_twice {A} n (x y : A) l :
  replace_nth n x (replace_nth n y l) = replace_nth n x l.
Proof. revert n. induction l; intros [|n]; simpl; auto. now rewrite IHl. Qed.

(** Stamping a stamped header only replaces the token. *)
Lemma stamp_stamp t tok hdr :
  stamp t (stamp tok hdr)
  = obj_set (js "Authorization") (JStr (js "Zoho-oauthtoken " ++ ToString t)) (stamp tok hdr).
Proof.
  unfold stamp at 1. f_equal. apply obj_set_same.
  unfold stamp. rewrite lookup_obj_set_neq by reflexivity.
  apply lookup_obj_set_eq.
Qed.

Lemma lookup_stamp_Authorization tok hdr :
  lookup (js "Authorization") (stamp tok hdr)
  = Some (JStr (js "Zoho-oauthtoken " ++ ToString tok)).
Proof. apply lookup_obj_set_eq. Qed.

(** ** Running the monad *)

Lemma bind_Ok {St A B} (m : M St A) (k : A -> M St B) w a w' :
  m w = (Ok a, w') -> bind m k w = k a w'.
Proof. unfold bind. now intros ->. Qed.

Lemma bind_Throw {St A B} (m : M St A) (k : A -> M St B) w e w' :
  m w = (Throw e, w') -> bind m k w = (Throw e, w').
Proof. unfold bind. now intros ->. Qed.

Lemma bind_Uncaught {St A B} (m : M St A) (k : A -> M St B) w e w' :
  m w = (Uncaught e, w') -> bind m k w = (Uncaught e, w').
Proof. unfold bind. now intros ->. Qed.

Lemma bind_Hang {St A B} (m : M St A) (k : A -> M St B) w w' :
  m w = (Hang, w') -> bind m k w = (Hang, w').
Proof. unfold bind. now intros ->. Qed.

Section ClientFacts.
Variable server : upstream.
Variable this : credentials.

Lemma stamp_headers_eq header w hdr :
  nth_error (store w) header = Some hdr ->
  stamp_headers header w
  = (Ok tt, mkWorld (accessToken w)
                    (replace_nth header (stamp (accessToken w) hdr) (store w))
                    (trace w) (files w)).
Proof.
  intros H. unfold stamp_headers, bind, set_prop, get_accessToken. simpl.
  rewrite H. simpl.
  rewrite (nth_error_replace_nth_eq _ _ _ _ H). simpl.
  now rewrite replace_nth_twice.
Qed.

Lemma stamp_headers_none header w :
  nth_error (store w) header = None ->
  stamp_headers header w = (Throw TypeError, w).
Proof.
  intros H. unfold stamp_headers, bind, set_prop. now rewrite H.
Qed.


(** [sendV2Request] sends one request, when nothing throws before. *)
Lemma sendV2Request_eq uriPath reqMethod config header isExportReq w hdr cfg path :
  nth_error (store w) header = Some hdr ->
  config_of w header hdr config = Some cfg ->
  config_path uriPath cfg = Some path ->
  sendV2Request server uriPath reqMethod config header isExportReq w
  = (v2_result isExportReq
       (server (trace w) (v2_request uriPath reqMethod (accessToken w) hdr path)),
     sent server w header hdr (v2_request uriPath reqMethod (accessToken w) hdr path)).
Proof.
  intros Hh Hc Hp. unfold sendV2Request.
  rewrite (bind_Ok _ _ _ _ _ (stamp_headers_eq _ _ _ Hh)).
  assert (Hr : read_config config
                 (mkWorld (accessToken w)
                          (replace_nth header (stamp (accessToken w) hdr) (store w))
                          (trace w) (files w))
               = (Ok cfg, mkWorld (accessToken w)
                          (replace_nth header (stamp (accessToken w) hdr) (store w))
                          (trace w) (files w))).
  { unfold config_of in Hc. destruct config as [c|]; simpl.
    - unfold bind, read_obj, ret. simpl.
      destruct (nth_error _ c); inversion Hc; reflexivity.
    - inversion Hc; reflexivity. }
  rewrite (bind_Ok _ _ _ _ _ Hr). rewrite Hp. unfold or_throw at 1.
  unfold bind, ret, read_obj, exchange, lift; simpl.
  rewrite (nth_error_replace_nth_eq _ _ _ _ Hh). reflexivity.
Qed.

(** Conversely, a run of [sendV2Request] either throws before any
    request, leaving the world as it was, or is the run above. *)
Lemma sendV2Request_inv uriPath reqMethod config header isExportReq w res w1 :
  sendV2Request server uriPath reqMethod config header isExportReq w = (res, w1) ->
  (exists e, res = Throw e /\ trace w1 = trace w /\ accessToken w1 = accessToken w)
  \/ exists hdr cfg path,
      nth_error (store w) header = Some hdr
      /\ config_of w header hdr config = Some cfg
      /\ config_path uriPath cfg = Some path
      /\ res = v2_result isExportReq
                 (server (trace w) (v2_request uriPath reqMethod (accessToken w) hdr path))
      /\ w1 = sent server w header hdr (v2_request uriPath reqMethod (accessToken w) hdr path).
Proof.
  intros H.
  destruct (nth_error (store w) header) as [hdr|] eqn:Hh.
  - destruct (config_of w header hdr config) as [cfg|] eqn:Hc.
    + destruct (config_path uriPath cfg) as [path|] eqn:Hp.
      * right. exists hdr, cfg, path.
        rewrite (sendV2Request_eq _ _ _ _ isExportReq _ _ _ _ Hh Hc Hp) in H.
        injection H as Hres Hw. subst res w1. auto 6.
      * left. revert H. unfold sendV2Request.
        rewrite (bind_Ok _ _ _ _ _ (stamp_headers_eq _ _ _ Hh)).
        unfold config_of in Hc. destruct config as [c|]; simpl in *.
        -- unfold bind, read_obj, ret, or_throw, throw. simpl.
           destruct (nth_error _ c); inversion Hc; subst. rewrite Hp.
           intros [= <- <-]. eexists; repeat split.
        -- inversion Hc; subst. simpl in Hp. discriminate.
    + left. revert H. unfold sendV2Request.
      rewrite (bind_Ok _ _ _ _ _ (stamp_headers_eq _ _ _ Hh)).
      unfold config_of in Hc. destruct config as [c|]; simpl in *; [|discriminate].
      unfold bind, read_obj. simpl. destruct (nth_error _ c); [discriminate|].
      intros [= <- <-]. eexists; repeat split.
  - left. unfold sendV2Request in H.
    rewrite (bind_Throw _ _ _ _ _ (stamp_headers_none _ _ Hh)) in H.
    inversion H; subst. eexists; repeat split.
Qed.


(** [getOauth] sends one request, unless the parameters cannot be
    encoded. *)
Lemma getOauth_eq w :
  getOauth server this w
  = match querystring_stringify
            (oauthinfo (clientId this) (clientSecret this) (refreshToken this)) with
    | Some p => (oauth_result (server (trace w) (oauth_request p)),
                 logged server w (oauth_request p))
    | None => (Throw URIError, w)
    end.
Proof.
  unfold getOauth, bind, or_throw.
  destruct (querystring_stringify _); reflexivity.
Qed.

Lemma getOauth_inv w res w1 :
  getOauth server this w = (res, w1) ->
  (res = Throw URIError /\ w1 = w)
  \/ exists p,
      querystring_stringify
        (oauthinfo (clientId this) (clientSecret this) (refreshToken this)) = Some p
      /\ res = oauth_result (server (trace w) (oauth_request p))
      /\ w1 = logged server w (oauth_request p).
Proof.
  rewrite getOauth_eq. destruct (querystring_stringify _) as [p|].
  - intros [= <- <-]. right. now exists p.
  - intros [= <- <-]. now left.
Qed.

Lemma fetch_token_Ok w t w1 :
  getOauth server this w = (Ok (Fulfilled t), w1) ->
  fetch_token server this w = (Ok tt, with_token t w1).
Proof.
  intros H. unfold fetch_token. rewrite (bind_Ok _ _ _ _ _ H). reflexivity.
Qed.

Lemma ensure_token_cached w :
  nullish (accessToken w) = false -> ensure_token server this w = (Ok tt, w).
Proof.
  intros H. unfold ensure_token, bind, get_accessToken. now rewrite H.
Qed.

Lemma ensure_token_fetch w t w1 :
  nullish (accessToken w) = true ->
  getOauth server this w = (Ok (Fulfilled t), w1) ->
  ensure_token server this w = (Ok tt, with_token t w1).
Proof.
  intros H Hg. unfold ensure_token, bind, get_accessToken. rewrite H.
  now apply fetch_token_Ok.
Qed.


Lemma bind_await (m : M world settled) w r w' :
  m w = (r, w') -> bind m await w = (awaited r, w').
Proof. unfold bind. intros ->. destruct r as [[v|e|]|e|e|]; reflexivity. Qed.

Lemma getOauth_extends w res w1 :
  getOauth server this w = (res, w1) ->
  exists rest, trace w1 = trace w ++ rest /\ store w1 = store w.
Proof.
  intros H. apply getOauth_inv in H. destruct H as [[_ ->]|(p & _ & _ & ->)].
  - exists []. now rewrite app_nil_r.
  - eexists. split; reflexivity.
Qed.

Lemma fetch_token_extends w res w1 :
  fetch_token server this w = (res, w1) ->
  exists rest, trace w1 = trace w ++ rest /\ store w1 = store w.
Proof.
  unfold fetch_token. unfold bind at 1.
  destruct (getOauth server this w) as [r w'] eqn:Hg.
  apply getOauth_extends in Hg. destruct Hg as (rest & Ht & Hs).
  destruct r as [[v|e|]|e|e|]; simpl; intros [= <- <-]; exists rest; auto.
Qed.

Lemma sendV2Request_extends uriPath reqMethod config header isExportReq w res w1 :
  sendV2Request server uriPath reqMethod config header isExportReq w = (res, w1) ->
  exists rest, trace w1 = trace w ++ rest.
Proof.
  intros H. apply sendV2Request_inv in H.
  destruct H as [(e & _ & Ht & _)|(hdr & cfg & path & _ & _ & _ & _ & ->)].
  - exists []. now rewrite app_nil_r.
  - eexists. reflexivity.
Qed.


Lemma handleV2Request_first uriPath method config header isExportReq w w0 p w1 :
  ensure_token server this w = (Ok tt, w0) ->
  sendV2Request server uriPath method config header isExportReq w0 = (Ok p, w1) ->
  handleV2Request server this uriPath method config header isExportReq w
  = after_first_attempt server this uriPath method config header isExportReq p w1.
Proof.
  intros He Hs. unfold handleV2Request.
  rewrite (bind_Ok _ _ _ _ _ He). rewrite (bind_Ok _ _ _ _ _ Hs).
  destruct p; reflexivity.
Qed.

Lemma after_first_attempt_extends uriPath method config header isExportReq p w res w' :
  after_first_attempt server this uriPath method config header isExportReq p w = (res, w') ->
  exists rest, trace w' = trace w ++ rest.
Proof.
  destruct p as [v|error|]; simpl.
  - intros [= <- <-]. exists []. now rewrite app_nil_r.
  - unfold bind at 1. destruct (get_prop error (js "errorCode")) as [code|]; simpl.
    + destruct (is_expiry_code code).
      * unfold bind at 1.
        destruct (fetch_token server this w) as [r1 w1] eqn:Hf.
        apply fetch_token_extends in Hf. destruct Hf as (rest1 & Ht1 & _).
        destruct r1 as [[]|e|e|]; try (intros [= <- <-]; now exists rest1).
        unfold bind at 1.
        destruct (sendV2Request server uriPath method config header isExportReq w1)
          as [r2 w2] eqn:Hs.
        apply sendV2Request_extends in Hs. destruct Hs as (rest2 & Ht2).
        assert (Hx : trace w2 = trace w ++ (rest1 ++ rest2))
          by (rewrite Ht2, Ht1; now rewrite app_assoc).
        destruct r2 as [[v|e|]|e|e|]; simpl; intros [= <- <-]; eexists; exact Hx.
      * intros [= <- <-]. exists []. now rewrite app_nil_r.
    + intros [= <- <-]. exists []. now rewrite app_nil_r.
  - intros [= <- <-]. exists []. now rewrite app_nil_r.
Qed.

(** *** One refresh and one retry *)

Lemma handleV2Request_retry_once
      uriPath method config header isExportReq w w0 error code w1 t w2 :
  config <> Some header ->
  ensure_token server this w = (Ok tt, w0) ->
  sendV2Request server uriPath method config header isExportReq w0
  = (Ok (Rejected error), w1) ->
  get_prop error (js "errorCode") = Some code ->
  is_expiry_code code = true ->
  getOauth server this w1 = (Ok (Fulfilled t), w2) ->
  exists hdr path p w3,
    let q1 := v2_request uriPath method (accessToken w0) hdr path in
    let q2 := v2_request uriPath method t (headers q1) path in
    let r1 := server (trace w0) q1 in
    let ro := server (trace w1) (oauth_request p) in
    let r2 := server (trace w2) q2 in
    handleV2Request server this uriPath method config header isExportReq w
    = (awaited (v2_result isExportReq r2), w3)
    /\ trace w3 = trace w0 ++ [Exchange q1 r1; Exchange (oauth_request p) ro; Exchange q2 r2]
    /\ headers q2
       = obj_set (js "Authorization") (JStr (js "Zoho-oauthtoken " ++ ToString t)) (headers q1)
    /\ accessToken w3 = t.
Proof.
  intros Hne He Hs Hcode Hexp Hg.
  erewrite handleV2Request_first; [|exact He|exact Hs]. simpl.
  rewrite Hcode. unfold or_throw. unfold bind at 1. unfold ret at 1. rewrite Hexp.
  rewrite (bind_Ok _ _ _ _ _ (fetch_token_Ok _ _ _ Hg)).
  pose proof Hs as Hs'. apply sendV2Request_inv in Hs'.
  destruct Hs' as [(e & He' & _)|(hdr & cfg & path & Hh & Hc & Hp & Hr & Hw1)];
    [discriminate|].
  pose proof Hg as Hg'. apply getOauth_inv in Hg'.
  destruct Hg' as [[Hx _]|(p & Hq & Hro & Hw2)]; [discriminate|].
  exists hdr, path, p.
  assert (Hh2 : nth_error (store (with_token t w2)) header
                = Some (stamp (accessToken w0) hdr)).
  { subst w2 w1. simpl. now apply nth_error_replace_nth_eq with (y := hdr). }
  assert (Hc2 : config_of (with_token t w2) header (stamp (accessToken w0) hdr) config
                = Some cfg).
  { subst w2 w1. unfold config_of in *. simpl. destruct config as [c|]; [|exact Hc].
    assert (c <> header) by congruence.
    rewrite replace_nth_twice.
    rewrite nth_error_replace_nth_neq by congruence.
    rewrite nth_error_replace_nth_neq in Hc by congruence. exact Hc. }
  erewrite bind_await; [|eapply sendV2Request_eq; eassumption].
  eexists. split; [subst w2 w1; reflexivity|]. subst w2 w1. simpl.
  split; [now rewrite <- !app_assoc|].
  split; [apply stamp_stamp | reflexivity].
Qed.

(** The reply recorded by a run of [sendV2Request] decides its result. *)
Lemma sendV2Request_reply uriPath reqMethod config header isExportReq w res w1 q r :
  sendV2Request server uriPath reqMethod config header isExportReq w = (res, w1) ->
  trace w1 = trace w ++ [Exchange q r] ->
  res = v2_result isExportReq r.
Proof.
  intros Hs Ht. apply sendV2Request_inv in Hs.
  destruct Hs as [(e & _ & Ht' & _)|(hdr & cfg & path & _ & _ & _ & -> & ->)].
  - rewrite Ht' in Ht. apply (f_equal (@Datatypes.length event)) in Ht.
    rewrite length_app in Ht. simpl in Ht. lia.
  - simpl in Ht. apply app_inv_head in Ht. now inversion Ht.
Qed.

Lemma end_handler_failed isExportReq st data respJSON err :
  startsWith (respCode st) (js "2") = false ->
  JSON_parse data = Some respJSON ->
  get_prop respJSON (js "data") = Some err ->
  end_handler isExportReq st data = ([CallReject err; CallResolve JUndefined], None).
Proof. intros H1 H2 H3. unfold end_handler. now rewrite H1, H2, H3. Qed.

Lemma end_handler_export st data :
  startsWith (respCode st) (js "2") = true ->
  end_handler true st data = ([CallResolve (JStr data); CallResolve JUndefined], None).
Proof. intros H1. unfold end_handler. now rewrite H1. Qed.

Lemma end_handler_no_content st data :
  startsWith (respCode st) (js "2") = true ->
  jstring_eqb (respCode st) (js "200") = false ->
  end_handler false st data = ([CallResolve JUndefined], None).
Proof. intros H1 H2. unfold end_handler. now rewrite H1, H2. Qed.

(** *** A failure that is not the expiry of the token *)

Lemma handleV2Request_api_error
      uriPath method config header isExportReq w w0 res1 w1 q status chunks
      respJSON err code :
  ensure_token server this w = (Ok tt, w0) ->
  sendV2Request server uriPath method config header isExportReq w0 = (res1, w1) ->
  trace w1 = trace w0 ++ [Exchange q (Response status chunks)] ->
  (100 <= status <= 999)%N ->
  ((200 <=? status)%N && (status <=? 299)%N) = false ->
  JSON_parse (Buffer_toString (body_octets chunks)) = Some respJSON ->
  get_prop respJSON (js "data") = Some err ->
  get_prop err (js "errorCode") = Some code ->
  is_expiry_code code = false ->
  res1 = Ok (Rejected err)
  /\ handleV2Request server this uriPath method config header isExportReq w
     = (Throw (Value err), w1).
Proof.
  intros He Hs Ht Hst Hrange Hj Hd Hc Hx.
  assert (Hres : res1 = Ok (Rejected err)).
  { rewrite (sendV2Request_reply _ _ _ _ _ _ _ _ _ _ Hs Ht). cbn [v2_result].
    rewrite (end_handler_failed isExportReq status _ respJSON err); auto.
    destruct (startsWith_2_range _ Hst) as [-> _]. exact Hrange. }
  split; [exact Hres|]. subst res1.
  erewrite handleV2Request_first; [|exact He|exact Hs]. simpl.
  rewrite Hc. unfold or_throw, bind, ret. now rewrite Hx.
Qed.

(** *** A success without chunks *)

Lemma handleV2Request_no_content
      uriPath method config header w w0 res1 w1 q status chunks :
  ensure_token server this w = (Ok tt, w0) ->
  sendV2Request server uriPath method config header false w0 = (res1, w1) ->
  trace w1 = trace w0 ++ [Exchange q (Response status chunks)] ->
  (200 <= status <= 299)%N ->
  status <> 200%N ->
  res1 = Ok (Fulfilled JUndefined)
  /\ handleV2Request server this uriPath method config header false w
     = (Ok JUndefined, w1).
Proof.
  intros He Hs Ht Hst Hne.
  assert (Hres : res1 = Ok (Fulfilled JUndefined)).
  { rewrite (sendV2Request_reply _ _ _ _ _ _ _ _ _ _ Hs Ht). cbn [v2_result].
    assert (H3 : (100 <= status <= 999)%N) by lia.
    destruct (startsWith_2_range _ H3) as [H1 H2].
    rewrite end_handler_no_content; [reflexivity| |].
    - rewrite H1. apply andb_true_iff. split; apply N.leb_le; lia.
    - rewrite H2. now apply N.eqb_neq. }
  split; [exact Hres|]. subst res1.
  erewrite handleV2Request_first; [|exact He|exact Hs]. reflexivity.
Qed.

(** *** An export through [sendV2Request] *)

Lemma handleV2Request_export
      uriPath method config header w w0 res1 w1 q chunks :
  ensure_token server this w = (Ok tt, w0) ->
  sendV2Request server uriPath method config header true w0 = (res1, w1) ->
  trace w1 = trace w0 ++ [Exchange q (Response 200 chunks)] ->
  res1 = Ok (Fulfilled (JStr (Buffer_toString (body_octets chunks))))
  /\ handleV2Request server this uriPath method config header true w
     = (Ok (JStr (Buffer_toString (body_octets chunks))), w1).
Proof.
  intros He Hs Ht.
  assert (Hres : res1 = Ok (Fulfilled (JStr (Buffer_toString (body_octets chunks))))).
  { rewrite (sendV2Request_reply _ _ _ _ _ _ _ _ _ _ Hs Ht). cbn [v2_result].
    rewrite end_handler_export; reflexivity. }
  split; [exact Hres|]. subst res1.
  erewrite handleV2Request_first; [|exact He|exact Hs]. reflexivity.
Qed.

(** *** The token fetch before the first request *)


End ClientFacts.

(** ** What a call leaves of the objects it was not given *)


Lemma framed_ret {A} header (a : A) : framed header (ret a).
Proof. intros w res w' [= <- <-]. reflexivity. Qed.

Lemma framed_throw {A} header e : framed header (@throw world A e).
Proof. intros w res w' [= <- <-]. reflexivity. Qed.

Lemma framed_hang {A} header : framed header (@hang world A).
Proof. intros w res w' [= <- <-]. reflexivity. Qed.

Lemma framed_lift {A} header (r : result A) : framed header (lift r).
Proof. intros w res w' [= <- <-]. reflexivity. Qed.

Lemma framed_or_throw {A} header e (o : option A) : framed header (or_throw e o).
Proof. destruct o; [apply framed_ret|apply framed_throw]. Qed.

Lemma framed_await header p : framed header (await p).
Proof. destruct p; [apply framed_ret|apply framed_throw|apply framed_hang]. Qed.

Lemma framed_bind {A B} header (m : M world A) (k : A -> M world B) :
  framed header m -> (forall a, framed header (k a)) -> framed header (bind m k).
Proof.
  intros Hm Hk w res w'. unfold bind.
  destruct (m w) as [r w1] eqn:E. specialize (Hm _ _ _ E).
  destruct r as [a|e|e|].
  - intros H c Hc. rewrite (Hk a _ _ _ H c Hc). now apply Hm.
  - intros [= <- <-]. exact Hm.
  - intros [= <- <-]. exact Hm.
  - intros [= <- <-]. exact Hm.
Qed.

Lemma framed_get_accessToken header : framed header get_accessToken.
Proof. intros w res w' [= <- <-]. reflexivity. Qed.

Lemma framed_set_accessToken header t : framed header (set_accessToken t).
Proof. intros w res w' [= <- <-]. reflexivity. Qed.

Lemma framed_read_obj header r : framed header (read_obj r).
Proof.
  intros w res w'. unfold read_obj.
  destruct (nth_error (store w) r); intros [= <- <-]; reflexivity.
Qed.

Lemma framed_set_prop header k v : framed header (set_prop header k v).
Proof.
  intros w res w'. unfold set_prop.
  destruct (nth_error (store w) header); intros [= <- <-]; [|reflexivity].
  intros c Hc. cbn [store]. apply nth_error_replace_nth_neq. congruence.
Qed.

Lemma framed_exchange server header q : framed header (exchange server q).
Proof. intros w res w' [= <- <-]. reflexivity. Qed.

Create HintDb framed.
#[local] Hint Resolve framed_ret framed_throw framed_hang framed_lift framed_or_throw
  framed_await framed_get_accessToken framed_set_accessToken framed_read_obj
  framed_set_prop framed_exchange : framed.

Ltac framed :=
  repeat (first [ solve [auto with framed]
                | apply framed_bind; [|intros ?]
                | match goal with
                  | |- framed _ (if ?b then _ else _) => destruct b
                  | |- framed _ (match ?x with _ => _ end) => destruct x
                  end ]).

Section Frames.
Variable server : upstream.
Variable this : credentials.

Lemma framed_getOauth header : framed header (getOauth server this).
Proof. unfold getOauth. framed. Qed.

Lemma framed_fetch_token header : framed header (fetch_token server this).
Proof. unfold fetch_token. framed. Qed.

Lemma framed_ensure_token header : framed header (ensure_token server this).
Proof. unfold ensure_token. framed. Qed.

Lemma framed_read_config header config : framed header (read_config config).
Proof. destruct config; cbn [read_config]; framed. Qed.

#[local] Hint Resolve framed_read_config : framed.

Lemma framed_sendV2Request uriPath reqMethod config header isExportReq :
  framed header (sendV2Request server uriPath reqMethod config header isExportReq).
Proof. unfold sendV2Request, stamp_headers, read_config. framed. Qed.

#[local] Hint Resolve framed_getOauth framed_fetch_token framed_ensure_token
  framed_sendV2Request : framed.

Lemma framed_handleV2Request uriPath method config header isExportReq :
  framed header (handleV2Request server this uriPath method config header isExportReq).
Proof.
  unfold handleV2Request. framed.
Qed.

(** *** The facades write into the caller's [config] *)

Lemma createWorkspace_config header workspaceName c w cfg res w' :
  c <> header ->
  nth_error (store w) c = Some cfg ->
  createWorkspace server this header workspaceName (Some c) w = (res, w') ->
  nth_error (store w') c = Some (obj_set (js "workspaceName") workspaceName cfg).
Proof.
  intros Hne Hc. unfold createWorkspace. cbn [default_config].
  unfold bind at 1. cbn [ret]. unfold bind at 1. unfold set_prop at 1. rewrite Hc.
  unfold bind at 1.
  destruct (handleV2Request server this (js "/restapi/v2/workspaces") (js "POST")
              (Some c) header false _) as [r w1] eqn:E.
  apply framed_handleV2Request in E. specialize (E c Hne). cbn [store] in E.
  rewrite (nth_error_replace_nth_eq _ _ _ _ Hc) in E.
  destruct r as [a|e|e|]; try (intros [= <- <-]; exact E).
  unfold or_throw. destruct (get_prop a (js "workspaceId")); intros [= <- <-]; exact E.
Qed.

Lemma rename_config uriPath header viewName c w cfg res w' :
  c <> header ->
  nth_error (store w) c = Some cfg ->
  rename server this uriPath header viewName (Some c) w = (res, w') ->
  nth_error (store w') c = Some (obj_set (js "viewName") viewName cfg).
Proof.
  intros Hne Hc. unfold rename. cbn [default_config].
  unfold bind at 1. cbn [ret]. unfold bind at 1. unfold set_prop at 1. rewrite Hc.
  unfold bind at 1.
  destruct (handleV2Request server this uriPath (js "PUT")
              (Some c) header false _) as [r w1] eqn:E.
  apply framed_handleV2Request in E. specialize (E c Hne). cbn [store] in E.
  rewrite (nth_error_replace_nth_eq _ _ _ _ Hc) in E.
  destruct r as [a|e|e|]; intros [= <- <-]; exact E.
Qed.

(** *** Exports to a file *)

Lemma sendExportRequest_eq uriPath filePath config header w hdr cfg path :
  nth_error (store w) header = Some hdr ->
  config_of w header hdr config = Some cfg ->
  config_path_always uriPath cfg = Some path ->
  sendExportRequest server uriPath filePath config header w
  = on_export_reply filePath
      (server (trace w) (v2_request uriPath (js "GET") (accessToken w) hdr path))
      (sent server w header hdr (v2_request uriPath (js "GET") (accessToken w) hdr path)).
Proof.
  intros Hh Hc Hp. unfold sendExportRequest.
  rewrite (bind_Ok _ _ _ _ _ (stamp_headers_eq _ _ _ Hh)).
  assert (Hr : read_config config
                 (mkWorld (accessToken w)
                          (replace_nth header (stamp (accessToken w) hdr) (store w))
                          (trace w) (files w))
               = (Ok cfg, mkWorld (accessToken w)
                          (replace_nth header (stamp (accessToken w) hdr) (store w))
                          (trace w) (files w))).
  { unfold config_of in Hc. destruct config as [c|]; simpl.
    - unfold bind, read_obj, ret. simpl.
      destruct (nth_error _ c); inversion Hc; reflexivity.
    - inversion Hc; reflexivity. }
  rewrite (bind_Ok _ _ _ _ _ Hr). rewrite Hp. unfold or_throw at 1.
  unfold bind, ret, read_obj, exchange; simpl.
  rewrite (nth_error_replace_nth_eq _ _ _ _ Hh). reflexivity.
Qed.

Lemma on_export_reply_extends filePath r w res w' :
  on_export_reply filePath r w = (res, w') -> trace w' = trace w.
Proof.
  unfold on_export_reply. destruct r as [st chunks|message].
  - destruct (negb (N.eqb st 200)).
    + destruct (JSON_parse _) as [j|]; [|intros [= <- <-]; reflexivity].
      destruct (get_prop j _); intros [= <- <-]; reflexivity.
    + intros [= <- <-]. reflexivity.
  - intros [= <- <-]. reflexivity.
Qed.

(** The reply recorded by a run of [sendExportRequest] decides what it
    does. *)
Lemma sendExportRequest_reply uriPath filePath config header w res w1 q r :
  sendExportRequest server uriPath filePath config header w = (res, w1) ->
  trace w1 = trace w ++ [Exchange q r] ->
  exists w0, on_export_reply filePath r w0 = (res, w1) /\ files w0 = files w.
Proof.
  intros Hs Ht.
  destruct (nth_error (store w) header) as [hdr|] eqn:Hh.
  - destruct (config_of w header hdr config) as [cfg|] eqn:Hc.
    + destruct (config_path_always uriPath cfg) as [path|] eqn:Hp.
      * rewrite (sendExportRequest_eq _ _ _ _ _ _ _ _ Hh Hc Hp) in Hs.
        pose proof (on_export_reply_extends _ _ _ _ _ Hs) as Hx.
        rewrite Hx in Ht. cbn [sent trace] in Ht. apply app_inv_head in Ht.
        injection Ht as <- <-. eexists. split; [exact Hs|reflexivity].
      * exfalso. revert Hs. unfold sendExportRequest.
        rewrite (bind_Ok _ _ _ _ _ (stamp_headers_eq _ _ _ Hh)).
        unfold config_of in Hc. destruct config as [c|]; simpl in *.
        -- unfold bind, read_obj, ret, or_throw, throw. simpl.
           destruct (nth_error _ c); inversion Hc; subst. rewrite Hp.
           intros [= <- <-]. simpl in Ht.
           apply (f_equal (@Datatypes.length event)) in Ht.
           rewrite length_app in Ht. simpl in Ht. lia.
        -- inversion Hc; subst. simpl in Hp. discriminate.
    + exfalso. revert Hs. unfold sendExportRequest.
      rewrite (bind_Ok _ _ _ _ _ (stamp_headers_eq _ _ _ Hh)).
      unfold config_of in Hc. destruct config as [c|]; simpl in *; [|discriminate].
      unfold bind, read_obj. simpl. destruct (nth_error _ c); [discriminate|].
      intros [= <- <-]. simpl in Ht.
      apply (f_equal (@Datatypes.length event)) in Ht.
      rewrite length_app in Ht. simpl in Ht. lia.
  - exfalso. unfold sendExportRequest in Hs.
    rewrite (bind_Throw _ _ _ _ _ (stamp_headers_none _ _ Hh)) in Hs.
    inversion Hs; subst.
    apply (f_equal (@Datatypes.length event)) in Ht.
    rewrite length_app in Ht. simpl in Ht. lia.
Qed.

Lemma handleExportRequest_export uriPath filePath config header w w0 res1 w1 q chunks :
  ensure_token server this w = (Ok tt, w0) ->
  sendExportRequest server uriPath filePath config header w0 = (res1, w1) ->
  trace w1 = trace w0 ++ [Exchange q (Response 200 chunks)] ->
  res1 = Ok (Fulfilled JUndefined)
  /\ handleExportRequest server this uriPath filePath config header w = (Ok JUndefined, w1)
  /\ files w1 = (filePath, body_octets chunks) :: files w0
  /\ find_file filePath (files w1) = Some (body_octets chunks).
Proof.
  intros He Hs Ht.
  destruct (sendExportRequest_reply _ _ _ _ _ _ _ _ _ Hs Ht) as (w' & Hr & Hf).
  cbn in Hr. injection Hr as <- <-.
  split; [reflexivity|]. split.
  - unfold handleExportRequest. rewrite (bind_Ok _ _ _ _ _ He).
    rewrite (bind_Ok _ _ _ _ _ Hs). reflexivity.
  - cbn [files]. rewrite Hf. split; [reflexivity|].
    cbn [find_file]. now rewrite jstring_eqb_refl.
Qed.
End Frames.

(** ** The handler of the end of a response *)

Lemma end_handler_resolves_last isExportReq st data calls :
  end_handler isExportReq st data = (calls, None) ->
  exists before, calls = before ++ [CallResolve JUndefined].
Proof.
  unfold end_handler.
  destruct (negb (startsWith (respCode st) (js "2"))).
  - destruct (JSON_parse data) as [j|]; [|discriminate].
    destruct (get_prop j (js "data")) as [d|]; [|discriminate].
    intros [= <-]. now exists [CallReject d].
  - destruct isExportReq.
    + intros [= <-]. now exists [CallResolve (JStr data)].
    + destruct (jstring_eqb (respCode st) (js "200")).
      * destruct (JSON_parse data) as [j|]; [|discriminate].
        destruct (get_prop j (js "data")) as [d|]; [|discriminate].
        intros [= <-]. now exists [CallResolve d].
      * intros [= <-]. now exists [].
Qed.

Module RelayFacts.
Import Relay.

Section Routes.
Variable upstream_server : upstream.
Variables zohoRefreshToken clientId clientSecret : jstring.

#[local] Abbreviation refresh_request := (refresh_request zohoRefreshToken clientId clientSecret).
#[local] Abbreviation refreshZohoToken :=
  (refreshZohoToken upstream_server zohoRefreshToken clientId clientSecret).
#[local] Abbreviation handleZohoApiRequest :=
  (handleZohoApiRequest upstream_server zohoRefreshToken clientId clientSecret).
#[local] Abbreviation ensureZohoAccessToken :=
  (ensureZohoAccessToken upstream_server zohoRefreshToken clientId clientSecret).


(** [refreshZohoToken] is one exchange; the token is stored when the
    reply gives one. *)
Lemma refreshZohoToken_eq w :
  refreshZohoToken w
  = (refresh_result (upstream_server (trace w) refresh_request),
     match refresh_result (upstream_server (trace w) refresh_request) with
     | Ok t => mkServer t (trace (logged upstream_server w refresh_request))
     | _ => logged upstream_server w refresh_request
     end).
Proof.
  unfold Relay.refreshZohoToken, try_catch, bind, fetch, response_json, or_throw,
    refresh_result, logged.
  destruct (upstream_server (trace w) refresh_request) as [st chunks|message];
    simpl; [|reflexivity].
  destruct (JSON_parse (Buffer_toString (body_octets chunks))) as [data|]; simpl; [|reflexivity].
  destruct data; simpl; try reflexivity.
  destruct (truthy _); reflexivity.
Qed.

Lemma refreshZohoToken_Ok w t w1 :
  refreshZohoToken w = (Ok t, w1) ->
  w1 = mkServer t (trace w ++ [Exchange refresh_request
                                        (upstream_server (trace w) refresh_request)])
  /\ refresh_result (upstream_server (trace w) refresh_request) = Ok t.
Proof.
  rewrite refreshZohoToken_eq.
  destruct (refresh_result _) eqn:E; intros [= <- <-]. split; reflexivity.
Qed.

Lemma refreshZohoToken_extends w :
  exists rest, trace (snd (refreshZohoToken w)) = trace w ++ rest.
Proof.
  rewrite refreshZohoToken_eq. simpl.
  destruct (refresh_result _); eexists; reflexivity.
Qed.

Lemma ensureZohoAccessToken_cached next w :
  truthy (zohoAccessToken w) = true -> ensureZohoAccessToken next w = next w.
Proof.
  intros H. unfold Relay.ensureZohoAccessToken, try_catch, bind, get_token. simpl.
  now rewrite H.
Qed.

Lemma ensureZohoAccessToken_fetch next w t w1 :
  truthy (zohoAccessToken w) = false ->
  refreshZohoToken w = (Ok t, w1) ->
  ensureZohoAccessToken next w = next w1.
Proof.
  intros H Hr. unfold Relay.ensureZohoAccessToken, try_catch, bind, get_token. simpl.
  rewrite H. simpl. now rewrite Hr.
Qed.


(** A first reply other than 401 ends the call. *)
Lemma handleZohoApiRequest_once apiUrl method body w :
  let q := api_request apiUrl method (zohoAccessToken w) body in
  (forall c, upstream_server (trace w) q <> Response 401 c) ->
  handleZohoApiRequest apiUrl method body w
  = (Ok (relay_reply (upstream_server (trace w) q)), logged upstream_server w q).
Proof.
  intros q H.
  unfold Relay.handleZohoApiRequest, try_catch, bind, get_token, fetch,
    response_json, or_throw, relay_reply, logged. simpl. fold q.
  destruct (upstream_server (trace w) q) as [st chunks|message]; simpl;
    [|reflexivity].
  destruct (N.eqb st 401) eqn:E.
  - apply N.eqb_eq in E. subst. now destruct (H chunks).
  - simpl. destruct (response_ok st); simpl;
      destruct (JSON_parse (Buffer_toString (body_octets chunks))); reflexivity.
Qed.

(** A first reply 401 and a refresh that gives a token: the request
    is sent once more and the call ends with its reply. *)
Lemma handleZohoApiRequest_retry_once apiUrl method body w c1 t w2 :
  let q1 := api_request apiUrl method (zohoAccessToken w) body in
  let q2 := api_request apiUrl method t body in
  upstream_server (trace w) q1 = Response 401 c1 ->
  refreshZohoToken (logged upstream_server w q1) = (Ok t, w2) ->
  handleZohoApiRequest apiUrl method body w
  = (Ok (relay_reply (upstream_server (trace w2) q2)), logged upstream_server w2 q2)
  /\ trace (logged upstream_server w2 q2)
     = trace w ++ [Exchange q1 (Response 401 c1);
                   Exchange refresh_request
                            (upstream_server (trace (logged upstream_server w q1)) refresh_request);
                   Exchange q2 (upstream_server (trace w2) q2)]
  /\ zohoAccessToken (logged upstream_server w2 q2) = t.
Proof.
  intros q1 q2 H1 Hr.
  pose proof Hr as Hr'. apply refreshZohoToken_Ok in Hr'. destruct Hr' as [Hw2 _].
  split.
  - unfold logged in Hr. fold q1 in Hr. rewrite H1 in Hr.
    unfold Relay.handleZohoApiRequest, try_catch, bind, get_token, fetch.
    cbn -[Relay.refreshZohoToken api_request]. fold q1. rewrite H1.
    cbn -[Relay.refreshZohoToken api_request]. rewrite Hr.
    cbn -[Relay.refreshZohoToken api_request].
    unfold relay_reply, logged. rewrite Hw2.
    cbn -[Relay.refreshZohoToken api_request]. fold q2.
    destruct (upstream_server _ q2) as [st chunks|message];
      cbn -[api_request]; [|reflexivity].
    unfold response_json, or_throw.
    destruct (response_ok st); cbn -[api_request];
      destruct (JSON_parse (Buffer_toString (body_octets chunks))); reflexivity.
  - rewrite Hw2. unfold logged. simpl. rewrite H1. split; [|reflexivity].
    now rewrite <- !app_assoc.
Qed.

(** Whatever the replies, the call starts with its request. *)
Lemma handleZohoApiRequest_extends apiUrl method body w :
  let q := api_request apiUrl method (zohoAccessToken w) body in
  exists res rest,
    fst (handleZohoApiRequest apiUrl method body w) = Ok res
    /\ trace (snd (handleZohoApiRequest apiUrl method body w))
       = trace w ++ [Exchange q (upstream_server (trace w) q)] ++ rest.
Proof.
  intros q.
  destruct (upstream_server (trace w) q) as [st chunks|message] eqn:E.
  - destruct (N.eq_dec st 401) as [->|Hne].
    + destruct (refreshZohoToken (logged upstream_server w q)) as [r w2] eqn:Hr.
      destruct r as [t|e|e|].
      * destruct (handleZohoApiRequest_retry_once apiUrl method body w chunks t w2 E Hr)
          as (H1 & H2 & _).
        fold q in H1. rewrite H1. simpl fst. simpl snd.
        eexists. eexists. split; [reflexivity|]. rewrite H2. reflexivity.
      * unfold Relay.handleZohoApiRequest, try_catch, bind, get_token, fetch. fold q.
        rewrite E. simpl. unfold logged in Hr. rewrite E in Hr. rewrite Hr.
        simpl. rewrite refreshZohoToken_eq in Hr.
        destruct (refresh_result _); inversion Hr; subst.
        eexists. eexists. split; [reflexivity|]. simpl.
        rewrite <- app_assoc. reflexivity.
      * rewrite refreshZohoToken_eq in Hr.
        unfold refresh_result in Hr.
        repeat match type of Hr with
               | context [match ?x with _ => _ end] => destruct x
               end; discriminate.
      * rewrite refreshZohoToken_eq in Hr.
        unfold refresh_result in Hr.
        repeat match type of Hr with
               | context [match ?x with _ => _ end] => destruct x
               end; discriminate.
    + rewrite handleZohoApiRequest_once.
      * fold q. rewrite E. simpl. eexists. exists []. split; [reflexivity|].
        unfold logged. fold q. now rewrite E.
      * fold q. rewrite E. intros c [= ?]. contradiction.
  - rewrite handleZohoApiRequest_once.
    + fold q. rewrite E. simpl. eexists. exists []. split; [reflexivity|].
      unfold logged. fold q. now rewrite E.
    + fold q. rewrite E. discriminate.
Qed.
End Routes.
End RelayFacts.

Local Open Scope N_scope.

(** Division and remainder by a constant, for [lia]. *)
Ltac Zify.zify_post_hook ::= Z.to_euclidean_division_equations.

Ltac bool_hyps :=
  repeat match goal with
         | H : _ && _ = true |- _ => apply andb_true_iff in H; destruct H
         | H : _ || _ = false |- _ => apply orb_false_iff in H; destruct H
         | H : negb _ = true |- _ => apply negb_true_iff in H
         | H : negb _ = false |- _ => apply negb_false_iff in H
         | H : (_ <=? _) = true |- _ => apply N.leb_le in H
         | H : (_ <=? _) = false |- _ => apply N.leb_gt in H
         | H : (_ <? _) = true |- _ => apply N.ltb_lt in H
         | H : (_ <? _) = false |- _ => apply N.ltb_ge in H
         | H : (_ =? _) = true |- _ => apply N.eqb_eq in H
         | H : (_ =? _) = false |- _ => apply N.eqb_neq in H
         end.

Ltac bool_goal :=
  repeat match goal with
         | |- _ && _ = true => apply andb_true_iff; split
         | |- negb _ = true => apply negb_true_iff
         | |- (_ <=? _) = true => apply N.leb_le
         | |- (_ <=? _) = false => apply N.leb_gt
         | |- (_ <? _) = true => apply N.ltb_lt
         | |- (_ <? _) = false => apply N.ltb_ge
         | |- (_ =? _) = true => apply N.eqb_eq
         | |- (_ =? _) = false => apply N.eqb_neq
         end.

(** ** Hexadecimal digits *)

Lemma hex_value_upper d : d < 16 -> hex_value (hex_upper d) = Some d.
Proof.
  intros H.
  pose (P := fun d => match hex_value (hex_upper d) with
                      | Some x => N.eqb x d | None => false end).
  assert (HP : P d = true) by (apply (@forall_range P 0 16); [reflexivity | lia]).
  unfold P in HP. destruct (hex_value (hex_upper d)); [|discriminate].
  apply N.eqb_eq in HP. now subst.
Qed.

Lemma hex_value_lower d : d < 16 -> hex_value (hex_lower d) = Some d.
Proof.
  intros H.
  pose (P := fun d => match hex_value (hex_lower d) with
                      | Some x => N.eqb x d | None => false end).
  assert (HP : P d = true) by (apply (@forall_range P 0 16); [reflexivity | lia]).
  unfold P in HP. destruct (hex_value (hex_lower d)); [|discriminate].
  apply N.eqb_eq in HP. now subst.
Qed.

(** ** Escapes *)

Lemma uri_items_percent_octet b rest :
  b < 256 ->
  uri_items (percent_octet b ++ rest) = option_map (cons (Octet b)) (uri_items rest).
Proof.
  intros H. unfold percent_octet. cbn [app uri_items]. rewrite N.eqb_refl.
  rewrite !hex_value_upper by lia.
  replace (b / 16 * 16 + b mod 16) with b by lia. reflexivity.
Qed.

Lemma uri_items_octets bs rest :
  Forall (fun b => b < 256) bs ->
  uri_items (flat_map percent_octet bs ++ rest)
  = option_map (app (map Octet bs)) (uri_items rest).
Proof.
  induction 1 as [|b bs Hb _ IH]; cbn [flat_map map].
  - cbn [app]. destruct (uri_items rest); reflexivity.
  - rewrite <- app_assoc. rewrite uri_items_percent_octet by exact Hb.
    rewrite IH. destruct (uri_items rest); reflexivity.
Qed.

Lemma uri_unreserved_not_percent c : uri_unreserved c = true -> N.eqb c 37 = false.
Proof.
  intros H. destruct (N.eqb c 37) eqn:E; [|reflexivity].
  apply N.eqb_eq in E. subst. discriminate.
Qed.

Lemma uri_unreserved_ascii c : uri_unreserved c = true -> c < 128.
Proof.
  unfold uri_unreserved, is_digit, is_upper, is_lower. cbn [existsb].
  intros H. repeat (apply orb_true_iff in H; destruct H as [H|H]);
    bool_hyps; try lia; discriminate.
Qed.

(** ** UTF-8 *)


Lemma utf8_octets_bytes cp : cp < 1114112 -> Forall (fun b => b < 256) (utf8_octets cp).
Proof.
  intros H. unfold utf8_octets.
  destruct (cp <? 128) eqn:E1; [|destruct (cp <? 2048) eqn:E2;
    [|destruct (cp <? 65536) eqn:E3]]; bool_hyps;
    repeat constructor; lia.
Qed.

Lemma uri_units_octets cp rest :
  scalar cp ->
  uri_units (map Octet (utf8_octets cp) ++ rest)
  = option_map (app (utf16_units cp)) (uri_units rest).
Proof.
  intros [Hmax Hsur]. unfold utf8_octets.
  destruct (cp <? 128) eqn:E1.
  - cbn [map app uri_units]. rewrite E1. unfold utf16_units.
    bool_hyps. replace (cp <? 65536) with true by (symmetry; bool_goal; lia).
    destruct (uri_units rest); reflexivity.
  - destruct (cp <? 2048) eqn:E2.
    + bool_hyps. cbn [map app uri_units].
      replace (192 + cp / 64 <? 128) with false by (symmetry; bool_goal; lia).
      replace (192 + cp / 64 <? 192) with false by (symmetry; bool_goal; lia).
      replace (192 + cp / 64 <? 224) with true by (symmetry; bool_goal; lia).
      replace ((192 + cp / 64 - 192) * 64 + (128 + cp mod 64 - 128)) with cp by lia.
      replace (is_continuation (128 + cp mod 64)) with true
        by (symmetry; unfold is_continuation; bool_goal; lia).
      replace (128 <=? cp) with true by (symmetry; bool_goal; lia).
      reflexivity.
    + destruct (cp <? 65536) eqn:E3.
      * bool_hyps. cbn [map app uri_units].
        replace (224 + cp / 4096 <? 128) with false by (symmetry; bool_goal; lia).
        replace (224 + cp / 4096 <? 192) with false by (symmetry; bool_goal; lia).
        replace (224 + cp / 4096 <? 224) with false by (symmetry; bool_goal; lia).
        replace (224 + cp / 4096 <? 240) with true by (symmetry; bool_goal; lia).
        replace ((224 + cp / 4096 - 224) * 4096 + (128 + (cp / 64) mod 64 - 128) * 64
                 + (128 + cp mod 64 - 128)) with cp by lia.
        replace (is_continuation (128 + (cp / 64) mod 64)) with true
          by (symmetry; unfold is_continuation; bool_goal; lia).
        replace (is_continuation (128 + cp mod 64)) with true
          by (symmetry; unfold is_continuation; bool_goal; lia).
        replace (2048 <=? cp) with true by (symmetry; bool_goal; lia).
        replace ((55296 <=? cp) && (cp <=? 57343)) with false.
        -- reflexivity.
        -- symmetry. apply andb_false_iff.
           destruct (N.le_gt_cases 55296 cp); [right|left]; bool_goal; lia.
      * bool_hyps. cbn [map app uri_units].
        replace (240 + cp / 262144 <? 128) with false by (symmetry; bool_goal; lia).
        replace (240 + cp / 262144 <? 192) with false by (symmetry; bool_goal; lia).
        replace (240 + cp / 262144 <? 224) with false by (symmetry; bool_goal; lia).
        replace (240 + cp / 262144 <? 240) with false by (symmetry; bool_goal; lia).
        replace (240 + cp / 262144 <? 248) with true by (symmetry; bool_goal; lia).
        replace ((240 + cp / 262144 - 240) * 262144 + (128 + (cp / 4096) mod 64 - 128) * 4096
                 + (128 + (cp / 64) mod 64 - 128) * 64 + (128 + cp mod 64 - 128))
          with cp by lia.
        replace (is_continuation (128 + (cp / 4096) mod 64)) with true
          by (symmetry; unfold is_continuation; bool_goal; lia).
        replace (is_continuation (128 + (cp / 64) mod 64)) with true
          by (symmetry; unfold is_continuation; bool_goal; lia).
        replace (is_continuation (128 + cp mod 64)) with true
          by (symmetry; unfold is_continuation; bool_goal; lia).
        replace (65536 <=? cp) with true by (symmetry; bool_goal; lia).
        replace (cp <=? 1114111) with true by (symmetry; bool_goal; lia).
        reflexivity.
Qed.


(** Induction on a string two code units at a time. *)
Lemma jstring_ind2 (P : jstring -> Prop) :
  P [] ->
  (forall c, P [c]) ->
  (forall c d s, P s -> P (d :: s) -> P (c :: d :: s)) ->
  forall s, P s.
Proof.
  intros H0 H1 H2 s.
  assert (H : P s /\ forall c, P (c :: s)).
  { induction s as [|d s [IH1 IH2]]; split; auto. }
  apply H.
Qed.

Lemma utf16_units_unit c : c < 65536 -> utf16_units c = [c].
Proof. intros H. unfold utf16_units. apply N.ltb_lt in H. now rewrite H. Qed.

Lemma utf16_units_pair hi lo :
  is_high_surrogate hi = true -> is_low_surrogate lo = true ->
  utf16_units (pair_code_point hi lo) = [hi; lo].
Proof.
  unfold is_high_surrogate, is_low_surrogate, pair_code_point, utf16_units.
  intros H1 H2. bool_hyps.
  replace (_ <? 65536) with false by (symmetry; bool_goal; lia).
  f_equal; [|f_equal]; lia.
Qed.

Lemma pair_code_point_scalar hi lo :
  is_high_surrogate hi = true -> is_low_surrogate lo = true ->
  scalar (pair_code_point hi lo).
Proof.
  unfold is_high_surrogate, is_low_surrogate, pair_code_point, scalar.
  intros H1 H2. bool_hyps. lia.
Qed.

Lemma unit_scalar c :
  c < 65536 -> is_high_surrogate c = false -> is_low_surrogate c = false -> scalar c.
Proof.
  unfold is_high_surrogate, is_low_surrogate, scalar. intros H H1 H2.
  apply andb_false_iff in H1. apply andb_false_iff in H2.
  destruct H1, H2; bool_hyps; lia.
Qed.

Lemma decode_percent_encode cp rest :
  scalar cp ->
  decodeURIComponent (percent_encode cp ++ rest)
  = option_map (app (utf16_units cp)) (decodeURIComponent rest).
Proof.
  intros Hs. unfold decodeURIComponent, percent_encode.
  rewrite uri_items_octets by (apply utf8_octets_bytes; apply Hs).
  destruct (uri_items rest) as [l|]; [|reflexivity].
  cbn [option_map]. now apply uri_units_octets.
Qed.

Lemma decode_unreserved c rest :
  uri_unreserved c = true ->
  decodeURIComponent (c :: rest) = option_map (cons c) (decodeURIComponent rest).
Proof.
  intros H. unfold decodeURIComponent. cbn [uri_items].
  rewrite (uri_unreserved_not_percent _ H).
  destruct (uri_items rest) as [l|]; reflexivity.
Qed.

(** [decodeURIComponent] undoes [encodeURIComponent]. *)
Lemma decode_encode s :
  well_typed s ->
  forall e, encodeURIComponent s = Some e -> decodeURIComponent e = Some s.
Proof.
  induction s as [|c|c d s IH1 IH2] using jstring_ind2; intros Hw e.
  - intros [= <-]. reflexivity.
  - inversion Hw as [|? ? Hc _]; subst. unfold code_unit in Hc. cbn [encodeURIComponent].
    destruct (uri_unreserved c) eqn:U.
    + intros [= <-]. rewrite decode_unreserved by exact U. reflexivity.
    + destruct (is_high_surrogate c) eqn:Hh; [discriminate|].
      destruct (is_low_surrogate c) eqn:Hl; [discriminate|].
      intros [= <-]. rewrite decode_percent_encode by now apply unit_scalar.
      cbn. now rewrite utf16_units_unit.
  - inversion Hw as [|? ? Hc Hw1]; subst. unfold code_unit in Hc.
    inversion Hw1 as [|? ? Hd Hw2]; subst.
    change (encodeURIComponent (c :: d :: s))
      with (if uri_unreserved c then option_map (cons c) (encodeURIComponent (d :: s))
            else if is_high_surrogate c then
                   if is_low_surrogate d
                   then option_map (app (percent_encode (pair_code_point c d)))
                                   (encodeURIComponent s)
                   else None
                 else if is_low_surrogate c then None
                      else option_map (app (percent_encode c))
                                      (encodeURIComponent (d :: s))).
    destruct (uri_unreserved c) eqn:U.
    + destruct (encodeURIComponent (d :: s)) as [e'|] eqn:E; [|discriminate].
      intros [= <-]. rewrite decode_unreserved by exact U.
      now rewrite (IH2 Hw1 e' eq_refl).
    + destruct (is_high_surrogate c) eqn:Hh.
      * destruct (is_low_surrogate d) eqn:Hl; [|discriminate].
        destruct (encodeURIComponent s) as [e'|] eqn:E; [|discriminate].
        intros [= <-].
        rewrite decode_percent_encode by now apply pair_code_point_scalar.
        rewrite (IH1 Hw2 e' eq_refl). cbn. now rewrite utf16_units_pair.
      * destruct (is_low_surrogate c) eqn:Hl; [discriminate|].
        destruct (encodeURIComponent (d :: s)) as [e'|] eqn:E; [|discriminate].
        intros [= <-]. rewrite decode_percent_encode by now apply unit_scalar.
        rewrite (IH2 Hw1 e' eq_refl). cbn. now rewrite utf16_units_unit.
Qed.

(** ** What [encodeURIComponent] writes *)


Lemma hex_upper_unreserved d : d < 16 -> uri_unreserved (hex_upper d) = true.
Proof.
  intros H. apply (@forall_range (fun d => uri_unreserved (hex_upper d)) 0 16);
    [reflexivity | lia].
Qed.

Lemma percent_encode_safe cp :
  cp < 1114112 -> forallb uri_safe (percent_encode cp) = true.
Proof.
  intros H. unfold percent_encode.
  pose proof (utf8_octets_bytes cp H) as Hb.
  induction Hb as [|b bs Hb _ IH]; [reflexivity|].
  cbn [flat_map]. rewrite forallb_app, IH. unfold percent_octet. cbn [forallb].
  unfold uri_safe at 2 3. rewrite !hex_upper_unreserved by lia. reflexivity.
Qed.

Lemma encode_safe s :
  well_typed s ->
  forall e, encodeURIComponent s = Some e -> forallb uri_safe e = true.
Proof.
  induction s as [|c|c d s IH1 IH2] using jstring_ind2; intros Hw e.
  - intros [= <-]. reflexivity.
  - inversion Hw as [|? ? Hc _]; subst. unfold code_unit in Hc. cbn [encodeURIComponent].
    destruct (uri_unreserved c) eqn:U.
    + intros [= <-]. cbn. unfold uri_safe. now rewrite U.
    + destruct (is_high_surrogate c) eqn:Hh; [discriminate|].
      destruct (is_low_surrogate c) eqn:Hl; [discriminate|].
      intros [= <-]. cbn [option_map]. rewrite app_nil_r.
      apply percent_encode_safe. lia.
  - inversion Hw as [|? ? Hc Hw1]; subst. unfold code_unit in Hc.
    inversion Hw1 as [|? ? Hd Hw2]; subst.
    change (encodeURIComponent (c :: d :: s))
      with (if uri_unreserved c then option_map (cons c) (encodeURIComponent (d :: s))
            else if is_high_surrogate c then
                   if is_low_surrogate d
                   then option_map (app (percent_encode (pair_code_point c d)))
                                   (encodeURIComponent s)
                   else None
                 else if is_low_surrogate c then None
                      else option_map (app (percent_encode c))
                                      (encodeURIComponent (d :: s))).
    destruct (uri_unreserved c) eqn:U.
    + destruct (encodeURIComponent (d :: s)) as [e'|] eqn:E; [|discriminate].
      intros [= <-]. cbn. unfold uri_safe at 1. rewrite U. now apply IH2.
    + destruct (is_high_surrogate c) eqn:Hh.
      * destruct (is_low_surrogate d) eqn:Hl; [|discriminate].
        destruct (encodeURIComponent s) as [e'|] eqn:E; [|discriminate].
        intros [= <-]. cbn [option_map]. rewrite forallb_app.
        rewrite (IH1 Hw2 e' eq_refl), andb_true_r.
        apply percent_encode_safe. apply pair_code_point_scalar; assumption.
      * destruct (is_low_surrogate c) eqn:Hl; [discriminate|].
        destruct (encodeURIComponent (d :: s)) as [e'|] eqn:E; [|discriminate].
        intros [= <-]. cbn [option_map]. rewrite forallb_app.
        rewrite (IH2 Hw1 e' eq_refl), andb_true_r.
        apply percent_encode_safe. lia.
Qed.

(** ** Strings without an unpaired surrogate *)


Lemma unreserved_not_surrogate c :
  uri_unreserved c = true -> is_high_surrogate c = false /\ is_low_surrogate c = false.
Proof.
  intros H. apply uri_unreserved_ascii in H.
  unfold is_high_surrogate, is_low_surrogate.
  split; apply andb_false_iff; left; bool_goal; lia.
Qed.

(** [encodeURIComponent] throws on an unpaired surrogate only. *)
Lemma encode_paired s :
  paired s = true -> exists e, encodeURIComponent s = Some e.
Proof.
  induction s as [|c|c d s IH1 IH2] using jstring_ind2.
  - intros _. now exists [].
  - cbn [paired encodeURIComponent].
    destruct (uri_unreserved c) eqn:U; [intros _; eexists; reflexivity|].
    destruct (is_high_surrogate c); [discriminate|].
    destruct (is_low_surrogate c); [discriminate|].
    intros _; eexists; reflexivity.
  - change (paired (c :: d :: s))
      with (if is_high_surrogate c then is_low_surrogate d && paired s
            else if is_low_surrogate c then false else paired (d :: s)).
    change (encodeURIComponent (c :: d :: s))
      with (if uri_unreserved c then option_map (cons c) (encodeURIComponent (d :: s))
            else if is_high_surrogate c then
                   if is_low_surrogate d
                   then option_map (app (percent_encode (pair_code_point c d)))
                                   (encodeURIComponent s)
                   else None
                 else if is_low_surrogate c then None
                      else option_map (app (percent_encode c))
                                      (encodeURIComponent (d :: s))).
    destruct (uri_unreserved c) eqn:U.
    + destruct (unreserved_not_surrogate _ U) as [-> ->].
      intros H. destruct (IH2 H) as [e ->]. eexists; reflexivity.
    + destruct (is_high_surrogate c).
      * intros H. apply andb_true_iff in H. destruct H as [-> H].
        destruct (IH1 H) as [e ->]. eexists; reflexivity.
      * destruct (is_low_surrogate c); [discriminate|].
        intros H. destruct (IH2 H) as [e ->]. eexists; reflexivity.
Qed.

Lemma paired_app a b : paired a = true -> paired b = true -> paired (a ++ b) = true.
Proof.
  intros Ha Hb. revert Ha.
  induction a as [|c|c d a IH1 IH2] using jstring_ind2.
  - intros _. exact Hb.
  - cbn [paired app]. destruct (is_high_surrogate c); [discriminate|].
    destruct (is_low_surrogate c); [discriminate|]. intros _.
    change (paired (c :: b)) with
      (if is_high_surrogate c then match b with d :: s'' => is_low_surrogate d && paired s'' | [] => false end
       else if is_low_surrogate c then false else paired b).
    exact Hb.
  - change (paired (c :: d :: a))
      with (if is_high_surrogate c then is_low_surrogate d && paired a
            else if is_low_surrogate c then false else paired (d :: a)).
    change (paired ((c :: d :: a) ++ b))
      with (if is_high_surrogate c then is_low_surrogate d && paired (a ++ b)
            else if is_low_surrogate c then false else paired ((d :: a) ++ b)).
    destruct (is_high_surrogate c).
    + intros H. apply andb_true_iff in H. destruct H as [-> H]. now apply IH1.
    + destruct (is_low_surrogate c); [discriminate|]. exact IH2.
Qed.


(** ** Induction on values *)


(** ** What [JSON.stringify] writes *)


Lemma ascii_paired a b : Forall ascii_unit a -> paired (a ++ b) = paired b.
Proof.
  induction 1 as [|c a Hc _ IH]; [reflexivity|].
  unfold ascii_unit in Hc.
  change (paired ((c :: a) ++ b))
    with (if is_high_surrogate c
          then match a ++ b with d :: s'' => is_low_surrogate d && paired s'' | [] => false end
          else if is_low_surrogate c then false else paired (a ++ b)).
  replace (is_high_surrogate c) with false
    by (symmetry; unfold is_high_surrogate; apply andb_false_iff; left; bool_goal; lia).
  replace (is_low_surrogate c) with false
    by (symmetry; unfold is_low_surrogate; apply andb_false_iff; left; bool_goal; lia).
  exact IH.
Qed.

Lemma ascii_is_paired a : Forall ascii_unit a -> paired a = true.
Proof. intros H. rewrite <- (app_nil_r a). now rewrite ascii_paired. Qed.

Lemma hex_lower_ascii d : d < 16 -> ascii_unit (hex_lower d).
Proof. unfold hex_lower, ascii_unit. destruct (d <? 10); lia. Qed.

Lemma unicode_escape_ascii c : c < 65536 -> Forall ascii_unit (unicode_escape c).
Proof.
  intros H. unfold unicode_escape.
  repeat constructor; try (apply hex_lower_ascii; lia); unfold ascii_unit; lia.
Qed.

Lemma short_escape_ascii c e : short_escape c = Some e -> ascii_unit e /\ c < 128.
Proof.
  unfold short_escape, ascii_unit.
  repeat match goal with
         | |- context [N.eqb c ?k] => destruct (N.eqb_spec c k)
         end; intros [= <-]; lia.
Qed.

Lemma surrogate_unit c :
  is_high_surrogate c = true \/ is_low_surrogate c = true -> c < 65536.
Proof.
  unfold is_high_surrogate, is_low_surrogate. intros [H|H]; bool_hyps; lia.
Qed.

Lemma quote_units_paired s : paired (quote_units s) = true.
Proof.
  induction s as [|c|c d s IH1 IH2] using jstring_ind2.
  - reflexivity.
  - cbn [quote_units]. destruct (short_escape c) as [e|] eqn:E.
    + apply ascii_is_paired. destruct (short_escape_ascii _ _ E).
      repeat constructor; auto.
    + destruct (c <? 32) eqn:C.
      * rewrite app_nil_r. apply ascii_is_paired, unicode_escape_ascii. bool_hyps; lia.
      * destruct (is_high_surrogate c) eqn:Hh.
        -- apply ascii_is_paired, unicode_escape_ascii, surrogate_unit. now left.
        -- destruct (is_low_surrogate c) eqn:Hl.
           ++ rewrite app_nil_r. apply ascii_is_paired, unicode_escape_ascii, surrogate_unit.
              now right.
           ++ cbn [paired]. now rewrite Hh, Hl.
  - change (quote_units (c :: d :: s))
      with (match short_escape c with
            | Some e => 92 :: e :: quote_units (d :: s)
            | None =>
                if c <? 32 then unicode_escape c ++ quote_units (d :: s)
                else if is_high_surrogate c then
                       if is_low_surrogate d then c :: d :: quote_units s
                       else unicode_escape c ++ quote_units (d :: s)
                     else if is_low_surrogate c
                          then unicode_escape c ++ quote_units (d :: s)
                          else c :: quote_units (d :: s)
            end).
    destruct (short_escape c) as [e|] eqn:E.
    + destruct (short_escape_ascii _ _ E).
      change (92 :: e :: quote_units (d :: s)) with ([92; e] ++ quote_units (d :: s)).
      rewrite ascii_paired; [exact IH2|]. repeat constructor; auto.
    + destruct (c <? 32) eqn:C.
      * rewrite ascii_paired; [exact IH2|]. apply unicode_escape_ascii. bool_hyps; lia.
      * destruct (is_high_surrogate c) eqn:Hh.
        -- destruct (is_low_surrogate d) eqn:Hl.
           ++ change (paired (c :: d :: quote_units s))
                with (if is_high_surrogate c then is_low_surrogate d && paired (quote_units s)
                      else if is_low_surrogate c then false
                           else paired (d :: quote_units s)).
              now rewrite Hh, Hl, IH1.
           ++ rewrite ascii_paired; [exact IH2|].
              apply unicode_escape_ascii, surrogate_unit. now left.
        -- destruct (is_low_surrogate c) eqn:Hl.
           ++ rewrite ascii_paired; [exact IH2|].
              apply unicode_escape_ascii, surrogate_unit. now right.
           ++ change (paired (c :: quote_units (d :: s)))
                with (if is_high_surrogate c
                      then match quote_units (d :: s) with
                           | d :: s'' => is_low_surrogate d && paired s''
                           | [] => false
                           end
                      else if is_low_surrogate c then false
                           else paired (quote_units (d :: s))).
              now rewrite Hh, Hl.
Qed.

Lemma QuoteJSONString_paired s : paired (QuoteJSONString s) = true.
Proof.
  unfold QuoteJSONString.
  change (34 :: quote_units s ++ [34]) with ([34] ++ quote_units s ++ [34]).
  rewrite ascii_paired by (repeat constructor).
  apply paired_app; [apply quote_units_paired | reflexivity].
Qed.

(** ** Numbers *)

Lemma uint_units_digits u : Forall (fun c => is_digit c = true) (uint_units u).
Proof. induction u; cbn [uint_units]; constructor; auto. Qed.

Local Open Scope Z_scope.

Lemma is_binary64_spec m e :
  is_binary64 m e = true ->
  Zpos m < 2 ^ 53 /\ -1074 <= e <= 971 /\ (e = -1074 \/ 2 ^ 52 <= Zpos m).
Proof.
  unfold is_binary64. intros H.
  apply andb_true_iff in H. destruct H as [H H4].
  apply andb_true_iff in H. destruct H as [H H3].
  apply andb_true_iff in H. destruct H as [H1 H2].
  apply Z.ltb_lt in H1. apply Z.leb_le in H2, H3.
  apply orb_true_iff in H4.
  split; [exact H1|]. split; [lia|].
  destruct H4 as [H4|H4]; [left; now apply Z.eqb_eq | right; now apply Z.leb_le].
Qed.

Lemma round_ratio_exact neg num den m e :
  is_binary64 m e = true ->
  Zpos num * 2 ^ 1074 = Zpos m * 2 ^ (e + 1074) * Zpos den ->
  round_ratio neg num den = S754_finite neg m e.
Proof.
  intros Hb Hx. apply is_binary64_spec in Hb. destruct Hb as (Hm & He & Hn).
  unfold round_ratio. rewrite Hx.
  rewrite Z.div_mul by discriminate.
  assert (Hp : 0 < 2 ^ (e + 1074)) by (apply Z.pow_pos_nonneg; lia).
  rewrite Z.log2_mul_pow2 by lia.
  assert (Hl : 0 <= Z.log2 (Zpos m) <= 52).
  { split; [apply Z.log2_nonneg|].
    assert (Z.log2 (Zpos m) < 53) by (apply Z.log2_lt_pow2; lia). lia. }
  assert (Hj : Z.max (e + 1074 + Z.log2 (Zpos m) - 52) 0 = e + 1074).
  { destruct Hn as [->|Hn]; [lia|].
    assert (52 <= Z.log2 (Zpos m)) by (apply Z.log2_le_pow2; lia). lia. }
  rewrite Hj.
  replace (Zpos m * 2 ^ (e + 1074) * Zpos den)
    with (Zpos m * (Zpos den * 2 ^ (e + 1074))) by ring.
  assert (Hb : 0 < Zpos den * 2 ^ (e + 1074)) by lia.
  rewrite Z.div_mul by lia. rewrite Z.mod_mul by lia.
  cbv zeta. rewrite Z.mul_0_r.
  replace (Zpos den * 2 ^ (e + 1074) <? 0) with false by (symmetry; apply Z.ltb_ge; lia).
  replace (0 =? Zpos den * 2 ^ (e + 1074)) with false by (symmetry; apply Z.eqb_neq; lia).
  cbn [orb andb].
  replace (Zpos m =? 2 ^ 53) with false by (symmetry; apply Z.eqb_neq; lia).
  replace (e + 1074 - 1074) with e by lia.
  replace (971 <? e) with false by (symmetry; apply Z.ltb_ge; lia).
  reflexivity.
Qed.

Lemma exact_decimal_exact neg m e :
  is_binary64 m e = true ->
  round_decimal neg (fst (exact_decimal m e)) (snd (exact_decimal m e))
  = S754_finite neg m e.
Proof.
  intros Hb. pose proof (is_binary64_spec m e Hb) as (Hm & He & Hn).
  unfold exact_decimal. destruct (0 <=? e) eqn:Ee; cbn [fst snd].
  - apply Z.leb_le in Ee.
    assert (Hpos : (N.pos m * 2 ^ Z.to_N e)%N
                   = Npos (m * Z.to_pos (2 ^ e))).
    { apply N2Z.inj. rewrite N2Z.inj_mul, N2Z.inj_pow, Z2N.id by lia.
      cbn [Z.of_N]. rewrite Pos2Z.inj_mul, Z2Pos.id by (apply Z.pow_pos_nonneg; lia).
      reflexivity. }
    rewrite Hpos. unfold round_decimal. cbn [Z.leb Z.compare].
    apply round_ratio_exact; [exact Hb|].
    rewrite !Pos2Z.inj_mul, Z2Pos.id by (apply Z.pow_pos_nonneg; lia).
    change (Z.to_pos (10 ^ 0)) with 1%positive.
    rewrite Z.pow_add_r by lia. ring.
  - apply Z.leb_gt in Ee.
    assert (Hpos : (N.pos m * 5 ^ Z.to_N (- e))%N
                   = Npos (m * Z.to_pos (5 ^ (- e)))).
    { apply N2Z.inj. rewrite N2Z.inj_mul, N2Z.inj_pow, Z2N.id by lia.
      cbn [Z.of_N]. rewrite Pos2Z.inj_mul, Z2Pos.id by (apply Z.pow_pos_nonneg; lia).
      reflexivity. }
    rewrite Hpos. unfold round_decimal.
    replace (0 <=? e) with false by (symmetry; apply Z.leb_gt; lia).
    apply round_ratio_exact; [exact Hb|].
    rewrite !Pos2Z.inj_mul, !Z2Pos.id by (apply Z.pow_pos_nonneg; lia).
    replace (10 ^ (- e)) with (2 ^ (- e) * 5 ^ (- e))
      by (rewrite <- Z.pow_mul_l; reflexivity).
    replace (2 ^ 1074) with (2 ^ (e + 1074) * 2 ^ (- e))
      by (rewrite <- Z.pow_add_r by lia; f_equal; lia).
    ring.
Qed.

Lemma digits_nonempty n : (1 <= Datatypes.length (digits n))%nat.
Proof.
  unfold digits. destruct n as [|p]; [cbn; lia|]. cbn [N.to_uint].
  pose proof (DecimalPos.Unsigned.to_uint_nonnil p) as Hn.
  destruct (Pos.to_uint p); try congruence; cbn; lia.
Qed.

Lemma float_eqb_eq a b : float_eqb a b = true -> a = b.
Proof.
  destruct a as [s|s| |s m e], b as [s'|s'| |s' m' e']; cbn; try discriminate.
  - intros H. apply Bool.eqb_prop in H. now subst.
  - intros H. apply Bool.eqb_prop in H. now subst.
  - reflexivity.
  - intros H. apply andb_true_iff in H. destruct H as [H He].
    apply andb_true_iff in H. destruct H as [Hs Hm].
    apply Bool.eqb_prop in Hs. apply Pos.eqb_eq in Hm. apply Z.eqb_eq in He. now subst.
Qed.

Lemma float_eqb_refl a : float_eqb a a = true.
Proof.
  destruct a as [s|s| |s m e]; cbn; try reflexivity; try apply Bool.eqb_reflx.
  now rewrite Bool.eqb_reflx, Pos.eqb_refl, Z.eqb_refl.
Qed.

(** What the search gives is a Number's digits: read back, they are the
    Number. *)
Lemma shortest_from_passes m e S L n : forall todo k c,
  shortest_from m e S L n todo k = Some c -> passes m e c = true.
Proof.
  induction todo as [|todo IH]; intros k c; cbn [shortest_from]; [discriminate|].
  cbv zeta.
  destruct (passes m e ((S / 10 ^ N.of_nat (L - k))%N, n)) eqn:Plo;
    destruct (passes m e (if ((S / 10 ^ N.of_nat (L - k) + 1 =? 10 ^ N.of_nat k)%N)
                          then (1%N, n + 1)
                          else ((S / 10 ^ N.of_nat (L - k) + 1)%N, n))) eqn:Phi.
  - intros [= <-].
    repeat first [ exact Plo | exact Phi
                 | match goal with
                   | |- passes _ _ (if ?b then _ else _) = _ => destruct b
                   end ].
  - intros [= <-]. exact Plo.
  - intros [= <-]. exact Phi.
  - apply IH.
Qed.

(** The search ends: the digits of the exact value, all of them, are the
    Number's. *)
Lemma shortest_from_found m e S L n : forall todo k,
  (k + todo = L + 1)%nat -> (1 <= todo)%nat ->
  passes m e (S, n) = true ->
  exists c, shortest_from m e S L n todo k = Some c.
Proof.
  induction todo as [|todo IH]; intros k Hk Ht Hp; [lia|].
  cbn [shortest_from]. cbv zeta.
  destruct (passes m e ((S / 10 ^ N.of_nat (L - k))%N, n)) eqn:Plo;
    destruct (passes m e (if ((S / 10 ^ N.of_nat (L - k) + 1 =? 10 ^ N.of_nat k)%N)
                          then (1%N, n + 1)
                          else ((S / 10 ^ N.of_nat (L - k) + 1)%N, n))) eqn:Phi;
    try (eexists; reflexivity).
  destruct todo as [|todo].
  - exfalso. replace (L - k)%nat with O in Plo by lia.
    change (10 ^ N.of_nat 0)%N with 1%N in Plo. rewrite N.div_1_r in Plo. congruence.
  - apply IH; [lia | lia | exact Hp].
Qed.

Lemma shortest_spec m e :
  is_binary64 m e = true ->
  exists s n,
    shortest m e = Some (s, n)
    /\ round_decimal false s (n - Z.of_nat (Datatypes.length (digits s)))
       = S754_finite false m e.
Proof.
  intros Hb. unfold shortest.
  pose proof (exact_decimal_exact false m e Hb) as Hx.
  destruct (exact_decimal m e) as [S E]. cbn [fst snd] in Hx.
  set (L := Datatypes.length (digits S)).
  assert (HL : (1 <= L)%nat).
  { unfold L. apply digits_nonempty. }
  assert (Hp : passes m e (S, Z.of_nat L + E) = true).
  { unfold passes. cbn [fst snd]. fold L.
    replace (Z.of_nat L + E - Z.of_nat L) with E by lia.
    rewrite Hx. apply float_eqb_refl. }
  destruct (shortest_from_found m e S L (Z.of_nat L + E) L 1 ltac:(lia) HL Hp) as [[s n] Hs].
  exists s, n. split; [exact Hs|].
  apply float_eqb_eq. exact (shortest_from_passes m e S L _ _ _ _ Hs).
Qed.

(** ** Reading a number *)

Lemma digits_digits n : Forall (fun c => is_digit c = true) (digits n).
Proof. apply uint_units_digits. Qed.

Lemma span_digits_app ds rest :
  Forall (fun c => is_digit c = true) ds ->
  match rest with c :: _ => is_digit c = false | [] => True end ->
  span_digits (ds ++ rest) = (ds, rest).
Proof.
  intros Hd Hr. induction Hd as [|c ds Hc _ IH].
  - destruct rest as [|c r]; [reflexivity|]. cbn [app span_digits]. now rewrite Hr.
  - cbn [app span_digits]. now rewrite Hc, IH.
Qed.

Lemma digits_value_acc ds : forall a,
  fold_left (fun a c => (a * 10 + (c - 48))%N) ds a
  = (a * 10 ^ N.of_nat (Datatypes.length ds) + digits_value ds)%N.
Proof.
  unfold digits_value.
  induction ds as [|c ds IH]; intros a; cbn [fold_left Datatypes.length].
  - cbn. lia.
  - rewrite IH, (IH (0 * 10 + (c - 48))%N).
    rewrite Nat2N.inj_succ, N.pow_succ_r'. lia.
Qed.

Lemma digits_value_app a b :
  digits_value (a ++ b)
  = (digits_value a * 10 ^ N.of_nat (Datatypes.length b) + digits_value b)%N.
Proof.
  unfold digits_value at 1. rewrite fold_left_app.
  fold (digits_value a). apply digits_value_acc.
Qed.

Lemma digits_value_zeros j : digits_value (repeat 48%N j) = 0%N.
Proof.
  induction j as [|j IH]; [reflexivity|].
  change (repeat 48%N (S j)) with ([48%N] ++ repeat 48%N j).
  rewrite digits_value_app, IH. reflexivity.
Qed.

Lemma of_uint_acc_value u : forall acc,
  Npos (Pos.of_uint_acc u acc)
  = fold_left (fun a c => (a * 10 + (c - 48))%N) (uint_units u) (Npos acc).
Proof.
  induction u; intros acc; cbn [Pos.of_uint_acc uint_units fold_left];
    try rewrite IHu; try reflexivity; f_equal; lia.
Qed.

Lemma of_uint_value u : N.of_uint u = digits_value (uint_units u).
Proof.
  unfold N.of_uint, digits_value.
  induction u; cbn [Pos.of_uint uint_units fold_left]; try reflexivity;
    try (rewrite of_uint_acc_value; reflexivity).
  exact IHu.
Qed.

Lemma digits_value_digits n : digits_value (digits n) = n.
Proof.
  unfold digits. rewrite <- of_uint_value. apply DecimalN.Unsigned.of_to.
Qed.

Lemma delimited_not_digit rest :
  delimited rest -> match rest with c :: _ => is_digit c = false | [] => True end.
Proof. destruct rest as [|c r]; [auto|]. intros [->|[->| ->]]; reflexivity. Qed.

Lemma parse_fraction_none rest :
  delimited rest -> parse_fraction rest = Some ([], rest).
Proof. destruct rest as [|c r]; [auto|]. intros [->|[->| ->]]; reflexivity. Qed.

Lemma parse_exponent_none rest :
  delimited rest -> parse_exponent rest = Some (0, rest).
Proof. destruct rest as [|c r]; [auto|]. intros [->|[->| ->]]; reflexivity. Qed.

Lemma parse_fraction_digits fr rest :
  fr <> [] -> Forall (fun c => is_digit c = true) fr ->
  match rest with c :: _ => is_digit c = false | [] => True end ->
  parse_fraction (46%N :: fr ++ rest) = Some (fr, rest).
Proof.
  intros Hn Hd Hr. cbn [parse_fraction]. rewrite N.eqb_refl.
  rewrite (span_digits_app fr rest Hd Hr). destruct fr; [congruence|reflexivity].
Qed.

Lemma parse_exponent_digits (ex : Z) rest :
  delimited rest ->
  parse_exponent (101%N :: (if 0 <=? ex then 43%N else 45%N)
                        :: digits (Z.to_N (Z.abs ex)) ++ rest)
  = Some (ex, rest).
Proof.
  intros Hd. cbn [parse_exponent]. change (N.eqb 101 101 || N.eqb 101 69) with true.
  cbv iota.
  assert (Hs : span_digits (digits (Z.to_N (Z.abs ex)) ++ rest)
               = (digits (Z.to_N (Z.abs ex)), rest))
    by (apply span_digits_app; [apply digits_digits | now apply delimited_not_digit]).
  pose proof (digits_nonempty (Z.to_N (Z.abs ex))) as Hn.
  destruct (0 <=? ex) eqn:E.
  - change (N.eqb 43 45) with false. change (N.eqb 43 43) with true. cbv iota.
    rewrite Hs. destruct (digits (Z.to_N (Z.abs ex))) as [|c r] eqn:Ed; [simpl in Hn; lia|].
    rewrite <- Ed, digits_value_digits. apply Z.leb_le in E. f_equal. f_equal. lia.
  - change (N.eqb 45 45) with true. cbv iota.
    rewrite Hs. destruct (digits (Z.to_N (Z.abs ex))) as [|c r] eqn:Ed; [simpl in Hn; lia|].
    rewrite <- Ed, digits_value_digits. apply Z.leb_gt in E. f_equal. f_equal. lia.
Qed.

(** A number read part by part. *)
Lemma parse_number_parts (neg : bool) int r1 frac r2 ex r3 :
  Forall (fun c => is_digit c = true) int ->
  match int with
  | [] => False
  | c :: more => N.eqb c 48 && match more with [] => false | _ => true end = false
  end ->
  match r1 with c :: _ => is_digit c = false | [] => True end ->
  parse_fraction r1 = Some (frac, r2) ->
  parse_exponent r2 = Some (ex, r3) ->
  parse_number ((if neg then [45%N] else []) ++ int ++ r1)
  = Some (number_of_float
            (round_decimal neg (digits_value (int ++ frac))
                           (ex - Z.of_nat (Datatypes.length frac))),
          r3).
Proof.
  intros Hd Hz Hr Hf He. unfold parse_number.
  match goal with
  | |- (let (n, s1) := ?X in _) = _ => replace X with (neg, int ++ r1)
  end.
  2:{ symmetry. destruct neg; cbn [app]; [reflexivity|].
      destruct int as [|c more]; [contradiction|]. cbn [app].
      inversion Hd as [|? ? Hc _]; subst.
      replace (N.eqb c 45) with false; [reflexivity|].
      symmetry. apply N.eqb_neq. intros ->. discriminate. }
  rewrite (span_digits_app int r1 Hd Hr).
  destruct int as [|c more]; [contradiction|].
  rewrite Hz, Hf, He. reflexivity.
Qed.

(** The digits of a positive number do not start with a zero. *)
Lemma to_uint_head p :
  Pos.to_uint p <> Decimal.Nil /\ forall u, Pos.to_uint p <> Decimal.D0 u.
Proof.
  split; [apply DecimalPos.Unsigned.to_uint_nonnil|].
  intros u Hu.
  assert (Hn : Decimal.unorm (Pos.to_uint p) = Pos.to_uint p).
  { rewrite <- DecimalPos.Unsigned.to_of.
    now rewrite DecimalPos.Unsigned.of_to. }
  rewrite Hu in Hn. unfold Decimal.unorm in Hn.
  destruct (Decimal.nzhead (Decimal.D0 u)) as [|u0|u0|u0|u0|u0|u0|u0|u0|u0|u0] eqn:E;
    try discriminate.
  - apply (DecimalPos.Unsigned.to_uint_nonzero p). rewrite Hu. now injection Hn as <-.
  - exact (DecimalFacts.nzhead_nonzero _ _ E).
Qed.

Lemma digits_head p :
  exists d ds, digits (Npos p) = d :: ds /\ is_digit d = true /\ N.eqb d 48 = false.
Proof.
  unfold digits. cbn [N.to_uint]. destruct (to_uint_head p) as [Hnil H0].
  destruct (Pos.to_uint p) as [|u|u|u|u|u|u|u|u|u|u]; try congruence;
    try (now destruct (H0 u)); cbn [uint_units];
    eexists; eexists; (split; [reflexivity|split; reflexivity]).
Qed.

Lemma round_decimal_shift neg p (j : nat) :
  round_decimal neg (Npos p * 10 ^ N.of_nat j)%N 0
  = round_decimal neg (Npos p) (Z.of_nat j).
Proof.
  assert (Hp : (Npos p * 10 ^ N.of_nat j)%N = Npos (p * Z.to_pos (10 ^ Z.of_nat j))).
  { apply N2Z.inj. rewrite N2Z.inj_mul, N2Z.inj_pow, nat_N_Z. cbn [Z.of_N].
    rewrite Pos2Z.inj_mul, Z2Pos.id by (apply Z.pow_pos_nonneg; lia). reflexivity. }
  rewrite Hp. unfold round_decimal.
  replace (0 <=? Z.of_nat j) with true by (symmetry; apply Z.leb_le; lia).
  cbn [Z.leb Z.compare]. change (Z.to_pos (10 ^ 0)) with 1%positive.
  now rewrite Pos.mul_1_r.
Qed.

Lemma Forall_firstn {A} (P : A -> Prop) n l : Forall P l -> Forall P (firstn n l).
Proof.
  intros H. revert n. induction H; intros [|n]; cbn [firstn]; constructor; auto.
Qed.

Lemma Forall_skipn {A} (P : A -> Prop) n l : Forall P l -> Forall P (skipn n l).
Proof.
  intros H. revert n. induction H; intros [|n]; cbn [skipn]; try constructor; auto.
Qed.

Lemma Forall_zeros j : Forall (fun c => is_digit c = true) (repeat 48%N j).
Proof. induction j; cbn; constructor; auto. Qed.

Ltac same_place :=
  match goal with
  | |- Some (number_of_float (round_decimal _ _ ?a), _)
       = Some (number_of_float (round_decimal _ _ ?b), _) =>
      replace a with b; [reflexivity|]
  end.

(** What Number::toString writes for the digits of [s] and the place
    [n] reads back as the Number for [s * 10 ^ (n - k)], [k] the number
    of the digits. *)
Lemma parse_layout (neg : bool) p n rest :
  delimited rest ->
  parse_number ((if neg then [45%N] else []) ++ layout (digits (Npos p)) n ++ rest)
  = Some (number_of_float
            (round_decimal neg (Npos p)
                           (n - Z.of_nat (Datatypes.length (digits (Npos p))))),
          rest).
Proof.
  intros Hd.
  destruct (digits_head p) as (d & ds' & Eds & Hdd & Hd0).
  pose proof (digits_digits (Npos p)) as Hall.
  pose proof (digits_value_digits (Npos p)) as Hval.
  set (ds := digits (Npos p)) in *.
  set (k := Z.of_nat (Datatypes.length ds)).
  assert (Hk : 1 <= k) by (unfold k; rewrite Eds; cbn [Datatypes.length]; lia).
  pose proof (delimited_not_digit rest Hd) as Hrd.
  unfold layout. fold k.
  destruct ((k <=? n) && (n <=? 21)) eqn:C1.
  { (* the digits and zeros *)
    apply andb_true_iff in C1. destruct C1 as [C1 _]. apply Z.leb_le in C1.
    rewrite <- app_assoc.
    rewrite (app_assoc ds). 
    rewrite (parse_number_parts neg (ds ++ repeat 48%N (Z.to_nat (n - k))) rest [] rest 0 rest).
    - rewrite app_nil_r, digits_value_app, digits_value_zeros, repeat_length, Hval.
      cbn [Datatypes.length]. rewrite N.add_0_r, Z.sub_0_r.
      rewrite round_decimal_shift. same_place. lia.
    - apply Forall_app. split; [exact Hall | apply Forall_zeros].
    - rewrite Eds. cbn [app]. now rewrite Hd0.
    - exact Hrd.
    - now apply parse_fraction_none.
    - now apply parse_exponent_none. }
  destruct ((0 <? n) && (n <=? 21)) eqn:C2.
  { (* a point inside the digits *)
    apply andb_true_iff in C2. destruct C2 as [C2 C2']. apply Z.ltb_lt in C2.
    apply Z.leb_le in C2'.
    assert (Hlt : n < k).
    { apply andb_false_iff in C1. destruct C1 as [C1|C1];
        [now apply Z.leb_gt in C1 | apply Z.leb_gt in C1; lia]. }
    rewrite <- app_assoc. cbn [app].
    assert (Hfn : Datatypes.length (firstn (Z.to_nat n) ds) = Z.to_nat n)
      by (rewrite length_firstn; unfold k in Hlt; lia).
    assert (Hsn : Datatypes.length (skipn (Z.to_nat n) ds) = Z.to_nat (k - n))
      by (rewrite length_skipn; unfold k; lia).
    rewrite (parse_number_parts neg (firstn (Z.to_nat n) ds)
               (46%N :: skipn (Z.to_nat n) ds ++ rest)
               (skipn (Z.to_nat n) ds) rest 0 rest).
    - rewrite firstn_skipn, Hval, Hsn. same_place. unfold k. lia.
    - now apply Forall_firstn.
    - rewrite Eds. destruct (Z.to_nat n) as [|n'] eqn:En; [lia|]. cbn [firstn].
      now rewrite Hd0.
    - reflexivity.
    - apply parse_fraction_digits; [|now apply Forall_skipn|exact Hrd].
      intros E. rewrite E in Hsn. cbn in Hsn. lia.
    - now apply parse_exponent_none. }
  destruct ((-6 <? n) && (n <=? 0)) eqn:C3.
  { (* zeros before the digits *)
    apply andb_true_iff in C3. destruct C3 as [C3 C3']. apply Z.ltb_lt in C3.
    apply Z.leb_le in C3'.
    change (48%N :: 46%N :: repeat 48%N (Z.to_nat (- n)) ++ ds)
      with ([48%N] ++ 46%N :: repeat 48%N (Z.to_nat (- n)) ++ ds).
    rewrite <- app_assoc. cbn [app]. rewrite <- app_assoc.
    change (48%N :: 46%N :: repeat 48%N (Z.to_nat (- n)) ++ ds ++ rest)
      with ([48%N] ++ 46%N :: repeat 48%N (Z.to_nat (- n)) ++ ds ++ rest).
    rewrite (app_assoc (repeat 48%N (Z.to_nat (- n)))).
    rewrite (parse_number_parts neg [48%N]
               (46%N :: (repeat 48%N (Z.to_nat (- n)) ++ ds) ++ rest)
               (repeat 48%N (Z.to_nat (- n)) ++ ds) rest 0 rest).
    - rewrite !digits_value_app, digits_value_zeros, Hval, length_app, repeat_length.
      change (digits_value [48%N]) with 0%N. rewrite !N.mul_0_l, !N.add_0_l.
      same_place. unfold k. lia.
    - repeat constructor.
    - reflexivity.
    - reflexivity.
    - apply parse_fraction_digits; [| |exact Hrd].
      + rewrite Eds. destruct (repeat 48%N (Z.to_nat (- n))); discriminate.
      + apply Forall_app. split; [apply Forall_zeros | exact Hall].
    - now apply parse_exponent_none. }
  (* an exponent *)
  rewrite Eds in *. destruct ds' as [|d2 ds''].
  - cbn [app].
    change (d :: 101%N :: (if 0 <=? n - 1 then 43%N else 45%N)
              :: digits (Z.to_N (Z.abs (n - 1))) ++ rest)
      with ([d] ++ 101%N :: (if 0 <=? n - 1 then 43%N else 45%N)
              :: digits (Z.to_N (Z.abs (n - 1))) ++ rest).
    rewrite (parse_number_parts neg [d]
               (101%N :: (if 0 <=? n - 1 then 43%N else 45%N)
                      :: digits (Z.to_N (Z.abs (n - 1))) ++ rest)
               []
               (101%N :: (if 0 <=? n - 1 then 43%N else 45%N)
                      :: digits (Z.to_N (Z.abs (n - 1))) ++ rest)
               (n - 1) rest).
    + rewrite app_nil_r, Hval. cbn [Datatypes.length]. same_place. unfold k.
      rewrite Eds. cbn [Datatypes.length]. lia.
    + exact Hall.
    + now rewrite andb_false_r.
    + reflexivity.
    + reflexivity.
    + now apply parse_exponent_digits.
  - cbn [app]. rewrite <- app_assoc. cbn [app].
    change (d :: 46%N :: d2 :: ds'' ++ 101%N :: (if 0 <=? n - 1 then 43%N else 45%N)
              :: digits (Z.to_N (Z.abs (n - 1))) ++ rest)
      with ([d] ++ 46%N :: (d2 :: ds'') ++ 101%N :: (if 0 <=? n - 1 then 43%N else 45%N)
              :: digits (Z.to_N (Z.abs (n - 1))) ++ rest).
    inversion Hall as [|? ? _ Hall']; subst.
    rewrite (parse_number_parts neg [d]
               (46%N :: (d2 :: ds'') ++ 101%N :: (if 0 <=? n - 1 then 43%N else 45%N)
                      :: digits (Z.to_N (Z.abs (n - 1))) ++ rest)
               (d2 :: ds'')
               (101%N :: (if 0 <=? n - 1 then 43%N else 45%N)
                      :: digits (Z.to_N (Z.abs (n - 1))) ++ rest)
               (n - 1) rest).
    + cbn [app]. rewrite Hval. same_place. unfold k. rewrite Eds.
      cbn [Datatypes.length]. lia.
    + repeat constructor. exact Hdd.
    + now rewrite andb_false_r.
    + reflexivity.
    + apply parse_fraction_digits; [discriminate | exact Hall' | reflexivity].
    + now apply parse_exponent_digits.
Qed.

(** ** Numbers read back *)

Lemma round_decimal_sign neg S E :
  round_decimal neg S E = with_sign neg (round_decimal false S E).
Proof.
  unfold round_decimal. destruct S as [|p]; [reflexivity|].
  unfold round_ratio. cbv zeta.
  destruct (0 <=? E);
    repeat match goal with
           | |- context [match ?x with _ => _ end] => destruct x
           end; reflexivity.
Qed.

(** A Number that is not an integer below 2^53 reads back from what
    Number::toString writes of it. *)
Theorem parse_float_toString neg m e rest :
  is_binary64 m e = true ->
  number_of_float (S754_finite neg m e) = JFloat (S754_finite neg m e) ->
  delimited rest ->
  parse_number (float_toString (S754_finite neg m e) ++ rest)
  = Some (JFloat (S754_finite neg m e), rest).
Proof.
  intros Hb Hf Hd. cbn [float_toString].
  destruct (shortest_spec m e Hb) as (s & n & Hs & Hr). rewrite Hs.
  destruct s as [|p]; [discriminate|].
  rewrite <- app_assoc, (parse_layout neg p n rest Hd).
  rewrite round_decimal_sign, Hr. cbn [with_sign]. now rewrite Hf.
Qed.

(** An integer below 2^53 is a Number. *)
Lemma round_integer neg p :
  Zpos p < 2 ^ 53 ->
  number_of_float (round_decimal neg (Npos p) 0)
  = JNum (if neg then Zneg p else Zpos p).
Proof.
  intros Hp. set (l := Z.log2 (Zpos p)).
  assert (Hl : 0 <= l <= 52).
  { split; [apply Z.log2_nonneg|].
    assert (l < 53) by (apply Z.log2_lt_pow2; lia). lia. }
  pose proof (Z.log2_spec (Zpos p) ltac:(lia)) as [Hlo Hhi]. fold l in Hlo, Hhi.
  set (m := Z.to_pos (Zpos p * 2 ^ (52 - l))).
  assert (Hm : Zpos m = Zpos p * 2 ^ (52 - l)).
  { unfold m. rewrite Z2Pos.id; [reflexivity|].
    assert (0 < 2 ^ (52 - l)) by (apply Z.pow_pos_nonneg; lia). lia. }
  assert (H52 : 2 ^ 52 = 2 ^ l * 2 ^ (52 - l))
    by (rewrite <- Z.pow_add_r by lia; f_equal; lia).
  assert (H53 : 2 ^ 53 = 2 ^ Z.succ l * 2 ^ (52 - l))
    by (rewrite <- Z.pow_add_r by lia; f_equal; lia).
  assert (Hq : 0 < 2 ^ (52 - l)) by (apply Z.pow_pos_nonneg; lia).
  assert (Hb : is_binary64 m (l - 52) = true).
  { unfold is_binary64. rewrite Hm.
    replace (Zpos p * 2 ^ (52 - l) <? 2 ^ 53) with true
      by (symmetry; apply Z.ltb_lt; rewrite H53; nia).
    replace (-1074 <=? l - 52) with true by (symmetry; apply Z.leb_le; lia).
    replace (l - 52 <=? 971) with true by (symmetry; apply Z.leb_le; lia).
    replace (2 ^ 52 <=? Zpos p * 2 ^ (52 - l)) with true
      by (symmetry; apply Z.leb_le; rewrite H52; nia).
    now rewrite orb_true_r. }
  unfold round_decimal. cbn [Z.leb Z.compare]. change (Z.to_pos (10 ^ 0)) with 1%positive.
  rewrite (round_ratio_exact neg (p * 1) 1 m (l - 52) Hb).
  - unfold number_of_float, integer_of.
    destruct (0 <=? l - 52) eqn:E.
    + apply Z.leb_le in E. assert (l = 52) by lia.
      rewrite Hm. replace (l - 52) with 0 by lia. replace (52 - l) with 0 by lia.
      rewrite Z.pow_0_r, !Z.mul_1_r.
      replace (Zpos p <? 2 ^ 53) with true by (symmetry; now apply Z.ltb_lt).
      now destruct neg.
    + rewrite Hm. replace (- (l - 52)) with (52 - l) by lia.
      rewrite Z.mod_mul, Z.div_mul by lia. cbn [Z.eqb].
      replace (Zpos p <? 2 ^ 53) with true by (symmetry; now apply Z.ltb_lt).
      now destruct neg.
  - rewrite Pos.mul_1_r, Hm, Z.mul_1_r.
    replace (2 ^ 1074) with (2 ^ (52 - l) * 2 ^ (l - 52 + 1074))
      by (rewrite <- Z.pow_add_r by lia; f_equal; lia).
    ring.
Qed.

Lemma layout_head p n :
  exists c r, layout (digits (Npos p)) n = c :: r /\ is_digit c = true.
Proof.
  destruct (digits_head p) as (d & ds' & Eds & Hdd & _). unfold layout. rewrite Eds.
  set (k := Z.of_nat (Datatypes.length (d :: ds'))).
  destruct ((k <=? n) && (n <=? 21)); [eexists; eexists; split; [reflexivity|exact Hdd]|].
  destruct ((0 <? n) && (n <=? 21)) eqn:C2.
  { apply andb_true_iff in C2. destruct C2 as [C2 _]. apply Z.ltb_lt in C2.
    destruct (Z.to_nat n) as [|n'] eqn:En; [lia|]. cbn [firstn app].
    eexists; eexists; split; [reflexivity|exact Hdd]. }
  destruct ((-6 <? n) && (n <=? 0)); [eexists; eexists; split; reflexivity|].
  destruct ds'; eexists; eexists; split; try reflexivity; exact Hdd.
Qed.

Lemma digit_number_char c : is_digit c = true -> number_char c = true.
Proof. unfold number_char. now intros ->. Qed.

Lemma layout_chars ds n :
  Forall (fun c => is_digit c = true) ds ->
  Forall (fun c => number_char c = true) (layout ds n).
Proof.
  intros Hd.
  assert (Hn : Forall (fun c => number_char c = true) ds)
    by (eapply Forall_impl; [|exact Hd]; apply digit_number_char).
  assert (Hz : forall j, Forall (fun c => number_char c = true) (repeat 48%N j))
    by (intros j; eapply Forall_impl; [|apply Forall_zeros]; apply digit_number_char).
  assert (He : forall ex, Forall (fun c => number_char c = true)
                                 (101%N :: (if 0 <=? ex then 43%N else 45%N)
                                        :: digits (Z.to_N (Z.abs ex)))).
  { intros ex. constructor; [reflexivity|]. constructor; [now destruct (0 <=? ex)|].
    eapply Forall_impl; [|apply digits_digits]. apply digit_number_char. }
  unfold layout.
  destruct ((_ <=? n) && (n <=? 21)); [apply Forall_app; split; auto|].
  destruct ((0 <? n) && (n <=? 21)).
  { apply Forall_app. split; [now apply Forall_firstn|].
    constructor; [reflexivity|now apply Forall_skipn]. }
  destruct ((-6 <? n) && (n <=? 0)).
  { constructor; [reflexivity|]. constructor; [reflexivity|].
    apply Forall_app; split; auto. }
  destruct ds as [|d [|d2 ds']]; [apply He| |].
  - inversion Hn; subst. constructor; [assumption|apply He].
  - inversion Hn as [|? ? H1 H2]; subst. constructor; [assumption|].
    constructor; [reflexivity|]. apply Forall_app; split; [exact H2|apply He].
Qed.


Local Close Scope Z_scope.

Lemma digit_ascii c : is_digit c = true -> ascii_unit c.
Proof. unfold is_digit, ascii_unit. intros H. bool_hyps. lia. Qed.

Lemma uint_units_ascii u : Forall ascii_unit (uint_units u).
Proof.
  eapply Forall_impl; [|apply uint_units_digits]. intros c. apply digit_ascii.
Qed.

(** Numbers as [JSON.parse] reads them and as [JSON.stringify] and
    [String] write them. *)
Example numbers_read_and_written :
  JSON_parse (js "[1.0,1e2,0.1,-0,9007199254740993,1e400,-2.5E-3]")
  = Some (JArr [JNum 1; JNum 100;
                JFloat (S754_finite false 7205759403792794 (-56));
                JFloat (S754_zero true);
                JFloat (S754_finite false 4503599627370496 1);
                JFloat (S754_infinity false);
                JFloat (S754_finite true 5764607523034235 (-61))])
  /\ JSON_parse (js "01") = None
  /\ JSON_parse (js "1.") = None
  /\ JSON_parse (js ".5") = None
  /\ JSON_parse (js "1e") = None
  /\ JSON_stringify (JArr [JNum 1; JNum 100;
                           JFloat (S754_finite false 7205759403792794 (-56));
                           JFloat (S754_zero true);
                           JFloat (S754_finite false 4503599627370496 1);
                           JFloat (S754_infinity false);
                           JFloat (S754_finite true 5764607523034235 (-61))])
     = Some (js "[1,100,0.1,0,9007199254740992,null,-0.0025]")
  /\ Number_toString (2 ^ 70) = js "1.1805916207174113e+21"
  /\ float_toString (round_decimal false 15 (-8)) = js "1.5e-7"
  /\ float_toString (round_decimal false 1 21) = js "1e+21"
  /\ float_toString (round_decimal false 123456 (-3)) = js "123.456"
  /\ float_toString (round_decimal true 1 (-6)) = js "-0.000001"
  /\ float_toString (round_decimal false 3 (-1)) = js "0.3"
  /\ float_toString (round_decimal false 5 (-324)) = js "5e-324".
Proof. repeat split; vm_compute; reflexivity. Qed.

Lemma number_char_ascii c : number_char c = true -> ascii_unit c.
Proof.
  unfold number_char, is_digit, ascii_unit. intros H.
  repeat (apply orb_true_iff in H; destruct H as [H|H]); bool_hyps; lia.
Qed.

Lemma float_toString_ascii f : Forall ascii_unit (float_toString f).
Proof.
  destruct f as [s|s| |s m e]; cbn [float_toString].
  - repeat constructor.
  - destruct s; repeat constructor.
  - repeat constructor.
  - apply Forall_app. split; [destruct s; repeat constructor|].
    destruct (shortest m e) as [[d n]|]; [|constructor].
    eapply Forall_impl; [|apply layout_chars, digits_digits].
    intros c. apply number_char_ascii.
Qed.

Lemma Number_toString_ascii z : Forall ascii_unit (Number_toString z).
Proof.
  unfold Number_toString. destruct (Z.abs z <? 2 ^ 53)%Z; [|apply float_toString_ascii].
  destruct (Z.to_int z) as [u|u].
  - apply uint_units_ascii.
  - constructor; [unfold ascii_unit; lia | apply uint_units_ascii].
Qed.

Lemma join_paired sep l :
  paired sep = true -> Forall (fun s => paired s = true) l -> paired (join sep l) = true.
Proof.
  intros Hs. induction 1 as [|x l Hx Hl IH]; [reflexivity|].
  cbn [join]. destruct l as [|y l]; [exact Hx|].
  apply paired_app; [exact Hx|]. apply paired_app; [exact Hs|exact IH].
Qed.

(** The text [JSON.stringify] writes has no unpaired surrogate. *)
Lemma SerializeJSONProperty_paired v :
  forall t, SerializeJSONProperty v = Some t -> paired t = true.
Proof.
  induction v as [| |b|z|f|s|l IH|kvs IH] using jsval_ind; intros t; cbn [SerializeJSONProperty].
  - discriminate.
  - intros [= <-]. reflexivity.
  - destruct b; intros [= <-]; reflexivity.
  - intros [= <-]. apply ascii_is_paired, Number_toString_ascii.
  - destruct f as [sg|sg| |sg m e]; intros [= <-]; try reflexivity;
      apply ascii_is_paired, (float_toString_ascii (S754_finite sg m e)).
  - intros [= <-]. apply QuoteJSONString_paired.
  - intros [= <-].
    match goal with |- paired (91 :: ?m ++ [93]) = true =>
      change (paired ([91] ++ m ++ [93]) = true) end.
    rewrite ascii_paired by (repeat constructor).
    apply paired_app; [|reflexivity].
    apply join_paired; [reflexivity|].
    apply Forall_map. eapply Forall_impl; [|exact IH].
    intros x Hx. cbv beta in Hx.
    destruct (SerializeJSONProperty x) eqn:E; [now apply Hx|reflexivity].
  - intros [= <-].
    match goal with |- paired (123 :: ?m ++ [125]) = true =>
      change (paired ([123] ++ m ++ [125]) = true) end.
    rewrite ascii_paired by (repeat constructor).
    apply paired_app; [|reflexivity].
    apply join_paired; [reflexivity|].
    apply Forall_flat_map. eapply Forall_impl; [|exact IH].
    intros kv Hx. cbv beta in Hx.
    destruct (SerializeJSONProperty (snd kv)) as [j|] eqn:E; [|constructor].
    constructor; [|constructor].
    apply paired_app; [apply QuoteJSONString_paired|].
    change (58 :: j) with ([58] ++ j).
    rewrite ascii_paired by (repeat constructor).
    now apply Hx.
Qed.


(** ** Strings *)

Lemma hex4_lower c :
  c < 65536 ->
  hex4 (hex_lower (c / 4096)) (hex_lower ((c / 256) mod 16))
       (hex_lower ((c / 16) mod 16)) (hex_lower (c mod 16)) = Some c.
Proof.
  intros H. unfold hex4. rewrite !hex_value_lower by lia. f_equal. lia.
Qed.

Lemma parse_string_unicode_escape c rest :
  c < 65536 ->
  parse_string (unicode_escape c ++ rest) = prepend c (parse_string rest).
Proof.
  intros H. unfold unicode_escape. cbn [app parse_string].
  cbn [N.eqb Pos.eqb]. now rewrite hex4_lower.
Qed.

Lemma parse_string_short_escape c e rest :
  short_escape c = Some e ->
  parse_string (92 :: e :: rest) = prepend c (parse_string rest).
Proof.
  unfold short_escape.
  repeat match goal with
         | |- context [N.eqb c ?k] => destruct (N.eqb_spec c k)
         end; intros [= <-]; subst; reflexivity.
Qed.

Lemma parse_string_plain c rest :
  short_escape c = None -> (c <? 32) = false ->
  parse_string (c :: rest) = prepend c (parse_string rest).
Proof.
  intros H1 H2. cbn [parse_string]. rewrite H2.
  unfold short_escape in H1.
  repeat match type of H1 with
         | context [N.eqb c ?k] => destruct (N.eqb c k) eqn:?
         end; try discriminate.
  reflexivity.
Qed.

Lemma surrogate_plain c :
  is_high_surrogate c = true \/ is_low_surrogate c = true ->
  short_escape c = None /\ (c <? 32) = false.
Proof.
  intros H.
  assert (55296 <= c) by (unfold is_high_surrogate, is_low_surrogate in H;
                          destruct H; bool_hyps; lia).
  split; [|bool_goal; lia].
  unfold short_escape.
  repeat match goal with
         | |- context [N.eqb c ?k] => destruct (N.eqb_spec c k); [lia|]
         end.
  reflexivity.
Qed.

(** [parse_string] reads back what QuoteJSONString wrote. *)
Lemma parse_string_quote s rest :
  well_typed s ->
  parse_string (quote_units s ++ 34 :: rest) = Some (s, rest).
Proof.
  induction s as [|c|c d s IH1 IH2] using jstring_ind2; intros Hw.
  - reflexivity.
  - inversion Hw as [|? ? Hc _]; subst. unfold code_unit in Hc. cbn [quote_units].
    destruct (short_escape c) as [e|] eqn:E.
    + cbn [app]. now rewrite (parse_string_short_escape _ _ _ E).
    + destruct (c <? 32) eqn:C.
      * rewrite app_nil_r, parse_string_unicode_escape by exact Hc. reflexivity.
      * destruct (is_high_surrogate c) eqn:Hh.
        -- rewrite parse_string_unicode_escape by exact Hc. reflexivity.
        -- destruct (is_low_surrogate c) eqn:Hl.
           ++ rewrite app_nil_r, parse_string_unicode_escape by exact Hc. reflexivity.
           ++ cbn [app]. now rewrite parse_string_plain.
  - inversion Hw as [|? ? Hc Hw1]; subst. unfold code_unit in Hc.
    inversion Hw1 as [|? ? Hd Hw2]; subst.
    change (quote_units (c :: d :: s))
      with (match short_escape c with
            | Some e => 92 :: e :: quote_units (d :: s)
            | None =>
                if c <? 32 then unicode_escape c ++ quote_units (d :: s)
                else if is_high_surrogate c then
                       if is_low_surrogate d then c :: d :: quote_units s
                       else unicode_escape c ++ quote_units (d :: s)
                     else if is_low_surrogate c
                          then unicode_escape c ++ quote_units (d :: s)
                          else c :: quote_units (d :: s)
            end).
    destruct (short_escape c) as [e|] eqn:E.
    + cbn [app]. rewrite (parse_string_short_escape _ _ _ E). now rewrite IH2.
    + destruct (c <? 32) eqn:C.
      * rewrite <- app_assoc, parse_string_unicode_escape by exact Hc. now rewrite IH2.
      * destruct (is_high_surrogate c) eqn:Hh.
        -- destruct (is_low_surrogate d) eqn:Hl.
           ++ cbn [app]. rewrite parse_string_plain by assumption.
              destruct (surrogate_plain d (or_intror Hl)) as [Hd1 Hd2].
              rewrite parse_string_plain by assumption. now rewrite IH1.
           ++ rewrite <- app_assoc, parse_string_unicode_escape by exact Hc. now rewrite IH2.
        -- destruct (is_low_surrogate c) eqn:Hl.
           ++ rewrite <- app_assoc, parse_string_unicode_escape by exact Hc. now rewrite IH2.
           ++ cbn [app]. rewrite parse_string_plain by assumption. now rewrite IH2.
Qed.

(** ** Numbers *)


(** The Number of an integer below 2^53 in magnitude reads back from
    its decimal digits. *)
Lemma parse_number_toString z rest :
  (- 2 ^ 53 < z < 2 ^ 53)%Z ->
  delimited rest ->
  parse_number (Number_toString z ++ rest) = Some (JNum z, rest).
Proof.
  intros Hz Hd. unfold Number_toString.
  replace (Z.abs z <? 2 ^ 53)%Z with true by (symmetry; apply Z.ltb_lt; lia).
  pose proof (delimited_not_digit rest Hd) as Hr.
  pose proof (parse_fraction_none rest Hd) as Hf.
  pose proof (parse_exponent_none rest Hd) as He.
  destruct z as [|p|p]; cbn [Z.to_int].
  - apply (parse_number_parts false [48] rest [] rest 0%Z rest);
      [repeat constructor|reflexivity|exact Hr|exact Hf|exact He].
  - destruct (digits_head p) as (d & ds & Eds & Hdd & Hd0).
    pose proof (parse_number_parts false (digits (Npos p)) rest [] rest 0%Z rest) as Hp.
    cbn [app] in Hp. change (uint_units (Pos.to_uint p)) with (digits (Npos p)).
    rewrite Hp; [|apply digits_digits| |exact Hr|exact Hf|exact He].
    + rewrite app_nil_r, digits_value_digits. cbn [Datatypes.length Z.of_nat Z.sub Z.opp Z.add].
      now rewrite (round_integer false p) by lia.
    + rewrite Eds, Hd0. reflexivity.
  - destruct (digits_head p) as (d & ds & Eds & Hdd & Hd0).
    pose proof (parse_number_parts true (digits (Npos p)) rest [] rest 0%Z rest) as Hp.
    cbn [app] in Hp. change (uint_units (Pos.to_uint p)) with (digits (Npos p)).
    cbn [app].
    rewrite Hp; [|apply digits_digits| |exact Hr|exact Hf|exact He].
    + rewrite app_nil_r, digits_value_digits. cbn [Datatypes.length Z.of_nat Z.sub Z.opp Z.add].
      now rewrite (round_integer true p) by lia.
    + rewrite Eds, Hd0. reflexivity.
Qed.

Lemma safe_text v : json_safe v -> SerializeJSONProperty v = Some (text v).
Proof. unfold text. destruct 1; cbn [SerializeJSONProperty]; try reflexivity.
       destruct b; reflexivity. Qed.

Lemma text_float neg m e :
  text (JFloat (S754_finite neg m e)) = float_toString (S754_finite neg m e).
Proof. reflexivity. Qed.

Lemma float_toString_head neg m e :
  is_binary64 m e = true ->
  exists c r, float_toString (S754_finite neg m e) = c :: r
              /\ (is_digit c = true \/ c = 45).
Proof.
  intros Hb. cbn [float_toString]. destruct neg.
  - eexists; eexists; split; [reflexivity|now right].
  - destruct (shortest_spec m e Hb) as (d & n & Hs & Hr). rewrite Hs.
    destruct d as [|p]; [discriminate|].
    destruct (layout_head p n) as (c & r & E & Hc).
    exists c, r. cbn [app]. split; [exact E|now left].
Qed.


Lemma Number_toString_head z :
  (- 2 ^ 53 < z < 2 ^ 53)%Z ->
  exists c r, Number_toString z = c :: r /\ (is_digit c = true \/ c = 45).
Proof.
  intros Hz. unfold Number_toString.
  replace (Z.abs z <? 2 ^ 53)%Z with true by (symmetry; apply Z.ltb_lt; lia).
  destruct z as [|p|p]; cbn [Z.to_int].
  - exists 48, []. split; [reflexivity|now left].
  - destruct (to_uint_head p) as [Hnil _].
    pose proof (uint_units_digits (Pos.to_uint p)) as Hd.
    destruct (Pos.to_uint p) eqn:E; try congruence; cbn [uint_units] in *;
      inversion Hd; subst; eexists; eexists; (split; [reflexivity|now left]).
  - eexists; eexists; split; [reflexivity|now right].
Qed.

Lemma text_head v :
  json_safe v -> exists c r, text v = c :: r /\ value_start c.
Proof.
  intros H. unfold text, value_start.
  destruct H; cbn [SerializeJSONProperty].
  - exists 110. eexists. split; [reflexivity|]. repeat split; try reflexivity; intro E; vm_compute in E; discriminate.
  - destruct b; eexists; eexists; (split; [reflexivity|]);
      repeat split; try reflexivity; intro E; vm_compute in E; discriminate.
  - destruct (Number_toString_head z ltac:(assumption)) as (c & r & -> & Hc).
    exists c, r. split; [reflexivity|].
    destruct Hc as [Hc| ->]; [|repeat split; try reflexivity; lia].
    unfold is_digit in Hc. bool_hyps. unfold is_ws.
    repeat split; try lia.
    repeat (apply orb_false_iff; split); bool_goal; lia.
  - destruct (float_toString_head neg m e ltac:(assumption)) as (c & r & -> & Hc).
    exists c, r. split; [reflexivity|].
    destruct Hc as [Hc| ->]; [|repeat split; try reflexivity; lia].
    unfold is_digit in Hc. bool_hyps. unfold is_ws.
    repeat split; try lia.
    repeat (apply orb_false_iff; split); bool_goal; lia.
  - eexists; eexists; (split; [reflexivity|]). repeat split; try reflexivity; intro E; vm_compute in E; discriminate.
  - eexists; eexists; (split; [reflexivity|]). repeat split; try reflexivity; intro E; vm_compute in E; discriminate.
  - eexists; eexists; (split; [reflexivity|]). repeat split; try reflexivity; intro E; vm_compute in E; discriminate.
Qed.

Lemma skip_ws_start c r : is_ws c = false -> skip_ws (c :: r) = c :: r.
Proof. intros H. cbn [skip_ws]. now rewrite H. Qed.

Lemma skip_ws_delimited rest : delimited rest -> skip_ws rest = rest.
Proof.
  destruct rest as [|c r]; [reflexivity|].
  intros [->| [->| ->]]; reflexivity.
Qed.

(** ** Objects read back *)

Lemma obj_set_fresh k v o :
  ~ In k (map fst o) -> obj_set k v o = o ++ [(k, v)].
Proof.
  induction o as [|[k' v'] o IH]; cbn [obj_set map In app fst]; [reflexivity|].
  intros H. destruct (jstring_eqb k' k) eqn:E.
  - apply jstring_eqb_eq in E. subst. tauto.
  - rewrite IH by tauto. reflexivity.
Qed.

Lemma fold_obj_set kvs acc :
  NoDup (map fst (acc ++ kvs)) ->
  fold_left (fun o kv => obj_set (fst kv) (snd kv) o) kvs acc = acc ++ kvs.
Proof.
  revert acc. induction kvs as [|[k v] kvs IH]; intros acc H; cbn [fold_left].
  - now rewrite app_nil_r.
  - cbn [fst snd]. rewrite obj_set_fresh.
    + rewrite IH; rewrite <- app_assoc; [reflexivity|exact H].
    + rewrite map_app in H. cbn [map fst] in H.
      apply NoDup_remove_2 in H. intros Hin. apply H. apply in_or_app. now left.
Qed.


(** ** Values *)

Lemma parse_value_string fuel r :
  parse_value (S fuel) (34 :: r)
  = match parse_string r with Some (t, r') => Some (JStr t, r') | None => None end.
Proof. reflexivity. Qed.

Lemma parse_value_array fuel r :
  parse_value (S fuel) (91 :: r)
  = match skip_ws r with
    | d :: r' =>
        if N.eqb d 93 then Some (JArr [], r')
        else match parse_elements fuel r with
             | Some (l, r'') => Some (JArr l, r'')
             | None => None
             end
    | [] => None
    end.
Proof. reflexivity. Qed.

Lemma parse_value_object fuel r :
  parse_value (S fuel) (123 :: r)
  = match skip_ws r with
    | d :: r' =>
        if N.eqb d 125 then Some (JObj [], r')
        else match parse_members fuel r with
             | Some (kvs, r'') =>
                 Some (JObj (fold_left (fun o kv => obj_set (fst kv) (snd kv) o) kvs []),
                       r'')
             | None => None
             end
    | [] => None
    end.
Proof. reflexivity. Qed.

Lemma parse_value_number fuel c r :
  is_digit c = true \/ c = 45 ->
  parse_value (S fuel) (c :: r)
  = parse_number (c :: r).
Proof.
  intros H.
  assert (Hc : c = 45 \/ 48 <= c <= 57).
  { destruct H as [H| ->]; [right|now left]. unfold is_digit in H. bool_hyps. lia. }
  cbn [parse_value skip_ws].
  replace (is_ws c) with false.
  2:{ symmetry. unfold is_ws. repeat (apply orb_false_iff; split); bool_goal; lia. }
  replace (N.eqb c 110) with false by (symmetry; bool_goal; lia).
  replace (N.eqb c 116) with false by (symmetry; bool_goal; lia).
  replace (N.eqb c 102) with false by (symmetry; bool_goal; lia).
  replace (N.eqb c 34) with false by (symmetry; bool_goal; lia).
  replace (N.eqb c 91) with false by (symmetry; bool_goal; lia).
  replace (N.eqb c 123) with false by (symmetry; bool_goal; lia).
  reflexivity.
Qed.

Lemma parse_elements_step fuel s :
  parse_elements (S fuel) s
  = match parse_value fuel s with
    | Some (v, r) =>
        match skip_ws r with
        | d :: r' =>
            if N.eqb d 44 then
              match parse_elements fuel r' with
              | Some (l, r'') => Some (v :: l, r'')
              | None => None
              end
            else if N.eqb d 93 then Some ([v], r')
                 else None
        | [] => None
        end
    | None => None
    end.
Proof. reflexivity. Qed.

Lemma parse_members_step fuel r0 :
  parse_members (S fuel) (34 :: r0)
  = match parse_string r0 with
    | Some (k, r1) =>
        match skip_ws r1 with
        | c :: r2 =>
            if N.eqb c 58 then
              match parse_value fuel r2 with
              | Some (v, r3) =>
                  match skip_ws r3 with
                  | d :: r4 =>
                      if N.eqb d 44 then
                        match parse_members fuel r4 with
                        | Some (kvs, r5) => Some ((k, v) :: kvs, r5)
                        | None => None
                        end
                      else if N.eqb d 125 then Some ([(k, v)], r4)
                           else None
                  | [] => None
                  end
              | None => None
              end
            else None
        | [] => None
        end
    | None => None
    end.
Proof. reflexivity. Qed.


Lemma parse_elements_text l :
  l <> [] ->
  Forall reads_back l ->
  forall fuel rest,
    (list_sum (map (fun x => S (size x)) l) <= fuel)%nat ->
    parse_elements fuel (join [44] (map text l) ++ 93 :: rest) = Some (l, rest).
Proof.
  intros Hne H. induction H as [|x l Hx Hl IH]; [congruence|].
  intros fuel rest Hf. cbn [map list_sum fold_right] in Hf.
  destruct fuel as [|fuel]; [lia|]. rewrite parse_elements_step.
  destruct l as [|y l].
  - cbn [map join]. rewrite Hx; [|cbn [map list_sum fold_right] in Hf; lia|now right; left].
    reflexivity.
  - cbn [map join]. rewrite <- !app_assoc. cbn [app].
    rewrite Hx; [|lia|now left]. cbn [skip_ws is_ws N.eqb Pos.eqb orb].
    change (join [44] (text y :: map text l)) with (join [44] (map text (y :: l))).
    rewrite IH; [reflexivity|discriminate|cbn [map list_sum fold_right] in *; lia].
Qed.

Lemma parse_members_text kvs :
  kvs <> [] ->
  Forall (fun kv => well_typed (fst kv) /\ reads_back (snd kv)) kvs ->
  forall fuel rest,
    (list_sum (map (fun kv => S (size (snd kv))) kvs) <= fuel)%nat ->
    parse_members fuel (join [44] (map member kvs) ++ 125 :: rest) = Some (kvs, rest).
Proof.
  intros Hne H. induction H as [|[k v] kvs [Hk Hv] Hl IH]; [congruence|].
  intros fuel rest Hf. cbn [map list_sum fold_right snd] in Hf.
  destruct fuel as [|fuel]; [lia|].
  cbn [fst snd] in *.
  assert (Hstep : forall tail,
    parse_members (S fuel) (member (k, v) ++ tail)
    = match parse_value fuel (text v ++ tail) with
      | Some (v', r3) =>
          match skip_ws r3 with
          | d :: r4 =>
              if N.eqb d 44 then
                match parse_members fuel r4 with
                | Some (kvs, r5) => Some ((k, v') :: kvs, r5)
                | None => None
                end
              else if N.eqb d 125 then Some ([(k, v')], r4)
                   else None
          | [] => None
          end
      | None => None
      end).
  { intros tail. unfold member, QuoteJSONString. cbn [fst snd app].
    rewrite parse_members_step. rewrite <- !app_assoc. cbn [app].
    rewrite parse_string_quote by exact Hk. reflexivity. }
  destruct kvs as [|kv' kvs].
  - cbn [map join]. rewrite Hstep. rewrite Hv; [|lia|now right; right]. reflexivity.
  - cbn [map join]. rewrite <- !app_assoc. rewrite Hstep. cbn [app].
    rewrite Hv; [|lia|now left]. cbn [skip_ws is_ws N.eqb Pos.eqb orb].
    change (join [44] (member kv' :: map member kvs))
      with (join [44] (map member (kv' :: kvs))).
    rewrite IH; [reflexivity|discriminate|cbn [map list_sum fold_right] in *; lia].
Qed.

Lemma join_head (f : jsval -> jstring) x l tail :
  (exists c r, f x = c :: r /\ value_start c) ->
  exists c r, join [44] (map f (x :: l)) ++ tail = c :: r /\ value_start c.
Proof.
  intros (c & r & E & Hc). cbn [map join]. rewrite E.
  destruct (map f l); cbn [app]; eexists; eexists; split; try reflexivity; exact Hc.
Qed.

Lemma member_head kv kvs tail :
  exists r, join [44] (map member (kv :: kvs)) ++ tail = 34 :: r.
Proof.
  destruct kvs as [|kv' kvs]; cbn [map join]; unfold member at 1, QuoteJSONString;
    cbn [fst snd app]; eexists; reflexivity.
Qed.

Lemma text_array l : text (JArr l) = 91 :: join [44] (map text l) ++ [93].
Proof. reflexivity. Qed.

Lemma text_object kvs :
  Forall (fun kv => json_safe (snd kv)) kvs ->
  text (JObj kvs) = 123 :: join [44] (map member kvs) ++ [125].
Proof.
  intros H. unfold text at 1. cbn [SerializeJSONProperty]. do 3 f_equal.
  induction H as [|kv kvs Hkv _ IH]; [reflexivity|].
  cbn [flat_map map]. rewrite IH. rewrite (safe_text _ Hkv). reflexivity.
Qed.

(** [parse_value] reads back what [JSON.stringify] wrote. *)
Lemma parse_value_text v : json_safe v -> reads_back v.
Proof.
  induction v as [| |b|z|f|s|l IH|kvs IH] using jsval_ind; intros Hs fuel rest Hf Hd;
    inversion Hs; subst; cbn [size] in Hf; (destruct fuel as [|fuel]; [lia|]).
  - reflexivity.
  - destruct b; reflexivity.
  - destruct (Number_toString_head z ltac:(assumption)) as (c & r & E & Hc).
    unfold text. cbn [SerializeJSONProperty]. rewrite E. cbn [app].
    rewrite parse_value_number by exact Hc.
    change (c :: r ++ rest) with ((c :: r) ++ rest). rewrite <- E.
    now rewrite parse_number_toString by assumption.
  - destruct (float_toString_head neg m e ltac:(assumption)) as (c & r & E & Hc).
    rewrite text_float, E. cbn [app].
    rewrite parse_value_number by exact Hc.
    change (c :: r ++ rest) with ((c :: r) ++ rest). rewrite <- E.
    now apply parse_float_toString.
  - unfold text. cbn [SerializeJSONProperty]. unfold QuoteJSONString. cbn [app].
    rewrite parse_value_string. rewrite <- app_assoc. cbn [app].
    now rewrite parse_string_quote.
  - rewrite text_array. cbn [app]. rewrite parse_value_array.
    rewrite <- app_assoc. cbn [app].
    destruct l as [|x l]; [reflexivity|].
    assert (Hall : Forall reads_back (x :: l)).
    { rewrite Forall_forall in *. intros y Hy. apply IH; auto. }
    destruct (join_head text x l (93 :: rest)) as (c & r & E & Hw & H93 & _).
    { apply text_head. now inversion H0. }
    rewrite E. rewrite skip_ws_start by exact Hw.
    replace (N.eqb c 93) with false by (symmetry; now apply N.eqb_neq).
    rewrite <- E. rewrite parse_elements_text; [reflexivity|discriminate|exact Hall|lia].
  - assert (Hsafe : Forall (fun kv => json_safe (snd kv)) kvs).
    { eapply Forall_impl; [|exact H1]. now intros kv [_ H]. }
    rewrite text_object by exact Hsafe. cbn [app]. rewrite parse_value_object.
    rewrite <- app_assoc. cbn [app].
    destruct kvs as [|kv kvs]; [reflexivity|].
    destruct (member_head kv kvs (125 :: rest)) as (r & E).
    rewrite E. rewrite skip_ws_start by reflexivity.
    cbn [N.eqb Pos.eqb]. rewrite <- E.
    rewrite parse_members_text; [|discriminate| |lia].
    + now rewrite (fold_obj_set (kv :: kvs) []).
    + rewrite Forall_forall in *. intros y Hy. split; [apply H1, Hy|].
      apply IH; [exact Hy|]. apply H1, Hy.
Qed.

(** ** [JSON.parse] after [JSON.stringify] *)

Lemma length_join_ge (f : jsval -> jstring) (g : jsval -> nat) l :
  Forall (fun x => (g x <= Datatypes.length (f x))%nat) l ->
  (list_sum (map (fun x => S (g x)) l) <= S (Datatypes.length (join [44%N] (map f l))))%nat.
Proof.
  induction 1 as [|x l Hx _ IH]; [cbn; lia|]. destruct l as [|y l].
  - cbn [map list_sum fold_right join]. lia.
  - change (join [44%N] (map f (x :: y :: l)))
      with (f x ++ [44%N] ++ join [44%N] (map f (y :: l))).
    rewrite !length_app. cbn [map list_sum fold_right Datatypes.length] in *. lia.
Qed.

Lemma size_text v : json_safe v -> (size v <= Datatypes.length (text v))%nat.
Proof.
  induction v as [| |b|z|f|s|l IH|kvs IH] using jsval_ind; intros Hs;
    inversion Hs; subst; cbn [size].
  - cbn. lia.
  - destruct b; cbn; lia.
  - destruct (Number_toString_head z ltac:(assumption)) as (c & r & E & _).
    unfold text. cbn [SerializeJSONProperty]. rewrite E. cbn. lia.
  - destruct (float_toString_head neg m e ltac:(assumption)) as (c & r & E & _).
    rewrite text_float, E. cbn. lia.
  - unfold text. cbn [SerializeJSONProperty]. unfold QuoteJSONString. cbn. lia.
  - rewrite text_array. cbn [Datatypes.length]. rewrite length_app. cbn [Datatypes.length].
    assert (H : Forall (fun x => (size x <= Datatypes.length (text x))%nat) l).
    { rewrite Forall_forall in *. intros x Hx. apply IH; auto. }
    pose proof (length_join_ge text size l H). lia.
  - assert (Hsafe : Forall (fun kv => json_safe (snd kv)) kvs).
    { eapply Forall_impl; [|exact H1]. now intros kv [_ H]. }
    rewrite text_object by exact Hsafe.
    cbn [Datatypes.length]. rewrite length_app. cbn [Datatypes.length].
    assert (H : (list_sum (map (fun kv => S (size (snd kv))) kvs)
                 <= S (Datatypes.length (join [44%N] (map member kvs))))%nat).
    { clear H0 Hs. induction kvs as [|kv kvs IHk]; [cbn; lia|].
      inversion IH; subst. inversion H1; subst. inversion Hsafe; subst.
      assert (Hm : (size (snd kv) < Datatypes.length (member kv))%nat).
      { unfold member, QuoteJSONString. cbn [app Datatypes.length].
        rewrite !length_app. cbn [Datatypes.length].
        assert (size (snd kv) <= Datatypes.length (text (snd kv)))%nat by auto. lia. }
      destruct kvs as [|kv' kvs].
      - cbn [map list_sum fold_right join]. lia.
      - change (join [44%N] (map member (kv :: kv' :: kvs)))
          with (member kv ++ [44%N] ++ join [44%N] (map member (kv' :: kvs))).
        rewrite !length_app.
        assert (list_sum (map (fun kv => S (size (snd kv))) (kv' :: kvs))
                <= S (Datatypes.length (join [44%N] (map member (kv' :: kvs)))))%nat
          by (apply IHk; assumption).
        cbn [map list_sum fold_right Datatypes.length] in *. lia. }
    lia.
Qed.

(** [JSON.parse(JSON.stringify(v))] is [v], for a value that JSON carries. *)
Lemma JSON_parse_stringify v :
  json_safe v ->
  exists t, JSON_stringify v = Some t /\ JSON_parse t = Some v.
Proof.
  intros Hs. exists (text v). split; [now apply safe_text|].
  unfold JSON_parse.
  pose proof (parse_value_text v Hs (2 * Datatypes.length (text v) + 2)%nat []) as H.
  rewrite app_nil_r in H. rewrite H; [reflexivity| |exact I].
  pose proof (size_text v Hs). lia.
Qed.


(** ** The text of a value is a string *)

Lemma ascii_code_unit c : ascii_unit c -> code_unit c.
Proof. unfold ascii_unit, code_unit. lia. Qed.

Lemma ascii_well_typed s : Forall ascii_unit s -> well_typed s.
Proof. intros H. eapply Forall_impl; [|exact H]. apply ascii_code_unit. Qed.

Lemma quote_units_well_typed s : well_typed s -> well_typed (quote_units s).
Proof.
  induction s as [|c|c d s IH1 IH2] using jstring_ind2; intros Hw.
  - constructor.
  - inversion Hw as [|? ? Hc _]; subst. cbn [quote_units].
    destruct (short_escape c) as [e|] eqn:E.
    + destruct (short_escape_ascii _ _ E).
      repeat constructor; auto using ascii_code_unit.
    + destruct (c <? 32); [|destruct (is_high_surrogate c); [|destruct (is_low_surrogate c)]];
        rewrite ?app_nil_r;
        try (apply ascii_well_typed, unicode_escape_ascii; exact Hc).
      repeat constructor; exact Hc.
  - inversion Hw as [|? ? Hc Hw1]; subst. inversion Hw1 as [|? ? Hd Hw2]; subst.
    change (quote_units (c :: d :: s))
      with (match short_escape c with
            | Some e => 92 :: e :: quote_units (d :: s)
            | None =>
                if c <? 32 then unicode_escape c ++ quote_units (d :: s)
                else if is_high_surrogate c then
                       if is_low_surrogate d then c :: d :: quote_units s
                       else unicode_escape c ++ quote_units (d :: s)
                     else if is_low_surrogate c
                          then unicode_escape c ++ quote_units (d :: s)
                          else c :: quote_units (d :: s)
            end).
    pose proof (ascii_well_typed _ (unicode_escape_ascii c Hc)) as Hu.
    destruct (short_escape c) as [e|] eqn:E.
    + destruct (short_escape_ascii _ _ E) as [He _].
      constructor; [unfold code_unit; lia|].
      constructor; [now apply ascii_code_unit|now apply IH2].
    + destruct (c <? 32); [apply Forall_app; split; [exact Hu|now apply IH2]|].
      destruct (is_high_surrogate c).
      * destruct (is_low_surrogate d);
          [|apply Forall_app; split; [exact Hu|now apply IH2]].
        constructor; [exact Hc|]. constructor; [exact Hd|]. now apply IH1.
      * destruct (is_low_surrogate c);
          [apply Forall_app; split; [exact Hu|now apply IH2]|].
        constructor; [exact Hc|now apply IH2].
Qed.

Lemma QuoteJSONString_well_typed s : well_typed s -> well_typed (QuoteJSONString s).
Proof.
  intros H. unfold QuoteJSONString. constructor; [unfold code_unit; lia|].
  apply Forall_app. split; [now apply quote_units_well_typed|].
  repeat constructor.
Qed.

Lemma join_well_typed sep l :
  well_typed sep -> Forall well_typed l -> well_typed (join sep l).
Proof.
  intros Hs. induction 1 as [|x l Hx Hl IH]; [constructor|].
  cbn [join]. destruct l as [|y l]; [exact Hx|].
  apply Forall_app. split; [exact Hx|]. apply Forall_app. split; [exact Hs|exact IH].
Qed.

Lemma text_well_typed v : json_safe v -> well_typed (text v).
Proof.
  induction v as [| |b|z|f|s|l IH|kvs IH] using jsval_ind; intros Hs; inversion Hs; subst.
  - repeat constructor.
  - destruct b; repeat constructor.
  - unfold text. cbn [SerializeJSONProperty]. apply ascii_well_typed, Number_toString_ascii.
  - rewrite text_float. apply ascii_well_typed, float_toString_ascii.
  - unfold text. cbn [SerializeJSONProperty]. now apply QuoteJSONString_well_typed.
  - rewrite text_array. constructor; [unfold code_unit; lia|].
    apply Forall_app. split; [|repeat constructor].
    apply join_well_typed; [repeat constructor|].
    apply Forall_map. rewrite Forall_forall in *. intros x Hx. apply IH; auto.
  - assert (Hsafe : Forall (fun kv => json_safe (snd kv)) kvs).
    { eapply Forall_impl; [|exact H1]. now intros kv [_ H]. }
    rewrite text_object by exact Hsafe. constructor; [unfold code_unit; lia|].
    apply Forall_app. split; [|repeat constructor].
    apply join_well_typed; [repeat constructor|].
    apply Forall_map. rewrite Forall_forall in *. intros kv Hkv.
    unfold member. apply Forall_app. split.
    + apply QuoteJSONString_well_typed. apply H1, Hkv.
    + constructor; [unfold code_unit; lia|]. apply IH; [exact Hkv|]. apply H1, Hkv.
Qed.

(** ** The parameter in the path *)

Lemma after_char_app c a b :
  ~ In c a -> after_char c (a ++ c :: b) = Some b.
Proof.
  induction a as [|x a IH]; cbn [app after_char In]; intros H.
  - now rewrite N.eqb_refl.
  - replace (N.eqb x c) with false by (symmetry; apply N.eqb_neq; tauto).
    apply IH. tauto.
Qed.

Lemma split_from_none cur s :
  ~ In 38 s -> split_from [38] O cur s = [rev cur ++ s].
Proof.
  revert cur. induction s as [|x s IH]; intros cur H; cbn [split_from].
  - now rewrite app_nil_r.
  - cbn [startsWith].
    replace (N.eqb x 38) with false by (symmetry; apply N.eqb_neq; cbn in H; tauto).
    cbn [andb]. rewrite IH by (cbn in H; tauto).
    cbn [rev]. now rewrite <- app_assoc.
Qed.

Lemma uri_safe_not_amp e : forallb uri_safe e = true -> ~ In 38 e.
Proof.
  intros H Hin. rewrite forallb_forall in H. specialize (H _ Hin). discriminate.
Qed.

(** Every object has an encoded form. *)
Lemma encodedConfig_total cfg : exists e, encodedConfig cfg = Some e.
Proof.
  unfold encodedConfig, JSON_stringify.
  destruct (SerializeJSONProperty (JObj cfg)) as [t|] eqn:E.
  - apply encode_paired. now apply (SerializeJSONProperty_paired (JObj cfg)).
  - discriminate.
Qed.

(** What the upstream reads in a path with the parameter appended. *)
Lemma upstream_config_appended uriPath cfg e :
  json_safe (JObj cfg) ->
  ~ In 63 uriPath ->
  encodedConfig cfg = Some e ->
  upstream_config (uriPath ++ js "?" ++ js "CONFIG" ++ js "=" ++ e) = Some (JObj cfg).
Proof.
  intros Hs Hq He. unfold upstream_config.
  change (uriPath ++ js "?" ++ js "CONFIG" ++ js "=" ++ e)
    with (uriPath ++ 63 :: (js "CONFIG=" ++ e)).
  rewrite after_char_app by exact Hq.
  unfold encodedConfig, JSON_stringify in He.
  rewrite (safe_text _ Hs) in He.
  pose proof (text_well_typed _ Hs) as Hw.
  pose proof (encode_safe _ Hw _ He) as Hsafe.
  unfold split. rewrite split_from_none.
  - cbn [rev app parameter].
    change (startsWith (js "CONFIG=" ++ e) (js "CONFIG" ++ [61])) with true.
    cbn iota.
    change (skipn (Datatypes.length (js "CONFIG") + 1) (js "CONFIG=" ++ e)) with e.
    rewrite (decode_encode _ Hw _ He).
    destruct (JSON_parse_stringify _ Hs) as (t & Ht & Hp).
    unfold JSON_stringify in Ht. rewrite (safe_text _ Hs) in Ht.
    injection Ht as <-. exact Hp.
  - intros Hin. apply in_app_or in Hin. destruct Hin as [Hin|Hin].
    + vm_compute in Hin. repeat (destruct Hin as [Hin|Hin]; [discriminate|]). exact Hin.
    + exact (uri_safe_not_amp _ Hsafe Hin).
Qed.

(** ** The batches of an import *)


Section Batches.
Variable server : upstream.
Variable this : credentials.
Variable EOL : jstring.
Variables uriPath fileHeader : jstring.
Variable fileContent : list jstring.
Variables batchSize totalBatchCount : nat.


Hypothesis Haccepts : accepts server.

Lemma import_batch_run config header i w cfg hdr key :
  config <> header ->
  nullish (accessToken w) = false ->
  nth_error (store w) config = Some cfg ->
  nth_error (store w) header = Some hdr ->
  lookup (js "batchKey") cfg = Some key ->
  exists q jobId key' cfg' hdr' w',
    import_batch server this EOL uriPath config header fileHeader fileContent
                 batchSize totalBatchCount i w = (Ok jobId, w')
    /\ trace w' = trace w ++ [Exchange q (server (trace w) q); Sleep 2000]
    /\ is_batch EOL uriPath fileHeader fileContent batchSize totalBatchCount i key q
    /\ reply_batchKey (server (trace w) q) = Some key'
    /\ accessToken w' = accessToken w
    /\ nth_error (store w') config = Some cfg'
    /\ nth_error (store w') header = Some hdr'
    /\ lookup (js "batchKey") cfg' = Some key'.
Proof.
  intros Hne Htok Hcfg Hhdr Hkey.
  set (cfg1 := obj_set (js "isLastBatch") (isLastBatch totalBatchCount i) cfg).
  destruct (encodedConfig_total cfg1) as [e He].
  set (hdr1 := obj_set (js "Authorization")
                       (JStr (js "Zoho-oauthtoken " ++ ToString (accessToken w))) hdr).
  set (u := js "https://" ++ analyticsURI ++ uriPath ++ js "?" ++ js "CONFIG"
               ++ js "=" ++ e).
  set (batch := fileHeader
                  ++ join EOL (firstn (batchSize + i * batchSize - batchSize * i)
                                      (skipn (batchSize * i) fileContent))).
  set (q := mkRequest u (js "POST") hdr1
                      (FormFile (js "FILE") (js "batch.csv") (Buffer_from batch))).
  destruct (Haccepts (trace w) q) as (d & Hd & Hnd).
  assert (Hk : exists key', get_prop d (js "batchKey") = Some key')
    by (destruct d; try discriminate; eexists; reflexivity).
  destruct Hk as [key' Hk'].
  assert (Hj : exists j, get_prop d (js "jobId") = Some j)
    by (destruct d; try discriminate; eexists; reflexivity).
  destruct Hj as [j Hj'].
  exists q, j, key', (obj_set (js "batchKey") key' cfg1), hdr1.
  eexists. split.
  - unfold import_batch, sendBatchImportRequest, ensure_token, bind, set_prop,
      read_obj, or_throw, ret, get_accessToken, exchange, lift, log_event.
    fold (isLastBatch totalBatchCount i).
    cbn [store trace accessToken files].
    rewrite Hcfg. fold cfg1. cbn [store trace accessToken files].
    rewrite (nth_error_replace_nth_eq _ _ _ _ Hcfg).
    rewrite He. cbn [store trace accessToken files]. rewrite Htok.
    cbn [store trace accessToken files].
    rewrite (nth_error_replace_nth_neq _ _ _ _ Hne). rewrite Hhdr. fold hdr1.
    cbn [store trace accessToken files].
    rewrite nth_error_replace_nth_eq with (y := hdr)
      by (rewrite nth_error_replace_nth_neq by exact Hne; exact Hhdr).
    fold u. fold batch. fold q. cbn [store trace accessToken files].
    rewrite Hd. rewrite Hk'.
    cbn [store trace accessToken files].
    rewrite nth_error_replace_nth_neq by congruence.
    rewrite (nth_error_replace_nth_eq _ _ _ _ Hcfg).
    rewrite Hj'.
    cbn [store trace accessToken files].
    reflexivity.
  - cbn [trace accessToken store].
    split; [now rewrite <- app_assoc|].
    split.
    { exists cfg1, e. split; [exact He|]. split; [reflexivity|].
      split; [unfold cfg1; now rewrite lookup_obj_set_neq by reflexivity|].
      split; [apply lookup_obj_set_eq|]. split; [reflexivity|].
      cbn [payload q]. unfold batch, batch_text.
      replace (batchSize + i * batchSize - batchSize * i)%nat with batchSize by nia.
      replace (batchSize * i)%nat with (i * batchSize)%nat by lia. reflexivity. }
    split; [unfold reply_batchKey; now rewrite Hd|].
    split; [reflexivity|].
    split.
    { apply nth_error_replace_nth_eq with (y := cfg1).
      rewrite nth_error_replace_nth_neq by congruence.
      now apply nth_error_replace_nth_eq with (y := cfg). }
    split; [|apply lookup_obj_set_eq].
    rewrite nth_error_replace_nth_neq by exact Hne.
    apply nth_error_replace_nth_eq with (y := hdr).
    rewrite nth_error_replace_nth_neq by exact Hne. exact Hhdr.
Qed.

Lemma import_batches_run config header :
  config <> header ->
  forall remaining i w cfg hdr key jobId,
    nullish (accessToken w) = false ->
    nth_error (store w) config = Some cfg ->
    nth_error (store w) header = Some hdr ->
    lookup (js "batchKey") cfg = Some key ->
    exists chunks jobId' w',
      import_batches server this EOL uriPath config header fileHeader fileContent
                     batchSize totalBatchCount remaining i jobId w = (Ok jobId', w')
      /\ trace w' = trace w ++ chunk_events chunks
      /\ Datatypes.length chunks = remaining
      /\ batches_from EOL uriPath fileHeader fileContent batchSize totalBatchCount i key chunks.
Proof.
  intros Hne. induction remaining as [|k IH]; intros i w cfg hdr key jobId Htok Hcfg Hhdr Hkey.
  - exists [], jobId, w. cbn. rewrite app_nil_r. auto.
  - destruct (import_batch_run config header i w cfg hdr key Hne Htok Hcfg Hhdr Hkey)
      as (q & j & key' & cfg' & hdr' & w1 & Hrun & Htr & Hb & Hr & Ht1 & Hc1 & Hh1 & Hk1).
    assert (Htok1 : nullish (accessToken w1) = false) by (rewrite Ht1; exact Htok).
    destruct (IH (S i) w1 cfg' hdr' key' j Htok1 Hc1 Hh1 Hk1)
      as (chunks & j' & w' & Hrun' & Htr' & Hlen & Hbs).
    exists ((q, server (trace w) q) :: chunks), j', w'.
    split; [cbn [import_batches]; rewrite (bind_Ok _ _ _ _ _ Hrun); exact Hrun'|].
    split; [rewrite Htr', Htr; cbn [chunk_events flat_map fst snd];
            now rewrite <- app_assoc|].
    split; [cbn; now rewrite Hlen|].
    cbn [batches_from]. split; [exact Hb|]. exists key'. split; assumption.
Qed.

(** The batches, one by one. *)
Lemma batches_from_nth chunks :
  forall i key, batches_from EOL uriPath fileHeader fileContent batchSize totalBatchCount i key chunks ->
  forall n q r, nth_error chunks n = Some (q, r) ->
    exists k, is_batch EOL uriPath fileHeader fileContent batchSize totalBatchCount (i + n) k q
              /\ match n with
                 | O => k = key
                 | S m => exists q' r', nth_error chunks m = Some (q', r')
                                        /\ reply_batchKey r' = Some k
                 end.
Proof.
  induction chunks as [|[q0 r0] chunks IH]; intros i key Hb n q r Hn.
  - destruct n; discriminate.
  - cbn [batches_from] in Hb. destruct Hb as (Hb0 & key' & Hr0 & Hrest).
    destruct n as [|n]; cbn [nth_error] in Hn.
    + injection Hn as <- <-. exists key. rewrite Nat.add_0_r. auto.
    + destruct (IH (S i) key' Hrest n q r Hn) as (k & Hk & Hprev).
      exists k. split; [now replace (i + S n)%nat with (S i + n)%nat by lia|].
      destruct n as [|m].
      * subst k. exists q0, r0. auto.
      * destruct Hprev as (q' & r' & Hq' & Hr'). exists q', r'. auto.
Qed.
End Batches.

Lemma ceil_div_spec totalLines batchSize :
  (1 <= batchSize)%nat ->
  (totalLines <= ceil_div totalLines batchSize * batchSize)%nat
  /\ (forall n, totalLines <= n * batchSize -> ceil_div totalLines batchSize <= n)%nat.
Proof.
  intros HB. unfold ceil_div.
  pose proof (Nat.div_mod_eq (totalLines + batchSize - 1) batchSize) as E.
  pose proof (Nat.mod_upper_bound (totalLines + batchSize - 1) batchSize) as U.
  split; [nia|]. intros n Hn.
  assert ((totalLines + batchSize - 1) / batchSize < S n)%nat
    by (apply Nat.Div0.div_lt_upper_bound; nia).
  lia.
Qed.

Local Close Scope N_scope.

(* ================================================================= *)
(** * The specification, statement by statement *)

(** C1: in [handleV2Request], when the first attempt is rejected with the
    expiry code 8535 and the refresh gives a token, the call makes exactly
    three exchanges: the request, one token refresh, and the same request
    once more with the new token in its [Authorization] header; its
    outcome is that of the second attempt, so a second rejection, with
    the expiry code or any other, is thrown to the caller and nothing is
    sent a third time.  In the relay's [handleZohoApiRequest], a first
    reply 401 and a refresh that gives a token lead to the same three
    exchanges, and a second reply that is not a success (a second 401 in
    particular) ends the call with the reply 500. *)
Theorem auth_retry_exactly_once :
  (forall server this uriPath method config header isExportReq
          w w0 error code w1 t w2,
      config <> Some header ->
      ensure_token server this w = (Ok tt, w0) ->
      sendV2Request server uriPath method config header isExportReq w0
      = (Ok (Rejected error), w1) ->
      get_prop error (js "errorCode") = Some code ->
      is_expiry_code code = true ->
      getOauth server this w1 = (Ok (Fulfilled t), w2) ->
      exists hdr path p w3,
        let q1 := v2_request uriPath method (accessToken w0) hdr path in
        let q2 := v2_request uriPath method t (headers q1) path in
        let r1 := server (trace w0) q1 in
        let ro := server (trace w1) (oauth_request p) in
        let r2 := server (trace w2) q2 in
        handleV2Request server this uriPath method config header isExportReq w
        = (awaited (v2_result isExportReq r2), w3)
        /\ trace w3
           = trace w0 ++ [Exchange q1 r1; Exchange (oauth_request p) ro; Exchange q2 r2]
        /\ headers q2
           = obj_set (js "Authorization") (JStr (js "Zoho-oauthtoken " ++ ToString t))
                     (headers q1)
        /\ accessToken w3 = t
        /\ forall e2,
            v2_result isExportReq r2 = Ok (Rejected e2) ->
            handleV2Request server this uriPath method config header isExportReq w
            = (Throw (Value e2), w3))
  /\
  (forall upstream_server zohoRefreshToken clientId clientSecret
          apiUrl method body w c1 t w2,
      let q1 := Relay.api_request apiUrl method (Relay.zohoAccessToken w) body in
      let q2 := Relay.api_request apiUrl method t body in
      let refresh := Relay.refresh_request zohoRefreshToken clientId clientSecret in
      upstream_server (Relay.trace w) q1 = Response 401 c1 ->
      Relay.refreshZohoToken upstream_server zohoRefreshToken clientId clientSecret
                             (Relay.logged upstream_server w q1) = (Ok t, w2) ->
      let r2 := upstream_server (Relay.trace w2) q2 in
      Relay.handleZohoApiRequest upstream_server zohoRefreshToken clientId clientSecret
                                 apiUrl method body w
      = (Ok (Relay.relay_reply r2), Relay.logged upstream_server w2 q2)
      /\ Relay.trace (Relay.logged upstream_server w2 q2)
         = Relay.trace w
             ++ [Exchange q1 (Response 401 c1);
                 Exchange refresh
                          (upstream_server (Relay.trace (Relay.logged upstream_server w q1))
                                           refresh);
                 Exchange q2 r2]
      /\ forall st c2, r2 = Response st c2 -> Relay.response_ok st = false ->
                       Relay.relay_reply r2 = Relay.error_reply).
Proof.
  split.
  - intros server this uriPath method config header isExportReq w w0 error code w1 t w2
           Hne He Hs Hc Hx Hg.
    destruct (handleV2Request_retry_once server this uriPath method config header
                isExportReq w w0 error code w1 t w2 Hne He Hs Hc Hx Hg)
      as (hdr & path & p & w3 & H1 & H2 & H3 & H4).
    exists hdr, path, p, w3. cbv zeta in *.
    repeat (split; [assumption|]).
    intros e2 He2. rewrite H1, He2. reflexivity.
  - intros upstream_server zohoRefreshToken clientId clientSecret apiUrl method body
           w c1 t w2 q1 q2 refresh H1 Hr r2.
    destruct (RelayFacts.handleZohoApiRequest_retry_once
                upstream_server zohoRefreshToken clientId clientSecret
                apiUrl method body w c1 t w2 H1 Hr) as (Ha & Hb & _).
    split; [exact Ha|]. split; [exact Hb|].
    intros st c2 E Hok. unfold r2 in E |- *. rewrite E. cbn [Relay.relay_reply].
    now rewrite Hok.
Qed.

Lemma auth_retry_exactly_once_witness :
  (handleV2Request (scripted [expired; token_reply; expired]) demo_credentials
                   demo_path (js "GET") None 0 false demo_world
   = (Throw (Value expiry_error),
      snd (handleV2Request (scripted [expired; token_reply; expired]) demo_credentials
                           demo_path (js "GET") None 0 false demo_world))
   /\ exchanges (trace (snd (handleV2Request (scripted [expired; token_reply; expired])
                                             demo_credentials demo_path (js "GET") None 0
                                             false demo_world))) = 3%nat)
  /\
  (fst (Relay.handleZohoApiRequest (scripted [unauthorized; token_reply; unauthorized])
                                   (js "1000.refresh") (js "1000.ABC") (js "secret")
                                   demo_url (js "GET") JNull relay_ready)
   = Ok Relay.error_reply
   /\ exchanges (Relay.trace
                   (snd (Relay.handleZohoApiRequest
                           (scripted [unauthorized; token_reply; unauthorized])
                           (js "1000.refresh") (js "1000.ABC") (js "secret")
                           demo_url (js "GET") JNull relay_ready))) = 3%nat).
Proof.
  split.
  - destruct (proj1 auth_retry_exactly_once
                (scripted [expired; token_reply; expired]) demo_credentials
                demo_path (js "GET") None 0%nat false
                demo_world demo_world expiry_error (JNum 8535)
                (snd (sendV2Request (scripted [expired; token_reply; expired])
                                    demo_path (js "GET") None 0 false demo_world))
                (JStr (js "tokNew"))
                (snd (getOauth (scripted [expired; token_reply; expired]) demo_credentials
                        (snd (sendV2Request (scripted [expired; token_reply; expired])
                                            demo_path (js "GET") None 0 false demo_world)))))
      as (hdr & path & p & w3 & H1 & H2 & _).
    + discriminate.
    + vm_compute; reflexivity.
    + vm_compute; reflexivity.
    + vm_compute; reflexivity.
    + vm_compute; reflexivity.
    + vm_compute; reflexivity.
    + split; vm_compute; reflexivity.
  - pose proof (proj2 auth_retry_exactly_once
                  (scripted [unauthorized; token_reply; unauthorized])
                  (js "1000.refresh") (js "1000.ABC") (js "secret")
                  demo_url (js "GET") JNull relay_ready
                  [Buffer_from (text (JObj [(js "code", JStr (js "INVALID_OAUTHTOKEN"))]))]
                  (JStr (js "tokNew"))
                  (snd (Relay.refreshZohoToken
                          (scripted [unauthorized; token_reply; unauthorized])
                          (js "1000.refresh") (js "1000.ABC") (js "secret")
                          (Relay.logged (scripted [unauthorized; token_reply; unauthorized])
                             relay_ready
                             (Relay.api_request demo_url (js "GET") (JStr (js "tokOld"))
                                                JNull))))) as H.
    cbv zeta in H. destruct H as (Ha & Hb & Hc).
    + vm_compute; reflexivity.
    + vm_compute; reflexivity.
    + rewrite Ha. split; vm_compute; reflexivity.
Defined.

(** C2: in [handleV2Request], when the one reply to the first attempt has
    a status outside 200..299, its body is an envelope, and the
    [errorCode] of the envelope's [data] is not the expiry code 8535,
    then [sendV2Request] rejects with that [data], [handleV2Request]
    throws it to the caller, and the world it leaves is the one after the
    first attempt: one exchange, no token refresh, no second request. *)
Theorem api_error_not_retried :
  forall server this uriPath method config header isExportReq
         w w0 res1 w1 q status chunks respJSON err code,
    ensure_token server this w = (Ok tt, w0) ->
    sendV2Request server uriPath method config header isExportReq w0 = (res1, w1) ->
    trace w1 = trace w0 ++ [Exchange q (Response status chunks)] ->
    (100 <= status <= 999)%N ->
    ((200 <=? status)%N && (status <=? 299)%N) = false ->
    JSON_parse (Buffer_toString (body_octets chunks)) = Some respJSON ->
    get_prop respJSON (js "data") = Some err ->
    get_prop err (js "errorCode") = Some code ->
    is_expiry_code code = false ->
    res1 = Ok (Rejected err)
    /\ handleV2Request server this uriPath method config header isExportReq w
       = (Throw (Value err), w1)
    /\ exchanges (trace w1) = S (exchanges (trace w0)).
Proof.
  intros server this uriPath method config header isExportReq
         w w0 res1 w1 q status chunks respJSON err code He Hs Ht Hr Hn Hp Hd Hc Hx.
  destruct (handleV2Request_api_error server this uriPath method config header isExportReq
              w w0 res1 w1 q status chunks respJSON err code
              He Hs Ht Hr Hn Hp Hd Hc Hx) as [H1 H2].
  repeat split; try assumption.
  rewrite Ht. unfold exchanges. rewrite filter_app, length_app. simpl. lia.
Qed.

Lemma api_error_not_retried_witness :
  handleV2Request (scripted [not_found; token_reply; view_reply]) demo_credentials
                  demo_path (js "GET") None 0 false demo_world
  = (Throw (Value other_error),
     snd (sendV2Request (scripted [not_found; token_reply; view_reply])
                        demo_path (js "GET") None 0 false demo_world))
  /\ exchanges (trace (snd (sendV2Request (scripted [not_found; token_reply; view_reply])
                                          demo_path (js "GET") None 0 false demo_world)))
     = 1%nat.
Proof.
  destruct (api_error_not_retried
              (scripted [not_found; token_reply; view_reply]) demo_credentials
              demo_path (js "GET") None 0%nat false demo_world demo_world
              (fst (sendV2Request (scripted [not_found; token_reply; view_reply])
                                  demo_path (js "GET") None 0 false demo_world))
              (snd (sendV2Request (scripted [not_found; token_reply; view_reply])
                                  demo_path (js "GET") None 0 false demo_world))
              (v2_request demo_path (js "GET") (JStr (js "tokOld")) demo_header demo_path)
              404%N [Buffer_from (text (envelope "failure" other_error))]
              (envelope "failure" other_error) other_error (JNum 7103))
    as (_ & H & Hn).
  - vm_compute; reflexivity.
  - vm_compute; reflexivity.
  - vm_compute; reflexivity.
  - lia.
  - reflexivity.
  - vm_compute; reflexivity.
  - vm_compute; reflexivity.
  - vm_compute; reflexivity.
  - vm_compute; reflexivity.
  - split; [exact H | exact Hn].
Defined.






(** C5: for a map [cfg] that JSON carries ([json_safe]: [null],
    booleans, every finite Number but the negative zero, whole or not,
    strings, arrays and objects of these, no key twice), the [CONFIG]
    parameter [encodeURIComponent(JSON.stringify(cfg))] is always there
    and reads back as [cfg] through [decodeURIComponent] and
    [JSON.parse].  The
    path of [sendV2Request] is left as it is for a [null] config and for
    one with no key; for any other it is the path, [?CONFIG=] and that
    parameter, and the one [CONFIG] parameter of the path read back is
    [cfg].  The request [sendV2Request] sends has that path. *)
Theorem config_round_trip :
  (forall cfg,
      json_safe (JObj cfg) ->
      exists e,
        encodedConfig cfg = Some e
        /\ match decodeURIComponent e with
           | Some t => JSON_parse t
           | None => None
           end = Some (JObj cfg))
  /\
  (forall uriPath,
      config_path uriPath None = Some uriPath
      /\ config_path uriPath (Some []) = Some uriPath)
  /\
  (forall uriPath cfg,
      json_safe (JObj cfg) -> cfg <> [] -> ~ In 63%N uriPath ->
      exists e,
        encodedConfig cfg = Some e
        /\ config_path uriPath (Some cfg) = Some (uriPath ++ js "?CONFIG=" ++ e)
        /\ upstream_config (uriPath ++ js "?CONFIG=" ++ e) = Some (JObj cfg))
  /\
  (forall server uriPath reqMethod c header isExportReq w hdr cfg,
      c <> header ->
      nth_error (store w) header = Some hdr ->
      nth_error (store w) c = Some cfg ->
      json_safe (JObj cfg) -> cfg <> [] -> ~ In 63%N uriPath ->
      exists path res w',
        sendV2Request server uriPath reqMethod (Some c) header isExportReq w = (res, w')
        /\ trace w'
           = trace w
               ++ [Exchange (v2_request uriPath reqMethod (accessToken w) hdr path)
                            (server (trace w)
                                    (v2_request uriPath reqMethod (accessToken w) hdr path))]
        /\ upstream_config path = Some (JObj cfg)).
Proof.
  assert (Hrt : forall uriPath cfg,
             json_safe (JObj cfg) -> cfg <> [] -> ~ In 63%N uriPath ->
             exists e,
               encodedConfig cfg = Some e
               /\ config_path uriPath (Some cfg) = Some (uriPath ++ js "?CONFIG=" ++ e)
               /\ upstream_config (uriPath ++ js "?CONFIG=" ++ e) = Some (JObj cfg)).
  { intros uriPath cfg Hs Hne Hq.
    destruct (encodedConfig_total cfg) as [e He]. exists e. split; [exact He|].
    split.
    - unfold config_path. destruct cfg; [congruence|]. now rewrite He.
    - exact (upstream_config_appended uriPath cfg e Hs Hq He). }
  split; [|split; [|split]].
  - intros cfg Hs. destruct (encodedConfig_total cfg) as [e He]. exists e.
    split; [exact He|].
    pose proof He as He'. unfold encodedConfig, JSON_stringify in He'.
    rewrite (safe_text _ Hs) in He'.
    rewrite (decode_encode _ (text_well_typed _ Hs) _ He').
    destruct (JSON_parse_stringify _ Hs) as (t & Ht & Hp).
    unfold JSON_stringify in Ht. rewrite (safe_text _ Hs) in Ht.
    injection Ht as <-. exact Hp.
  - intros uriPath. split; reflexivity.
  - exact Hrt.
  - intros server uriPath reqMethod c header isExportReq w hdr cfg Hne Hh Hc Hs Hn Hq.
    destruct (Hrt uriPath cfg Hs Hn Hq) as (e & He & Hp & Hu).
    exists (uriPath ++ js "?CONFIG=" ++ e). eexists. eexists.
    rewrite (sendV2Request_eq server uriPath reqMethod (Some c) header isExportReq w hdr
               (Some cfg) (uriPath ++ js "?CONFIG=" ++ e)).
    + split; [reflexivity|]. split; [reflexivity|]. exact Hu.
    + exact Hh.
    + unfold config_of. rewrite nth_error_replace_nth_neq by congruence. now rewrite Hc.
    + exact Hp.
Qed.

Lemma config_round_trip_witness :
  config_path demo_path
              (Some [(js "k", JNum 5);
                     (js "rate", JFloat (S754_finite false 6755399441055744 (-52)));
                     (js "name", JStr (js "a b&c"))])
  = Some (demo_path
            ++ js "?CONFIG=%7B%22k%22%3A5%2C%22rate%22%3A1.5%2C%22name%22%3A%22a%20b%26c%22%7D")
  /\ upstream_config
       (demo_path
          ++ js "?CONFIG=%7B%22k%22%3A5%2C%22rate%22%3A1.5%2C%22name%22%3A%22a%20b%26c%22%7D")
     = Some (JObj [(js "k", JNum 5);
                   (js "rate", JFloat (S754_finite false 6755399441055744 (-52)));
                   (js "name", JStr (js "a b&c"))]).
Proof.
  destruct (proj1 (proj2 (proj2 config_round_trip)) demo_path
              [(js "k", JNum 5);
               (js "rate", JFloat (S754_finite false 6755399441055744 (-52)));
               (js "name", JStr (js "a b&c"))])
    as (e & He & Hp & Hu).
  - constructor.
    + cbn [map fst]. repeat constructor; cbn [In]; intuition discriminate.
    + repeat constructor; cbn [fst snd]; try lia;
        try (apply Forall_forall; intros x Hx; vm_compute in Hx;
             repeat (destruct Hx as [<-|Hx]; [vm_compute; reflexivity|]); destruct Hx).
  - discriminate.
  - vm_compute. intuition discriminate.
  - vm_compute in He. injection He as <-. split; [exact Hp | exact Hu].
Defined.

(** C6 does not hold of [sendV2Request]: an export through it does not
    return the octets of the body.  After [resp.setEncoding(null)] the
    chunks are strings, the octets read as UTF-8, so two replies 200
    with different bodies give the same value, and the octets of that
    value are not those of either body.  ([sendExportRequest], which
    asks for the body as a Buffer, writes the octets as they came.) *)
Lemma v2_export_not_byte_exact :
  fst (sendV2Request (always raw_reply) demo_path (js "GET") None 0 true demo_world)
  = Ok (Fulfilled (JStr [65533%N; 0%N; 123%N]))
  /\ fst (sendV2Request (always other_raw_reply) demo_path (js "GET") None 0 true
                        demo_world)
     = Ok (Fulfilled (JStr [65533%N; 0%N; 123%N]))
  /\ Buffer_from [65533%N; 0%N; 123%N] = [239%N; 191%N; 189%N; 0%N; 123%N]
  /\ raw_reply <> other_raw_reply.
Proof. repeat split; try (vm_compute; reflexivity). discriminate. Qed.

(** C7 counts the lines of a file as lines of data, and the code counts
    the pieces [split] leaves after the header line: for a file that ends
    with the line terminator there is one more, the empty piece after
    it.  The file below has two lines of data and ends with the
    terminator; with a batch size of 2 it goes out in two chunks where
    C7 has one.  The first chunk has both lines and says it is not the
    last; the second is the header line alone and says it is the
    last. *)
Lemma batch_import_counts_the_last_terminator :
  find_file (js "rows.csv") (files ended_world)
  = Some (Buffer_from (js "id,name" ++ [10%N] ++ js "1,a" ++ [10%N] ++ js "2,b" ++ [10%N]))
  /\ fst (handleBatchImportRequest batch_server demo_credentials [10%N] (js "/import") 1 0
                                   (js "rows.csv") 2 ended_world)
     = Ok (JStr (js "77"))
  /\ exists q1 r1 q2 r2,
      trace (snd (handleBatchImportRequest batch_server demo_credentials [10%N]
                                           (js "/import") 1 0 (js "rows.csv") 2
                                           ended_world))
      = [Exchange q1 r1; Sleep 2000; Exchange q2 r2; Sleep 2000]
      /\ url q1 = js "https://analyticsapi.zoho.com/import?CONFIG=%7B%22k%22%3A5%2C%22batchKey%22%3A%22start%22%2C%22isLastBatch%22%3A%22false%22%7D"
      /\ payload q1
         = FormFile (js "FILE") (js "batch.csv")
                    (Buffer_from (js "id,name" ++ [10%N] ++ js "1,a" ++ [10%N] ++ js "2,b"))
      /\ url q2 = js "https://analyticsapi.zoho.com/import?CONFIG=%7B%22k%22%3A5%2C%22batchKey%22%3A%22k1%22%2C%22isLastBatch%22%3A%22true%22%7D"
      /\ payload q2
         = FormFile (js "FILE") (js "batch.csv") (Buffer_from (js "id,name" ++ [10%N])).
Proof.
  split; [reflexivity|]. split; [vm_compute; reflexivity|].
  remember (trace (snd (handleBatchImportRequest batch_server demo_credentials [10%N]
                          (js "/import") 1 0 (js "rows.csv") 2 ended_world)))
    as tr eqn:E.
  vm_compute in E. subst tr.
  do 4 eexists. split; [reflexivity|]. repeat split; vm_compute; reflexivity.
Qed.

(** C8: the handler of the end event in [sendV2Request] ends with
    [resolve()] whenever it runs to its end, whatever the branch taken
    before; so for a reply whose status does not start with 2 and whose
    body is an envelope, the handler calls [reject] with the envelope's
    [data] and then [resolve] as well.  The promise keeps the first of
    the two calls. *)
Theorem end_handler_always_resolves :
  (forall isExportReq statusCode data calls,
      end_handler isExportReq statusCode data = (calls, None) ->
      exists before, calls = before ++ [CallResolve JUndefined])
  /\
  (forall isExportReq statusCode data respJSON err,
      startsWith (respCode statusCode) (js "2") = false ->
      JSON_parse data = Some respJSON ->
      get_prop respJSON (js "data") = Some err ->
      end_handler isExportReq statusCode data
      = ([CallReject err; CallResolve JUndefined], None)
      /\ promise_state [CallReject err; CallResolve JUndefined] = Rejected err).
Proof.
  split.
  - intros isExportReq statusCode data calls H.
    exact (end_handler_resolves_last isExportReq statusCode data calls H).
  - intros isExportReq statusCode data respJSON err H1 H2 H3. split; [|reflexivity].
    unfold end_handler. now rewrite H1, H2, H3.
Qed.

Lemma end_handler_always_resolves_witness :
  end_handler true 404 (text (envelope "failure" other_error))
  = ([CallReject other_error; CallResolve JUndefined], None).
Proof.
  exact (proj1 (proj2 end_handler_always_resolves true 404%N
                  (text (envelope "failure" other_error))
                  (envelope "failure" other_error) other_error
                  eq_refl eq_refl eq_refl)).
Defined.

(** C9, as the code has it: [createWorkspace] and [rename] write into
    the [config] object of the caller.  After the call, however it ends,
    the caller's object has the key [workspaceName] (for [rename],
    [viewName]) set to the name given, its other keys as they were. *)
Theorem facade_writes_name_into_config :
  (forall server this header workspaceName c w cfg res w',
      c <> header ->
      nth_error (store w) c = Some cfg ->
      createWorkspace server this header workspaceName (Some c) w = (res, w') ->
      nth_error (store w') c = Some (obj_set (js "workspaceName") workspaceName cfg))
  /\
  (forall server this uriPath header viewName c w cfg res w',
      c <> header ->
      nth_error (store w) c = Some cfg ->
      rename server this uriPath header viewName (Some c) w = (res, w') ->
      nth_error (store w') c = Some (obj_set (js "viewName") viewName cfg))
  /\
  (forall k v name cfg,
      k <> name -> lookup k (obj_set name v cfg) = lookup k cfg).
Proof.
  split; [|split].
  - intros server this header workspaceName c w cfg res w' Hne Hc Hr.
    exact (createWorkspace_config server this header workspaceName c w cfg res w'
             Hne Hc Hr).
  - intros server this uriPath header viewName c w cfg res w' Hne Hc Hr.
    exact (rename_config server this uriPath header viewName c w cfg res w' Hne Hc Hr).
  - intros k v name cfg Hne. apply lookup_obj_set_neq.
    destruct (jstring_eqb name k) eqn:E; [|reflexivity].
    apply jstring_eqb_eq in E. congruence.
Qed.


Lemma facade_writes_name_into_config_witness :
  nth_error (store (snd (createWorkspace (always workspace_reply) demo_credentials 0
                                         (JStr (js "Sales")) (Some 1%nat) demo_world))) 1
  = Some [(js "k", JNum 5); (js "workspaceName", JStr (js "Sales"))].
Proof.
  exact (proj1 facade_writes_name_into_config (always workspace_reply) demo_credentials
           0%nat (JStr (js "Sales")) 1%nat demo_world demo_config
           (fst (createWorkspace (always workspace_reply) demo_credentials 0
                                 (JStr (js "Sales")) (Some 1%nat) demo_world))
           (snd (createWorkspace (always workspace_reply) demo_credentials 0
                                 (JStr (js "Sales")) (Some 1%nat) demo_world))
           ltac:(discriminate) eq_refl ltac:(vm_compute; reflexivity)).
Defined.

(** C9 as it is written does not hold: after [createWorkspace] the
    caller's [config] has a key it did not have. *)
Lemma createWorkspace_mutates_config :
  nth_error (store demo_world) 1 = Some [(js "k", JNum 5)]
  /\ fst (createWorkspace (always workspace_reply) demo_credentials 0
                          (JStr (js "Sales")) (Some 1%nat) demo_world)
     = Ok (JStr (js "123"))
  /\ nth_error (store (snd (createWorkspace (always workspace_reply) demo_credentials 0
                                            (JStr (js "Sales")) (Some 1%nat) demo_world))) 1
     = Some [(js "k", JNum 5); (js "workspaceName", JStr (js "Sales"))].
Proof. repeat split; vm_compute; reflexivity. Qed.

(** C10: a call of [sendV2Request] that is not an export and whose one
    reply has a status in 200..299 other than 200 fulfils its promise
    with undefined, whatever the body of the reply, JSON or not; and
    [handleV2Request] returns undefined, with nothing more exchanged. *)
Theorem no_content_resolves_undefined :
  forall server this uriPath method config header w w0 res1 w1 q status chunks,
    ensure_token server this w = (Ok tt, w0) ->
    sendV2Request server uriPath method config header false w0 = (res1, w1) ->
    trace w1 = trace w0 ++ [Exchange q (Response status chunks)] ->
    (200 <= status <= 299)%N ->
    status <> 200%N ->
    res1 = Ok (Fulfilled JUndefined)
    /\ handleV2Request server this uriPath method config header false w
       = (Ok JUndefined, w1).
Proof.
  intros server this uriPath method config header w w0 res1 w1 q status chunks
         He Hs Ht Hr Hn.
  exact (handleV2Request_no_content server this uriPath method config header
           w w0 res1 w1 q status chunks He Hs Ht Hr Hn).
Qed.


Lemma no_content_resolves_undefined_witness :
  fst (sendV2Request (always created_reply) demo_path (js "POST") None 0 false demo_world)
  = Ok (Fulfilled JUndefined)
  /\ fst (handleV2Request (always created_reply) demo_credentials demo_path (js "POST")
                          None 0 false demo_world)
     = Ok JUndefined.
Proof.
  destruct (no_content_resolves_undefined (always created_reply) demo_credentials
              demo_path (js "POST") None 0%nat demo_world demo_world
              (fst (sendV2Request (always created_reply) demo_path (js "POST") None 0
                                  false demo_world))
              (snd (sendV2Request (always created_reply) demo_path (js "POST") None 0
                                  false demo_world))
              (v2_request demo_path (js "POST") (JStr (js "tokOld")) demo_header demo_path)
              201%N [Buffer_from (text (envelope "success" view_data))])
    as [H1 H2].
  - vm_compute; reflexivity.
  - vm_compute; reflexivity.
  - vm_compute; reflexivity.
  - lia.
  - discriminate.
  - split; [exact H1 | now rewrite H2].
Defined.

(* ================================================================= *)
(** * More of the code *)

(** ** The relay *)


(** X2: in [handleZohoApiRequest], when the first reply is a 401 and the
    refresh fails, the call ends with the 500 reply after those two
    exchanges: the API request is not sent again, and the token stored is
    the one there was. *)
Theorem relay_refresh_failure_no_retry :
  forall upstream_server zohoRefreshToken clientId clientSecret
         apiUrl method body w c1 e w2,
    let refresh := Relay.refresh_request zohoRefreshToken clientId clientSecret in
    let q1 := Relay.api_request apiUrl method (Relay.zohoAccessToken w) body in
    upstream_server (Relay.trace w) q1 = Response 401 c1 ->
    Relay.refreshZohoToken upstream_server zohoRefreshToken clientId clientSecret
                           (Relay.logged upstream_server w q1) = (Throw e, w2) ->
    Relay.handleZohoApiRequest upstream_server zohoRefreshToken clientId clientSecret
                               apiUrl method body w = (Ok Relay.error_reply, w2)
    /\ Relay.trace w2
       = Relay.trace w
           ++ [Exchange q1 (Response 401 c1);
               Exchange refresh
                        (upstream_server (Relay.trace w ++ [Exchange q1 (Response 401 c1)])
                                         refresh)]
    /\ Relay.zohoAccessToken w2 = Relay.zohoAccessToken w.
Proof.
  intros upstream_server zohoRefreshToken clientId clientSecret apiUrl method body
         w c1 e w2 refresh q1 E Hr.
  split.
  - unfold Relay.handleZohoApiRequest, try_catch, bind, Relay.get_token, Relay.fetch.
    fold q1. rewrite E. cbn -[Relay.refreshZohoToken Relay.api_request].
    unfold Relay.logged in Hr. fold q1 in Hr. rewrite E in Hr. rewrite Hr.
    reflexivity.
  - rewrite RelayFacts.refreshZohoToken_eq in Hr.
    unfold Relay.logged in Hr. fold q1 in Hr. rewrite E in Hr.
    cbn [Relay.trace Relay.zohoAccessToken] in Hr. fold refresh in Hr.
    destruct (Relay.refresh_result _); inversion Hr; subst.
    cbn [Relay.trace Relay.zohoAccessToken]. rewrite <- app_assoc. split; reflexivity.
Qed.

(** X3: in [ensureZohoAccessToken], when no token is stored and the
    refresh fails, the route handler is not run: the reply is the 500
    reply of the middleware, after the one exchange of the refresh, and
    still no token is stored. *)
Theorem relay_middleware_refresh_failure :
  forall upstream_server zohoRefreshToken clientId clientSecret next w e w1,
    let refresh := Relay.refresh_request zohoRefreshToken clientId clientSecret in
    truthy (Relay.zohoAccessToken w) = false ->
    Relay.refreshZohoToken upstream_server zohoRefreshToken clientId clientSecret w
    = (Throw e, w1) ->
    Relay.ensureZohoAccessToken upstream_server zohoRefreshToken clientId clientSecret
                                next w
    = (Ok (Relay.mkReply 500 (JObj [(js "error",
                                     JStr (js "Unable to refresh Zoho access token"))])),
       w1)
    /\ Relay.trace w1
       = Relay.trace w ++ [Exchange refresh (upstream_server (Relay.trace w) refresh)]
    /\ Relay.zohoAccessToken w1 = Relay.zohoAccessToken w.
Proof.
  intros upstream_server zohoRefreshToken clientId clientSecret next w e w1 refresh Ht Hr.
  split.
  - unfold Relay.ensureZohoAccessToken, try_catch, bind, Relay.get_token.
    cbn -[Relay.refreshZohoToken]. rewrite Ht. cbn -[Relay.refreshZohoToken].
    rewrite Hr. reflexivity.
  - rewrite RelayFacts.refreshZohoToken_eq in Hr. fold refresh in Hr.
    destruct (Relay.refresh_result _); inversion Hr; subst.
    unfold Relay.logged. cbn [Relay.trace Relay.zohoAccessToken]. split; reflexivity.
Qed.

Lemma relay_refresh_failure_no_retry_witness :
  Relay.handleZohoApiRequest (scripted [unauthorized; refused_reply; view_reply])
                             (js "1000.refresh") (js "1000.ABC") (js "secret")
                             demo_url (js "GET") JNull relay_ready
  = (Ok Relay.error_reply,
     snd (Relay.refreshZohoToken
            (scripted [unauthorized; refused_reply; view_reply])
            (js "1000.refresh") (js "1000.ABC") (js "secret")
            (Relay.logged (scripted [unauthorized; refused_reply; view_reply]) relay_ready
               (Relay.api_request demo_url (js "GET") (JStr (js "tokOld")) JNull))))
  /\ exchanges (Relay.trace
                  (snd (Relay.handleZohoApiRequest
                          (scripted [unauthorized; refused_reply; view_reply])
                          (js "1000.refresh") (js "1000.ABC") (js "secret")
                          demo_url (js "GET") JNull relay_ready))) = 2%nat.
Proof.
  pose proof (relay_refresh_failure_no_retry
                (scripted [unauthorized; refused_reply; view_reply])
                (js "1000.refresh") (js "1000.ABC") (js "secret")
                demo_url (js "GET") JNull relay_ready
                [Buffer_from (text (JObj [(js "code", JStr (js "INVALID_OAUTHTOKEN"))]))]
                (Error (js "Failed to refresh Zoho token: invalid_client"))
                (snd (Relay.refreshZohoToken
                        (scripted [unauthorized; refused_reply; view_reply])
                        (js "1000.refresh") (js "1000.ABC") (js "secret")
                        (Relay.logged (scripted [unauthorized; refused_reply; view_reply])
                           relay_ready
                           (Relay.api_request demo_url (js "GET") (JStr (js "tokOld"))
                                              JNull))))) as H.
  cbv zeta in H. destruct H as (Ha & _ & _).
  - vm_compute; reflexivity.
  - vm_compute; reflexivity.
  - split; [exact Ha|]. rewrite Ha. vm_compute; reflexivity.
Defined.

Lemma relay_middleware_refresh_failure_witness :
  fst (Relay.ensureZohoAccessToken
         (scripted [refused_reply; view_reply])
         (js "1000.refresh") (js "1000.ABC") (js "secret")
         (Relay.handleZohoApiRequest (scripted [refused_reply; view_reply])
            (js "1000.refresh") (js "1000.ABC") (js "secret") demo_url (js "GET") JNull)
         relay_start)
  = Ok (Relay.mkReply 500 (JObj [(js "error",
                                  JStr (js "Unable to refresh Zoho access token"))])).
Proof.
  pose proof (relay_middleware_refresh_failure
                (scripted [refused_reply; view_reply])
                (js "1000.refresh") (js "1000.ABC") (js "secret")
                (Relay.handleZohoApiRequest (scripted [refused_reply; view_reply])
                   (js "1000.refresh") (js "1000.ABC") (js "secret")
                   demo_url (js "GET") JNull)
                relay_start
                (Error (js "Failed to refresh Zoho token: invalid_client"))
                (snd (Relay.refreshZohoToken (scripted [refused_reply; view_reply])
                        (js "1000.refresh") (js "1000.ABC") (js "secret") relay_start)))
    as H.
  cbv zeta in H. destruct H as (Ha & _ & _).
  - reflexivity.
  - vm_compute; reflexivity.
  - rewrite Ha. reflexivity.
Defined.

(** X4: the route [POST /zoho-analytics/report].  With a token stored, a
    body whose [workspaceId] or [viewId] is missing or falsy is answered
    400 and nothing is exchanged; with none stored, the middleware has
    refreshed the token before the body is looked at, so the same body
    costs one exchange.  A body with both, a token stored and a first
    reply that is not a 401 give one exchange, a GET with no body on the
    URL of the view, authorized with the stored token, and the reply the
    relay makes of the upstream's. *)
Theorem report_route_behaviour :
  forall upstream_server zohoRefreshToken clientId clientSecret req_body w,
    let workspaceId := match lookup (js "workspaceId") req_body with
                       | Some v => v | None => JUndefined end in
    let viewId := match lookup (js "viewId") req_body with
                  | Some v => v | None => JUndefined end in
    let bad := Relay.mkReply 400
                 (JObj [(js "error", JStr (js "Missing workspaceId or viewId in request."))]) in
    let q := mkRequest (js "https://analyticsapi.zoho.com/restapi/v2/workspaces/"
                           ++ ToString workspaceId ++ js "/views/" ++ ToString viewId)
                       (js "GET")
                       [(js "Authorization",
                         JStr (js "Zoho-oauthtoken " ++ ToString (Relay.zohoAccessToken w)));
                        (js "Content-Type", JStr (js "application/json"))]
                       NoBody in
    (truthy workspaceId && truthy viewId = false ->
     (truthy (Relay.zohoAccessToken w) = true ->
      Relay.report_route upstream_server zohoRefreshToken clientId clientSecret req_body w
      = (Ok bad, w))
     /\ (forall t w1,
            truthy (Relay.zohoAccessToken w) = false ->
            Relay.refreshZohoToken upstream_server zohoRefreshToken clientId clientSecret w
            = (Ok t, w1) ->
            Relay.report_route upstream_server zohoRefreshToken clientId clientSecret
                               req_body w
            = (Ok bad, w1)))
    /\ (truthy workspaceId && truthy viewId = true ->
        truthy (Relay.zohoAccessToken w) = true ->
        (forall c, upstream_server (Relay.trace w) q <> Response 401 c) ->
        Relay.report_route upstream_server zohoRefreshToken clientId clientSecret req_body w
        = (Ok (Relay.relay_reply (upstream_server (Relay.trace w) q)),
           Relay.mkServer (Relay.zohoAccessToken w)
                          (Relay.trace w ++ [Exchange q (upstream_server (Relay.trace w) q)]))).
Proof.
  intros upstream_server zohoRefreshToken clientId clientSecret req_body w
         workspaceId viewId bad q.
  split.
  - intros Hbad.
    assert (Hb : negb (truthy workspaceId) || negb (truthy viewId) = true).
    { destruct (truthy workspaceId), (truthy viewId); simpl in *; congruence. }
    split.
    + intros Ht. unfold Relay.report_route.
      rewrite RelayFacts.ensureZohoAccessToken_cached by exact Ht.
      fold workspaceId viewId. rewrite Hb. reflexivity.
    + intros t w1 Ht Hr. unfold Relay.report_route.
      rewrite (RelayFacts.ensureZohoAccessToken_fetch _ _ _ _ _ w t w1 Ht Hr).
      fold workspaceId viewId. rewrite Hb. reflexivity.
  - intros Hok Ht Hn. unfold Relay.report_route.
    rewrite RelayFacts.ensureZohoAccessToken_cached by exact Ht.
    fold workspaceId viewId.
    assert (Hb : negb (truthy workspaceId) || negb (truthy viewId) = false).
    { destruct (truthy workspaceId), (truthy viewId); simpl in *; congruence. }
    rewrite Hb.
    exact (RelayFacts.handleZohoApiRequest_once upstream_server zohoRefreshToken clientId
             clientSecret _ (js "GET") JNull w Hn).
Qed.


Lemma report_route_behaviour_witness :
  (Relay.report_route (scripted [view_reply]) (js "1000.refresh") (js "1000.ABC")
                      (js "secret") [(js "workspaceId", JStr (js "123"))] relay_ready
   = (Ok (Relay.mkReply 400
            (JObj [(js "error", JStr (js "Missing workspaceId or viewId in request."))])),
      relay_ready))
  /\ fst (Relay.report_route (scripted [view_reply]) (js "1000.refresh") (js "1000.ABC")
                             (js "secret") report_body relay_ready)
     = Ok (Relay.mkReply 200 (envelope "success" view_data)).
Proof.
  split.
  - apply (proj1 (proj1 (report_route_behaviour (scripted [view_reply])
                           (js "1000.refresh") (js "1000.ABC") (js "secret")
                           [(js "workspaceId", JStr (js "123"))] relay_ready)
                        eq_refl)).
    reflexivity.
  - rewrite (proj2 (report_route_behaviour (scripted [view_reply])
                      (js "1000.refresh") (js "1000.ABC") (js "secret")
                      report_body relay_ready)).
    + vm_compute; reflexivity.
    + reflexivity.
    + reflexivity.
    + intros c. vm_compute. discriminate.
Defined.

(** X5: the route [GET /zoho-analytics/dashboard].  With a token stored,
    a missing or empty [dashboardId] is answered 400 and nothing is
    exchanged; any other, with a first reply that is not a 401, gives one
    exchange, a GET with no body on the URL of the dashboard, authorized
    with the stored token. *)
Theorem dashboard_route_behaviour :
  forall upstream_server zohoRefreshToken clientId clientSecret dashboardId w,
    let q := mkRequest (js "https://analyticsapi.zoho.com/restapi/v2/dashboards/"
                           ++ ToString dashboardId)
                       (js "GET")
                       [(js "Authorization",
                         JStr (js "Zoho-oauthtoken " ++ ToString (Relay.zohoAccessToken w)));
                        (js "Content-Type", JStr (js "application/json"))]
                       NoBody in
    truthy (Relay.zohoAccessToken w) = true ->
    (truthy dashboardId = false ->
     Relay.dashboard_route upstream_server zohoRefreshToken clientId clientSecret
                           dashboardId w
     = (Ok (Relay.mkReply 400
              (JObj [(js "error", JStr (js "Missing dashboardId in request."))])), w))
    /\ (truthy dashboardId = true ->
        (forall c, upstream_server (Relay.trace w) q <> Response 401 c) ->
        Relay.dashboard_route upstream_server zohoRefreshToken clientId clientSecret
                              dashboardId w
        = (Ok (Relay.relay_reply (upstream_server (Relay.trace w) q)),
           Relay.mkServer (Relay.zohoAccessToken w)
                          (Relay.trace w ++ [Exchange q (upstream_server (Relay.trace w) q)]))).
Proof.
  intros upstream_server zohoRefreshToken clientId clientSecret dashboardId w q Ht.
  split.
  - intros Hd. unfold Relay.dashboard_route.
    rewrite RelayFacts.ensureZohoAccessToken_cached by exact Ht.
    rewrite Hd. reflexivity.
  - intros Hd Hn. unfold Relay.dashboard_route.
    rewrite RelayFacts.ensureZohoAccessToken_cached by exact Ht.
    rewrite Hd.
    exact (RelayFacts.handleZohoApiRequest_once upstream_server zohoRefreshToken clientId
             clientSecret _ (js "GET") JNull w Hn).
Qed.

Lemma dashboard_route_behaviour_witness :
  fst (Relay.dashboard_route (scripted [view_reply]) (js "1000.refresh") (js "1000.ABC")
                             (js "secret") JUndefined relay_ready)
  = Ok (Relay.mkReply 400 (JObj [(js "error", JStr (js "Missing dashboardId in request."))]))
  /\ fst (Relay.dashboard_route (scripted [view_reply]) (js "1000.refresh")
                                (js "1000.ABC") (js "secret") (JStr (js "789")) relay_ready)
     = Ok (Relay.mkReply 200 (envelope "success" view_data)).
Proof.
  destruct (dashboard_route_behaviour (scripted [view_reply]) (js "1000.refresh")
              (js "1000.ABC") (js "secret") JUndefined relay_ready eq_refl) as [H1 _].
  destruct (dashboard_route_behaviour (scripted [view_reply]) (js "1000.refresh")
              (js "1000.ABC") (js "secret") (JStr (js "789")) relay_ready eq_refl)
    as [_ H2].
  split.
  - rewrite H1 by reflexivity. reflexivity.
  - rewrite H2.
    + vm_compute; reflexivity.
    + reflexivity.
    + intros c. vm_compute. discriminate.
Defined.

(** X6: the token a call of [handleZohoApiRequest] got from its refresh
    stays: the next call, for any URL, sends its request with that token
    and, when the reply is not a 401, exchanges nothing else. *)
Theorem relay_token_reused :
  forall upstream_server zohoRefreshToken clientId clientSecret
         apiUrl method body w c1 t w2 rep w3 apiUrl' method' body',
    Relay.handleZohoApiRequest upstream_server zohoRefreshToken clientId clientSecret
                               apiUrl method body w = (Ok rep, w3) ->
    upstream_server (Relay.trace w)
                    (Relay.api_request apiUrl method (Relay.zohoAccessToken w) body)
    = Response 401 c1 ->
    Relay.refreshZohoToken upstream_server zohoRefreshToken clientId clientSecret
      (Relay.logged upstream_server w
         (Relay.api_request apiUrl method (Relay.zohoAccessToken w) body)) = (Ok t, w2) ->
    let q := Relay.api_request apiUrl' method' t body' in
    (forall c, upstream_server (Relay.trace w3) q <> Response 401 c) ->
    Relay.handleZohoApiRequest upstream_server zohoRefreshToken clientId clientSecret
                               apiUrl' method' body' w3
    = (Ok (Relay.relay_reply (upstream_server (Relay.trace w3) q)),
       Relay.mkServer t (Relay.trace w3 ++ [Exchange q (upstream_server (Relay.trace w3) q)])).
Proof.
  intros upstream_server zohoRefreshToken clientId clientSecret apiUrl method body
         w c1 t w2 rep w3 apiUrl' method' body' Hcall H1 Hr q Hn.
  destruct (RelayFacts.handleZohoApiRequest_retry_once upstream_server zohoRefreshToken
              clientId clientSecret apiUrl method body w c1 t w2 H1 Hr) as (Ha & _ & Ht).
  rewrite Ha in Hcall. injection Hcall as _ Hw3.
  assert (Htok : Relay.zohoAccessToken w3 = t) by (rewrite <- Hw3; exact Ht).
  pose proof (RelayFacts.handleZohoApiRequest_once upstream_server zohoRefreshToken
                clientId clientSecret apiUrl' method' body' w3) as Ho.
  cbv zeta in Ho. rewrite Htok in Ho. fold q in Ho.
  rewrite (Ho Hn). unfold Relay.logged. rewrite Htok. reflexivity.
Qed.

Lemma relay_token_reused_witness :
  exists q r,
    Relay.trace
      (snd (Relay.handleZohoApiRequest
              (scripted [unauthorized; token_reply; view_reply; view_reply])
              (js "1000.refresh") (js "1000.ABC") (js "secret")
              (js "https://analyticsapi.zoho.com/restapi/v2/dashboards/789") (js "GET") JNull
              (snd (Relay.handleZohoApiRequest
                      (scripted [unauthorized; token_reply; view_reply; view_reply])
                      (js "1000.refresh") (js "1000.ABC") (js "secret")
                      demo_url (js "GET") JNull relay_ready))))
    = Relay.trace
        (snd (Relay.handleZohoApiRequest
                (scripted [unauthorized; token_reply; view_reply; view_reply])
                (js "1000.refresh") (js "1000.ABC") (js "secret")
                demo_url (js "GET") JNull relay_ready))
        ++ [Exchange q r]
    /\ lookup (js "Authorization") (headers q) = Some (JStr (js "Zoho-oauthtoken tokNew")).
Proof.
  eexists. eexists.
  rewrite (relay_token_reused
             (scripted [unauthorized; token_reply; view_reply; view_reply])
             (js "1000.refresh") (js "1000.ABC") (js "secret")
             demo_url (js "GET") JNull relay_ready
             [Buffer_from (text (JObj [(js "code", JStr (js "INVALID_OAUTHTOKEN"))]))]
             (JStr (js "tokNew"))
             (snd (Relay.refreshZohoToken
                     (scripted [unauthorized; token_reply; view_reply; view_reply])
                     (js "1000.refresh") (js "1000.ABC") (js "secret")
                     (Relay.logged
                        (scripted [unauthorized; token_reply; view_reply; view_reply])
                        relay_ready
                        (Relay.api_request demo_url (js "GET") (JStr (js "tokOld")) JNull))))
             (Relay.mkReply 200 (envelope "success" view_data))).
  - cbn [snd Relay.trace]. split; reflexivity.
  - vm_compute; reflexivity.
  - vm_compute; reflexivity.
  - vm_compute; reflexivity.
  - intros c. vm_compute. discriminate.
Defined.




(** ** The pipeline of the client *)

Lemma quiet_same {A} (m : M world A) :
  (forall w, snd (m w) = w) -> quiet m.
Proof.
  intros H w res w' E. pose proof (H w) as Hw. rewrite E in Hw. simpl in Hw. subst w'.
  split; [reflexivity|]. split; [reflexivity|]. exists []. split; [now rewrite app_nil_r|].
  constructor.
Qed.

Lemma quiet_ret {A} (a : A) : quiet (@ret world A a).
Proof. now apply quiet_same. Qed.
Lemma quiet_throw {A} e : quiet (@throw world A e).
Proof. now apply quiet_same. Qed.
Lemma quiet_hang {A} : quiet (@hang world A).
Proof. now apply quiet_same. Qed.
Lemma quiet_lift {A} (r : result A) : quiet (lift r).
Proof. now apply quiet_same. Qed.
Lemma quiet_or_throw {A} e (o : option A) : quiet (@or_throw world A e o).
Proof. destruct o; now apply quiet_same. Qed.
Lemma quiet_await p : quiet (@await world p).
Proof. destruct p; now apply quiet_same. Qed.
Lemma quiet_get_accessToken : quiet get_accessToken.
Proof. now apply quiet_same. Qed.
Lemma quiet_read_obj r : quiet (read_obj r).
Proof. apply quiet_same. intros w. unfold read_obj. now destruct (nth_error _ _). Qed.

Lemma quiet_set_accessToken t : quiet (set_accessToken t).
Proof.
  intros w res w' [= _ <-]. cbn. repeat split; try reflexivity.
  exists []. split; [now rewrite app_nil_r | constructor].
Qed.

Lemma quiet_set_prop r k v : quiet (set_prop r k v).
Proof.
  intros w res w'. unfold set_prop. destruct (nth_error (store w) r).
  - intros [= _ <-]. cbn. split; [reflexivity|]. split; [apply replace_nth_length|].
    exists []. split; [now rewrite app_nil_r | constructor].
  - intros [= _ <-]. repeat split; try reflexivity.
    exists []. split; [now rewrite app_nil_r | constructor].
Qed.

Lemma quiet_exchange server q : quiet (exchange server q).
Proof.
  intros w res w' [= _ <-]. cbn. repeat split; try reflexivity.
  eexists. split; [reflexivity|]. repeat constructor. eexists. eexists. reflexivity.
Qed.

Lemma quiet_bind {A B} (m : M world A) (k : A -> M world B) :
  quiet m -> (forall a, quiet (k a)) -> quiet (bind m k).
Proof.
  intros Hm Hk w res w'. unfold bind. destruct (m w) as [r w1] eqn:E.
  destruct (Hm _ _ _ E) as (Hf & Hl & rest & Ht & Hr).
  destruct r as [a|e|e|].
  - intros E2. destruct (Hk a _ _ _ E2) as (Hf2 & Hl2 & rest2 & Ht2 & Hr2).
    split; [congruence|]. split; [congruence|].
    exists (rest ++ rest2). split; [rewrite Ht2, Ht; now rewrite app_assoc|].
    apply Forall_app. now split.
  - intros [= _ <-]. repeat split; try assumption. now exists rest.
  - intros [= _ <-]. repeat split; try assumption. now exists rest.
  - intros [= _ <-]. repeat split; try assumption. now exists rest.
Qed.

Create HintDb quiet.
#[local] Hint Resolve quiet_ret quiet_throw quiet_hang quiet_lift quiet_or_throw
  quiet_await quiet_get_accessToken quiet_read_obj quiet_set_accessToken quiet_set_prop
  quiet_exchange : quiet.

Ltac quiet :=
  repeat (first [ solve [auto with quiet]
                | apply quiet_bind; [|intros ?]
                | match goal with
                  | |- quiet (if ?b then _ else _) => destruct b
                  | |- quiet (match ?x with _ => _ end) => destruct x
                  end ]).

Lemma quiet_getOauth server this : quiet (getOauth server this).
Proof. unfold getOauth. quiet. Qed.

Lemma quiet_fetch_token server this : quiet (fetch_token server this).
Proof. unfold fetch_token. pose proof (quiet_getOauth server this). quiet. Qed.

Lemma quiet_ensure_token server this : quiet (ensure_token server this).
Proof. unfold ensure_token. pose proof (quiet_fetch_token server this). quiet. Qed.

Lemma quiet_sendV2Request server uriPath reqMethod config header isExportReq :
  quiet (sendV2Request server uriPath reqMethod config header isExportReq).
Proof. unfold sendV2Request, stamp_headers, read_config. quiet. Qed.

Lemma quiet_handleV2Request server this uriPath method config header isExportReq :
  quiet (handleV2Request server this uriPath method config header isExportReq).
Proof.
  unfold handleV2Request.
  pose proof (quiet_ensure_token server this).
  pose proof (quiet_fetch_token server this).
  pose proof (quiet_sendV2Request server uriPath method config header isExportReq).
  quiet.
Qed.

(** X8: whatever the upstream answers and however the call ends,
    [handleV2Request] writes to no object of its caller but [header]: the
    [config] object and every other object are as they were, no object is
    made, no file is written, and the trace only grows, by exchanges. *)
Theorem pipeline_touches_header_only :
  forall server this uriPath method config header isExportReq w,
    let w' := snd (handleV2Request server this uriPath method config header isExportReq w) in
    (forall c, c <> header -> nth_error (store w') c = nth_error (store w) c)
    /\ Datatypes.length (store w') = Datatypes.length (store w)
    /\ files w' = files w
    /\ exists rest, trace w' = trace w ++ rest
                    /\ Forall (fun e => exists q r, e = Exchange q r) rest.
Proof.
  intros server this uriPath method config header isExportReq w w'.
  destruct (handleV2Request server this uriPath method config header isExportReq w)
    as [res w1] eqn:E.
  subst w'. cbn [snd].
  destruct (quiet_handleV2Request _ _ _ _ _ _ _ _ _ _ E) as (Hf & Hl & Hrest).
  split; [|repeat split; assumption].
  intros c Hc.
  exact (framed_handleV2Request server this uriPath method config header isExportReq
           w res w1 E c Hc).
Qed.

(** A rejected token request: the token is not stored. *)
Lemma fetch_token_rejected server this w e w1 :
  getOauth server this w = (Ok (Rejected e), w1) ->
  fetch_token server this w = (Throw (Value e), w1).
Proof. intros H. unfold fetch_token. now rewrite (bind_Ok _ _ _ _ _ H). Qed.

Lemma getOauth_settled server this w p0 w1 :
  getOauth server this w = (Ok p0, w1) ->
  exists p,
    trace w1 = trace w ++ [Exchange (oauth_request p) (server (trace w) (oauth_request p))]
    /\ accessToken w1 = accessToken w /\ store w1 = store w /\ files w1 = files w.
Proof.
  intros H. apply getOauth_inv in H. destruct H as [[H _]|(p & _ & _ & ->)].
  - discriminate.
  - exists p. repeat split.
Qed.

(** X9: the [header] object a caller gives to [sendV2Request] is
    written to: once the request is sent, the caller's object is the
    header of the request, with [User-Agent] and [Authorization] set (the
    latter from the token of the client) and its other keys as they
    were. *)
Theorem header_object_is_stamped :
  forall server uriPath reqMethod config header isExportReq w res w1 q r hdr,
    nth_error (store w) header = Some hdr ->
    sendV2Request server uriPath reqMethod config header isExportReq w = (res, w1) ->
    trace w1 = trace w ++ [Exchange q r] ->
    nth_error (store w1) header = Some (headers q)
    /\ lookup (js "User-Agent") (headers q)
       = Some (JStr (js "Analytics NodeJS Client v2.6.0"))
    /\ lookup (js "Authorization") (headers q)
       = Some (JStr (js "Zoho-oauthtoken " ++ ToString (accessToken w)))
    /\ forall k, k <> js "User-Agent" -> k <> js "Authorization" ->
                 lookup k (headers q) = lookup k hdr.
Proof.
  intros server uriPath reqMethod config header isExportReq w res w1 q r hdr Hh Hs Ht.
  apply sendV2Request_inv in Hs.
  destruct Hs as [(e & _ & Ht' & _)|(hdr' & cfg & path & Hh' & _ & _ & _ & ->)].
  - rewrite Ht' in Ht. apply (f_equal (@Datatypes.length event)) in Ht.
    rewrite length_app in Ht. simpl in Ht. lia.
  - rewrite Hh in Hh'. injection Hh' as <-.
    cbn [trace sent] in Ht. apply app_inv_head in Ht. injection Ht as <- _.
    cbn [store sent headers v2_request].
    split; [now apply nth_error_replace_nth_eq with (y := hdr)|].
    split.
    { unfold stamp. rewrite lookup_obj_set_neq by reflexivity. apply lookup_obj_set_eq. }
    split; [apply lookup_stamp_Authorization|].
    intros k H1 H2. unfold stamp.
    rewrite !lookup_obj_set_neq; [reflexivity| |].
    + destruct (jstring_eqb (js "User-Agent") k) eqn:E; [|reflexivity].
      apply jstring_eqb_eq in E. congruence.
    + destruct (jstring_eqb (js "Authorization") k) eqn:E; [|reflexivity].
      apply jstring_eqb_eq in E. congruence.
Qed.

Lemma header_object_is_stamped_witness :
  nth_error (store (snd (sendV2Request (always view_reply) demo_path (js "GET") None 0
                                       false demo_world))) 0
  = Some [(js "ZANALYTICS-ORGID", JStr (js "55"));
          (js "User-Agent", JStr (js "Analytics NodeJS Client v2.6.0"));
          (js "Authorization", JStr (js "Zoho-oauthtoken tokOld"))].
Proof.
  destruct (header_object_is_stamped (always view_reply) demo_path (js "GET") None 0%nat
              false demo_world
              (fst (sendV2Request (always view_reply) demo_path (js "GET") None 0
                                  false demo_world))
              (snd (sendV2Request (always view_reply) demo_path (js "GET") None 0
                                  false demo_world))
              (v2_request demo_path (js "GET") (JStr (js "tokOld")) demo_header demo_path)
              view_reply demo_header) as (H & _).
  - reflexivity.
  - vm_compute; reflexivity.
  - vm_compute; reflexivity.
  - rewrite H. vm_compute; reflexivity.
Defined.

(** X10: with no token, a token request that is rejected ends the call:
    [handleV2Request] and [handleExportRequest] throw what [getOauth]
    was rejected with, after the one exchange of the token request; the
    API request is not sent, no file is written and still no token is
    stored. *)
Theorem token_failure_sends_nothing :
  forall server this w e w1,
    nullish (accessToken w) = true ->
    getOauth server this w = (Ok (Rejected e), w1) ->
    (forall uriPath method config header isExportReq,
        handleV2Request server this uriPath method config header isExportReq w
        = (Throw (Value e), w1))
    /\ (forall uriPath filePath config header,
           handleExportRequest server this uriPath filePath config header w
           = (Throw (Value e), w1))
    /\ (exists p, trace w1
                  = trace w ++ [Exchange (oauth_request p)
                                         (server (trace w) (oauth_request p))])
    /\ accessToken w1 = accessToken w
    /\ store w1 = store w
    /\ files w1 = files w.
Proof.
  intros server this w e w1 Hn Hg.
  assert (He : ensure_token server this w = (Throw (Value e), w1)).
  { unfold ensure_token, bind, get_accessToken. rewrite Hn.
    now apply fetch_token_rejected. }
  destruct (getOauth_settled _ _ _ _ _ Hg) as (p & Ht & Ha & Hs & Hf).
  split; [|split; [|split; [|repeat split; assumption]]].
  - intros. unfold handleV2Request. now rewrite (bind_Throw _ _ _ _ _ He).
  - intros. unfold handleExportRequest. now rewrite (bind_Throw _ _ _ _ _ He).
  - now exists p.
Qed.

Lemma token_failure_sends_nothing_witness :
  handleV2Request (scripted [refused_reply; view_reply]) demo_credentials demo_path
                  (js "GET") None 0 false fresh_world
  = (Throw (Value (JObj [(js "errorCode", JStr (js "0"));
                         (js "errorMessage", JStr (js "invalid_client"))])),
     snd (getOauth (scripted [refused_reply; view_reply]) demo_credentials fresh_world))
  /\ exchanges (trace (snd (getOauth (scripted [refused_reply; view_reply])
                                     demo_credentials fresh_world))) = 1%nat.
Proof.
  destruct (token_failure_sends_nothing (scripted [refused_reply; view_reply])
              demo_credentials fresh_world
              (JObj [(js "errorCode", JStr (js "0"));
                     (js "errorMessage", JStr (js "invalid_client"))])
              (snd (getOauth (scripted [refused_reply; view_reply]) demo_credentials
                             fresh_world)))
    as (H & _).
  - reflexivity.
  - vm_compute; reflexivity.
  - split; [apply H | vm_compute; reflexivity].
Defined.

(** X11: when the first attempt of [handleV2Request] is rejected with the
    expiry code and the token request that follows is rejected too, the
    call throws what [getOauth] was rejected with after those two
    exchanges: the request is not sent again and the token of the client
    is the one it had. *)
Theorem refresh_failure_ends_call :
  forall server this uriPath method config header isExportReq
         w w0 error code w1 e w2,
    ensure_token server this w = (Ok tt, w0) ->
    sendV2Request server uriPath method config header isExportReq w0
    = (Ok (Rejected error), w1) ->
    get_prop error (js "errorCode") = Some code ->
    is_expiry_code code = true ->
    getOauth server this w1 = (Ok (Rejected e), w2) ->
    handleV2Request server this uriPath method config header isExportReq w
    = (Throw (Value e), w2)
    /\ (exists q1 p,
           trace w2
           = trace w0 ++ [Exchange q1 (server (trace w0) q1);
                          Exchange (oauth_request p) (server (trace w1) (oauth_request p))])
    /\ accessToken w2 = accessToken w0.
Proof.
  intros server this uriPath method config header isExportReq
         w w0 error code w1 e w2 He Hs Hc Hx Hg.
  split.
  - rewrite (handleV2Request_first _ _ _ _ _ _ _ _ _ _ _ He Hs).
    unfold after_first_attempt. rewrite Hc. unfold or_throw, bind, ret. rewrite Hx.
    now rewrite (fetch_token_rejected _ _ _ _ _ Hg).
  - destruct (getOauth_settled _ _ _ _ _ Hg) as (p & Ht & Ha & _).
    apply sendV2Request_inv in Hs.
    destruct Hs as [(x & Hx' & _)|(hdr & cfg & path & _ & _ & _ & _ & ->)];
      [discriminate|].
    split.
    + eexists. exists p. rewrite Ht. cbn [trace sent]. rewrite <- app_assoc. reflexivity.
    + rewrite Ha. reflexivity.
Qed.

Lemma refresh_failure_ends_call_witness :
  handleV2Request (scripted [expired; refused_reply; view_reply]) demo_credentials
                  demo_path (js "GET") None 0 false demo_world
  = (Throw (Value (JObj [(js "errorCode", JStr (js "0"));
                         (js "errorMessage", JStr (js "invalid_client"))])),
     snd (handleV2Request (scripted [expired; refused_reply; view_reply]) demo_credentials
                          demo_path (js "GET") None 0 false demo_world))
  /\ exchanges (trace (snd (handleV2Request (scripted [expired; refused_reply; view_reply])
                                            demo_credentials demo_path (js "GET") None 0
                                            false demo_world))) = 2%nat.
Proof.
  destruct (refresh_failure_ends_call
              (scripted [expired; refused_reply; view_reply]) demo_credentials
              demo_path (js "GET") None 0%nat false demo_world demo_world
              expiry_error (JNum 8535)
              (snd (sendV2Request (scripted [expired; refused_reply; view_reply])
                                  demo_path (js "GET") None 0 false demo_world))
              (JObj [(js "errorCode", JStr (js "0"));
                     (js "errorMessage", JStr (js "invalid_client"))])
              (snd (getOauth (scripted [expired; refused_reply; view_reply])
                      demo_credentials
                      (snd (sendV2Request (scripted [expired; refused_reply; view_reply])
                                          demo_path (js "GET") None 0 false demo_world)))))
    as (H & _).
  - vm_compute; reflexivity.
  - vm_compute; reflexivity.
  - vm_compute; reflexivity.
  - vm_compute; reflexivity.
  - vm_compute; reflexivity.
  - split; vm_compute; reflexivity.
Defined.

Local Open Scope N_scope.
Lemma uri_safe_ascii c : uri_safe c = true -> ascii_unit c.
Proof.
  unfold uri_safe, ascii_unit. intros H. apply orb_true_iff in H. destruct H as [H|H].
  - now apply uri_unreserved_ascii.
  - apply N.eqb_eq in H. subst. reflexivity.
Qed.

Lemma encode_ascii s e :
  well_typed s -> encodeURIComponent s = Some e -> Forall ascii_unit e.
Proof.
  intros Hw He. pose proof (encode_safe s Hw e He) as Hs.
  apply Forall_forall. intros c Hc. apply uri_safe_ascii.
  rewrite forallb_forall in Hs. now apply Hs.
Qed.

(** The octets of an ASCII text are its code units. *)
Lemma Buffer_from_ascii s : Forall ascii_unit s -> Buffer_from s = s.
Proof.
  induction 1 as [|c s Hc _ IH]; [reflexivity|].
  unfold ascii_unit in Hc. cbn [Buffer_from].
  assert (Hh : is_high_surrogate c = false)
    by (unfold is_high_surrogate; apply andb_false_iff; left; apply N.leb_gt; lia).
  assert (Hl : is_low_surrogate c = false)
    by (unfold is_low_surrogate; apply andb_false_iff; left; apply N.leb_gt; lia).
  rewrite Hh, Hl, IH. unfold utf8_octets.
  assert (Hc' : (c <? 128)%N = true) by (apply N.ltb_lt; exact Hc).
  now rewrite Hc'.
Qed.

(** *** [querystring.escape] beside [encodeURIComponent] *)

Lemma lor_low a b n : b < 2 ^ n -> N.lor (a * 2 ^ n) b = a * 2 ^ n + b.
Proof.
  intros Hb.
  assert (H0 : N.land (a * 2 ^ n) b = 0).
  { apply N.bits_inj. intros i. rewrite N.land_spec, N.bits_0.
    destruct (N.lt_ge_cases i n) as [Hi|Hi].
    - rewrite N.mul_pow2_bits_low by exact Hi. reflexivity.
    - replace (N.testbit b i) with false; [apply andb_false_r|].
      symmetry. destruct (N.eq_dec b 0) as [->|Hnz]; [apply N.bits_0|].
      apply N.bits_above_log2. apply N.log2_lt_pow2; [lia|].
      eapply N.lt_le_trans; [exact Hb|]. now apply N.pow_le_mono_r. }
  rewrite (N.add_nocarry_lxor _ _ H0). symmetry. now apply N.lxor_lor.
Qed.

(** For a high surrogate and a low one, the code point Node makes of the
    two is the code point of the pair. *)
Lemma merged_pair c d :
  is_high_surrogate c = true -> is_low_surrogate d = true ->
  merged_code_point c d = pair_code_point c d.
Proof.
  unfold is_high_surrogate, is_low_surrogate, pair_code_point, merged_code_point.
  intros Hc Hd. apply andb_true_iff in Hc, Hd.
  destruct Hc as [Hc1 Hc2]. destruct Hd as [Hd1 Hd2].
  apply N.leb_le in Hc1, Hc2, Hd1, Hd2. cbv zeta.
  change 1023 with (N.ones 10). rewrite !N.land_ones, N.shiftl_mul_pow2.
  rewrite lor_low by (apply N.mod_lt; discriminate).
  change (2 ^ 10) with 1024.
  assert (c mod 1024 = c - 55296).
  { symmetry. apply (N.mod_unique c 1024 54); lia. }
  assert (d mod 1024 = d - 56320).
  { symmetry. apply (N.mod_unique d 1024 55); lia. }
  lia.
Qed.

Lemma qs_escape_cons c s :
  qs_escape (c :: s)
  = if c <? 128 then
      option_map (app (if uri_unreserved c then [c] else percent_octet c)) (qs_escape s)
    else if (c <? 55296) || (57344 <=? c) then
      option_map (app (percent_encode c)) (qs_escape s)
    else match s with
         | [] => None
         | d :: s' => option_map (app (percent_encode (merged_code_point c d)))
                                 (qs_escape s')
         end.
Proof. reflexivity. Qed.

Lemma surrogate_range c :
  ((c <? 55296) || (57344 <=? c) = false)
  <-> (is_high_surrogate c = true \/ is_low_surrogate c = true).
Proof.
  unfold is_high_surrogate, is_low_surrogate.
  destruct (c <? 55296) eqn:A; destruct (57344 <=? c) eqn:B;
    destruct (55296 <=? c) eqn:C; destruct (c <=? 56319) eqn:D;
    destruct (56320 <=? c) eqn:E; destruct (c <=? 57343) eqn:F;
    cbn; split; intros H; try discriminate; try tauto; try (destruct H; discriminate);
    exfalso;
    repeat match goal with
           | H : (_ <? _) = true |- _ => apply N.ltb_lt in H
           | H : (_ <? _) = false |- _ => apply N.ltb_ge in H
           | H : (_ <=? _) = true |- _ => apply N.leb_le in H
           | H : (_ <=? _) = false |- _ => apply N.leb_gt in H
           end; lia.
Qed.

(** On a string with no surrogate left alone, [querystring.escape] is
    [encodeURIComponent]. *)
Lemma qs_escape_paired s :
  paired s = true -> qs_escape s = encodeURIComponent s.
Proof.
  induction s as [|c|c d s IH1 IH2] using jstring_ind2.
  - reflexivity.
  - cbn [paired]. rewrite qs_escape_cons. cbn [encodeURIComponent qs_escape option_map].
    destruct (uri_unreserved c) eqn:U.
    + rewrite (proj2 (N.ltb_lt _ _) (uri_unreserved_ascii _ U)). reflexivity.
    + destruct (is_high_surrogate c) eqn:Hh; [discriminate|].
      destruct (is_low_surrogate c) eqn:Hl; [discriminate|]. intros _.
      destruct (c <? 128) eqn:A.
      * unfold percent_encode, utf8_octets. rewrite A. cbn [flat_map].
        now rewrite !app_nil_r.
      * destruct ((c <? 55296) || (57344 <=? c)) eqn:R; [reflexivity|].
        apply surrogate_range in R. destruct R; congruence.
  - change (paired (c :: d :: s))
      with (if is_high_surrogate c then is_low_surrogate d && paired s
            else if is_low_surrogate c then false else paired (d :: s)).
    change (encodeURIComponent (c :: d :: s))
      with (if uri_unreserved c then option_map (cons c) (encodeURIComponent (d :: s))
            else if is_high_surrogate c then
                   if is_low_surrogate d
                   then option_map (app (percent_encode (pair_code_point c d)))
                                   (encodeURIComponent s)
                   else None
                 else if is_low_surrogate c then None
                      else option_map (app (percent_encode c))
                                      (encodeURIComponent (d :: s))).
    rewrite qs_escape_cons.
    destruct (uri_unreserved c) eqn:U.
    + destruct (unreserved_not_surrogate _ U) as [-> ->].
      rewrite (proj2 (N.ltb_lt _ _) (uri_unreserved_ascii _ U)).
      intros H. now rewrite (IH2 H).
    + destruct (is_high_surrogate c) eqn:Hh.
      * intros H. apply andb_true_iff in H. destruct H as [Hd H].
        rewrite Hd.
        assert (A : (c <? 128) = false).
        { apply N.ltb_ge. unfold is_high_surrogate in Hh.
          apply andb_true_iff in Hh. destruct Hh as [Hh _]. apply N.leb_le in Hh. lia. }
        rewrite A.
        rewrite (proj2 (surrogate_range c) (or_introl Hh)).
        now rewrite (merged_pair _ _ Hh Hd), (IH1 H).
      * destruct (is_low_surrogate c) eqn:Hl; [discriminate|]. intros H.
        destruct (c <? 128) eqn:A.
        -- rewrite (IH2 H). unfold percent_encode, utf8_octets. rewrite A. cbn [flat_map].
           now rewrite !app_nil_r.
        -- destruct ((c <? 55296) || (57344 <=? c)) eqn:R.
           ++ now rewrite (IH2 H).
           ++ apply surrogate_range in R. destruct R; congruence.
Qed.

(** What [querystring.escape] makes of a string is what it makes of a
    part with no surrogate left alone, and of the rest. *)
Lemma qs_escape_app s t :
  paired s = true ->
  qs_escape (s ++ t)
  = match qs_escape s, qs_escape t with
    | Some a, Some b => Some (a ++ b)
    | _, _ => None
    end.
Proof.
  induction s as [|c|c d s IH1 IH2] using jstring_ind2.
  - intros _. cbn. now destruct (qs_escape t).
  - cbn [paired]. intros H.
    assert (R : (c <? 55296) || (57344 <=? c) = true).
    { destruct ((c <? 55296) || (57344 <=? c)) eqn:R; [reflexivity|].
      apply surrogate_range in R. destruct R as [R|R]; rewrite R in H; [discriminate|].
      destruct (is_high_surrogate c); discriminate. }
    cbn [app]. rewrite !qs_escape_cons, R. cbn [qs_escape option_map].
    destruct (c <? 128); destruct (qs_escape t); cbn [option_map];
      rewrite ?app_nil_r; reflexivity.
  - change (paired (c :: d :: s))
      with (if is_high_surrogate c then is_low_surrogate d && paired s
            else if is_low_surrogate c then false else paired (d :: s)).
    intros H. cbn [app]. rewrite (qs_escape_cons c (d :: s ++ t)), (qs_escape_cons c (d :: s)).
    destruct (is_high_surrogate c) eqn:Hh.
    + apply andb_true_iff in H. destruct H as [Hd H].
      assert (A : (c <? 128) = false).
      { apply N.ltb_ge. unfold is_high_surrogate in Hh.
        apply andb_true_iff in Hh. destruct Hh as [Hh _]. apply N.leb_le in Hh. lia. }
      rewrite A, (proj2 (surrogate_range c) (or_introl Hh)), (IH1 H).
      destruct (qs_escape s); destruct (qs_escape t); cbn [option_map];
        rewrite ?app_assoc; reflexivity.
    + destruct (is_low_surrogate c) eqn:Hl; [discriminate|].
      assert (R : (c <? 55296) || (57344 <=? c) = true).
      { destruct ((c <? 55296) || (57344 <=? c)) eqn:R; [reflexivity|].
        apply surrogate_range in R. destruct R; congruence. }
      rewrite R. change (d :: s ++ t) with ((d :: s) ++ t). rewrite (IH2 H).
      destruct (c <? 128); destruct (qs_escape (d :: s)); destruct (qs_escape t);
        cbn [option_map]; rewrite ?app_assoc; reflexivity.
Qed.


Local Close Scope N_scope.

(** X12: the request of [getOauth].  For credentials with no surrogate
    left alone, the body is the four parameters in the order of the
    source, each value escaped so that [decodeURIComponent] gives the
    credential back; the body is ASCII, so the [Content-Length] sent,
    the number of its characters, is the number of its octets.  In
    general [getOauth] throws, before anything is sent, exactly when
    [querystring.escape] throws on a credential, and sends one request
    with the three escaped credentials otherwise.  After a part with no
    surrogate left alone, [querystring.escape] throws on a surrogate
    that is the last unit, and takes a surrogate that is not the last
    with the unit after it, whatever it is, as one code point. *)
Theorem oauth_request_carries_credentials :
  forall server this w,
    (well_typed (clientId this) -> well_typed (clientSecret this) ->
     well_typed (refreshToken this) ->
     paired (clientId this) && paired (clientSecret this) && paired (refreshToken this)
     = true ->
     exists e1 e2 e3,
       decodeURIComponent e1 = Some (clientId this)
       /\ decodeURIComponent e2 = Some (clientSecret this)
       /\ decodeURIComponent e3 = Some (refreshToken this)
       /\ let payload := js "client_id=" ++ e1 ++ js "&client_secret=" ++ e2
                            ++ js "&refresh_token=" ++ e3
                            ++ js "&grant_type=refresh_token" in
          let q := mkRequest (js "https://accounts.zoho.com/oauth/v2/token") (js "POST")
                     [(js "Content-Type", JStr (js "application/x-www-form-urlencoded"));
                      (js "User-Agent", JStr (js "Analytics NodeJS Client v2.6.0"));
                      (js "Content-Length",
                       JNum (Z.of_nat (Datatypes.length (Buffer_from payload))))]
                     (Text payload) in
          getOauth server this w
          = (oauth_result (server (trace w) q),
             mkWorld (accessToken w) (store w)
                     (trace w ++ [Exchange q (server (trace w) q)]) (files w)))
    /\ ((qs_escape (clientId this) = None \/ qs_escape (clientSecret this) = None
         \/ qs_escape (refreshToken this) = None) ->
        getOauth server this w = (Throw URIError, w))
    /\ (forall e1 e2 e3,
           qs_escape (clientId this) = Some e1 ->
           qs_escape (clientSecret this) = Some e2 ->
           qs_escape (refreshToken this) = Some e3 ->
           let payload := js "client_id=" ++ e1 ++ js "&client_secret=" ++ e2
                             ++ js "&refresh_token=" ++ e3
                             ++ js "&grant_type=refresh_token" in
           let q := mkRequest (js "https://accounts.zoho.com/oauth/v2/token") (js "POST")
                      [(js "Content-Type", JStr (js "application/x-www-form-urlencoded"));
                       (js "User-Agent", JStr (js "Analytics NodeJS Client v2.6.0"));
                       (js "Content-Length", JNum (Z.of_nat (Datatypes.length payload)))]
                      (Text payload) in
           getOauth server this w
           = (oauth_result (server (trace w) q),
              mkWorld (accessToken w) (store w)
                      (trace w ++ [Exchange q (server (trace w) q)]) (files w)))
    /\ (forall s c,
           paired s = true -> (55296 <= c < 57344)%N ->
           qs_escape (s ++ [c]) = None)
    /\ (forall s c d t,
           paired s = true -> (55296 <= c < 57344)%N ->
           exists es,
             qs_escape s = Some es
             /\ qs_escape (s ++ c :: d :: t)
                = option_map (fun et => es ++ percent_encode (merged_code_point c d) ++ et)
                             (qs_escape t)).
Proof.
  intros server this w.
  assert (Hkeys : qs_escape (js "client_id") = Some (js "client_id")
                  /\ qs_escape (js "client_secret") = Some (js "client_secret")
                  /\ qs_escape (js "refresh_token") = Some (js "refresh_token")
                  /\ qs_escape (js "grant_type") = Some (js "grant_type")).
  { repeat split; vm_compute; reflexivity. }
  destruct Hkeys as (K1 & K2 & K3 & K4).
  assert (Hsent : forall e1 e2 e3,
             qs_escape (clientId this) = Some e1 ->
             qs_escape (clientSecret this) = Some e2 ->
             qs_escape (refreshToken this) = Some e3 ->
             querystring_stringify
               (oauthinfo (clientId this) (clientSecret this) (refreshToken this))
             = Some (js "client_id=" ++ e1 ++ js "&client_secret=" ++ e2
                        ++ js "&refresh_token=" ++ e3
                        ++ js "&grant_type=refresh_token")).
  { intros e1 e2 e3 E1 E2 E3. unfold oauthinfo. cbn [querystring_stringify].
    rewrite E1, E2, E3, K1, K2, K3, K4. cbv iota beta. f_equal. }
  assert (Hsurr : forall c, (55296 <= c < 57344)%N ->
                            (c <? 128)%N = false
                            /\ ((c <? 55296) || (57344 <=? c))%N = false).
  { intros c Hc. split; [apply N.ltb_ge; lia|].
    apply orb_false_iff. split; [apply N.ltb_ge|apply N.leb_gt]; lia. }
  split; [|split; [|split; [|split]]].
  - intros W1 W2 W3 H. apply andb_true_iff in H. destruct H as [H P3].
    apply andb_true_iff in H. destruct H as [P1 P2].
    destruct (encode_paired _ P1) as [e1 E1].
    destruct (encode_paired _ P2) as [e2 E2].
    destruct (encode_paired _ P3) as [e3 E3].
    exists e1, e2, e3.
    split; [exact (decode_encode _ W1 _ E1)|].
    split; [exact (decode_encode _ W2 _ E2)|].
    split; [exact (decode_encode _ W3 _ E3)|].
    cbv zeta.
    rewrite getOauth_eq, (Hsent e1 e2 e3)
      by (rewrite qs_escape_paired; assumption).
    unfold logged, oauth_request.
    assert (Ha : Forall ascii_unit
                   (js "client_id=" ++ e1 ++ js "&client_secret=" ++ e2
                       ++ js "&refresh_token=" ++ e3 ++ js "&grant_type=refresh_token")).
    { assert (Hjs : forall t : string,
                 forallb (fun c => (c <? 128)%N) (js t) = true -> Forall ascii_unit (js t)).
      { intros t Ht. apply Forall_forall. intros c Hc.
        rewrite forallb_forall in Ht. apply N.ltb_lt. now apply Ht. }
      apply Forall_app; split; [now apply Hjs|].
      apply Forall_app; split; [exact (encode_ascii _ _ W1 E1)|].
      apply Forall_app; split; [now apply Hjs|].
      apply Forall_app; split; [exact (encode_ascii _ _ W2 E2)|].
      apply Forall_app; split; [now apply Hjs|].
      apply Forall_app; split; [exact (encode_ascii _ _ W3 E3)|].
      now apply Hjs. }
    rewrite (Buffer_from_ascii _ Ha). reflexivity.
  - intros H. rewrite getOauth_eq.
    assert (Hq : querystring_stringify
                   (oauthinfo (clientId this) (clientSecret this) (refreshToken this))
                 = None).
    { unfold oauthinfo. cbn [querystring_stringify]. rewrite K1, K2, K3, K4.
      destruct H as [H|[H|H]]; rewrite H;
        destruct (qs_escape (clientId this));
        destruct (qs_escape (clientSecret this));
        destruct (qs_escape (refreshToken this)); reflexivity. }
    now rewrite Hq.
  - intros e1 e2 e3 E1 E2 E3. cbv zeta.
    rewrite getOauth_eq, (Hsent e1 e2 e3 E1 E2 E3). reflexivity.
  - intros s c P Hc. rewrite (qs_escape_app _ _ P).
    destruct (Hsurr c Hc) as [A R].
    rewrite (qs_escape_cons c []), A, R. now destruct (qs_escape s).
  - intros s c d t P Hc.
    destruct (encode_paired _ P) as [es Es]. rewrite <- (qs_escape_paired _ P) in Es.
    exists es. split; [exact Es|].
    destruct (Hsurr c Hc) as [A R].
    rewrite (qs_escape_app _ _ P), Es, (qs_escape_cons c (d :: t)), A, R.
    destruct (qs_escape t); reflexivity.
Qed.

Lemma oauth_request_carries_credentials_witness :
  exists q r,
    trace (snd (getOauth (always token_reply) odd_credentials fresh_world))
    = [Exchange q r]
    /\ payload q
       = Text (js "client_id=1000.ABC&client_secret=se%F0%90%81%A3ret&refresh_token=1000.refresh&grant_type=refresh_token").
Proof.
  pose proof (proj1 (proj2 (proj2 (oauth_request_carries_credentials
                                     (always token_reply) odd_credentials fresh_world)))
                (js "1000.ABC") (js "se%F0%90%81%A3ret") (js "1000.refresh")
                eq_refl eq_refl eq_refl) as H.
  cbv zeta in H. rewrite H. cbn [snd trace fresh_world app].
  eexists. eexists. split; reflexivity.
Defined.

(** ** Exports *)

(** What [on_export_reply] does with the files: it writes one only when
    the promise is fulfilled. *)
Lemma on_export_reply_files filePath r w res w' :
  on_export_reply filePath r w = (res, w') ->
  (forall v, res <> Ok (Fulfilled v)) -> files w' = files w.
Proof.
  unfold on_export_reply. destruct r as [st chunks|message].
  - destruct (negb (N.eqb st 200)).
    + destruct (JSON_parse _) as [j|]; [|intros [= _ <-]; reflexivity].
      destruct (get_prop j _); intros [= _ <-]; reflexivity.
    + unfold bind, writeFileSync, ret. intros [= <- _] H. now destruct (H JUndefined).
  - unfold lift. intros [= _ <-]. reflexivity.
Qed.

(** X13: [sendExportRequest] appends the [CONFIG] parameter for every
    [config] that is not [null], an object with no key included, where
    [sendV2Request] leaves the path as it is: for an empty [config] the
    export goes to the path followed by [?CONFIG=%7B%7D]. *)
Theorem export_appends_empty_config :
  forall server uriPath filePath reqMethod c header w hdr,
    c <> header ->
    nth_error (store w) header = Some hdr ->
    nth_error (store w) c = Some [] ->
    let q2 := v2_request uriPath reqMethod (accessToken w) hdr uriPath in
    let qx := v2_request uriPath (js "GET") (accessToken w) hdr
                         (uriPath ++ js "?CONFIG=%7B%7D") in
    trace (snd (sendV2Request server uriPath reqMethod (Some c) header false w))
    = trace w ++ [Exchange q2 (server (trace w) q2)]
    /\ trace (snd (sendExportRequest server uriPath filePath (Some c) header w))
       = trace w ++ [Exchange qx (server (trace w) qx)].
Proof.
  intros server uriPath filePath reqMethod c header w hdr Hne Hh Hc q2 qx.
  assert (Hcfg : config_of w header hdr (Some c) = Some (Some [])).
  { unfold config_of. rewrite nth_error_replace_nth_neq by congruence. now rewrite Hc. }
  split.
  - rewrite (sendV2Request_eq server uriPath reqMethod (Some c) header false w hdr
               (Some []) uriPath Hh Hcfg eq_refl).
    reflexivity.
  - assert (Hp : config_path_always uriPath (Some [])
                 = Some (uriPath ++ js "?CONFIG=%7B%7D")) by reflexivity.
    rewrite (sendExportRequest_eq server uriPath filePath (Some c) header w hdr
               (Some []) _ Hh Hcfg Hp).
    destruct (on_export_reply filePath _ _) as [res w1] eqn:E.
    apply on_export_reply_extends in E. cbn [snd]. rewrite E. reflexivity.
Qed.

Lemma export_appends_empty_config_witness :
  exists q r,
    trace (snd (sendExportRequest (always raw_reply) demo_path (js "out.bin")
                                  (Some 1%nat) 0
                                  (mkWorld (JStr (js "tokOld")) [demo_header; []] [] [])))
    = [Exchange q r]
    /\ url q = js "https://analyticsapi.zoho.com/restapi/v2/views/456?CONFIG=%7B%7D".
Proof.
  eexists. eexists.
  rewrite (proj2 (export_appends_empty_config (always raw_reply) demo_path
                    (js "out.bin") (js "GET") 1%nat 0%nat
                    (mkWorld (JStr (js "tokOld")) [demo_header; []] [] [])
                    demo_header ltac:(discriminate) eq_refl eq_refl)).
  cbn [trace app]. split; reflexivity.
Defined.

(** X14: an export whose one reply has a status other than 200 (201 and
    204 included) and an envelope for body, with an [errorCode] other
    than the expiry code, writes no file: [sendExportRequest] rejects
    with the [data] of the envelope, [handleExportRequest] throws it, and
    nothing more is exchanged. *)
Theorem export_error_writes_nothing :
  forall server this uriPath filePath config header
         w w0 res1 w1 q status chunks respJSON err code,
    ensure_token server this w = (Ok tt, w0) ->
    sendExportRequest server uriPath filePath config header w0 = (res1, w1) ->
    trace w1 = trace w0 ++ [Exchange q (Response status chunks)] ->
    status <> 200%N ->
    JSON_parse (Buffer_toString (body_octets chunks)) = Some respJSON ->
    get_prop respJSON (js "data") = Some err ->
    get_prop err (js "errorCode") = Some code ->
    is_expiry_code code = false ->
    res1 = Ok (Rejected err)
    /\ handleExportRequest server this uriPath filePath config header w
       = (Throw (Value err), w1)
    /\ files w1 = files w0.
Proof.
  intros server this uriPath filePath config header
         w w0 res1 w1 q status chunks respJSON err code He Hs Ht Hst Hp Hd Hc Hx.
  destruct (sendExportRequest_reply _ _ _ _ _ _ _ _ _ _ Hs Ht) as (w' & Hr & Hf).
  assert (Hres : res1 = Ok (Rejected err) /\ w1 = w').
  { unfold on_export_reply in Hr.
    assert (E : N.eqb status 200 = false) by now apply N.eqb_neq.
    rewrite E, Hp, Hd in Hr. cbn in Hr. now injection Hr as <- <-. }
  destruct Hres as [-> ->].
  split; [reflexivity|]. split; [|exact Hf].
  unfold handleExportRequest. rewrite (bind_Ok _ _ _ _ _ He).
  rewrite (bind_Ok _ _ _ _ _ Hs). rewrite Hc. unfold or_throw, bind, ret.
  now rewrite Hx.
Qed.

Lemma export_error_writes_nothing_witness :
  handleExportRequest (always not_found) demo_credentials demo_path (js "out.bin")
                      None 0 demo_world
  = (Throw (Value other_error),
     snd (sendExportRequest (always not_found) demo_path (js "out.bin") None 0 demo_world))
  /\ files (snd (sendExportRequest (always not_found) demo_path (js "out.bin") None 0
                                   demo_world))
     = files demo_world.
Proof.
  destruct (export_error_writes_nothing (always not_found) demo_credentials demo_path
              (js "out.bin") None 0%nat demo_world demo_world
              (fst (sendExportRequest (always not_found) demo_path (js "out.bin")
                                      None 0 demo_world))
              (snd (sendExportRequest (always not_found) demo_path (js "out.bin")
                                      None 0 demo_world))
              (v2_request demo_path (js "GET") (JStr (js "tokOld")) demo_header demo_path)
              404%N [Buffer_from (text (envelope "failure" other_error))]
              (envelope "failure" other_error) other_error (JNum 7103))
    as (_ & H & Hf).
  - vm_compute; reflexivity.
  - vm_compute; reflexivity.
  - vm_compute; reflexivity.
  - discriminate.
  - vm_compute; reflexivity.
  - vm_compute; reflexivity.
  - vm_compute; reflexivity.
  - vm_compute; reflexivity.
  - split; [exact H | exact Hf].
Defined.

(** X15: an export whose first reply is rejected with the expiry code
    is sent once more after one token request; when the second reply is
    a 200, the file is written once, with the body of the second reply,
    and the call returns. *)
Theorem export_retry_writes_once :
  forall server this uriPath filePath config header
         w w0 error code w1 q1 r1 t w2 res2 w3 q2 chunks,
    ensure_token server this w = (Ok tt, w0) ->
    sendExportRequest server uriPath filePath config header w0
    = (Ok (Rejected error), w1) ->
    trace w1 = trace w0 ++ [Exchange q1 r1] ->
    get_prop error (js "errorCode") = Some code ->
    is_expiry_code code = true ->
    getOauth server this w1 = (Ok (Fulfilled t), w2) ->
    sendExportRequest server uriPath filePath config header (with_token t w2)
    = (res2, w3) ->
    trace w3 = trace w2 ++ [Exchange q2 (Response 200 chunks)] ->
    handleExportRequest server this uriPath filePath config header w = (Ok JUndefined, w3)
    /\ files w3 = (filePath, body_octets chunks) :: files w0
    /\ exists p ro,
        trace w3 = trace w0 ++ [Exchange q1 r1; Exchange (oauth_request p) ro;
                                Exchange q2 (Response 200 chunks)].
Proof.
  intros server this uriPath filePath config header
         w w0 error code w1 q1 r1 t w2 res2 w3 q2 chunks
         He Hs1 Ht1 Hc Hx Hg Hs2 Ht2.
  destruct (sendExportRequest_reply _ _ _ _ _ _ _ _ _ _ Hs1 Ht1) as (wa & Hra & Hfa).
  assert (Hf1 : files w1 = files w0).
  { rewrite <- Hfa. apply (on_export_reply_files _ _ _ _ _ Hra). discriminate. }
  destruct (getOauth_settled _ _ _ _ _ Hg) as (p & Htg & _ & _ & Hfg).
  destruct (sendExportRequest_reply server uriPath filePath config header
              (with_token t w2) res2 w3 q2 (Response 200 chunks) Hs2 Ht2)
    as (wb & Hrb & Hfb).
  cbn in Hrb. injection Hrb as <- <-.
  split; [|split].
  - unfold handleExportRequest. rewrite (bind_Ok _ _ _ _ _ He).
    rewrite (bind_Ok _ _ _ _ _ Hs1). rewrite Hc. unfold or_throw. 
    rewrite (bind_Ok _ _ _ _ _ (eq_refl : ret code w1 = (Ok code, w1))).
    rewrite Hx. rewrite (bind_Ok _ _ _ _ _ (fetch_token_Ok _ _ _ _ _ Hg)).
    rewrite (bind_Ok _ _ _ _ _ Hs2). reflexivity.
  - cbn [files]. rewrite Hfb. cbn [files with_token]. now rewrite Hfg, Hf1.
  - exists p. eexists. rewrite Ht2, Htg, Ht1. rewrite <- !app_assoc. reflexivity.
Qed.

Lemma export_retry_writes_once_witness :
  fst (handleExportRequest (scripted [expired; token_reply; raw_reply]) demo_credentials
                           demo_path (js "out.bin") None 0 demo_world)
  = Ok JUndefined
  /\ files (snd (handleExportRequest (scripted [expired; token_reply; raw_reply])
                                     demo_credentials demo_path (js "out.bin") None 0
                                     demo_world))
     = (js "out.bin", [255%N; 0%N; 123%N]) :: files demo_world.
Proof.
  destruct (export_retry_writes_once
              (scripted [expired; token_reply; raw_reply]) demo_credentials
              demo_path (js "out.bin") None 0%nat demo_world demo_world
              expiry_error (JNum 8535)
              (snd (sendExportRequest (scripted [expired; token_reply; raw_reply])
                                      demo_path (js "out.bin") None 0 demo_world))
              (v2_request demo_path (js "GET") (JStr (js "tokOld")) demo_header demo_path)
              expired (JStr (js "tokNew"))
              (snd (getOauth (scripted [expired; token_reply; raw_reply]) demo_credentials
                      (snd (sendExportRequest (scripted [expired; token_reply; raw_reply])
                                              demo_path (js "out.bin") None 0 demo_world))))
              (Ok (Fulfilled JUndefined))
              (snd (handleExportRequest (scripted [expired; token_reply; raw_reply])
                                        demo_credentials demo_path (js "out.bin") None 0
                                        demo_world))
              (v2_request demo_path (js "GET") (JStr (js "tokNew"))
                          (stamp (JStr (js "tokOld")) demo_header) demo_path)
              [[255%N; 0%N; 123%N]])
    as (H & Hf & _).
  - vm_compute; reflexivity.
  - vm_compute; reflexivity.
  - vm_compute; reflexivity.
  - vm_compute; reflexivity.
  - vm_compute; reflexivity.
  - vm_compute; reflexivity.
  - vm_compute; reflexivity.
  - vm_compute; reflexivity.
  - rewrite H. split; [reflexivity | exact Hf].
Defined.

(** An export with a token whose one reply is a 200. *)
Lemma handleExportRequest_cached_ok server this uriPath filePath config header
      w hdr cfg path chunks :
  nullish (accessToken w) = false ->
  nth_error (store w) header = Some hdr ->
  config_of w header hdr config = Some cfg ->
  config_path_always uriPath cfg = Some path ->
  server (trace w) (v2_request uriPath (js "GET") (accessToken w) hdr path)
  = Response 200 chunks ->
  handleExportRequest server this uriPath filePath config header w
  = (Ok JUndefined,
     mkWorld (accessToken w) (replace_nth header (stamp (accessToken w) hdr) (store w))
             (trace w ++ [Exchange (v2_request uriPath (js "GET") (accessToken w) hdr path)
                                   (Response 200 chunks)])
             ((filePath, body_octets chunks) :: files w)).
Proof.
  intros Ht Hh Hc Hp Hs. unfold handleExportRequest.
  rewrite (bind_Ok _ _ _ _ _ (ensure_token_cached server this w Ht)).
  unfold bind.
  rewrite (sendExportRequest_eq server uriPath filePath config header w hdr cfg path
             Hh Hc Hp).
  rewrite Hs. unfold on_export_reply.
  change (negb (N.eqb 200 200)) with false. cbv iota.
  unfold bind, writeFileSync, ret, sent. cbn [accessToken store trace files].
  now rewrite Hs.
Qed.

(** X28: the two ways of an export, on one reply 200.
    [handleExportRequest] writes the octets of the body to [filePath] as
    they came and resolves, whatever the octets are; nothing is parsed.
    [handleV2Request] for an export parses nothing either, but what it
    returns is the string that the octets decode to as UTF-8, not the
    octets. *)
Theorem export_body_unparsed :
  (forall server this uriPath filePath config header w w0 res1 w1 q chunks,
      ensure_token server this w = (Ok tt, w0) ->
      sendExportRequest server uriPath filePath config header w0 = (res1, w1) ->
      trace w1 = trace w0 ++ [Exchange q (Response 200 chunks)] ->
      res1 = Ok (Fulfilled JUndefined)
      /\ handleExportRequest server this uriPath filePath config header w
         = (Ok JUndefined, w1)
      /\ files w1 = (filePath, body_octets chunks) :: files w0
      /\ find_file filePath (files w1) = Some (body_octets chunks))
  /\
  (forall server this uriPath method config header w w0 res1 w1 q chunks,
      ensure_token server this w = (Ok tt, w0) ->
      sendV2Request server uriPath method config header true w0 = (res1, w1) ->
      trace w1 = trace w0 ++ [Exchange q (Response 200 chunks)] ->
      res1 = Ok (Fulfilled (JStr (Buffer_toString (body_octets chunks))))
      /\ handleV2Request server this uriPath method config header true w
         = (Ok (JStr (Buffer_toString (body_octets chunks))), w1)).
Proof.
  split.
  - intros server this uriPath filePath config header w w0 res1 w1 q chunks He Hs Ht.
    exact (handleExportRequest_export server this uriPath filePath config header
             w w0 res1 w1 q chunks He Hs Ht).
  - intros server this uriPath method config header w w0 res1 w1 q chunks He Hs Ht.
    exact (handleV2Request_export server this uriPath method config header
             w w0 res1 w1 q chunks He Hs Ht).
Qed.

Lemma export_body_unparsed_witness :
  find_file (js "out.bin")
            (files (snd (handleExportRequest (always raw_reply) demo_credentials demo_path
                                             (js "out.bin") None 0 demo_world)))
  = Some [255%N; 0%N; 123%N]
  /\ fst (handleV2Request (always raw_reply) demo_credentials demo_path (js "GET")
                          None 0 true demo_world)
     = Ok (JStr [65533%N; 0%N; 123%N]).
Proof.
  split.
  - destruct (proj1 export_body_unparsed (always raw_reply) demo_credentials demo_path
                (js "out.bin") None 0%nat demo_world demo_world
                (fst (sendExportRequest (always raw_reply) demo_path (js "out.bin")
                                        None 0 demo_world))
                (snd (sendExportRequest (always raw_reply) demo_path (js "out.bin")
                                        None 0 demo_world))
                (v2_request demo_path (js "GET") (JStr (js "tokOld")) demo_header demo_path)
                [[255%N; 0%N; 123%N]])
      as (_ & H & _ & Hf).
    + vm_compute; reflexivity.
    + vm_compute; reflexivity.
    + vm_compute; reflexivity.
    + rewrite H. exact Hf.
  - destruct (proj2 export_body_unparsed (always raw_reply) demo_credentials demo_path
                (js "GET") None 0%nat demo_world demo_world
                (fst (sendV2Request (always raw_reply) demo_path (js "GET")
                                    None 0 true demo_world))
                (snd (sendV2Request (always raw_reply) demo_path (js "GET")
                                    None 0 true demo_world))
                (v2_request demo_path (js "GET") (JStr (js "tokOld")) demo_header demo_path)
                [[255%N; 0%N; 123%N]])
      as (_ & H).
    + vm_compute; reflexivity.
    + vm_compute; reflexivity.
    + vm_compute; reflexivity.
    + rewrite H. reflexivity.
Defined.

(** X25: the two exports of [BulkAPI], with a token and an upstream that
    answers 200.  [exportBulkData] sends one GET on the data of the
    export job, with no [CONFIG] parameter; [exportData] writes
    [responseFormat] into the caller's [config] and sends one GET on the
    data of the view with that [config] as [CONFIG].  Both write the body
    of the reply to [filePath] as it came and return nothing. *)
Theorem bulk_exports_write_file :
  (forall server this bulkUriPath header jobId filePath w hdr chunks,
      nullish (accessToken w) = false ->
      nth_error (store w) header = Some hdr ->
      (forall q, server (trace w) q = Response 200 chunks) ->
      let path := bulkUriPath ++ js "/exportjobs/" ++ ToString jobId ++ js "/data" in
      let q := v2_request path (js "GET") (accessToken w) hdr path in
      exists w',
        BulkAPI.exportBulkData server this bulkUriPath header jobId filePath w
        = (Ok JUndefined, w')
        /\ trace w' = trace w ++ [Exchange q (Response 200 chunks)]
        /\ files w' = (filePath, body_octets chunks) :: files w)
  /\
  (forall server this uriPath header viewId responseFormat filePath c w hdr cfg chunks,
      c <> header ->
      nullish (accessToken w) = false ->
      nth_error (store w) header = Some hdr ->
      nth_error (store w) c = Some cfg ->
      (forall q, server (trace w) q = Response 200 chunks) ->
      exists e w',
        let path := uriPath ++ js "/views/" ++ ToString viewId ++ js "/data" in
        let q := v2_request path (js "GET") (accessToken w) hdr
                            (path ++ js "?CONFIG=" ++ e) in
        encodedConfig (obj_set (js "responseFormat") responseFormat cfg) = Some e
        /\ BulkAPI.exportData server this uriPath header viewId responseFormat filePath
                              (Some c) w
           = (Ok JUndefined, w')
        /\ trace w' = trace w ++ [Exchange q (Response 200 chunks)]
        /\ files w' = (filePath, body_octets chunks) :: files w
        /\ nth_error (store w') c
           = Some (obj_set (js "responseFormat") responseFormat cfg)).
Proof.
  split.
  - intros server this bulkUriPath header jobId filePath w hdr chunks Ht Hh Hs path q.
    eexists. split; [|split].
    + unfold BulkAPI.exportBulkData. fold path.
      rewrite (bind_Ok _ _ _ _ _
                 (handleExportRequest_cached_ok server this path filePath None header
                    w hdr None path chunks Ht Hh eq_refl eq_refl (Hs _))).
      reflexivity.
    + reflexivity.
    + reflexivity.
  - intros server this uriPath header viewId responseFormat filePath c w hdr cfg chunks
           Hne Ht Hh Hc Hs.
    set (cfg1 := obj_set (js "responseFormat") responseFormat cfg).
    destruct (encodedConfig_total cfg1) as [e He].
    set (path := uriPath ++ js "/views/" ++ ToString viewId ++ js "/data").
    set (w0 := mkWorld (accessToken w) (replace_nth c cfg1 (store w)) (trace w) (files w)).
    assert (Hh0 : nth_error (store w0) header = Some hdr)
      by (unfold w0; cbn [store]; now rewrite nth_error_replace_nth_neq).
    assert (Hc0 : config_of w0 header hdr (Some c) = Some (Some cfg1)).
    { unfold config_of, w0. cbn [store accessToken].
      rewrite nth_error_replace_nth_neq by congruence.
      now rewrite (nth_error_replace_nth_eq _ _ _ _ Hc). }
    assert (Hp : config_path_always path (Some cfg1) = Some (path ++ js "?CONFIG=" ++ e))
      by (cbn [config_path_always]; now rewrite He).
    exists e. eexists. split; [exact He|]. split; [|split; [|split]].
    + unfold BulkAPI.exportData. fold path.
      assert (E1 : default_config (Some c) w = (Ok c, w)) by reflexivity.
      rewrite (bind_Ok _ _ _ _ _ E1).
      assert (E2 : set_prop c (js "responseFormat") responseFormat w = (Ok tt, w0))
        by (unfold set_prop; now rewrite Hc).
      rewrite (bind_Ok _ _ _ _ _ E2).
      rewrite (bind_Ok _ _ _ _ _
                 (handleExportRequest_cached_ok server this path filePath (Some c) header
                    w0 hdr (Some cfg1) _ chunks Ht Hh0 Hc0 Hp (Hs _))).
      reflexivity.
    + reflexivity.
    + reflexivity.
    + cbn [store w0]. rewrite nth_error_replace_nth_neq by congruence.
      now apply nth_error_replace_nth_eq with (y := cfg).
Qed.

Lemma bulk_exports_write_file_witness :
  find_file (js "out.bin")
    (files (snd (BulkAPI.exportBulkData (always raw_reply) demo_credentials
                   (js "/restapi/v2/bulk/workspaces/123") 0 (JStr (js "77"))
                   (js "out.bin") demo_world)))
  = Some [255%N; 0%N; 123%N].
Proof.
  destruct (proj1 bulk_exports_write_file (always raw_reply) demo_credentials
              (js "/restapi/v2/bulk/workspaces/123") 0%nat (JStr (js "77"))
              (js "out.bin") demo_world demo_header [[255%N; 0%N; 123%N]]
              eq_refl eq_refl (fun _ => eq_refl)) as (w' & H & _ & Hf).
  rewrite H. cbn [snd]. rewrite Hf. reflexivity.
Defined.

(** ** Imports *)

Lemma slices_from {A} (l : list A) (B : nat) :
  forall n k, (Datatypes.length l <= (k + n) * B)%nat ->
    List.concat (map (fun i => firstn B (skipn (i * B) l)) (seq k n)) = skipn (k * B) l.
Proof.
  induction n as [|n IH]; intros k H.
  - cbn. symmetry. apply skipn_all2. now rewrite Nat.add_0_r in H.
  - cbn [seq map List.concat]. rewrite IH by lia.
    replace (S k * B)%nat with (B + k * B)%nat by lia.
    rewrite <- skipn_skipn. apply firstn_skipn.
Qed.

Lemma ceil_div_positive totalLines batchSize :
  (1 <= batchSize)%nat -> (1 <= totalLines)%nat -> (1 <= ceil_div totalLines batchSize)%nat.
Proof.
  intros HB HN. destruct (ceil_div_spec totalLines batchSize HB) as [Hup _].
  destruct (ceil_div totalLines batchSize); [simpl in Hup; lia | lia].
Qed.

Lemma exchanges_app a b : exchanges (a ++ b) = (exchanges a + exchanges b)%nat.
Proof. unfold exchanges. now rewrite filter_app, length_app. Qed.

Lemma exchanges_snoc tr q r : exchanges (tr ++ [Exchange q r]) = S (exchanges tr).
Proof. rewrite exchanges_app. unfold exchanges. simpl. lia. Qed.

Section BatchFailure.
Variable server : upstream.
Variable this : credentials.
Variable EOL : jstring.
Variables uriPath fileHeader : jstring.
Variable fileContent : list jstring.
Variables batchSize totalBatchCount : nat.

(** A turn of the loop whose batch is rejected with another code than
    the expiry code. *)
Lemma import_batch_rejected config header i w cfg hdr err code :
  config <> header ->
  nullish (accessToken w) = false ->
  nth_error (store w) config = Some cfg ->
  nth_error (store w) header = Some hdr ->
  (forall q, batch_result (server (trace w) q) = Ok (Rejected err)) ->
  get_prop err (js "errorCode") = Some code ->
  is_expiry_code code = false ->
  exists q w',
    import_batch server this EOL uriPath config header fileHeader fileContent
                 batchSize totalBatchCount i w = (Throw (Value err), w')
    /\ trace w' = trace w ++ [Exchange q (server (trace w) q)]
    /\ method q = js "POST"
    /\ accessToken w' = accessToken w.
Proof.
  intros Hne Htok Hcfg Hhdr Hd Hc Hx.
  set (cfg1 := obj_set (js "isLastBatch") (isLastBatch totalBatchCount i) cfg).
  destruct (encodedConfig_total cfg1) as [e He].
  eexists. eexists. split.
  - unfold import_batch, sendBatchImportRequest, ensure_token, bind, set_prop,
      read_obj, or_throw, ret, get_accessToken, exchange, lift, log_event, throw.
    fold (isLastBatch totalBatchCount i).
    cbn [store trace accessToken files].
    rewrite Hcfg. fold cfg1. cbn [store trace accessToken files].
    rewrite (nth_error_replace_nth_eq _ _ _ _ Hcfg).
    rewrite He. cbn [store trace accessToken files]. rewrite Htok.
    cbn [store trace accessToken files].
    rewrite (nth_error_replace_nth_neq _ _ _ _ Hne). rewrite Hhdr.
    cbn [store trace accessToken files].
    rewrite nth_error_replace_nth_eq with (y := hdr)
      by (rewrite nth_error_replace_nth_neq by exact Hne; exact Hhdr).
    cbn [store trace accessToken files].
    rewrite Hd. rewrite Hc. rewrite Hx. reflexivity.
  - cbn [trace accessToken method]. repeat split.
Qed.

(** A turn of the loop whose batch is rejected with the expiry code: the
    token is fetched and the batch sent again, and whatever the second
    reply gives is dropped. *)
Lemma import_batch_expired config header i w cfg hdr err code p t d :
  config <> header ->
  nullish (accessToken w) = false ->
  nth_error (store w) config = Some cfg ->
  nth_error (store w) header = Some hdr ->
  (forall q, batch_result (server (trace w) q) = Ok (Rejected err)) ->
  get_prop err (js "errorCode") = Some code ->
  is_expiry_code code = true ->
  querystring_stringify
    (oauthinfo (clientId this) (clientSecret this) (refreshToken this)) = Some p ->
  (forall tr q, exchanges tr = S (exchanges (trace w)) ->
                oauth_result (server tr q) = Ok (Fulfilled t)) ->
  (forall tr q, exchanges tr = S (S (exchanges (trace w))) ->
                batch_result (server tr q) = Ok (Fulfilled d)) ->
  exists q1 r1 ro q2 r2 w',
    import_batch server this EOL uriPath config header fileHeader fileContent
                 batchSize totalBatchCount i w = (Throw TypeError, w')
    /\ trace w' = trace w ++ [Exchange q1 r1; Exchange (oauth_request p) ro; Exchange q2 r2]
    /\ url q2 = url q1 /\ payload q2 = payload q1
    /\ lookup (js "Authorization") (headers q2)
       = Some (JStr (js "Zoho-oauthtoken " ++ ToString t))
    /\ accessToken w' = t.
Proof.
  intros Hne Htok Hcfg Hhdr Hd Hc Hx Hp Ho Hd2.
  set (cfg1 := obj_set (js "isLastBatch") (isLastBatch totalBatchCount i) cfg).
  destruct (encodedConfig_total cfg1) as [e He].
  set (hdr1 := obj_set (js "Authorization")
                       (JStr (js "Zoho-oauthtoken " ++ ToString (accessToken w))) hdr).
  do 6 eexists. split.
  - unfold import_batch, sendBatchImportRequest, ensure_token, fetch_token, getOauth,
      bind, set_prop, set_accessToken, await,
      read_obj, or_throw, ret, get_accessToken, exchange, lift, log_event, throw.
    fold (isLastBatch totalBatchCount i).
    cbn [store trace accessToken files].
    rewrite Hcfg. fold cfg1. cbn [store trace accessToken files].
    rewrite (nth_error_replace_nth_eq _ _ _ _ Hcfg).
    rewrite He. cbn [store trace accessToken files]. rewrite Htok.
    cbn [store trace accessToken files].
    rewrite (nth_error_replace_nth_neq _ _ _ _ Hne). rewrite Hhdr. fold hdr1.
    cbn [store trace accessToken files].
    rewrite nth_error_replace_nth_eq with (y := hdr)
      by (rewrite nth_error_replace_nth_neq by exact Hne; exact Hhdr).
    cbn [store trace accessToken files].
    rewrite Hd. rewrite Hc. rewrite Hx. rewrite Hp.
    cbn [store trace accessToken files].
    rewrite Ho by apply exchanges_snoc.
    cbn [store trace accessToken files].
    rewrite nth_error_replace_nth_eq with (y := hdr)
      by (rewrite nth_error_replace_nth_neq by exact Hne; exact Hhdr).
    cbn [store trace accessToken files].
    rewrite nth_error_replace_nth_eq with (y := hdr1)
      by (apply nth_error_replace_nth_eq with (y := hdr);
          rewrite nth_error_replace_nth_neq by exact Hne; exact Hhdr).
    cbn [store trace accessToken files].
    rewrite Hd2 by (now rewrite !exchanges_snoc).
    cbn [get_prop]. reflexivity.
  - cbn [trace accessToken url payload headers].
    split; [rewrite <- !app_assoc; reflexivity|].
    split; [reflexivity|]. split; [reflexivity|].
    split; [apply lookup_obj_set_eq | reflexivity].
Qed.

End BatchFailure.

(** The part of [handleBatchImportRequest] before its loop. *)
Lemma handleBatchImportRequest_start server this EOL uriPath config header filePath
      batchSize w content first fileContent cfg hdr :
  config <> header ->
  find_file filePath (files w) = Some content ->
  split EOL (Buffer_toString content) = first :: fileContent ->
  nth_error (store w) config = Some cfg ->
  nth_error (store w) header = Some hdr ->
  (1 <= batchSize)%nat ->
  handleBatchImportRequest server this EOL uriPath config header filePath batchSize w
  = import_batches server this EOL uriPath config header (first ++ EOL) fileContent
      batchSize (ceil_div (Datatypes.length fileContent) batchSize)
      (ceil_div (Datatypes.length fileContent) batchSize) O JUndefined
      (mkWorld (accessToken w)
         (replace_nth header
            (obj_set (js "User-Agent")
                     (JStr (js "Analytics NodeJS Client v" ++ clientVersion)) hdr)
            (replace_nth config (obj_set (js "batchKey") (JStr (js "start")) cfg)
                         (store w)))
         (trace w) (files w)).
Proof.
  intros Hne Hf Hsp Hc Hh HB.
  unfold handleBatchImportRequest, bind, readFileSync. rewrite Hf, Hsp.
  unfold set_prop at 1. cbn [store trace accessToken files]. rewrite Hc.
  unfold set_prop at 1. cbn [store trace accessToken files].
  rewrite nth_error_replace_nth_neq by exact Hne. rewrite Hh.
  destruct batchSize as [|b]; [lia|]. reflexivity.
Qed.

(** A batch import that every batch of is taken: its chunks. *)
Lemma handleBatchImportRequest_chunks server this EOL uriPath config header filePath
      batchSize w content first fileContent cfg hdr :
  accepts server ->
  config <> header ->
  nullish (accessToken w) = false ->
  find_file filePath (files w) = Some content ->
  split EOL (Buffer_toString content) = first :: fileContent ->
  nth_error (store w) config = Some cfg ->
  nth_error (store w) header = Some hdr ->
  (1 <= batchSize)%nat ->
  exists chunks jobId w',
    handleBatchImportRequest server this EOL uriPath config header filePath batchSize w
    = (Ok jobId, w')
    /\ trace w' = trace w ++ chunk_events chunks
    /\ Datatypes.length chunks = ceil_div (Datatypes.length fileContent) batchSize
    /\ batches_from EOL uriPath (first ++ EOL) fileContent batchSize
                    (ceil_div (Datatypes.length fileContent) batchSize)
                    O (JStr (js "start")) chunks.
Proof.
  intros Ha Hne Ht Hf Hsp Hc Hh HB.
  rewrite (handleBatchImportRequest_start server this EOL uriPath config header filePath
             batchSize w content first fileContent cfg hdr Hne Hf Hsp Hc Hh HB).
  destruct (import_batches_run server this EOL uriPath (first ++ EOL) fileContent
              batchSize (ceil_div (Datatypes.length fileContent) batchSize) Ha config header
              Hne (ceil_div (Datatypes.length fileContent) batchSize) O
              (mkWorld (accessToken w)
                 (replace_nth header
                    (obj_set (js "User-Agent")
                             (JStr (js "Analytics NodeJS Client v" ++ clientVersion)) hdr)
                    (replace_nth config (obj_set (js "batchKey") (JStr (js "start")) cfg)
                                 (store w)))
                 (trace w) (files w))
              (obj_set (js "batchKey") (JStr (js "start")) cfg)
              (obj_set (js "User-Agent")
                       (JStr (js "Analytics NodeJS Client v" ++ clientVersion)) hdr)
              (JStr (js "start")) JUndefined)
    as (chunks & jobId & w' & Hi & Htr & Hlen & Hb).
  - exact Ht.
  - cbn [store]. rewrite nth_error_replace_nth_neq by congruence.
    now apply nth_error_replace_nth_eq with (y := cfg).
  - cbn [store]. apply nth_error_replace_nth_eq with (y := hdr).
    now rewrite nth_error_replace_nth_neq by exact Hne.
  - apply lookup_obj_set_eq.
  - exists chunks, jobId, w'. repeat split; assumption.
Qed.

(** What the chunks carry: the header line and, for chunk [i], the
    pieces from [i * batchSize] on, [batchSize] of them at most. *)
Lemma batches_from_payloads EOL uriPath fileHeader fileContent batchSize totalBatchCount
      chunks :
  forall i key,
    batches_from EOL uriPath fileHeader fileContent batchSize totalBatchCount i key chunks ->
    Forall2 (fun ch sl =>
               payload (fst ch)
               = FormFile (js "FILE") (js "batch.csv")
                          (Buffer_from (fileHeader ++ join EOL sl)))
            chunks
            (map (fun j => firstn batchSize (skipn (j * batchSize) fileContent))
                 (seq i (Datatypes.length chunks))).
Proof.
  induction chunks as [|[q r] chunks IH]; intros i key Hb; [constructor|].
  cbn [batches_from] in Hb. destruct Hb as (Hq & key' & _ & Hrest).
  cbn [Datatypes.length seq map]. constructor; [|exact (IH _ _ Hrest)].
  destruct Hq as (cfg & e & _ & _ & _ & _ & _ & Hp). exact Hp.
Qed.

(** X27: a batch import over a file whose text splits into a header line
    and [N] more pieces (the empty piece after a line terminator that
    ends the file is one of them), with batch size [B >= 1], a token
    cached and an upstream that takes every batch, ends with a job
    identifier, and what it exchanged is a row of chunks, each followed
    by the pause of two seconds.  There are [ceil_div N B] chunks, the
    least number [n] with [N <= n * B].  Chunk [n] is a POST of the
    header line followed by pieces [n * B] up to [n * B + B] (fewer when
    the file ends); its [CONFIG] carries [isLastBatch], the string
    [true] on the last chunk and [false] on the others, and [batchKey],
    the string [start] on the first chunk and, on chunk [n + 1], the
    [batchKey] of the reply to chunk [n]. *)
Theorem batch_import_chunks :
  forall server this EOL uriPath config header filePath batchSize
         w content first fileContent cfg hdr,
    accepts server ->
    config <> header ->
    nullish (accessToken w) = false ->
    find_file filePath (files w) = Some content ->
    split EOL (Buffer_toString content) = first :: fileContent ->
    nth_error (store w) config = Some cfg ->
    nth_error (store w) header = Some hdr ->
    (1 <= batchSize)%nat ->
    let N := Datatypes.length fileContent in
    exists chunks jobId w',
      handleBatchImportRequest server this EOL uriPath config header filePath batchSize w
      = (Ok jobId, w')
      /\ trace w' = trace w ++ chunk_events chunks
      /\ Datatypes.length chunks = ceil_div N batchSize
      /\ (N <= ceil_div N batchSize * batchSize)%nat
      /\ (forall n, N <= n * batchSize -> ceil_div N batchSize <= n)%nat
      /\ forall n q r,
          nth_error chunks n = Some (q, r) ->
          exists key,
            is_batch EOL uriPath (first ++ EOL) fileContent batchSize
                     (Datatypes.length chunks) n key q
            /\ match n with
               | O => key = JStr (js "start")
               | S m => exists q' r', nth_error chunks m = Some (q', r')
                                      /\ reply_batchKey r' = Some key
               end.
Proof.
  intros server this EOL uriPath config header filePath batchSize
         w content first fileContent cfg hdr Ha Hne Ht Hf Hsp Hc Hh HB N.
  destruct (ceil_div_spec N batchSize HB) as [Hup Hleast].
  destruct (handleBatchImportRequest_chunks server this EOL uriPath config header filePath
              batchSize w content first fileContent cfg hdr Ha Hne Ht Hf Hsp Hc Hh HB)
    as (chunks & jobId & w' & Hi & Htr & Hlen & Hb).
  exists chunks, jobId, w'. fold N in Hlen, Hb. rewrite Hlen.
  split; [exact Hi|]. split; [exact Htr|]. split; [reflexivity|].
  split; [exact Hup|]. split; [exact Hleast|].
  intros n q r Hn.
  destruct (batches_from_nth EOL uriPath (first ++ EOL) fileContent batchSize
              (ceil_div N batchSize) chunks O (JStr (js "start")) Hb n q r Hn)
    as (k & Hk & Hkey).
  exists k. split; [exact Hk | exact Hkey].
Qed.

Lemma batch_import_chunks_witness :
  exists chunks w',
    handleBatchImportRequest batch_server demo_credentials [10%N] (js "/import") 1 0
                             (js "rows.csv") 2 demo_world
    = (Ok (JStr (js "77")), w')
    /\ trace w' = chunk_events chunks
    /\ Datatypes.length chunks = 2%nat.
Proof.
  destruct (batch_import_chunks batch_server demo_credentials [10%N] (js "/import")
              1%nat 0%nat (js "rows.csv") 2%nat demo_world
              (Buffer_from (js "id,name" ++ [10%N] ++ js "1,a" ++ [10%N] ++ js "2,b"
                               ++ [10%N] ++ js "3,c"))
              (js "id,name") [js "1,a"; js "2,b"; js "3,c"] demo_config demo_header)
    as (chunks & jobId & w' & Hrun & Htr & Hlen & _).
  - intros tr q. unfold batch_server.
    destruct (Nat.even (exchanges tr)); eexists; split; vm_compute; reflexivity.
  - discriminate.
  - reflexivity.
  - reflexivity.
  - vm_compute; reflexivity.
  - reflexivity.
  - reflexivity.
  - lia.
  - exists chunks, w'. split; [|split; [exact Htr | exact Hlen]].
    rewrite Hrun. f_equal. f_equal.
    assert (E : fst (handleBatchImportRequest batch_server demo_credentials [10%N]
                       (js "/import") 1 0 (js "rows.csv") 2 demo_world)
                = Ok (JStr (js "77"))) by (vm_compute; reflexivity).
    rewrite Hrun in E. cbn [fst] in E. now injection E.
Defined.

(** X16: the pieces of the file go out once each, in order.  In a batch
    import with batch size [B >= 1], a token cached and an upstream that
    takes every batch, the body of each chunk is the header line
    followed by a slice of the pieces [split] leaves after that line,
    joined by the line terminator; the slices, in the order of the
    chunks, make up those pieces, and each slice has one piece at least
    and [B] at most.  (A piece can be empty: the one after a terminator
    that ends the file is.) *)
Theorem batches_cover_every_line :
  forall server this EOL uriPath config header filePath batchSize
         w content first fileContent cfg hdr,
    accepts server ->
    config <> header ->
    nullish (accessToken w) = false ->
    find_file filePath (files w) = Some content ->
    split EOL (Buffer_toString content) = first :: fileContent ->
    nth_error (store w) config = Some cfg ->
    nth_error (store w) header = Some hdr ->
    (1 <= batchSize)%nat ->
    exists chunks slices jobId w',
      handleBatchImportRequest server this EOL uriPath config header filePath batchSize w
      = (Ok jobId, w')
      /\ trace w' = trace w ++ chunk_events chunks
      /\ Forall2 (fun ch sl =>
                    payload (fst ch)
                    = FormFile (js "FILE") (js "batch.csv")
                               (Buffer_from ((first ++ EOL) ++ join EOL sl)))
                 chunks slices
      /\ List.concat slices = fileContent
      /\ Forall (fun sl => (1 <= Datatypes.length sl <= batchSize)%nat) slices.
Proof.
  intros server this EOL uriPath config header filePath batchSize
         w content first fileContent cfg hdr Ha Hne Ht Hf Hsp Hc Hh HB.
  destruct (ceil_div_spec (Datatypes.length fileContent) batchSize HB) as [Hup Hleast].
  destruct (handleBatchImportRequest_chunks server this EOL uriPath config header filePath
              batchSize w content first fileContent cfg hdr Ha Hne Ht Hf Hsp Hc Hh HB)
    as (chunks & jobId & w' & Hi & Htr & Hlen & Hb).
  exists chunks,
    (map (fun j => firstn batchSize (skipn (j * batchSize) fileContent))
         (seq 0 (Datatypes.length chunks))),
    jobId, w'.
  split; [exact Hi|]. split; [exact Htr|].
  split; [exact (batches_from_payloads _ _ _ _ _ _ _ _ _ Hb)|].
  rewrite Hlen. split.
  - now rewrite (slices_from fileContent batchSize _ 0) by (simpl; lia).
  - apply Forall_forall. intros sl Hin. apply in_map_iff in Hin.
    destruct Hin as (i & <- & Hi'). apply in_seq in Hi'.
    rewrite length_firstn, length_skipn.
    assert (i * batchSize < Datatypes.length fileContent)%nat.
    { destruct (Nat.le_gt_cases (Datatypes.length fileContent) (i * batchSize)) as [Hle|Hlt];
        [|exact Hlt].
      specialize (Hleast i Hle). lia. }
    lia.
Qed.

Lemma batches_cover_every_line_witness :
  exists chunks slices w',
    handleBatchImportRequest batch_server demo_credentials [10%N] (js "/import") 1 0
                             (js "rows.csv") 2 demo_world
    = (Ok (JStr (js "77")), w')
    /\ trace w' = chunk_events chunks
    /\ List.concat slices = [js "1,a"; js "2,b"; js "3,c"]
    /\ Forall (fun sl => (1 <= Datatypes.length sl <= 2)%nat) slices.
Proof.
  destruct (batches_cover_every_line batch_server demo_credentials [10%N] (js "/import")
              1%nat 0%nat (js "rows.csv") 2%nat demo_world
              (Buffer_from (js "id,name" ++ [10%N] ++ js "1,a" ++ [10%N] ++ js "2,b"
                               ++ [10%N] ++ js "3,c"))
              (js "id,name") [js "1,a"; js "2,b"; js "3,c"] demo_config demo_header)
    as (chunks & slices & jobId & w' & Hrun & Htr & _ & Hcat & Hlen).
  - intros tr q. unfold batch_server.
    destruct (Nat.even (exchanges tr)); eexists; split; vm_compute; reflexivity.
  - discriminate.
  - reflexivity.
  - reflexivity.
  - vm_compute; reflexivity.
  - reflexivity.
  - reflexivity.
  - lia.
  - exists chunks, slices, w'. split; [|split; [exact Htr|split; [exact Hcat|exact Hlen]]].
    rewrite Hrun. f_equal. f_equal.
    assert (E : fst (handleBatchImportRequest batch_server demo_credentials [10%N]
                       (js "/import") 1 0 (js "rows.csv") 2 demo_world)
                = Ok (JStr (js "77"))) by (vm_compute; reflexivity).
    rewrite Hrun in E. cbn [fst] in E. now injection E.
Defined.

(** X17: a batch import that cannot go on stops at once.  When the file
    is not there, nothing is sent and nothing is written to the caller's
    objects.  When the upstream rejects the first batch with a code other
    than the expiry code, the import throws what it was rejected with
    after that one request, however many batches the file has. *)
Theorem batch_import_stops_at_first_failure :
  (forall server this EOL uriPath config header filePath batchSize w,
      find_file filePath (files w) = None ->
      handleBatchImportRequest server this EOL uriPath config header filePath batchSize w
      = (Throw (Value (file_error filePath)), w))
  /\
  (forall server this EOL uriPath config header filePath batchSize
          w content first fileContent cfg hdr err code,
      config <> header ->
      nullish (accessToken w) = false ->
      find_file filePath (files w) = Some content ->
      split EOL (Buffer_toString content) = first :: fileContent ->
      nth_error (store w) config = Some cfg ->
      nth_error (store w) header = Some hdr ->
      (1 <= batchSize)%nat ->
      fileContent <> [] ->
      (forall q, batch_result (server (trace w) q) = Ok (Rejected err)) ->
      get_prop err (js "errorCode") = Some code ->
      is_expiry_code code = false ->
      exists q w',
        handleBatchImportRequest server this EOL uriPath config header filePath batchSize w
        = (Throw (Value err), w')
        /\ trace w' = trace w ++ [Exchange q (server (trace w) q)]
        /\ method q = js "POST").
Proof.
  split.
  - intros server this EOL uriPath config header filePath batchSize w Hf.
    unfold handleBatchImportRequest, bind, readFileSync. now rewrite Hf.
  - intros server this EOL uriPath config header filePath batchSize
           w content first fileContent cfg hdr err code
           Hne Htok Hf Hsp Hc Hh HB Hn Hd Hcode Hx.
    rewrite (handleBatchImportRequest_start server this EOL uriPath config header filePath
               batchSize w content first fileContent cfg hdr Hne Hf Hsp Hc Hh HB).
    assert (HN : (1 <= Datatypes.length fileContent)%nat)
      by (destruct fileContent; [congruence | simpl; lia]).
    pose proof (ceil_div_positive _ _ HB HN) as Hpos.
    destruct (ceil_div (Datatypes.length fileContent) batchSize) as [|k] eqn:Ek; [lia|].
    cbn [import_batches].
    set (w1' := mkWorld (accessToken w) _ (trace w) (files w)).
    assert (Hc1 : nth_error (store w1') config
                  = Some (obj_set (js "batchKey") (JStr (js "start")) cfg)).
    { unfold w1'. cbn [store]. rewrite nth_error_replace_nth_neq by congruence.
      now apply nth_error_replace_nth_eq with (y := cfg). }
    assert (Hh1 : nth_error (store w1') header
                  = Some (obj_set (js "User-Agent")
                            (JStr (js "Analytics NodeJS Client v" ++ clientVersion)) hdr)).
    { unfold w1'. cbn [store]. apply nth_error_replace_nth_eq with (y := hdr).
      now rewrite nth_error_replace_nth_neq by exact Hne. }
    destruct (import_batch_rejected server this EOL uriPath (first ++ EOL) fileContent
                batchSize (S k) config header O w1' _ _ err code
                Hne Htok Hc1 Hh1 Hd Hcode Hx) as (q & w' & Hrun & Htr & Hm & _).
    exists q, w'. rewrite (bind_Throw _ _ _ _ _ Hrun). cbn [trace w1'] in Htr.
    repeat split; assumption.
Qed.

Lemma batch_import_stops_at_first_failure_witness :
  fst (handleBatchImportRequest (always not_found) demo_credentials [10%N] (js "/import")
                                1 0 (js "rows.csv") 1 demo_world)
  = Throw (Value other_error)
  /\ exchanges (trace (snd (handleBatchImportRequest
                              (always not_found) demo_credentials [10%N] (js "/import")
                              1 0 (js "rows.csv") 1 demo_world))) = 1%nat.
Proof.
  destruct (proj2 batch_import_stops_at_first_failure
              (always not_found) demo_credentials [10%N] (js "/import")
              1%nat 0%nat (js "rows.csv") 1%nat demo_world
              (Buffer_from (js "id,name" ++ [10%N] ++ js "1,a" ++ [10%N] ++ js "2,b"
                               ++ [10%N] ++ js "3,c"))
              (js "id,name") [js "1,a"; js "2,b"; js "3,c"] demo_config demo_header
              other_error (JNum 7103))
    as (q & w' & Hrun & Htr & _).
  - discriminate.
  - reflexivity.
  - reflexivity.
  - vm_compute; reflexivity.
  - reflexivity.
  - reflexivity.
  - lia.
  - discriminate.
  - intros q. vm_compute; reflexivity.
  - reflexivity.
  - reflexivity.
  - rewrite Hrun. cbn [fst snd]. split; [reflexivity|].
    rewrite Htr. reflexivity.
Defined.

(** X18: a batch import does not get over an expired token.  When the
    first batch is rejected with the expiry code, the token is fetched
    and the batch is sent once more with the new token; but what the
    second reply gives is not kept, and the import throws a TypeError
    after these three exchanges, with no pause and no further batch. *)
Theorem batch_import_fails_after_expiry :
  forall server this EOL uriPath config header filePath batchSize
         w content first fileContent cfg hdr err code p t d,
    config <> header ->
    nullish (accessToken w) = false ->
    find_file filePath (files w) = Some content ->
    split EOL (Buffer_toString content) = first :: fileContent ->
    nth_error (store w) config = Some cfg ->
    nth_error (store w) header = Some hdr ->
    (1 <= batchSize)%nat ->
    fileContent <> [] ->
    (forall q, batch_result (server (trace w) q) = Ok (Rejected err)) ->
    get_prop err (js "errorCode") = Some code ->
    is_expiry_code code = true ->
    querystring_stringify
      (oauthinfo (clientId this) (clientSecret this) (refreshToken this)) = Some p ->
    (forall tr q, exchanges tr = S (exchanges (trace w)) ->
                  oauth_result (server tr q) = Ok (Fulfilled t)) ->
    (forall tr q, exchanges tr = S (S (exchanges (trace w))) ->
                  batch_result (server tr q) = Ok (Fulfilled d)) ->
    exists q1 r1 ro q2 r2 w',
      handleBatchImportRequest server this EOL uriPath config header filePath batchSize w
      = (Throw TypeError, w')
      /\ trace w' = trace w ++ [Exchange q1 r1; Exchange (oauth_request p) ro;
                                Exchange q2 r2]
      /\ url q2 = url q1 /\ payload q2 = payload q1
      /\ lookup (js "Authorization") (headers q2)
         = Some (JStr (js "Zoho-oauthtoken " ++ ToString t))
      /\ accessToken w' = t.
Proof.
  intros server this EOL uriPath config header filePath batchSize
         w content first fileContent cfg hdr err code p t d
         Hne Htok Hf Hsp Hc Hh HB Hn Hd Hcode Hx Hp Ho Hd2.
  rewrite (handleBatchImportRequest_start server this EOL uriPath config header filePath
             batchSize w content first fileContent cfg hdr Hne Hf Hsp Hc Hh HB).
  assert (HN : (1 <= Datatypes.length fileContent)%nat)
    by (destruct fileContent; [congruence | simpl; lia]).
  pose proof (ceil_div_positive _ _ HB HN) as Hpos.
  destruct (ceil_div (Datatypes.length fileContent) batchSize) as [|k] eqn:Ek; [lia|].
  cbn [import_batches].
  set (w1' := mkWorld (accessToken w) _ (trace w) (files w)).
  assert (Hc1 : nth_error (store w1') config
                = Some (obj_set (js "batchKey") (JStr (js "start")) cfg)).
  { unfold w1'. cbn [store]. rewrite nth_error_replace_nth_neq by congruence.
    now apply nth_error_replace_nth_eq with (y := cfg). }
  assert (Hh1 : nth_error (store w1') header
                = Some (obj_set (js "User-Agent")
                          (JStr (js "Analytics NodeJS Client v" ++ clientVersion)) hdr)).
  { unfold w1'. cbn [store]. apply nth_error_replace_nth_eq with (y := hdr).
    now rewrite nth_error_replace_nth_neq by exact Hne. }
  destruct (import_batch_expired server this EOL uriPath (first ++ EOL) fileContent
              batchSize (S k) config header O w1' _ _ err code p t d
              Hne Htok Hc1 Hh1 Hd Hcode Hx Hp Ho Hd2)
    as (q1 & r1 & ro & q2 & r2 & w' & Hrun & Htr & Hu & Hpl & Ha & Hta).
  exists q1, r1, ro, q2, r2, w'. rewrite (bind_Throw _ _ _ _ _ Hrun).
  cbn [trace w1'] in Htr. repeat split; assumption.
Qed.

Lemma batch_import_fails_after_expiry_witness :
  fst (handleBatchImportRequest (scripted [expired; token_reply; json_reply 200
                                   (envelope "success"
                                      (JObj [(js "batchKey", JStr (js "k1"));
                                             (js "jobId", JStr (js "77"))]))])
                                demo_credentials [10%N] (js "/import")
                                1 0 (js "rows.csv") 3 demo_world)
  = Throw TypeError.
Proof.
  destruct (batch_import_fails_after_expiry
              (scripted [expired; token_reply; json_reply 200
                           (envelope "success"
                              (JObj [(js "batchKey", JStr (js "k1"));
                                     (js "jobId", JStr (js "77"))]))])
              demo_credentials [10%N] (js "/import")
              1%nat 0%nat (js "rows.csv") 3%nat demo_world
              (Buffer_from (js "id,name" ++ [10%N] ++ js "1,a" ++ [10%N] ++ js "2,b"
                               ++ [10%N] ++ js "3,c"))
              (js "id,name") [js "1,a"; js "2,b"; js "3,c"] demo_config demo_header
              expiry_error (JNum 8535)
              (js "client_id=1000.ABC&client_secret=secret&refresh_token=1000.refresh&grant_type=refresh_token")
              (JStr (js "tokNew"))
              (JObj [(js "batchKey", JStr (js "k1")); (js "jobId", JStr (js "77"))]))
    as (q1 & r1 & ro & q2 & r2 & w' & Hrun & _).
  - discriminate.
  - reflexivity.
  - reflexivity.
  - vm_compute; reflexivity.
  - reflexivity.
  - reflexivity.
  - lia.
  - discriminate.
  - intros q. vm_compute; reflexivity.
  - reflexivity.
  - reflexivity.
  - vm_compute; reflexivity.
  - intros tr q Hl. unfold scripted. rewrite Hl. vm_compute; reflexivity.
  - intros tr q Hl. unfold scripted. rewrite Hl. vm_compute; reflexivity.
  - now rewrite Hrun.
Defined.

Section ImportFacts.
Variable server : upstream.
Variable this : credentials.

(** The start of a sender: the header stamped, the config read and the
    path made. *)
Lemma sendImportRequest_missing uriPath config header filePath w hdr cfg :
  nth_error (store w) header = Some hdr ->
  config_of w header hdr config = Some cfg ->
  find_file filePath (files w) = None ->
  sendImportRequest server uriPath config header filePath None w
  = (Ok (Rejected (file_error filePath)),
     mkWorld (accessToken w) (replace_nth header (stamp (accessToken w) hdr) (store w))
             (trace w) (files w)).
Proof.
  intros Hh Hc Hf. unfold sendImportRequest.
  rewrite (bind_Ok _ _ _ _ _ (stamp_headers_eq _ _ _ Hh)).
  assert (Hr : read_config config
                 (mkWorld (accessToken w)
                          (replace_nth header (stamp (accessToken w) hdr) (store w))
                          (trace w) (files w))
               = (Ok cfg, mkWorld (accessToken w)
                          (replace_nth header (stamp (accessToken w) hdr) (store w))
                          (trace w) (files w))).
  { unfold config_of in Hc. destruct config as [c|]; simpl.
    - unfold bind, read_obj, ret. simpl.
      destruct (nth_error _ c); inversion Hc; reflexivity.
    - inversion Hc; reflexivity. }
  rewrite (bind_Ok _ _ _ _ _ Hr).
  assert (Hp : exists path, config_path_always uriPath cfg = Some path).
  { destruct cfg as [o|]; cbn [config_path_always]; [|eexists; reflexivity].
    destruct (encodedConfig_total o) as [e ->]. eexists; reflexivity. }
  destruct Hp as [path Hp]. rewrite Hp. unfold or_throw.
  rewrite (bind_Ok _ _ _ _ _ (eq_refl : ret path _ = (Ok path, _))).
  cbn [files]. now rewrite Hf.
Qed.

Lemma sendImportRequest_data uriPath config header filePath d w hdr cfg path :
  nth_error (store w) header = Some hdr ->
  config_of w header hdr config = Some cfg ->
  config_path_always uriPath cfg = Some path ->
  let hdr' := obj_set (js "Content-Type") (JStr (js "application/x-www-form-urlencoded"))
                      (stamp (accessToken w) hdr) in
  let q := mkRequest (js "https://" ++ analyticsURI ++ path) (js "POST") hdr'
                     (FormField (js "DATA") d) in
  sendImportRequest server uriPath config header filePath (Some d) w
  = (batch_result (server (trace w) q),
     mkWorld (accessToken w) (replace_nth header hdr' (store w))
             (trace w ++ [Exchange q (server (trace w) q)]) (files w)).
Proof.
  intros Hh Hc Hp hdr' q. unfold sendImportRequest.
  rewrite (bind_Ok _ _ _ _ _ (stamp_headers_eq _ _ _ Hh)).
  assert (Hr : read_config config
                 (mkWorld (accessToken w)
                          (replace_nth header (stamp (accessToken w) hdr) (store w))
                          (trace w) (files w))
               = (Ok cfg, mkWorld (accessToken w)
                          (replace_nth header (stamp (accessToken w) hdr) (store w))
                          (trace w) (files w))).
  { unfold config_of in Hc. destruct config as [c|]; simpl.
    - unfold bind, read_obj, ret. simpl.
      destruct (nth_error _ c); inversion Hc; reflexivity.
    - inversion Hc; reflexivity. }
  rewrite (bind_Ok _ _ _ _ _ Hr). rewrite Hp. unfold or_throw.
  rewrite (bind_Ok _ _ _ _ _ (eq_refl : ret path _ = (Ok path, _))).
  unfold bind, set_prop, read_obj, exchange, lift. cbn [store trace accessToken files].
  rewrite (nth_error_replace_nth_eq _ _ _ _ Hh). cbn [store trace accessToken files].
  rewrite replace_nth_twice.
  rewrite (nth_error_replace_nth_eq _ _ _ _ Hh). reflexivity.
Qed.
End ImportFacts.

(** A [config] that is [null] or an object of the store can be read,
    whatever the header has become. *)
Lemma config_of_defined w header hdr config :
  (forall c, config = Some c -> (c < Datatypes.length (store w))%nat) ->
  exists cfg, config_of w header hdr config = Some cfg.
Proof.
  intros H. unfold config_of. destruct config as [c|]; [|eexists; reflexivity].
  destruct (nth_error (replace_nth header (stamp (accessToken w) hdr) (store w)) c)
    as [o|] eqn:E; [eexists; reflexivity|].
  apply nth_error_None in E. rewrite replace_nth_length in E.
  specialize (H c eq_refl). lia.
Qed.

(** X19: an import from a file that is not there does not send the
    import: [sendImportRequest] rejects with the error of the file
    system, which has no [errorCode], so [handleImportRequest] throws it
    at once, and no file is written.  With a token in the client nothing
    at all is exchanged.  With none, the token is fetched before the
    file is looked at: the one exchange of the token request is made and
    the token is stored, and then the same error is thrown. *)
Theorem import_of_missing_file_sends_nothing :
  forall server this uriPath config header filePath w hdr,
    nth_error (store w) header = Some hdr ->
    (forall c, config = Some c -> (c < Datatypes.length (store w))%nat) ->
    find_file filePath (files w) = None ->
    (nullish (accessToken w) = false ->
     exists w',
       handleImportRequest server this uriPath config header filePath None w
       = (Throw (Value (file_error filePath)), w')
       /\ trace w' = trace w
       /\ accessToken w' = accessToken w
       /\ files w' = files w)
    /\ (forall t w1,
           nullish (accessToken w) = true ->
           getOauth server this w = (Ok (Fulfilled t), w1) ->
           exists p w',
             handleImportRequest server this uriPath config header filePath None w
             = (Throw (Value (file_error filePath)), w')
             /\ trace w' = trace w ++ [Exchange (oauth_request p)
                                                (server (trace w) (oauth_request p))]
             /\ accessToken w' = t
             /\ files w' = files w).
Proof.
  intros server this uriPath config header filePath w hdr Hh Hc Hf. split.
  - intros Ht. destruct (config_of_defined w header hdr config Hc) as [cfg Hcfg].
    eexists. split.
    + unfold handleImportRequest.
      rewrite (bind_Ok _ _ _ _ _ (ensure_token_cached server this w Ht)).
      rewrite (bind_Ok _ _ _ _ _
                 (sendImportRequest_missing server uriPath config header filePath w hdr cfg
                    Hh Hcfg Hf)).
      reflexivity.
    + repeat split.
  - intros t w1 Ht Hg.
    destruct (getOauth_settled server this w _ w1 Hg) as (p & Htr & _ & Hst & Hfi).
    assert (Hh1 : nth_error (store (with_token t w1)) header = Some hdr)
      by (cbn [with_token store]; now rewrite Hst).
    assert (Hc1 : forall c, config = Some c ->
                            (c < Datatypes.length (store (with_token t w1)))%nat)
      by (cbn [with_token store]; now rewrite Hst).
    assert (Hf1 : find_file filePath (files (with_token t w1)) = None)
      by (cbn [with_token files]; now rewrite Hfi).
    destruct (config_of_defined (with_token t w1) header hdr config Hc1) as [cfg Hcfg].
    exists p. eexists. split.
    + unfold handleImportRequest.
      rewrite (bind_Ok _ _ _ _ _ (ensure_token_fetch server this w t w1 Ht Hg)).
      rewrite (bind_Ok _ _ _ _ _
                 (sendImportRequest_missing server uriPath config header filePath
                    (with_token t w1) hdr cfg Hh1 Hcfg Hf1)).
      reflexivity.
    + cbn [trace accessToken files with_token]. repeat split; assumption.
Qed.

Lemma import_of_missing_file_sends_nothing_witness :
  handleImportRequest (always view_reply) demo_credentials (js "/import") (Some 1%nat) 0
                      (js "nofile.csv") None demo_world
  = (Throw (Value (file_error (js "nofile.csv"))),
     mkWorld (JStr (js "tokOld")) [stamp (JStr (js "tokOld")) demo_header; demo_config]
             [] (files demo_world))
  /\ exchanges (trace (snd (handleImportRequest (always token_reply) demo_credentials
                              (js "/import") None 0 (js "nofile.csv") None fresh_world)))
     = 1%nat.
Proof.
  split.
  - assert (Hc : forall c, Some 1%nat = Some c ->
                           (c < Datatypes.length (store demo_world))%nat)
      by (intros c [= <-]; cbn; lia).
    destruct (proj1 (import_of_missing_file_sends_nothing (always view_reply)
                       demo_credentials (js "/import") (Some 1%nat) 0%nat (js "nofile.csv")
                       demo_world demo_header eq_refl Hc eq_refl) eq_refl)
      as (w' & H & _).
    rewrite H. f_equal.
    assert (E : snd (handleImportRequest (always view_reply) demo_credentials (js "/import")
                       (Some 1%nat) 0 (js "nofile.csv") None demo_world)
                = mkWorld (JStr (js "tokOld"))
                          [stamp (JStr (js "tokOld")) demo_header; demo_config]
                          [] (files demo_world)) by (vm_compute; reflexivity).
    rewrite H in E. exact E.
  - assert (Hc : forall c, @None nat = Some c ->
                           (c < Datatypes.length (store fresh_world))%nat)
      by (intros c; discriminate).
    destruct (proj2 (import_of_missing_file_sends_nothing (always token_reply)
                       demo_credentials (js "/import") None 0%nat (js "nofile.csv")
                       fresh_world demo_header eq_refl Hc eq_refl)
                (JStr (js "tokNew"))
                (snd (getOauth (always token_reply) demo_credentials fresh_world))
                eq_refl eq_refl)
      as (p & w' & H & Htr & _).
    rewrite H. cbn [snd]. rewrite Htr. reflexivity.
Defined.

(** X20: an import of raw data posts the text in the form field [DATA],
    on the path with the [CONFIG] parameter (which is there for every
    [config] that is not [null]); and it writes [Content-Type] into the
    caller's [header] object, where it stays after the call. *)
Theorem raw_import_request :
  forall server uriPath config header filePath d w hdr cfg,
    nth_error (store w) header = Some hdr ->
    config_of w header hdr config = Some (Some cfg) ->
    exists e q w',
      encodedConfig cfg = Some e
      /\ sendImportRequest server uriPath config header filePath (Some d) w
         = (batch_result (server (trace w) q), w')
      /\ trace w' = trace w ++ [Exchange q (server (trace w) q)]
      /\ url q = js "https://analyticsapi.zoho.com" ++ uriPath ++ js "?CONFIG=" ++ e
      /\ method q = js "POST"
      /\ payload q = FormField (js "DATA") d
      /\ lookup (js "Content-Type") (headers q)
         = Some (JStr (js "application/x-www-form-urlencoded"))
      /\ nth_error (store w') header = Some (headers q).
Proof.
  intros server uriPath config header filePath d w hdr cfg Hh Hc.
  destruct (encodedConfig_total cfg) as [e He].
  assert (Hp : config_path_always uriPath (Some cfg)
               = Some (uriPath ++ js "?CONFIG=" ++ e)).
  { cbn [config_path_always]. now rewrite He. }
  exists e. eexists. eexists. split; [exact He|]. split.
  - exact (sendImportRequest_data server uriPath config header filePath d w hdr
             (Some cfg) _ Hh Hc Hp).
  - cbn [trace url method payload headers store].
    split; [reflexivity|]. split; [reflexivity|]. split; [reflexivity|].
    split; [reflexivity|]. split; [apply lookup_obj_set_eq|].
    now apply nth_error_replace_nth_eq with (y := hdr).
Qed.

Lemma raw_import_request_witness :
  exists q r,
    trace (snd (sendImportRequest (always view_reply) (js "/import") (Some 1%nat) 0
                                  [] (Some (js "id,name")) demo_world))
    = [Exchange q r]
    /\ payload q = FormField (js "DATA") (js "id,name").
Proof.
  destruct (raw_import_request (always view_reply) (js "/import") (Some 1%nat) 0%nat
              [] (js "id,name") demo_world demo_header demo_config eq_refl eq_refl)
    as (e & q & w' & _ & Hs & Ht & _ & _ & Hp & _).
  exists q. eexists. rewrite Hs. cbn [snd]. rewrite Ht. split; [reflexivity | exact Hp].
Defined.

Lemma lookup_obj_set_other k k' v o : k' <> k -> lookup k' (obj_set k v o) = lookup k' o.
Proof.
  intros H. apply lookup_obj_set_neq.
  destruct (jstring_eqb k k') eqn:E; [|reflexivity].
  apply jstring_eqb_eq in E. congruence.
Qed.

Section BatchOptions.
Variable server : upstream.
Variable this : credentials.
Variable EOL : jstring.
Variables uriPath fileHeader : jstring.
Variable fileContent : list jstring.
Variables batchSize totalBatchCount : nat.
Hypothesis Haccepts : accepts server.

Lemma import_batch_options config header i w cfg hdr cfg0 :
  config <> header ->
  nullish (accessToken w) = false ->
  nth_error (store w) config = Some cfg ->
  nth_error (store w) header = Some hdr ->
  same_options cfg0 cfg ->
  exists q jobId cfgq cfg' hdr' w',
    import_batch server this EOL uriPath config header fileHeader fileContent
                 batchSize totalBatchCount i w = (Ok jobId, w')
    /\ trace w' = trace w ++ [Exchange q (server (trace w) q); Sleep 2000]
    /\ config_sent uriPath q cfgq /\ same_options cfg0 cfgq
    /\ accessToken w' = accessToken w
    /\ nth_error (store w') config = Some cfg'
    /\ nth_error (store w') header = Some hdr'
    /\ same_options cfg0 cfg'.
Proof.
  intros Hne Htok Hcfg Hhdr Hsame.
  set (cfg1 := obj_set (js "isLastBatch") (isLastBatch totalBatchCount i) cfg).
  destruct (encodedConfig_total cfg1) as [e He].
  set (hdr1 := obj_set (js "Authorization")
                       (JStr (js "Zoho-oauthtoken " ++ ToString (accessToken w))) hdr).
  set (u := js "https://" ++ analyticsURI ++ uriPath ++ js "?" ++ js "CONFIG"
               ++ js "=" ++ e).
  set (batch := fileHeader
                  ++ join EOL (firstn (batchSize + i * batchSize - batchSize * i)
                                      (skipn (batchSize * i) fileContent))).
  set (q := mkRequest u (js "POST") hdr1
                      (FormFile (js "FILE") (js "batch.csv") (Buffer_from batch))).
  destruct (Haccepts (trace w) q) as (d & Hd & Hnd).
  assert (Hk : exists key', get_prop d (js "batchKey") = Some key')
    by (destruct d; try discriminate; eexists; reflexivity).
  destruct Hk as [key' Hk'].
  assert (Hj : exists j, get_prop d (js "jobId") = Some j)
    by (destruct d; try discriminate; eexists; reflexivity).
  destruct Hj as [j Hj'].
  assert (Hs1 : same_options cfg0 cfg1).
  { intros k H1 H2. unfold cfg1. rewrite lookup_obj_set_other by congruence.
    now apply Hsame. }
  exists q, j, cfg1, (obj_set (js "batchKey") key' cfg1), hdr1.
  eexists. split.
  - unfold import_batch, sendBatchImportRequest, ensure_token, bind, set_prop,
      read_obj, or_throw, ret, get_accessToken, exchange, lift, log_event.
    fold (isLastBatch totalBatchCount i).
    cbn [store trace accessToken files].
    rewrite Hcfg. fold cfg1. cbn [store trace accessToken files].
    rewrite (nth_error_replace_nth_eq _ _ _ _ Hcfg).
    rewrite He. cbn [store trace accessToken files]. rewrite Htok.
    cbn [store trace accessToken files].
    rewrite (nth_error_replace_nth_neq _ _ _ _ Hne). rewrite Hhdr. fold hdr1.
    cbn [store trace accessToken files].
    rewrite nth_error_replace_nth_eq with (y := hdr)
      by (rewrite nth_error_replace_nth_neq by exact Hne; exact Hhdr).
    fold u. fold batch. fold q. cbn [store trace accessToken files].
    rewrite Hd. rewrite Hk'.
    cbn [store trace accessToken files].
    rewrite nth_error_replace_nth_neq by congruence.
    rewrite (nth_error_replace_nth_eq _ _ _ _ Hcfg).
    rewrite Hj'.
    cbn [store trace accessToken files].
    reflexivity.
  - cbn [trace accessToken store].
    split; [now rewrite <- app_assoc|].
    split; [exists e; split; [exact He | reflexivity]|].
    split; [exact Hs1|].
    split; [reflexivity|].
    split.
    { apply nth_error_replace_nth_eq with (y := cfg1).
      rewrite nth_error_replace_nth_neq by congruence.
      now apply nth_error_replace_nth_eq with (y := cfg). }
    split.
    { rewrite nth_error_replace_nth_neq by exact Hne.
      apply nth_error_replace_nth_eq with (y := hdr).
      rewrite nth_error_replace_nth_neq by exact Hne. exact Hhdr. }
    intros k H1 H2. rewrite lookup_obj_set_other by congruence. now apply Hs1.
Qed.

Lemma import_batches_options config header cfg0 :
  config <> header ->
  forall remaining i w cfg hdr jobId,
    nullish (accessToken w) = false ->
    nth_error (store w) config = Some cfg ->
    nth_error (store w) header = Some hdr ->
    same_options cfg0 cfg ->
    exists chunks jobId' w',
      import_batches server this EOL uriPath config header fileHeader fileContent
                     batchSize totalBatchCount remaining i jobId w = (Ok jobId', w')
      /\ trace w' = trace w ++ chunk_events chunks
      /\ Datatypes.length chunks = remaining
      /\ Forall (fun c => exists cfgq, config_sent uriPath (fst c) cfgq
                                       /\ same_options cfg0 cfgq) chunks.
Proof.
  intros Hne. induction remaining as [|k IH]; intros i w cfg hdr jobId Htok Hcfg Hhdr Hs.
  - exists [], jobId, w. cbn. rewrite app_nil_r. auto.
  - destruct (import_batch_options config header i w cfg hdr cfg0 Hne Htok Hcfg Hhdr Hs)
      as (q & j & cfgq & cfg' & hdr' & w1 & Hrun & Htr & Hq & Hsq & Ht1 & Hc1 & Hh1 & Hs1).
    assert (Htok1 : nullish (accessToken w1) = false) by (rewrite Ht1; exact Htok).
    destruct (IH (S i) w1 cfg' hdr' j Htok1 Hc1 Hh1 Hs1)
      as (chunks & j' & w' & Hrun' & Htr' & Hlen & Hbs).
    exists ((q, server (trace w) q) :: chunks), j', w'.
    split; [cbn [import_batches]; rewrite (bind_Ok _ _ _ _ _ Hrun); exact Hrun'|].
    split; [rewrite Htr', Htr; cbn [chunk_events flat_map fst snd];
            now rewrite <- app_assoc|].
    split; [cbn; now rewrite Hlen|].
    constructor; [|exact Hbs]. exists cfgq. now split.
Qed.
End BatchOptions.

(** X24: [BulkAPI.importDataInNewTableAsBatches] with a token, a file of
    a header line and more lines, a batch size of at least 1 and an
    upstream that takes every batch: the import goes to the path
    [/data/batch] of the workspace in as many requests as there are
    batches, and the [CONFIG] of every one of them carries the table name
    and [autoIdentify] as they were given, beside whatever the caller's
    [config] had. *)
Theorem batches_carry_table_options :
  forall server this EOL bulkUriPath header tableName autoIdentify filePath batchSize
         c w content first fileContent cfg hdr,
    accepts server ->
    c <> header ->
    nullish (accessToken w) = false ->
    find_file filePath (files w) = Some content ->
    split EOL (Buffer_toString content) = first :: fileContent ->
    nth_error (store w) c = Some cfg ->
    nth_error (store w) header = Some hdr ->
    (1 <= batchSize)%nat ->
    exists chunks jobId w',
      BulkAPI.importDataInNewTableAsBatches server this EOL bulkUriPath header
        tableName autoIdentify filePath batchSize (Some c) w = (Ok jobId, w')
      /\ trace w' = trace w ++ chunk_events chunks
      /\ Datatypes.length chunks = ceil_div (Datatypes.length fileContent) batchSize
      /\ Forall (fun ch =>
                   exists cfgq,
                     config_sent (bulkUriPath ++ js "/data/batch") (fst ch) cfgq
                     /\ lookup (js "tableName") cfgq = Some tableName
                     /\ lookup (js "autoIdentify") cfgq = Some autoIdentify
                     /\ forall k, k <> js "tableName" -> k <> js "autoIdentify" ->
                                  k <> js "isLastBatch" -> k <> js "batchKey" ->
                                  lookup k cfgq = lookup k cfg) chunks.
Proof.
  intros server this EOL bulkUriPath header tableName autoIdentify filePath batchSize
         c w content first fileContent cfg hdr Ha Hne Htok Hf Hsp Hc Hh HB.
  set (cfg0 := obj_set (js "autoIdentify") autoIdentify
                       (obj_set (js "tableName") tableName cfg)).
  set (w0 := mkWorld (accessToken w) (replace_nth c cfg0 (store w)) (trace w) (files w)).
  assert (Hrun : BulkAPI.importDataInNewTableAsBatches server this EOL bulkUriPath header
                   tableName autoIdentify filePath batchSize (Some c) w
                 = handleBatchImportRequest server this EOL (bulkUriPath ++ js "/data/batch")
                     c header filePath batchSize w0).
  { unfold BulkAPI.importDataInNewTableAsBatches, bind, default_config, ret, set_prop.
    rewrite Hc. cbn [store trace accessToken files].
    rewrite (nth_error_replace_nth_eq _ _ _ _ Hc). cbn [store trace accessToken files].
    now rewrite replace_nth_twice. }
  assert (Hc0 : nth_error (store w0) c = Some cfg0)
    by (unfold w0; cbn [store]; now apply nth_error_replace_nth_eq with (y := cfg)).
  assert (Hh0 : nth_error (store w0) header = Some hdr)
    by (unfold w0; cbn [store]; now rewrite nth_error_replace_nth_neq).
  rewrite Hrun.
  rewrite (handleBatchImportRequest_start server this EOL (bulkUriPath ++ js "/data/batch")
             c header filePath batchSize w0 content first fileContent cfg0 hdr
             Hne Hf Hsp Hc0 Hh0 HB).
  set (w1 := mkWorld _ _ _ _).
  destruct (import_batches_options server this EOL (bulkUriPath ++ js "/data/batch")
              (first ++ EOL) fileContent batchSize
              (ceil_div (Datatypes.length fileContent) batchSize) Ha c header cfg0 Hne
              (ceil_div (Datatypes.length fileContent) batchSize) O w1
              (obj_set (js "batchKey") (JStr (js "start")) cfg0)
              (obj_set (js "User-Agent")
                       (JStr (js "Analytics NodeJS Client v" ++ clientVersion)) hdr)
              JUndefined)
    as (chunks & jobId & w' & Hi & Htr & Hlen & Hall).
  - exact Htok.
  - unfold w1. cbn [store]. rewrite nth_error_replace_nth_neq by congruence.
    now apply nth_error_replace_nth_eq with (y := cfg0).
  - unfold w1. cbn [store]. apply nth_error_replace_nth_eq with (y := hdr).
    now rewrite nth_error_replace_nth_neq by exact Hne.
  - intros k H1 H2. now rewrite lookup_obj_set_other by congruence.
  - exists chunks, jobId, w'. split; [exact Hi|]. split; [exact Htr|].
    split; [exact Hlen|].
    eapply Forall_impl; [|exact Hall].
    intros ch (cfgq & Hq & Hs). exists cfgq. split; [exact Hq|].
    split; [|split].
    + rewrite Hs by (intros E; vm_compute in E; discriminate).
      unfold cfg0. rewrite lookup_obj_set_other
        by (intros E; vm_compute in E; discriminate).
      apply lookup_obj_set_eq.
    + rewrite Hs by (intros E; vm_compute in E; discriminate).
      apply lookup_obj_set_eq.
    + intros k K1 K2 K3 K4. rewrite Hs by assumption. unfold cfg0.
      now rewrite !lookup_obj_set_other by congruence.
Qed.

Lemma batches_carry_table_options_witness :
  exists chunks w',
    BulkAPI.importDataInNewTableAsBatches batch_server demo_credentials [10%N]
      (js "/restapi/v2/bulk/workspaces/123") 0 (JStr (js "Sales")) (JStr (js "true"))
      (js "rows.csv") 2 (Some 1%nat) demo_world = (Ok (JStr (js "77")), w')
    /\ trace w' = chunk_events chunks
    /\ Datatypes.length chunks = 2%nat.
Proof.
  destruct (batches_carry_table_options batch_server demo_credentials [10%N]
              (js "/restapi/v2/bulk/workspaces/123") 0%nat (JStr (js "Sales"))
              (JStr (js "true")) (js "rows.csv") 2%nat 1%nat demo_world
              (Buffer_from (js "id,name" ++ [10%N] ++ js "1,a" ++ [10%N] ++ js "2,b"
                               ++ [10%N] ++ js "3,c"))
              (js "id,name") [js "1,a"; js "2,b"; js "3,c"] demo_config demo_header)
    as (chunks & jobId & w' & Hrun & Htr & Hlen & _).
  - intros tr q. unfold batch_server.
    destruct (Nat.even (exchanges tr)); eexists; split; vm_compute; reflexivity.
  - discriminate.
  - reflexivity.
  - reflexivity.
  - vm_compute; reflexivity.
  - reflexivity.
  - reflexivity.
  - lia.
  - exists chunks, w'. split; [|split; [exact Htr | exact Hlen]].
    rewrite Hrun. f_equal. f_equal.
    assert (E : fst (BulkAPI.importDataInNewTableAsBatches batch_server demo_credentials
                       [10%N] (js "/restapi/v2/bulk/workspaces/123") 0 (JStr (js "Sales"))
                       (JStr (js "true")) (js "rows.csv") 2 (Some 1%nat) demo_world)
                = Ok (JStr (js "77"))) by (vm_compute; reflexivity).
    rewrite Hrun in E. cbn [fst] in E. now injection E.
Defined.

Lemma startsWith_app s p : startsWith s p = true -> exists r, s = p ++ r.
Proof.
  revert s. induction p as [|y p IH]; intros s H.
  - now exists s.
  - destruct s as [|x s]; [discriminate|]. cbn [startsWith] in H.
    apply andb_true_iff in H. destruct H as [Hx Hs]. apply N.eqb_eq in Hx. subst.
    destruct (IH _ Hs) as [r ->]. now exists r.
Qed.

Lemma split_from_skip sep t : forall cur r,
  r <> [] ->
  split_from sep (Datatypes.length t) cur (t ++ r) = split_from sep O cur r.
Proof.
  induction t as [|c t IH]; intros cur r Hr; [reflexivity|].
  cbn [Datatypes.length app split_from]. now apply IH.
Qed.

Lemma split_from_skip_all sep t cur :
  t <> [] -> split_from sep (Datatypes.length t) cur t = [rev cur].
Proof.
  revert cur. induction t as [|c t IH]; intros cur Ht; [congruence|].
  cbn [Datatypes.length split_from]. destruct t as [|d t]; [reflexivity|].
  apply IH. discriminate.
Qed.

Lemma split_from_nonempty sep : forall s skip cur, split_from sep skip cur s <> [].
Proof.
  induction s as [|c s IH]; intros skip cur; cbn [split_from]; [discriminate|].
  destruct skip; [|apply IH].
  destruct (startsWith (c :: s) sep); [discriminate | apply IH].
Qed.

Lemma join_cons sep x l : l <> [] -> join sep (x :: l) = x ++ sep ++ join sep l.
Proof. destruct l; [congruence | reflexivity]. Qed.

Lemma join_split_from sep :
  sep <> [] ->
  forall n s, (Datatypes.length s <= n)%nat ->
    forall cur, join sep (split_from sep O cur s) = rev cur ++ s.
Proof.
  intros Hsep. induction n as [|n IH]; intros s Hn cur.
  - destruct s; [|simpl in Hn; lia]. cbn. now rewrite app_nil_r.
  - destruct s as [|c s]; [cbn; now rewrite app_nil_r|].
    cbn [split_from].
    destruct (startsWith (c :: s) sep) eqn:E.
    + destruct (startsWith_app _ _ E) as [r Hr].
      destruct sep as [|y sep']; [congruence|].
      cbn [app] in Hr. injection Hr as <- ->.
      cbn [Datatypes.length Nat.pred].
      destruct r as [|d r].
      * rewrite app_nil_r.
        destruct sep' as [|z sep''].
        -- cbn. now rewrite ?app_nil_r.
        -- rewrite split_from_skip_all by discriminate. cbn. now rewrite ?app_nil_r.
      * rewrite split_from_skip by discriminate.
        rewrite join_cons by apply split_from_nonempty.
        rewrite IH.
        -- cbn [rev app]. reflexivity.
        -- simpl in Hn. rewrite length_app in Hn. simpl in Hn. simpl. lia.
    + rewrite IH by (simpl in Hn; lia). cbn [rev]. now rewrite <- app_assoc.
Qed.

(** X26: a file that fits in one batch goes out as it was read.  In a
    batch import with a line terminator that is not empty, a token
    cached and an upstream that takes the batch, when [split] leaves one
    piece at least after the header line and no more than the batch
    size, there is one chunk, and its body is the text of the file, the
    octets of the file read as UTF-8. *)
Theorem file_text_is_kept :
  forall server this EOL uriPath config header filePath batchSize
         w content first fileContent cfg hdr,
    accepts server ->
    config <> header ->
    nullish (accessToken w) = false ->
    find_file filePath (files w) = Some content ->
    split EOL (Buffer_toString content) = first :: fileContent ->
    nth_error (store w) config = Some cfg ->
    nth_error (store w) header = Some hdr ->
    EOL <> [] ->
    fileContent <> [] ->
    (Datatypes.length fileContent <= batchSize)%nat ->
    exists q r jobId w',
      handleBatchImportRequest server this EOL uriPath config header filePath batchSize w
      = (Ok jobId, w')
      /\ trace w' = trace w ++ [Exchange q r; Sleep 2000]
      /\ payload q
         = FormFile (js "FILE") (js "batch.csv") (Buffer_from (Buffer_toString content)).
Proof.
  intros server this EOL uriPath config header filePath batchSize
         w content first fileContent cfg hdr Ha Hne Ht Hf Hsp Hc Hh HE Hn HB.
  assert (HN : (1 <= Datatypes.length fileContent)%nat)
    by (destruct fileContent; [congruence | simpl; lia]).
  assert (H1 : (1 <= batchSize)%nat) by lia.
  destruct (ceil_div_spec (Datatypes.length fileContent) batchSize H1) as [Hup Hleast].
  assert (Hone : ceil_div (Datatypes.length fileContent) batchSize = 1%nat).
  { assert (ceil_div (Datatypes.length fileContent) batchSize <= 1)%nat
      by (apply Hleast; lia).
    destruct (ceil_div (Datatypes.length fileContent) batchSize) as [|[|k]];
      [simpl in Hup; lia | reflexivity | lia]. }
  assert (Hj : join EOL (split EOL (Buffer_toString content)) = Buffer_toString content).
  { unfold split. destruct EOL as [|e EOL']; [congruence|].
    now rewrite (join_split_from (e :: EOL') HE _ _ (le_n _) []). }
  assert (Hd : (first ++ EOL) ++ join EOL fileContent = Buffer_toString content).
  { transitivity (join EOL (split EOL (Buffer_toString content))); [|exact Hj].
    rewrite Hsp. rewrite join_cons by exact Hn. now rewrite <- app_assoc. }
  destruct (handleBatchImportRequest_chunks server this EOL uriPath config header filePath
              batchSize w content first fileContent cfg hdr Ha Hne Ht Hf Hsp Hc Hh H1)
    as (chunks & jobId & w' & Hi & Htr & Hlen & Hb).
  rewrite Hone in Hlen.
  destruct chunks as [|[q r] [|c chunks]]; try discriminate.
  exists q, r, jobId, w'. split; [exact Hi|]. split; [exact Htr|].
  pose proof (batches_from_payloads _ _ _ _ _ _ _ _ _ Hb) as Hp.
  cbn [Datatypes.length seq map] in Hp. inversion Hp as [|? ? ? ? Hq _]; subst.
  cbn [fst] in Hq. rewrite Hq. cbn [Nat.mul skipn].
  rewrite firstn_all2 by exact HB. now rewrite Hd.
Qed.

Lemma file_text_is_kept_witness :
  exists q r w',
    handleBatchImportRequest batch_server demo_credentials [10%N] (js "/import") 1 0
                             (js "rows.csv") 5 demo_world
    = (Ok (JStr (js "77")), w')
    /\ trace w' = [Exchange q r; Sleep 2000]
    /\ payload q
       = FormFile (js "FILE") (js "batch.csv")
                  (Buffer_from (js "id,name" ++ [10%N] ++ js "1,a" ++ [10%N] ++ js "2,b"
                                   ++ [10%N] ++ js "3,c")).
Proof.
  destruct (file_text_is_kept batch_server demo_credentials [10%N] (js "/import")
              1%nat 0%nat (js "rows.csv") 5%nat demo_world
              (Buffer_from (js "id,name" ++ [10%N] ++ js "1,a" ++ [10%N] ++ js "2,b"
                               ++ [10%N] ++ js "3,c"))
              (js "id,name") [js "1,a"; js "2,b"; js "3,c"] demo_config demo_header)
    as (q & r & jobId & w' & Hrun & Htr & Hp).
  - intros tr q. unfold batch_server.
    destruct (Nat.even (exchanges tr)); eexists; split; vm_compute; reflexivity.
  - discriminate.
  - reflexivity.
  - reflexivity.
  - vm_compute; reflexivity.
  - reflexivity.
  - reflexivity.
  - discriminate.
  - discriminate.
  - simpl; lia.
  - exists q, r, w'. split; [|split; [exact Htr|]].
    + rewrite Hrun. f_equal. f_equal.
      assert (E : fst (handleBatchImportRequest batch_server demo_credentials [10%N]
                         (js "/import") 1 0 (js "rows.csv") 5 demo_world)
                  = Ok (JStr (js "77"))) by (vm_compute; reflexivity).
      rewrite Hrun in E. cbn [fst] in E. now injection E.
    + rewrite Hp. vm_compute. reflexivity.
Defined.

(** ** Facades *)



Lemma js_well_typed (t : string) :
  forallb (fun c => (c <? 65536)%N) (js t) = true -> well_typed (js t).
Proof.
  intros Ht. apply Forall_forall. intros c Hc.
  rewrite forallb_forall in Ht. apply N.ltb_lt. now apply Ht.
Qed.

(** A call of [handleV2Request] with a token: its first exchange. *)
Lemma handleV2Request_cached_run server this uriPath method config header isExportReq
      w hdr cfg path :
  nullish (accessToken w) = false ->
  nth_error (store w) header = Some hdr ->
  config_of w header hdr config = Some cfg ->
  config_path uriPath cfg = Some path ->
  let q := v2_request uriPath method (accessToken w) hdr path in
  exists rest,
    trace (snd (handleV2Request server this uriPath method config header isExportReq w))
    = trace w ++ Exchange q (server (trace w) q) :: rest.
Proof.
  intros Ht Hh Hc Hp q.
  pose proof (sendV2Request_eq server uriPath method config header isExportReq w hdr cfg
                path Hh Hc Hp) as Hs.
  fold q in Hs.
  destruct (v2_result isExportReq (server (trace w) q)) as [p|e|e|] eqn:E.
  - rewrite (handleV2Request_first server this uriPath method config header isExportReq
               w w p _ (ensure_token_cached server this w Ht) Hs).
    destruct (after_first_attempt server this uriPath method config header isExportReq p
                (sent server w header hdr q)) as [res w'] eqn:Ea.
    destruct (after_first_attempt_extends _ _ _ _ _ _ _ _ _ _ _ Ea) as [rest Hr].
    exists rest. cbn [snd]. rewrite Hr. cbn [trace sent]. now rewrite <- app_assoc.
  - exists []. unfold handleV2Request.
    rewrite (bind_Ok _ _ _ _ _ (ensure_token_cached server this w Ht)).
    now rewrite (bind_Throw _ _ _ _ _ Hs).
  - exists []. unfold handleV2Request.
    rewrite (bind_Ok _ _ _ _ _ (ensure_token_cached server this w Ht)).
    now rewrite (bind_Uncaught _ _ _ _ _ Hs).
  - exists []. unfold handleV2Request.
    rewrite (bind_Ok _ _ _ _ _ (ensure_token_cached server this w Ht)).
    now rewrite (bind_Hang _ _ _ _ Hs).
Qed.

Lemma bind_trace {A B} (m : M world A) (k : A -> M world B) w a w1 :
  m w = (Ok a, w1) -> snd (bind m k w) = snd (k a w1).
Proof. intros H. now rewrite (bind_Ok _ _ _ _ _ H). Qed.

Lemma trace_bind_tail {A B} (m : M world A) (k : A -> M world B) w :
  exists w1, snd (m w) = w1
             /\ (trace (snd (bind m k w)) = trace w1
                 \/ exists a, m w = (Ok a, w1) /\ snd (bind m k w) = snd (k a w1)).
Proof.
  unfold bind. destruct (m w) as [[a|e|e|] w1]; exists w1; (split; [reflexivity|]);
    try (now left). right. now exists a.
Qed.

(** X21: [ViewAPI.deleteRow] called with no [config].  With [null] or the
    empty string for [criteria], the request is a DELETE on the rows of
    the view with no [CONFIG] parameter at all; with any other string the
    path has a [CONFIG] parameter, and what it reads back to is the one
    key [criteria] with that string. *)
Theorem deleteRow_criteria :
  forall server this uriPath header w hdr,
    nullish (accessToken w) = false ->
    nth_error (store w) header = Some hdr ->
    (forall criteria,
        criteria = None \/ criteria = Some [] ->
        let q := v2_request (uriPath ++ js "/rows") (js "DELETE") (accessToken w) hdr
                            (uriPath ++ js "/rows") in
        exists rest,
          trace (snd (ViewAPI.deleteRow server this uriPath header criteria None w))
          = trace w ++ Exchange q (server (trace w) q) :: rest)
    /\ (forall c s,
           well_typed (c :: s) -> ~ In 63%N uriPath ->
           exists path rest,
             let q := v2_request (uriPath ++ js "/rows") (js "DELETE") (accessToken w) hdr
                                 path in
             trace (snd (ViewAPI.deleteRow server this uriPath header (Some (c :: s))
                                           None w))
             = trace w ++ Exchange q (server (trace w) q) :: rest
             /\ upstream_config path = Some (JObj [(js "criteria", JStr (c :: s))])).
Proof.
  intros server this uriPath header w hdr Ht Hh.
  assert (Hlt : (header < Datatypes.length (store w))%nat)
    by (apply nth_error_Some; congruence).
  set (wa := mkWorld (accessToken w) (store w ++ [[]]) (trace w) (files w)).
  assert (Hha : nth_error (store wa) header = Some hdr).
  { unfold wa. cbn [store]. now rewrite nth_error_app1 by exact Hlt. }
  split.
  - intros criteria Hcr q.
    assert (Hrun : ViewAPI.deleteRow server this uriPath header criteria None w
                   = (result <- handleV2Request server this (uriPath ++ js "/rows")
                                  (js "DELETE") (Some (Datatypes.length (store w)))
                                  header false ;;
                      or_throw TypeError (get_prop result (js "deletedRows"))) wa).
    { unfold ViewAPI.deleteRow. destruct Hcr as [-> | ->]; reflexivity. }
    rewrite Hrun.
    assert (Hc : config_of wa header hdr (Some (Datatypes.length (store w)))
                 = Some (Some [])).
    { unfold config_of, wa. cbn [store accessToken].
      rewrite nth_error_replace_nth_neq by lia.
      rewrite nth_error_app2 by lia. now rewrite Nat.sub_diag. }
    destruct (handleV2Request_cached_run server this (uriPath ++ js "/rows") (js "DELETE")
                (Some (Datatypes.length (store w))) header false wa hdr (Some [])
                (uriPath ++ js "/rows") Ht Hha Hc eq_refl) as [rest Hr].
    destruct (trace_bind_tail
                (handleV2Request server this (uriPath ++ js "/rows") (js "DELETE")
                   (Some (Datatypes.length (store w))) header false)
                (fun result => or_throw TypeError (get_prop result (js "deletedRows"))) wa)
      as (w1 & Hw1 & [Hx|(a & Ha & Hx)]).
    + exists rest. rewrite Hx, <- Hw1. exact Hr.
    + exists rest. rewrite Hx.
      assert (Hq : forall o : option jsval, forall w0,
                 trace (snd (or_throw TypeError o w0)) = trace w0)
        by (intros [x|] w0; reflexivity).
      rewrite Hq, <- Hw1. exact Hr.
  - intros c s Hw Hq.
    set (cfg := [(js "criteria", JStr (c :: s))]).
    set (wb := mkWorld (accessToken w)
                 (replace_nth (Datatypes.length (store w)) cfg (store w ++ [[]]))
                 (trace w) (files w)).
    assert (Hrun : ViewAPI.deleteRow server this uriPath header (Some (c :: s)) None w
                   = (result <- handleV2Request server this (uriPath ++ js "/rows")
                                  (js "DELETE") (Some (Datatypes.length (store w)))
                                  header false ;;
                      or_throw TypeError (get_prop result (js "deletedRows"))) wb).
    { unfold ViewAPI.deleteRow, bind, default_config, alloc, set_prop.
      cbn [store trace accessToken files].
      rewrite nth_error_app2 by lia. now rewrite Nat.sub_diag. }
    rewrite Hrun.
    assert (Hhb : nth_error (store wb) header = Some hdr).
    { unfold wb. cbn [store]. rewrite nth_error_replace_nth_neq by lia.
      now rewrite nth_error_app1 by exact Hlt. }
    assert (Hc : config_of wb header hdr (Some (Datatypes.length (store w)))
                 = Some (Some cfg)).
    { unfold config_of, wb. cbn [store accessToken].
      rewrite nth_error_replace_nth_neq by lia.
      match goal with
      | |- match ?x with _ => _ end = _ => replace x with (Some cfg); [reflexivity|]
      end.
      symmetry. apply nth_error_replace_nth_eq with (y := []).
      rewrite nth_error_app2 by lia. now rewrite Nat.sub_diag. }
    destruct (encodedConfig_total cfg) as [e He].
    assert (Hsafe : json_safe (JObj cfg)).
    { constructor.
      - cbn. constructor; [intros []|constructor].
      - constructor; [|constructor]. cbn [fst snd]. split.
        + now apply js_well_typed.
        + constructor. exact Hw. }
    assert (Hq' : ~ In 63%N (uriPath ++ js "/rows")).
    { intros Hin. apply in_app_or in Hin. destruct Hin as [Hin|Hin]; [now apply Hq|].
      vm_compute in Hin. repeat (destruct Hin as [Hin|Hin]; [discriminate|]). exact Hin. }
    pose proof (upstream_config_appended (uriPath ++ js "/rows") cfg e Hsafe Hq' He) as Hu.
    assert (Hp : config_path (uriPath ++ js "/rows") (Some cfg)
                 = Some ((uriPath ++ js "/rows") ++ js "?" ++ js "CONFIG" ++ js "=" ++ e)).
    { unfold config_path, cfg. fold cfg. now rewrite He. }
    destruct (handleV2Request_cached_run server this (uriPath ++ js "/rows") (js "DELETE")
                (Some (Datatypes.length (store w))) header false wb hdr (Some cfg)
                _ Ht Hhb Hc Hp) as [rest Hr].
    exists ((uriPath ++ js "/rows") ++ js "?" ++ js "CONFIG" ++ js "=" ++ e).
    destruct (trace_bind_tail
                (handleV2Request server this (uriPath ++ js "/rows") (js "DELETE")
                   (Some (Datatypes.length (store w))) header false)
                (fun result => or_throw TypeError (get_prop result (js "deletedRows"))) wb)
      as (w1 & Hw1 & [Hx|(a & Ha & Hx)]).
    + exists rest. split; [|exact Hu]. rewrite Hx, <- Hw1. exact Hr.
    + exists rest. split; [|exact Hu]. rewrite Hx.
      assert (Hq2 : forall o : option jsval, forall w0,
                 trace (snd (or_throw TypeError o w0)) = trace w0)
        by (intros [x|] w0; reflexivity).
      rewrite Hq2, <- Hw1. exact Hr.
Qed.

Lemma deleteRow_criteria_witness :
  exists q r rest,
    trace (snd (ViewAPI.deleteRow (always view_reply) demo_credentials demo_path 0
                                  (Some []) None demo_world))
    = Exchange q r :: rest
    /\ url q = js "https://analyticsapi.zoho.com/restapi/v2/views/456/rows"
    /\ method q = js "DELETE".
Proof.
  destruct (proj1 (deleteRow_criteria (always view_reply) demo_credentials demo_path 0%nat
                     demo_world demo_header eq_refl eq_refl) (Some []) (or_intror eq_refl))
    as [rest H].
  eexists. eexists. exists rest. rewrite H. cbn [trace demo_world app].
  split; [reflexivity|]. split; reflexivity.
Defined.


Lemma keeps_same {A} header k v (m : M world A) :
  (forall w, store (snd (m w)) = store w) -> keeps header k v m.
Proof.
  intros H w res w' E. pose proof (H w) as Hw. rewrite E in Hw. cbn [snd] in Hw.
  now rewrite Hw.
Qed.

Lemma keeps_bind {A B} header k v (m : M world A) (f : A -> M world B) :
  keeps header k v m -> (forall a, keeps header k v (f a)) -> keeps header k v (bind m f).
Proof.
  intros Hm Hf w res w' E Hw. unfold bind in E. destruct (m w) as [r w1] eqn:Em.
  pose proof (Hm _ _ _ Em Hw) as H1.
  destruct r as [a|e|e|]; try (injection E as _ <-; exact H1).
  exact (Hf a _ _ _ E H1).
Qed.

Lemma keeps_set_prop header k v r k' v' :
  jstring_eqb k' k = false -> keeps header k v (set_prop r k' v').
Proof.
  intros Hk w res w' E (hdr & Hh & Hl). unfold set_prop in E.
  destruct (nth_error (store w) r) as [o|] eqn:Er.
  - injection E as _ <-. cbn [store].
    destruct (Nat.eq_dec r header) as [->|Hne].
    + rewrite Hh in Er. injection Er as <-.
      exists (obj_set k' v' hdr).
      split; [now apply nth_error_replace_nth_eq with (y := hdr)|].
      now rewrite lookup_obj_set_neq.
    + exists hdr. split; [|exact Hl]. now rewrite nth_error_replace_nth_neq.
  - injection E as _ <-. now exists hdr.
Qed.

Lemma keeps_alloc header k v o : keeps header k v (alloc o).
Proof.
  intros w res w' [= _ <-] (hdr & Hh & Hl). exists hdr. split; [|exact Hl].
  cbn [store]. rewrite nth_error_app1; [exact Hh|]. apply nth_error_Some. congruence.
Qed.

Lemma keeps_read_obj header k v r : keeps header k v (read_obj r).
Proof.
  apply keeps_same. intros w. unfold read_obj. now destruct (nth_error (store w) r).
Qed.

Lemma keeps_or_throw {A} header k v e (o : option A) :
  keeps header k v (@or_throw world A e o).
Proof. apply keeps_same. intros w. now destruct o. Qed.

Lemma keeps_await header k v p : keeps header k v (@await world p).
Proof. apply keeps_same. intros w. now destruct p. Qed.

Create HintDb keeps.
#[local] Hint Resolve keeps_alloc keeps_read_obj keeps_or_throw keeps_await : keeps.
#[local] Hint Extern 1 (keeps _ _ _ (set_prop _ _ _)) =>
  (apply keeps_set_prop; reflexivity) : keeps.
#[local] Hint Extern 2 (keeps _ _ _ _) =>
  (apply keeps_same; intros ?;
   repeat match goal with
          | |- context [match ?x with _ => _ end] => destruct x
          end; reflexivity) : keeps.

Ltac keeps :=
  repeat (first [ solve [auto with keeps]
                | apply keeps_bind; [|intros ?]
                | match goal with
                  | |- keeps _ _ _ (if ?b then _ else _) => destruct b
                  | |- keeps _ _ _ (match ?x with _ => _ end) => destruct x
                  end ]).

Section Keeps.
Variable server : upstream.
Variable this : credentials.
Variable header : nat.
Variable v : jsval.

Lemma keeps_getOauth : keeps header (js "ZANALYTICS-DEST-ORGID") v (getOauth server this).
Proof.
  apply keeps_same. intros w.
  destruct (getOauth server this w) as [res w1] eqn:E.
  destruct (getOauth_extends _ _ _ _ _ E) as (rest & _ & Hs). exact Hs.
Qed.

Lemma keeps_fetch_token :
  keeps header (js "ZANALYTICS-DEST-ORGID") v (fetch_token server this).
Proof.
  apply keeps_same. intros w.
  destruct (fetch_token server this w) as [res w1] eqn:E.
  destruct (fetch_token_extends _ _ _ _ _ E) as (rest & _ & Hs). exact Hs.
Qed.

Lemma keeps_ensure_token :
  keeps header (js "ZANALYTICS-DEST-ORGID") v (ensure_token server this).
Proof.
  unfold ensure_token. pose proof keeps_fetch_token. keeps.
Qed.

Lemma keeps_sendV2Request uriPath reqMethod config h isExportReq :
  keeps header (js "ZANALYTICS-DEST-ORGID") v
        (sendV2Request server uriPath reqMethod config h isExportReq).
Proof. unfold sendV2Request, stamp_headers, read_config. keeps. Qed.

Lemma keeps_handleV2Request uriPath method config h isExportReq :
  keeps header (js "ZANALYTICS-DEST-ORGID") v
        (handleV2Request server this uriPath method config h isExportReq).
Proof.
  unfold handleV2Request.
  pose proof keeps_ensure_token. pose proof keeps_fetch_token.
  pose proof (keeps_sendV2Request uriPath method config h isExportReq).
  keeps.
Qed.
End Keeps.

(** X22: [WorkspaceAPI.copy] with a destination organization writes
    [ZANALYTICS-DEST-ORGID] into [this.header] itself, not into a copy:
    the key is still there after the call, however it ends, and every
    request sent later with that header object carries it. *)
Theorem dest_org_header_stays :
  forall server this uriPath header workspaceName config destOrgId w hdr,
    nullish destOrgId = false ->
    nth_error (store w) header = Some hdr ->
    (forall c, config = Some c -> (c < Datatypes.length (store w))%nat) ->
    let w' := snd (WorkspaceAPI.copy server this uriPath header workspaceName config
                                     destOrgId w) in
    (exists hdr', nth_error (store w') header = Some hdr'
                  /\ lookup (js "ZANALYTICS-DEST-ORGID") hdr' = Some destOrgId)
    /\ forall uriPath2 method2 config2 isExportReq res w2 q r,
        sendV2Request server uriPath2 method2 config2 header isExportReq w' = (res, w2) ->
        trace w2 = trace w' ++ [Exchange q r] ->
        lookup (js "ZANALYTICS-DEST-ORGID") (headers q) = Some destOrgId.
Proof.
  intros server this uriPath header workspaceName config destOrgId w hdr Hd Hh Hc w'.
  assert (Hlt : (header < Datatypes.length (store w))%nat)
    by (apply nth_error_Some; congruence).
  assert (H1 : exists hdr', nth_error (store w') header = Some hdr'
                            /\ lookup (js "ZANALYTICS-DEST-ORGID") hdr' = Some destOrgId).
  { subst w'. unfold WorkspaceAPI.copy. rewrite Hd. cbn [negb].
    destruct (default_config config w) as [rc wa] eqn:Ea.
    assert (Ha : exists c, rc = Ok c /\ (c < Datatypes.length (store wa))%nat
                           /\ nth_error (store wa) header = Some hdr).
    { destruct config as [c|]; cbn in Ea; injection Ea as <- <-.
      - exists c. split; [reflexivity|]. split; [now apply Hc | exact Hh].
      - exists (Datatypes.length (store w)). split; [reflexivity|]. cbn [store].
        rewrite length_app. cbn. split; [lia|]. now rewrite nth_error_app1. }
    destruct Ha as (c & -> & Hcl & Hha).
    rewrite (bind_trace _ _ _ _ _ Ea).
    destruct (nth_error (store wa) c) as [cfg|] eqn:Ecfg;
      [|apply nth_error_None in Ecfg; lia].
    assert (Es : set_prop c (js "newWorkspaceName") workspaceName wa
                 = (Ok tt, mkWorld (accessToken wa)
                                   (replace_nth c (obj_set (js "newWorkspaceName")
                                                           workspaceName cfg) (store wa))
                                   (trace wa) (files wa)))
      by (unfold set_prop; now rewrite Ecfg).
    rewrite (bind_trace _ _ _ _ _ Es).
    set (wb := mkWorld _ _ _ _).
    assert (Hhb : exists hb, nth_error (store wb) header = Some hb).
    { unfold wb. cbn [store]. destruct (Nat.eq_dec c header) as [->|Hne].
      - eexists. now apply nth_error_replace_nth_eq with (y := cfg).
      - exists hdr. now rewrite nth_error_replace_nth_neq. }
    destruct Hhb as [hb Hhb].
    assert (Ed : set_prop header (js "ZANALYTICS-DEST-ORGID") destOrgId wb
                 = (Ok tt, mkWorld (accessToken wb)
                                   (replace_nth header
                                      (obj_set (js "ZANALYTICS-DEST-ORGID") destOrgId hb)
                                      (store wb))
                                   (trace wb) (files wb)))
      by (unfold set_prop; now rewrite Hhb).
    rewrite (bind_trace _ _ _ _ _ Ed).
    set (wc := mkWorld _ _ _ _).
    assert (Hwc : exists hc, nth_error (store wc) header = Some hc
                             /\ lookup (js "ZANALYTICS-DEST-ORGID") hc = Some destOrgId).
    { eexists. split.
      - unfold wc. cbn [store]. now apply nth_error_replace_nth_eq with (y := hb).
      - apply lookup_obj_set_eq. }
    destruct (handleV2Request server this uriPath (js "POST") (Some c) header false wc)
      as [r wd] eqn:Ehv.
    pose proof (keeps_handleV2Request server this header destOrgId uriPath (js "POST")
                  (Some c) header false wc r wd Ehv Hwc) as Hwd.
    unfold bind. rewrite Ehv.
    destruct r as [a|e|e|]; cbn [snd]; try exact Hwd.
    destruct (get_prop a (js "workspaceId")); exact Hwd. }
  split; [exact H1|].
  intros uriPath2 method2 config2 isExportReq res w2 q r Hs Ht.
  destruct H1 as (hdr' & Hh' & Hl').
  apply sendV2Request_inv in Hs.
  destruct Hs as [(e & _ & Ht' & _)|(hdr2 & cfg & path & Hh2 & _ & _ & _ & ->)].
  - rewrite Ht' in Ht. apply (f_equal (@Datatypes.length event)) in Ht.
    rewrite length_app in Ht. simpl in Ht. lia.
  - rewrite Hh' in Hh2. injection Hh2 as <-.
    cbn [trace sent] in Ht. apply app_inv_head in Ht. injection Ht as <- _.
    cbn [headers v2_request]. unfold stamp.
    now rewrite !lookup_obj_set_neq by reflexivity.
Qed.

Lemma dest_org_header_stays_witness :
  exists q r,
    trace (snd (sendV2Request (always view_reply) demo_path (js "DELETE") None 0 false
                  (snd (WorkspaceAPI.copy (always view_reply) demo_credentials
                          (js "/restapi/v2/workspaces/123") 0 (JStr (js "Copy"))
                          (Some 1%nat) (JStr (js "99")) demo_world))))
    = trace (snd (WorkspaceAPI.copy (always view_reply) demo_credentials
                    (js "/restapi/v2/workspaces/123") 0 (JStr (js "Copy"))
                    (Some 1%nat) (JStr (js "99")) demo_world))
        ++ [Exchange q r]
    /\ lookup (js "ZANALYTICS-DEST-ORGID") (headers q) = Some (JStr (js "99")).
Proof.
  destruct (dest_org_header_stays (always view_reply) demo_credentials
              (js "/restapi/v2/workspaces/123") 0%nat (JStr (js "Copy")) (Some 1%nat)
              (JStr (js "99")) demo_world demo_header eq_refl eq_refl) as [_ H].
  - intros c [= <-]. cbn. lia.
  - eexists. eexists. split.
    + vm_compute. reflexivity.
    + refine (H demo_path (js "DELETE") None false _ _ _ _ _ _).
      * apply surjective_pairing.
      * vm_compute. reflexivity.
Defined.

(** X23: [getSharedWorkspaces] does not pass its [config] on: whatever
    the caller gives, the request is a GET on the path of the shared
    workspaces with no [CONFIG] parameter, with a header made for the
    call; and the caller's object is as it was. *)
Theorem getSharedWorkspaces_ignores_config :
  forall server this config w,
    nullish (accessToken w) = false ->
    let q := mkRequest (js "https://analyticsapi.zoho.com/restapi/v2/workspaces/shared")
                       (js "GET") (stamp (accessToken w) []) NoBody in
    let w' := snd (getSharedWorkspaces server this config w) in
    (exists rest, trace w' = trace w ++ Exchange q (server (trace w) q) :: rest)
    /\ forall c, (c < Datatypes.length (store w))%nat ->
                 nth_error (store w') c = nth_error (store w) c.
Proof.
  intros server this config w Ht q w'.
  destruct (default_config config w) as [rc wa] eqn:Ea.
  assert (Ha : exists c, rc = Ok c /\ accessToken wa = accessToken w
                         /\ trace wa = trace w
                         /\ (Datatypes.length (store w) <= Datatypes.length (store wa))%nat
                         /\ forall i, (i < Datatypes.length (store w))%nat ->
                                      nth_error (store wa) i = nth_error (store w) i).
  { destruct config as [c|]; cbn in Ea; injection Ea as <- <-.
    - exists c. repeat split; auto.
    - eexists. split; [reflexivity|]. cbn [store accessToken trace].
      rewrite length_app. repeat split; try lia. intros i Hi. now apply nth_error_app1. }
  destruct Ha as (c & -> & Hta & Htr & Hlen & Hst).
  set (h := Datatypes.length (store wa)).
  set (wb := mkWorld (accessToken wa) (store wa ++ [[]]) (trace wa) (files wa)).
  assert (Hrun : getSharedWorkspaces server this config w
                 = (result <- handleV2Request server this
                                (js "/restapi/v2/workspaces/shared") (js "GET") None h false ;;
                    or_throw TypeError (get_prop result (js "workspaces"))) wb).
  { unfold getSharedWorkspaces. rewrite (bind_Ok _ _ _ _ _ Ea). reflexivity. }
  assert (Hhb : nth_error (store wb) h = Some []).
  { unfold wb, h. cbn [store]. rewrite nth_error_app2 by lia. now rewrite Nat.sub_diag. }
  assert (Htb : nullish (accessToken wb) = false) by (cbn; now rewrite Hta).
  destruct (handleV2Request_cached_run server this (js "/restapi/v2/workspaces/shared")
              (js "GET") None h false wb [] None _ Htb Hhb eq_refl eq_refl) as [rest Hr].
  destruct (handleV2Request server this (js "/restapi/v2/workspaces/shared") (js "GET")
              None h false wb) as [r wd] eqn:Ehv.
  cbn [snd] in Hr.
  assert (Hw' : store w' = store wd /\ trace w' = trace wd).
  { subst w'. rewrite Hrun. unfold bind. rewrite Ehv.
    destruct r as [a|e|e|]; cbn [snd]; try (split; reflexivity).
    destruct (get_prop a (js "workspaces")); split; reflexivity. }
  destruct Hw' as [Hs' Ht'].
  split.
  - exists rest. rewrite Ht', Hr. cbn [trace wb accessToken]. rewrite Htr, Hta.
    reflexivity.
  - intros i Hi. rewrite Hs'.
    rewrite (framed_handleV2Request server this _ _ None h false wb r wd Ehv i)
      by (unfold h; lia).
    unfold wb. cbn [store]. rewrite nth_error_app1 by lia. now apply Hst.
Qed.

Lemma getSharedWorkspaces_ignores_config_witness :
  exists q r rest,
    trace (snd (getSharedWorkspaces (always view_reply) demo_credentials (Some 1%nat)
                                    demo_world))
    = Exchange q r :: rest
    /\ url q = js "https://analyticsapi.zoho.com/restapi/v2/workspaces/shared".
Proof.
  destruct (getSharedWorkspaces_ignores_config (always view_reply) demo_credentials
              (Some 1%nat) demo_world eq_refl) as [[rest H] _].
  eexists. eexists. exists rest. rewrite H. split; reflexivity.
Defined.
